(* ===== verification/_CoqProject ===== *)
-Q . S2P
Prelude.v
Paras.v
Config.v
Aout.v
Layout.v
Farmem.v
Printk.v
Kernel.v
Alloc.v
Files.v
Reloc.v
Finalize.v
Os2.v
Exec.v
