(* ===== verification/Prelude.v ===== *)
(** * A verification library for the ELKS process-image loader

    The program.  [src/elks/fs/exec.c] is the [execve] system call of ELKS,
    a kernel for the segmented 16-bit 8086.  [sys_execve] reads a Minix a.out
    header, plans the data segment (data, bss, heap, stack, argument block)
    with overflow-checked 16-bit arithmetic, allocates a code and a data
    segment, reads their contents, applies the relocations of the medium
    memory model ([relocate]), and then commits: the end of [sys_execve]
    wipes the bss and copies the argument block, and [finalize_exec] swaps
    the segments of the calling task, rebases argv and envp, resets the
    signals, closes the close-on-exec descriptors and applies set-uid and
    set-gid.  [execve_os2] does the same for OS/2 NE executables, which
    [sys_execve] hands to it when the file starts with a DOS header.
    [src/elks/kernel/printk.c] is the console formatter the loader reports
    through ([con_write], [numout], [printk]).

    The library, file by file (each file opens with its own summary):

    - [Prelude] (this file): machine integers as [Z] with the wrap-around
      written out ([u8], [u16], [u32], [s16]), the [result] type of a
      computation that may leave through an error label with the value
      [retval] holds there, its [let*] notation (scope [exec_scope]) and
      weakest preconditions [wp], the little-endian byte lemmas, induction
      on the length of a list, the tactics [zlia], [words], [case_if],
      [conjs], and the hint database [exec].
    - [Paras]: the two arithmetic macros at the top of exec.c,
      [add_overflow] and [bytes_to_paras] (lines 52-67), each in its GNU C
      form and in its portable form, and the proof that the two forms
      agree.
    - [Config]: the build options ([CONFIG_EXEC_MMODEL],
      [CONFIG_EXEC_LOW_STACK], [CONFIG_EXEC_COMPRESS], [CONFIG_EXEC_OS2],
      [CONFIG_DCON_ANSI_PRINTK]), the defaults [INIT_HEAP], [INIT_STACK]
      and the table sizes [NSIG], [NR_OPEN] as the class [BuildConfig]:
      a definition in its context is the source under every combination
      of [#ifdef]s, and its theorems hold for every build.
    - [Aout]: the header, the supplementary header and the relocation
      record of linuxmt/minix.h as records, with their byte layout
      ([decode_mh], [decode_esuph], [decode_reloc]), encoders and round
      trips.
    - [Layout]: the layout planner, lines 408-542 of [sys_execve]:
      [exec_min_len], [exec_suph_check], the two sizing policies
      [exec_len_v1] and [exec_len_v0], the rounding [exec_round], their
      composition [exec_layout], and the contract [planned] on unbounded
      integers.
    - [Farmem]: real-mode memory as a finite map from linear addresses to
      bytes, with the primitives of arch/segment.h ([peekb], [pokeb],
      [peekw], [pokew], [fmemsetb], [fmemcpyb]) and the equivalence
      [mem_equiv] under which they are [Proper].
    - [Printk]: kernel/printk.c: the console as the list of characters
      given to the driver, [con_write] (lines 38-72), [numout] (81-106),
      [printk] (108-170) on a format given as its characters and arguments
      read from memory, [panic] (172-190) with its walk over eight frames
      of the kernel stack, [kernel_restarted] (192-195) and
      [redirect_main] (197-201).
    - [Kernel]: the state exec works on: segment descriptors with
      reference counts, inodes, open files, the task structure and the
      kernel as records with setters, the collaborators exec calls
      ([seg_get], [seg_put], [iput], [file_read], [sys_close],
      [get_ustack], [put_ustack]), and [arch_setup_user_stack] as the
      class [EntryTransfer] with its i86 instance.
    - [Alloc]: [seg_alloc] as the class [SegAllocator] (a fresh
      descriptor of the size asked for, in memory, apart from every live
      segment, or NULL) and an allocator that meets it.
    - [Files]: the backing store as exec uses it: names ([NameSpace],
      [open_namei]), the file table ([open_filp], [close_filp]), reads
      into the kernel and into the segment in [ds], the moves of
      [f_pos]; and the [flow] of a system call written with [goto]s.
    - [Reloc]: [relocate], lines 77-126: the value of a record
      [reloc_val], the loop body [relocate_body], the loop [relocate_loop]
      by well-founded recursion on [rsize], and [relocate] with the size
      check, the save and restore of [ds] and the [error] label; the
      contract is [apply_relocs].
    - [Finalize]: the commit: [exec_commit] (lines 664-682) and
      [finalize_exec] (715-787) with its loops [fixup_loop],
      [signal_loop] and [close_loop].
    - [Os2]: [execve_os2], lines 129-343: the headers, the segment
      table, the loop that sizes, allocates and clears the segments, the
      loop that reads them and applies their fixups, the commit and the
      labels [errout2], [errout], [normal_out]; the static table
      [seg_mem] is the field [k_seg_mem] of the kernel.
    - [Exec]: [sys_execve], lines 345-713, stage by stage ([exec_open],
      [exec_header], [exec_find_copy], [exec_plan], [exec_load_code],
      [exec_reuse_code], [exec_load_data], [exec_relocs], [exec_finish])
      with the labels [error_exec5] ... [error_exec1] and [normal_out],
      and their composition; the state of an exec in flight
      ([in_flight]) and what a failure undoes ([rollback]).

    What the theorems show.  For the planner: it returns exactly the
    layouts of the contract; the length is a multiple of 16, fits 16 bits,
    is at least data + bss, and is the exact sum of its parts rounded up,
    so no wrapped value is ever accepted; each failure returns an errno of
    the source.  For [relocate]: on a stream of accepted records it is the
    fold of the patches; a record of symbol [S_DATA] leaves the base of the
    data segment at its offset whatever was there; a stream whose length is
    not a multiple of the record size is refused before any read; on every
    input the result is 0, -EINVAL or -EIO, [ds] is restored and nothing
    outside the 64 KiB of the patched segment is written.  For the commit:
    on an argument block the fix-up loop ends, rebases every pointer and
    writes nothing else.  For [sys_execve] as a whole, on every program but
    an OS/2 one: a call that fails returns a negative value and leaves the
    kernel as it was but for memory (the segments it took are given back,
    the file is closed, the inode released); a call that returns 0 has
    committed the layout planned from the header of the file, and, when
    a task of the table runs the program, has taken the code segment of
    that task with one reference more and allocated the data segment
    only.  For
    [execve_os2]: when the table [seg_mem] is empty at the call, a call
    that fails has given back every segment it allocated and leaves the
    kernel as it was but for memory and the console; a call that returns
    0 has allocated one segment for each entry of the segment table and
    leaves the task on the segments the header names, with the limits
    the code computes; the size accepted
    for the automatic data segment covers its parts when the 16-bit sums
    do not wrap; a fixup writes the base of the segment it names where
    the design says.  For the two together: [sys_execve] on an OS/2
    program is atomic in the same sense.  For printk.c: [numout] prints
    digits that read back as the number; [printk] returns exactly on the
    formats it can parse, only appends to the console, and keeps the
    colour in range; [panic] reaches its last loop whatever the stack
    holds.  For the formats: the portable and the GNU C forms of the
    macros agree; what is decoded is well typed, and decoding inverts
    encoding.  Eight theorems record what the code does against what it
    means to do: the entry message of [finalize_exec] and the
    diagnostics of [execve_os2] use field widths [printk] does not have;
    [%d] never prints a sign; [redirect_main] and exec.c disagree on the
    argument order of [pokeb]; [relocate] does not check a record's offset
    against the segment's size; a failing [execve_os2] releases the
    segments a previous one left in [seg_mem]; [execve_os2] takes the end
    of the data segment from the last segment of the table; its sum of
    stack and arguments wraps unchecked.

    Integers.  [size_t], [seg_t], [word_t] and [segext_t] are 16-bit
    unsigned, [int] is 16-bit signed, [unsigned long] and the header's size
    fields are 32-bit.  A value of such a type is a [Z] in range; a cast or
    a store into a narrower variable is [u16], [u8] or [s16] applied where
    the source narrows.  The position of a file is an unbounded integer.

    Bounds and fuel.  [relocate_loop], the loops over signals and
    descriptors, the loops of [execve_os2] over the segments and their
    fixups and the frame walk of [panic] are total.  The digit loop of [numout] has the 15 bytes of
    its buffer as fuel, which is the bound of the source; 32-bit numbers
    need at most 11.  A string conversion of [printk] has the 65536 values
    of a pointer as fuel: a string that has not ended by then never ends,
    and the model answers [Hangs].  The loop over argv and envp has the
    32768 words of a segment as fuel and answers [None] when one sweep
    of the segment does not find two null words; an argument block always
    ends within its own length.

    The examples run the models on concrete kernels by evaluation:
    [Kernel.kernel0] with a program of the a.out format ([Exec.prog_exec])
    and one of the NE format ([Os2.ne_prog_exec]), with the allocator
    [Alloc.bump_alloc]; in [Exec.kernel2] a second process execs the
    program the first one runs ([Exec.shared_exec], [Exec.shared_counts]).

    Not modelled: the scheduler (the other tasks are data [sys_execve]
    reads), and what a call that does not return does afterwards: the
    model of [panic] ends at its last loop, and a system call that
    reaches [panic] or whose loop over argv and envp leaves the segment
    has no result.  Outside the two sources and modelled from their
    contract: the far-memory primitives, reads of a file, the file
    table, the reference counts of segments and inodes, [sys_close],
    [seg_alloc], [arch_setup_user_stack], and the structures of
    linuxmt/minix.h and linuxmt/os2.h.  The name lookup of [open_namei]
    and the decompressor ([decompress]) are parameters (classes without
    laws). *)

From Stdlib Require Import ZArith Lia List Bool.
From stdpp Require Import base decidable option list.
From Hammer Require Import Tactics.

Local Open Scope Z_scope.

(** ** Results of fallible kernel code *)

(** A C function that leaves through a [goto error] label is modelled by
    [Fail retval], with the value the variable [retval] holds at the jump;
    falling through is [Ok]. *)
Inductive result (A : Type) : Type :=
| Ok (a : A)
| Fail (retval : Z).
Arguments Ok {A} a.
Arguments Fail {A} retval.

Definition bind {A B : Type} (r : result A) (k : A -> result B) : result B :=
  match r with
  | Ok a => k a
  | Fail e => Fail e
  end.

Definition is_ok {A : Type} (r : result A) : bool :=
  match r with Ok _ => true | Fail _ => false end.

Declare Scope exec_scope.
Delimit Scope exec_scope with exec.
Notation "'let*' x := e 'in' k" := (bind e (fun x => k))
  (at level 10, x name, e at level 100, k at level 200) : exec_scope.
Notation "'let*' ' p := e 'in' k" := (bind e (fun p => k))
  (at level 10, p pattern, e at level 100, k at level 200) : exec_scope.

(** ** A weakest-precondition reading of results *)

(** [wp r P Q]: if [r] returns [a] then [P a], if it fails with [e] then
    [Q e]. *)
Definition wp {A : Type} (r : result A) (P : A -> Prop) (Q : Z -> Prop) : Prop :=
  match r with
  | Ok a => P a
  | Fail e => Q e
  end.

Lemma wp_bind {A B : Type} (r : result A) (k : A -> result B) P Q :
  wp r (fun a => wp (k a) P Q) Q -> wp (bind r k) P Q.
Proof. destruct r; exact id. Qed.

Lemma wp_mono {A : Type} (r : result A) (P P' : A -> Prop) (Q Q' : Z -> Prop) :
  wp r P Q -> (forall a, P a -> P' a) -> (forall e, Q e -> Q' e) -> wp r P' Q'.
Proof. destruct r; cbn; auto. Qed.

Lemma wp_ok_inv {A : Type} (r : result A) P Q a : wp r P Q -> r = Ok a -> P a.
Proof. now intros Hw ->. Qed.

Lemma wp_fail_inv {A : Type} (r : result A) P Q e : wp r P Q -> r = Fail e -> Q e.
Proof. now intros Hw ->. Qed.

Lemma wp_intro {A : Type} (r : result A) (P : A -> Prop) (Q : Z -> Prop) :
  (forall a, r = Ok a -> P a) -> (forall e, r = Fail e -> Q e) -> wp r P Q.
Proof. destruct r; cbn; auto. Qed.

Lemma bind_ok_inv {A B : Type} (r : result A) (k : A -> result B) b :
  bind r k = Ok b -> exists a, r = Ok a /\ k a = Ok b.
Proof. destruct r; [eauto | discriminate]. Qed.

Lemma bind_fail_inv {A B : Type} (r : result A) (k : A -> result B) e :
  bind r k = Fail e -> r = Fail e \/ exists a, r = Ok a /\ k a = Fail e.
Proof. destruct r; [eauto | intros [= <-]; auto]. Qed.

(** ** errno values (linuxmt/errno.h) *)

Definition EIO : Z := 5.
Definition E2BIG : Z := 7.
Definition ENOEXEC : Z := 8.
Definition ENOMEM : Z := 12.
Definition EINVAL : Z := 22.
Definition EFBIG : Z := 27.

(** ** Machine integers *)

Definition u8 (z : Z) : Z := z mod 256.
Definition u16 (z : Z) : Z := z mod 65536.
Definition u32 (z : Z) : Z := z mod 4294967296.

(** The value of a 16-bit pattern read as [int]. *)
Definition s16 (z : Z) : Z :=
  if u16 z <? 32768 then u16 z else u16 z - 65536.

Definition fits8 (z : Z) : Prop := 0 <= z < 256.
Definition fits16 (z : Z) : Prop := 0 <= z < 65536.
Definition fits32 (z : Z) : Prop := 0 <= z < 4294967296.

#[export] Instance fits8_dec z : Decision (fits8 z).
Proof. unfold fits8. apply _. Defined.
#[export] Instance fits16_dec z : Decision (fits16 z).
Proof. unfold fits16. apply _. Defined.
#[export] Instance fits32_dec z : Decision (fits32 z).
Proof. unfold fits32. apply _. Defined.

(** ** Tactics *)

(** Linear arithmetic with division and modulo by constants. *)
Ltac zlia := Z.div_mod_to_equations; lia.

(** Goals about wrapped integers: unfold the wraps, then [zlia]. *)
Ltac words :=
  unfold u8, u16, u32, s16, fits8, fits16, fits32 in *; zlia.

(** Case analysis on the first boolean test of the goal, as a proposition. *)
Ltac case_if :=
  match goal with
  | |- context [if ?a <? ?b then _ else _] => destruct (Z.ltb_spec a b)
  | |- context [if ?a <=? ?b then _ else _] => destruct (Z.leb_spec a b)
  | |- context [if ?a =? ?b then _ else _] => destruct (Z.eqb_spec a b)
  | |- context [if negb (?a =? ?b) then _ else _] =>
      destruct (Z.eqb_spec a b); cbn [negb]
  | |- context [if ?b then _ else _] => destruct b eqn:?
  end.

(** Split the conjunctions of the goal, and only those that are written
    as such (a folded range predicate is left for its lemma). *)
Ltac conjs :=
  repeat match goal with |- _ /\ _ => split end.

(** A [wp] goal at a return or a failure is its postcondition. *)
Ltac wp_leaf :=
  lazymatch goal with
  | |- wp (Ok _) _ _ => cbn [wp]
  | |- wp (Fail _) _ _ => cbn [wp]
  end.

(** One step of a [wp] goal: through a bind, a return, a failure or a test. *)
Ltac wp_step :=
  lazymatch goal with
  | |- wp (bind _ _) _ _ => apply wp_bind
  | |- wp (Ok _) _ _ => cbn [wp]
  | |- wp (Fail _) _ _ => cbn [wp]
  | |- wp (if _ then _ else _) _ _ => case_if; try wp_leaf
  | |- wp (let '(_, _) := ?p in _) _ _ => destruct p eqn:?
  end.

(** A closed decidable proposition, by evaluation of its decision. *)
Ltac decide_closed := apply (bool_decide_unpack _); vm_compute; exact I.

(** Invert an equation between results. *)
Ltac inv_result :=
  repeat match goal with
    | H : Ok _ = Ok _ |- _ => injection H as H; subst
    | H : Fail _ = Fail _ |- _ => injection H as H; subst
    | H : Ok _ = Fail _ |- _ => discriminate H
    | H : Fail _ = Ok _ |- _ => discriminate H
    end.

(** ** Lemmas on wraps *)

Create HintDb exec discriminated.
Create Rewrite HintDb exec.

Lemma u8_range z : fits8 (u8 z).
Proof. words. Qed.

Lemma u16_range z : fits16 (u16 z).
Proof. words. Qed.

Lemma u32_range z : fits32 (u32 z).
Proof. words. Qed.

Lemma u8_small z : fits8 z -> u8 z = z.
Proof. words. Qed.

Lemma u16_small z : fits16 z -> u16 z = z.
Proof. words. Qed.

Lemma u32_small z : fits32 z -> u32 z = z.
Proof. words. Qed.

Lemma u16_idem z : u16 (u16 z) = u16 z.
Proof. words. Qed.

Lemma u8_idem z : u8 (u8 z) = u8 z.
Proof. words. Qed.

Lemma u16_u32 z : u16 (u32 z) = u16 z.
Proof. words. Qed.

Lemma u16_add_l a b : u16 (u16 a + b) = u16 (a + b).
Proof. words. Qed.

Lemma u16_add_r a b : u16 (a + u16 b) = u16 (a + b).
Proof. words. Qed.

Lemma fits16_fits32 z : fits16 z -> fits32 z.
Proof. words. Qed.

Lemma fits8_fits16 z : fits8 z -> fits16 z.
Proof. words. Qed.

Lemma s16_small z : 0 <= z < 32768 -> s16 z = z.
Proof. intros. unfold s16. case_if; words. Qed.

#[export] Hint Resolve u8_range u16_range u32_range fits16_fits32 fits8_fits16 : exec.
#[export] Hint Rewrite u16_idem u8_idem u16_u32 u16_add_l u16_add_r : exec.
#[export] Hint Rewrite u8_small u16_small u32_small using (solve [auto with exec | words]) : exec.

(** ** Masks *)

(** [x & ~15] on a 16-bit value clears the low four bits. *)
Lemma land_not15 z : fits16 z -> Z.land z 65520 = 16 * (z / 16).
Proof.
  intros Hz.
  change 65520 with (Z.land (Z.ones 16) (Z.lnot (Z.ones 4))).
  rewrite Z.land_assoc, Z.land_ones, (Z.mod_small z) by words.
  change (Z.land z (Z.lnot (Z.ones 4))) with (Z.ldiff z (Z.ones 4)).
  rewrite Z.ldiff_ones_r, Z.shiftl_mul_pow2, Z.shiftr_div_pow2 by lia.
  change (2 ^ 4) with 16. lia.
Qed.

(** [x & ~1] clears the low bit. *)
Lemma land_not1 z : fits16 z -> Z.land z 65534 = 2 * (z / 2).
Proof.
  intros Hz.
  change 65534 with (Z.land (Z.ones 16) (Z.lnot (Z.ones 1))).
  rewrite Z.land_assoc, Z.land_ones, (Z.mod_small z) by words.
  change (Z.land z (Z.lnot (Z.ones 1))) with (Z.ldiff z (Z.ones 1)).
  rewrite Z.ldiff_ones_r, Z.shiftl_mul_pow2, Z.shiftr_div_pow2 by lia.
  change (2 ^ 1) with 2. lia.
Qed.

(** [x & 15] and [x & 1] are remainders. *)
Lemma land_15 z : Z.land z 15 = z mod 16.
Proof. change 15 with (Z.ones 4). now rewrite Z.land_ones by lia. Qed.

Lemma land_1 z : Z.land z 1 = z mod 2.
Proof. change 1 with (Z.ones 1) at 1. now rewrite Z.land_ones by lia. Qed.

(** Setting bit 15 of a 15-bit value adds 32768. *)
Lemma lor_bit15 z : 0 <= z < 32768 -> Z.lor 32768 z = 32768 + z.
Proof.
  intros Hz.
  assert (Z.land 32768 z = 0) as Hdisj.
  { apply Z.bits_inj'; intros n Hn.
    rewrite Z.land_spec, Z.bits_0. change 32768 with (2 ^ 15).
    rewrite Z.pow2_bits_eqb by lia.
    destruct (Z.eqb_spec 15 n) as [<-|]; [cbn [andb]|reflexivity].
    apply Z.testbit_false; [lia|]. rewrite Z.div_small; [reflexivity|lia]. }
  now rewrite <- Z.lxor_lor, <- Z.add_nocarry_lxor.
Qed.

(** ** Little-endian byte sequences *)

Fixpoint le_combine (bs : list Z) : Z :=
  match bs with
  | [] => 0
  | b :: bs' => u8 b + 256 * le_combine bs'
  end.

Fixpoint le_split (n : nat) (z : Z) : list Z :=
  match n with
  | O => []
  | S n' => u8 z :: le_split n' (z / 256)
  end.

Lemma le_split_length n z : length (le_split n z) = n.
Proof. revert z; induction n; intros; cbn; auto. Qed.

Lemma le_combine_range bs : 0 <= le_combine bs < 256 ^ Z.of_nat (length bs).
Proof.
  induction bs as [|b bs IH]; [cbn; lia|].
  cbn [le_combine length]. rewrite Nat2Z.inj_succ, Z.pow_succ_r by lia.
  pose proof (u8_range b). unfold fits8 in *. lia.
Qed.

Lemma le_combine_split n z : le_combine (le_split n z) = z mod 256 ^ Z.of_nat n.
Proof.
  revert z; induction n as [|n IH]; intros z.
  - cbn. now rewrite Z.mod_1_r.
  - cbn [le_split le_combine]. rewrite IH, Nat2Z.inj_succ, Z.pow_succ_r by lia.
    assert (0 < 256 ^ Z.of_nat n) by (apply Z.pow_pos_nonneg; lia).
    rewrite Z.rem_mul_r by lia. unfold u8. rewrite Z.mod_mod by lia. lia.
Qed.

Lemma le_split_combine bs :
  Forall fits8 bs -> le_split (length bs) (le_combine bs) = bs.
Proof.
  induction 1 as [|b bs Hb _ IH]; [reflexivity|].
  cbn [length le_split le_combine]. rewrite (u8_small b) by assumption.
  f_equal.
  - unfold u8, fits8 in *. zlia.
  - replace ((b + 256 * le_combine bs) / 256) with (le_combine bs)
      by (unfold fits8 in *; zlia).
    exact IH.
Qed.

Lemma le_combine_2 a b : fits8 a -> fits8 b -> fits16 (le_combine [a; b]).
Proof. cbn. words. Qed.

Lemma le_split_fits8 n z : Forall fits8 (le_split n z).
Proof.
  revert z; induction n; intros; cbn; constructor; auto using u8_range.
Qed.

#[export] Hint Resolve le_split_fits8 le_combine_2 : exec.
#[export] Hint Rewrite le_split_length : exec.

(** ** Induction on the length of a list *)

Lemma list_length_ind {A} (P : list A -> Prop) :
  (forall l, (forall l', (length l' < length l)%nat -> P l') -> P l) ->
  forall l, P l.
Proof.
  intros Hstep l. remember (length l) as n eqn:Hn.
  revert l Hn. induction n as [n IH] using lt_wf_ind. intros l ->.
  apply Hstep. intros l' Hl'. now apply (IH (length l')).
Qed.
