(* ===== verification/Paras.v ===== *)
(** * Paras: the arithmetic macros of exec.c

    exec.c defines [add_overflow] and [bytes_to_paras] twice (lines 52-67):
    for GNU C as [__builtin_add_overflow] and a two-instruction assembly
    sequence, and for other compilers as plain C expressions.  Both forms
    are modelled here on [Z] with the 16-bit wraps written out, the
    instructions [addw] and [rcrw] included, and proved to agree with each
    other and with their mathematical meaning: the exact sum with an
    overflow flag, and the ceiling of bytes/16. *)

From Stdlib Require Import ZArith Lia List Bool.
From stdpp Require Import base decidable option list.
From S2P Require Import Prelude.

Local Open Scope Z_scope.

(** ** add_overflow *)

(** [__builtin_add_overflow(a, b, &res)] with [res] a [size_t]: the sum is
    taken in unbounded precision, stored wrapped to 16 bits, and the call
    returns whether it did not fit. *)
Definition add_overflow (a b : Z) : Z * bool :=
  (u16 (a + b), negb (bool_decide (fits16 (a + b)))).

(** The portable macro: [( *res = a + b, *res < b )] in 16-bit unsigned
    arithmetic. *)
Definition add_overflow_nongnu (a b : Z) : Z * bool :=
  let res := u16 (u16 a + u16 b) in
  (res, res <? u16 b).

(** ** bytes_to_paras *)

(** [addw $imm, w]: 16-bit add, carry out in CF. *)
Definition addw (imm w : Z) : Z * bool :=
  (u16 (w + imm), 65536 <=? w + imm).

(** [rcrw w]: rotate right by one through carry: CF enters at bit 15, bit 0
    leaves into CF. *)
Definition rcrw (w : Z) (cf : bool) : Z * bool :=
  (Z.lor (if cf then 32768 else 0) (Z.shiftr w 1), Z.odd w).

(** The GNU C form: [addw $15; rcrw] and then [__w >> 3]. *)
Definition bytes_to_paras (bytes : Z) : Z :=
  let '(w, cf) := addw 15 bytes in
  let '(w, _) := rcrw w cf in
  Z.shiftr w 3.

(** The portable form: [(segext_t)(((unsigned long)bytes + 15) >> 4)]. *)
Definition bytes_to_paras_nongnu (bytes : Z) : Z :=
  u16 (Z.shiftr (u32 (bytes + 15)) 4).

(** What a 16-bit [(bytes + 15) >> 4] would give: the macro exists because
    this wraps for the last 15 sizes. *)
Definition bytes_to_paras_wrapping (bytes : Z) : Z :=
  Z.shiftr (u16 (bytes + 15)) 4.

(** ** add_overflow: lemmas *)

Section AddOverflow.
Context (a b : Z) (Ha : fits16 a) (Hb : fits16 b).

Lemma add_overflow_flag : snd (add_overflow a b) = (65536 <=? a + b).
Proof using Ha Hb.
  unfold add_overflow; cbn [snd]. case_bool_decide; words.
Qed.

Lemma add_overflow_ok r : add_overflow a b = (r, false) -> r = a + b /\ fits16 r.
Proof using Ha Hb.
  unfold add_overflow. intros [= <- H].
  apply negb_false_iff, bool_decide_eq_true in H.
  rewrite u16_small; auto.
Qed.

Lemma add_overflow_overflows r : add_overflow a b = (r, true) -> 65536 <= a + b.
Proof using Ha Hb.
  unfold add_overflow. intros [= _ H].
  apply negb_true_iff, bool_decide_eq_false in H. words.
Qed.

Lemma add_overflow_fits r o : add_overflow a b = (r, o) -> fits16 r.
Proof using Type. unfold add_overflow. intros [= <- _]. apply u16_range. Qed.

Lemma add_overflow_nongnu_equiv : add_overflow_nongnu a b = add_overflow a b.
Proof using Ha Hb.
  unfold add_overflow_nongnu, add_overflow.
  rewrite (u16_small a), (u16_small b) by assumption.
  f_equal. case_bool_decide; words.
Qed.

End AddOverflow.

(** ** bytes_to_paras: lemmas *)

Lemma rcrw_value w cf :
  fits16 w -> fst (rcrw w cf) = (if cf then 32768 else 0) + w / 2.
Proof.
  intros Hw. unfold rcrw; cbn [fst].
  rewrite Z.shiftr_div_pow2 by lia. change (2 ^ 1) with 2.
  destruct cf; [|now rewrite Z.lor_0_l].
  apply lor_bit15. words.
Qed.

Section BytesToParas.
Context (bytes : Z) (Hbytes : fits16 bytes).

Lemma bytes_to_paras_ceil : bytes_to_paras bytes = (bytes + 15) / 16.
Proof using Hbytes.
  unfold bytes_to_paras, addw.
  pose proof (rcrw_value (u16 (bytes + 15)) (65536 <=? bytes + 15)
                (u16_range _)) as Hr.
  destruct (rcrw _ _) as [w c]; cbn [fst] in Hr; subst w.
  rewrite Z.shiftr_div_pow2 by lia. change (2 ^ 3) with 8.
  case_if; words.
Qed.

Lemma bytes_to_paras_nongnu_equiv :
  bytes_to_paras_nongnu bytes = bytes_to_paras bytes.
Proof using Hbytes.
  rewrite bytes_to_paras_ceil. unfold bytes_to_paras_nongnu.
  rewrite Z.shiftr_div_pow2 by lia. change (2 ^ 4) with 16. words.
Qed.

Lemma bytes_to_paras_bounds :
  0 <= bytes_to_paras bytes <= 4096 /\
  bytes <= 16 * bytes_to_paras bytes < bytes + 16.
Proof using Hbytes. rewrite bytes_to_paras_ceil. words. Qed.

Lemma bytes_to_paras_fits : fits16 (bytes_to_paras bytes).
Proof using Hbytes. pose proof bytes_to_paras_bounds. words. Qed.

Lemma bytes_to_paras_wrapping_differs :
  bytes_to_paras_wrapping bytes <> bytes_to_paras bytes <-> 65520 < bytes.
Proof using Hbytes.
  rewrite bytes_to_paras_ceil. unfold bytes_to_paras_wrapping.
  rewrite Z.shiftr_div_pow2 by lia. change (2 ^ 4) with 16. words.
Qed.

End BytesToParas.

#[export] Hint Resolve bytes_to_paras_fits add_overflow_fits : exec.
#[export] Hint Rewrite bytes_to_paras_ceil using (solve [auto with exec | words]) : exec.

(** ** Properties *)

(** C19.  The two forms of each macro agree: on 16-bit operands the
    portable [add_overflow] and [bytes_to_paras] give what the GNU C
    builtin and the assembly sequence give, and [bytes_to_paras] is
    bytes/16 rounded up, for every size up to 65535 (where the sum
    bytes + 15 does not fit 16 bits and the carry is rotated in). *)
Theorem macro_forms_agree a b bytes :
  fits16 a -> fits16 b -> fits16 bytes ->
  add_overflow_nongnu a b = add_overflow a b /\
  bytes_to_paras_nongnu bytes = bytes_to_paras bytes /\
  bytes_to_paras bytes = (bytes + 15) / 16.
Proof.
  intros Ha Hb Hbytes. split; [now apply add_overflow_nongnu_equiv|].
  split; [now apply bytes_to_paras_nongnu_equiv | now apply bytes_to_paras_ceil].
Qed.

Lemma macro_forms_agree_witness :
  add_overflow_nongnu 65535 1 = add_overflow 65535 1 /\
  bytes_to_paras_nongnu 65521 = bytes_to_paras 65521 /\
  bytes_to_paras 65521 = (65521 + 15) / 16.
Proof. apply macro_forms_agree; unfold fits16; lia. Defined.
