(* ===== verification/Config.v ===== *)
(** * Config: the build options exec.c is compiled under

    exec.c is one source for many kernels: [CONFIG_EXEC_MMODEL] adds the
    supplementary header, far text and relocations, [CONFIG_EXEC_LOW_STACK]
    lets a program ask for its stack below its data,
    [CONFIG_EXEC_COMPRESS] adds compressed segments, [CONFIG_EXEC_OS2] the
    OS/2 loader; printk.c colours its output under
    [CONFIG_DCON_ANSI_PRINTK].  [NSIG] and [NR_OPEN] are the sizes of the
    signal and descriptor tables of a task (linuxmt/signal.h, limits.h),
    [NEMAXSEGS] the size of the segment tables of the OS/2 loader
    (linuxmt/os2.h).  [INIT_HEAP] and [INIT_STACK] are the defaults of
    linuxmt/mm.h.  The class [BuildConfig] carries them, so a definition
    written in its context is the source under every combination of
    [#ifdef]s, and a theorem proved there holds for every build.  The
    class's laws say that the defaults are positive [int] constants whose
    sum is an [int] (line 523 adds them as such). *)

From Stdlib Require Import ZArith Lia.
From stdpp Require Import base.
From S2P Require Import Prelude.

Local Open Scope Z_scope.

Class BuildConfig : Type := {
  CONFIG_EXEC_MMODEL : bool;
  CONFIG_EXEC_LOW_STACK : bool;
  CONFIG_EXEC_COMPRESS : bool;
  CONFIG_EXEC_OS2 : bool;
  CONFIG_DCON_ANSI_PRINTK : bool;
  INIT_HEAP : Z;
  INIT_STACK : Z;
  NSIG : nat;
  NR_OPEN : nat;
  NEMAXSEGS : nat;
  INIT_HEAP_pos : 0 < INIT_HEAP;
  INIT_STACK_pos : 0 < INIT_STACK;
  INIT_sum_int : INIT_HEAP + INIT_STACK < 32768;
  NSIG_pos : (0 < NSIG)%nat;
  NR_OPEN_pos : (0 < NR_OPEN)%nat
}.

(** The configuration of a stock ELKS kernel: medium model and compression
    on, low stack off, 4K defaults. *)
#[export] Instance elks_config : BuildConfig := {|
  CONFIG_EXEC_MMODEL := true;
  CONFIG_EXEC_LOW_STACK := false;
  CONFIG_EXEC_COMPRESS := true;
  CONFIG_EXEC_OS2 := true;
  CONFIG_DCON_ANSI_PRINTK := false;
  INIT_HEAP := 4096;
  INIT_STACK := 4096;
  NSIG := 32;
  NR_OPEN := 20;
  NEMAXSEGS := 3;
  INIT_HEAP_pos := ltac:(lia);
  INIT_STACK_pos := ltac:(lia);
  INIT_sum_int := ltac:(lia);
  NSIG_pos := ltac:(lia);
  NR_OPEN_pos := ltac:(lia)
|}.

(** The same kernel built with [CONFIG_EXEC_LOW_STACK]. *)
Definition lowstack_config : BuildConfig := {|
  CONFIG_EXEC_MMODEL := true;
  CONFIG_EXEC_LOW_STACK := true;
  CONFIG_EXEC_COMPRESS := true;
  CONFIG_EXEC_OS2 := true;
  CONFIG_DCON_ANSI_PRINTK := false;
  INIT_HEAP := 4096;
  INIT_STACK := 4096;
  NSIG := 32;
  NR_OPEN := 20;
  NEMAXSEGS := 3;
  INIT_HEAP_pos := ltac:(lia);
  INIT_STACK_pos := ltac:(lia);
  INIT_sum_int := ltac:(lia);
  NSIG_pos := ltac:(lia);
  NR_OPEN_pos := ltac:(lia)
|}.

(** A small kernel: no medium model, no compression, a colour console. *)
Definition small_config : BuildConfig := {|
  CONFIG_EXEC_MMODEL := false;
  CONFIG_EXEC_LOW_STACK := false;
  CONFIG_EXEC_COMPRESS := false;
  CONFIG_EXEC_OS2 := false;
  CONFIG_DCON_ANSI_PRINTK := true;
  INIT_HEAP := 4096;
  INIT_STACK := 4096;
  NSIG := 32;
  NR_OPEN := 20;
  NEMAXSEGS := 3;
  INIT_HEAP_pos := ltac:(lia);
  INIT_STACK_pos := ltac:(lia);
  INIT_sum_int := ltac:(lia);
  NSIG_pos := ltac:(lia);
  NR_OPEN_pos := ltac:(lia)
|}.

Section Defaults.
Context `{BuildConfig}.

Lemma INIT_HEAP_fits : fits16 INIT_HEAP.
Proof. pose proof INIT_HEAP_pos. pose proof INIT_STACK_pos. pose proof INIT_sum_int. words. Qed.

Lemma INIT_STACK_fits : fits16 INIT_STACK.
Proof. pose proof INIT_HEAP_pos. pose proof INIT_STACK_pos. pose proof INIT_sum_int. words. Qed.

Lemma INIT_sum_fits : fits16 (INIT_HEAP + INIT_STACK).
Proof. pose proof INIT_HEAP_pos. pose proof INIT_STACK_pos. pose proof INIT_sum_int. words. Qed.

Lemma INIT_HEAP_small : INIT_HEAP < 65520.
Proof. pose proof INIT_STACK_pos. pose proof INIT_sum_int. lia. Qed.

End Defaults.

#[export] Hint Resolve INIT_HEAP_fits INIT_STACK_fits INIT_sum_fits : exec.
