(* ===== verification/Aout.v ===== *)
(** * Aout: the on-disk structures exec.c reads

    The three structures of linuxmt/minix.h that exec.c reads from the
    executable: the 32-byte Minix header [minix_exec_hdr], the
    supplementary header [elks_supl_hdr] that follows it in executables of
    the medium memory model, and the 8-byte relocation record
    [minix_reloc].  Each is a record of its fields as integers, with the
    range of each field as its well-formedness predicate, a decoder from
    the bytes [read] stores into the structure, and an encoder; decoding
    after encoding is the identity on well-formed values, and every decoded
    value is well formed.  All fields are little-endian, as on the 8086. *)

From Stdlib Require Import ZArith Lia List Bool.
From stdpp Require Import base decidable option list.
From S2P Require Import Prelude.

Local Open Scope Z_scope.

(** ** Constants of linuxmt/minix.h *)

Definition MINIX_SPLITID_AHISTORICAL : Z := 0x04200301.
Definition MINIX_SPLITID : Z := 0x04300301.

Definition EXEC_MINIX_HDR_SIZE : Z := 32.
Definition EXEC_RELOC_HDR_SIZE : Z := 48.
Definition EXEC_FARTEXT_HDR_SIZE : Z := 64.

Definition R_SEGWORD : Z := 80.
Definition S_TEXT : Z := 0xFFFE.
Definition S_DATA : Z := 0xFFFD.
Definition S_BSS : Z := 0xFFFC.
Definition S_FTEXT : Z := 0xFFFB.

(** ** The structures *)

Record minix_exec_hdr : Type := {
  type : Z;
  hlen : Z;
  reserved1 : Z;
  version : Z;
  tseg : Z;
  dseg : Z;
  bseg : Z;
  entry : Z;
  chmem : Z;
  minstack : Z;
  syms : Z
}.

Record elks_supl_hdr : Type := {
  msh_trsize : Z;
  msh_drsize : Z;
  msh_tbase : Z;
  msh_dbase : Z;
  esh_ftseg : Z;
  esh_ftrsize : Z;
  esh_compr_tseg : Z;
  esh_compr_dseg : Z;
  esh_compr_ftseg : Z;
  esh_reserved : Z
}.

Record minix_reloc : Type := {
  r_vaddr : Z;
  r_symndx : Z;
  r_type : Z
}.

(** What [memset(&esuph, 0, sizeof(esuph))] leaves (line 415). *)
Definition esuph_zero : elks_supl_hdr :=
  {| msh_trsize := 0; msh_drsize := 0; msh_tbase := 0; msh_dbase := 0;
     esh_ftseg := 0; esh_ftrsize := 0; esh_compr_tseg := 0;
     esh_compr_dseg := 0; esh_compr_ftseg := 0; esh_reserved := 0 |}.

(** ** Well-formedness: every field within its C type *)

Definition wf_mh (h : minix_exec_hdr) : Prop :=
  fits32 (type h) /\ fits8 (hlen h) /\ fits8 (reserved1 h) /\
  fits16 (version h) /\ fits32 (tseg h) /\ fits32 (dseg h) /\
  fits32 (bseg h) /\ fits32 (entry h) /\ fits16 (chmem h) /\
  fits16 (minstack h) /\ fits32 (syms h).

Definition wf_esuph (s : elks_supl_hdr) : Prop :=
  fits32 (msh_trsize s) /\ fits32 (msh_drsize s) /\ fits32 (msh_tbase s) /\
  fits32 (msh_dbase s) /\ fits32 (esh_ftseg s) /\ fits32 (esh_ftrsize s) /\
  fits16 (esh_compr_tseg s) /\ fits16 (esh_compr_dseg s) /\
  fits16 (esh_compr_ftseg s) /\ fits16 (esh_reserved s).

Definition wf_reloc (r : minix_reloc) : Prop :=
  fits32 (r_vaddr r) /\ fits16 (r_symndx r) /\ fits16 (r_type r).

#[export] Instance wf_mh_dec h : Decision (wf_mh h).
Proof. unfold wf_mh. apply _. Defined.
#[export] Instance wf_esuph_dec s : Decision (wf_esuph s).
Proof. unfold wf_esuph. apply _. Defined.
#[export] Instance wf_reloc_dec r : Decision (wf_reloc r).
Proof. unfold wf_reloc. apply _. Defined.

(** ** Decoding and encoding *)

(** The [n]-byte little-endian field at offset [off] of a structure whose
    bytes are [bs]; bytes the read did not reach are the structure's
    initial zeros. *)
Definition field (bs : list Z) (off n : nat) : Z :=
  le_combine (take n (drop off bs ++ replicate n 0)).

Definition decode_mh (bs : list Z) : minix_exec_hdr :=
  {| type := field bs 0 4; hlen := field bs 4 1; reserved1 := field bs 5 1;
     version := field bs 6 2; tseg := field bs 8 4; dseg := field bs 12 4;
     bseg := field bs 16 4; entry := field bs 20 4; chmem := field bs 24 2;
     minstack := field bs 26 2; syms := field bs 28 4 |}.

(** A structure's bytes: its fields, each with its width, in order. *)
Definition encode_fields (fs : list (nat * Z)) : list Z :=
  flat_map (fun f => le_split (fst f) (snd f)) fs.

Definition fields_size (fs : list (nat * Z)) : nat :=
  sum_list (map fst fs).

Definition encode_mh (h : minix_exec_hdr) : list Z :=
  encode_fields
    [(4, type h); (1, hlen h); (1, reserved1 h); (2, version h); (4, tseg h);
     (4, dseg h); (4, bseg h); (4, entry h); (2, chmem h); (2, minstack h);
     (4, syms h)]%nat.

Definition decode_esuph (bs : list Z) : elks_supl_hdr :=
  {| msh_trsize := field bs 0 4; msh_drsize := field bs 4 4;
     msh_tbase := field bs 8 4; msh_dbase := field bs 12 4;
     esh_ftseg := field bs 16 4; esh_ftrsize := field bs 20 4;
     esh_compr_tseg := field bs 24 2; esh_compr_dseg := field bs 26 2;
     esh_compr_ftseg := field bs 28 2; esh_reserved := field bs 30 2 |}.

Definition encode_esuph (s : elks_supl_hdr) : list Z :=
  encode_fields
    [(4, msh_trsize s); (4, msh_drsize s); (4, msh_tbase s); (4, msh_dbase s);
     (4, esh_ftseg s); (4, esh_ftrsize s); (2, esh_compr_tseg s);
     (2, esh_compr_dseg s); (2, esh_compr_ftseg s); (2, esh_reserved s)]%nat.

Definition decode_reloc (bs : list Z) : minix_reloc :=
  {| r_vaddr := field bs 0 4; r_symndx := field bs 4 2; r_type := field bs 6 2 |}.

Definition encode_reloc (r : minix_reloc) : list Z :=
  encode_fields [(4, r_vaddr r); (2, r_symndx r); (2, r_type r)]%nat.

(** ** Lemmas *)

Lemma field_range bs off n : 0 <= field bs off n < 256 ^ Z.of_nat n.
Proof.
  unfold field. pose proof (le_combine_range (take n (drop off bs ++ replicate n 0))) as Hr.
  rewrite length_take, length_app, length_replicate in Hr.
  replace (n `min` (length (drop off bs) + n))%nat with n in Hr by lia. exact Hr.
Qed.

Lemma field_fits8 bs off : fits8 (field bs off 1).
Proof. apply (field_range bs off 1). Qed.

Lemma field_fits16 bs off : fits16 (field bs off 2).
Proof. apply (field_range bs off 2). Qed.

Lemma field_fits32 bs off : fits32 (field bs off 4).
Proof. apply (field_range bs off 4). Qed.

#[export] Hint Resolve field_fits8 field_fits16 field_fits32 : exec.

(** The field written at its offset is read back. *)
Lemma field_app pre x post off n :
  length pre = off -> length x = n ->
  field (pre ++ x ++ post) off n = le_combine x.
Proof.
  intros <- <-. unfold field.
  rewrite drop_app_length, <- app_assoc, take_app_length. reflexivity.
Qed.

Lemma field_split pre post off n z :
  length pre = off -> 0 <= z < 256 ^ Z.of_nat n ->
  field (pre ++ le_split n z ++ post) off n = z.
Proof.
  intros Hpre Hz. rewrite field_app by (auto using le_split_length).
  rewrite le_combine_split. apply Z.mod_small, Hz.
Qed.

(** A field of the first [n] bytes is the field of the whole, when it
    lies in them. *)
Lemma field_take bs (n off w : nat) :
  (off + w <= n)%nat -> (n <= length bs)%nat -> field (take n bs) off w = field bs off w.
Proof.
  intros Hw Hn. unfold field. f_equal.
  rewrite !take_app_le by (rewrite ?length_drop, ?length_take; lia).
  rewrite !take_drop_commute, take_take. do 2 f_equal. lia.
Qed.

Lemma decode_mh_wf bs : wf_mh (decode_mh bs).
Proof. unfold wf_mh, decode_mh; cbn. conjs; auto with exec. Qed.

Lemma decode_esuph_wf bs : wf_esuph (decode_esuph bs).
Proof. unfold wf_esuph, decode_esuph; cbn. conjs; auto with exec. Qed.

Lemma decode_reloc_wf bs : wf_reloc (decode_reloc bs).
Proof. unfold wf_reloc, decode_reloc; cbn. conjs; auto with exec. Qed.

Lemma esuph_zero_wf : wf_esuph esuph_zero.
Proof. unfold wf_esuph; cbn. conjs; words. Qed.

Lemma decode_esuph_nil : decode_esuph [] = esuph_zero.
Proof. reflexivity. Qed.

#[export] Hint Resolve decode_mh_wf decode_esuph_wf decode_reloc_wf esuph_zero_wf : exec.

(** ** Round trips *)

Lemma length_encode_fields fs : length (encode_fields fs) = fields_size fs.
Proof.
  induction fs as [|[n z] fs IH]; [reflexivity|].
  change (encode_fields ((n, z) :: fs)) with (le_split n z ++ encode_fields fs).
  change (fields_size ((n, z) :: fs)) with (n + fields_size fs)%nat.
  now rewrite length_app, le_split_length, IH.
Qed.

Lemma encode_fields_app fs gs :
  encode_fields (fs ++ gs) = encode_fields fs ++ encode_fields gs.
Proof. apply flat_map_app. Qed.

(** The field encoded after [pre] is decoded at the size of [pre]. *)
Lemma field_encode_fields pre n z post :
  0 <= z < 256 ^ Z.of_nat n ->
  field (encode_fields (pre ++ (n, z) :: post)) (fields_size pre) n = z.
Proof.
  intros Hz. rewrite encode_fields_app. cbn [encode_fields flat_map fst snd].
  apply field_split; [apply length_encode_fields | exact Hz].
Qed.

(** Decode the field that follows the fields [pre] of an encoding. *)
Ltac field_after pre :=
  match goal with
  | |- field _ _ ?n = _ => apply (field_encode_fields pre n); assumption
  end.

Lemma decode_encode_reloc r : wf_reloc r -> decode_reloc (encode_reloc r) = r.
Proof.
  destruct r as [v s t]. intros (Hv & Hs & Ht); cbn in Hv, Hs, Ht.
  unfold decode_reloc, encode_reloc; cbn [r_vaddr r_symndx r_type]. f_equal.
  - field_after (@nil (nat * Z)).
  - field_after [(4%nat, v)].
  - field_after [(4%nat, v); (2%nat, s)].
Qed.

Lemma decode_encode_mh h : wf_mh h -> decode_mh (encode_mh h) = h.
Proof.
  destruct h as [ty hl r1 ve ts ds bs en ch ms sy].
  intros (? & ? & ? & ? & ? & ? & ? & ? & ? & ? & ?); cbn in * |-.
  unfold decode_mh, encode_mh; cbn [type hlen reserved1 version tseg dseg bseg
    entry chmem minstack syms].
  f_equal.
  - field_after (@nil (nat * Z)).
  - field_after [(4, ty)]%nat.
  - field_after [(4, ty); (1, hl)]%nat.
  - field_after [(4, ty); (1, hl); (1, r1)]%nat.
  - field_after [(4, ty); (1, hl); (1, r1); (2, ve)]%nat.
  - field_after [(4, ty); (1, hl); (1, r1); (2, ve); (4, ts)]%nat.
  - field_after [(4, ty); (1, hl); (1, r1); (2, ve); (4, ts); (4, ds)]%nat.
  - field_after [(4, ty); (1, hl); (1, r1); (2, ve); (4, ts); (4, ds); (4, bs)]%nat.
  - field_after [(4, ty); (1, hl); (1, r1); (2, ve); (4, ts); (4, ds); (4, bs);
                 (4, en)]%nat.
  - field_after [(4, ty); (1, hl); (1, r1); (2, ve); (4, ts); (4, ds); (4, bs);
                 (4, en); (2, ch)]%nat.
  - field_after [(4, ty); (1, hl); (1, r1); (2, ve); (4, ts); (4, ds); (4, bs);
                 (4, en); (2, ch); (2, ms)]%nat.
Qed.

Lemma decode_encode_esuph s : wf_esuph s -> decode_esuph (encode_esuph s) = s.
Proof.
  destruct s as [tr dr tb db ft fr ct cd cf rs].
  intros (? & ? & ? & ? & ? & ? & ? & ? & ? & ?); cbn in * |-.
  unfold decode_esuph, encode_esuph; cbn [msh_trsize msh_drsize msh_tbase
    msh_dbase esh_ftseg esh_ftrsize esh_compr_tseg esh_compr_dseg
    esh_compr_ftseg esh_reserved].
  f_equal.
  - field_after (@nil (nat * Z)).
  - field_after [(4, tr)]%nat.
  - field_after [(4, tr); (4, dr)]%nat.
  - field_after [(4, tr); (4, dr); (4, tb)]%nat.
  - field_after [(4, tr); (4, dr); (4, tb); (4, db)]%nat.
  - field_after [(4, tr); (4, dr); (4, tb); (4, db); (4, ft)]%nat.
  - field_after [(4, tr); (4, dr); (4, tb); (4, db); (4, ft); (4, fr)]%nat.
  - field_after [(4, tr); (4, dr); (4, tb); (4, db); (4, ft); (4, fr); (2, ct)]%nat.
  - field_after [(4, tr); (4, dr); (4, tb); (4, db); (4, ft); (4, fr); (2, ct);
                 (2, cd)]%nat.
  - field_after [(4, tr); (4, dr); (4, tb); (4, db); (4, ft); (4, fr); (2, ct);
                 (2, cd); (2, cf)]%nat.
Qed.

Lemma length_encode_reloc r : length (encode_reloc r) = 8%nat.
Proof. apply length_encode_fields. Qed.

Lemma length_encode_mh h : length (encode_mh h) = 32%nat.
Proof. apply length_encode_fields. Qed.

Lemma length_encode_esuph s : length (encode_esuph s) = 32%nat.
Proof. apply length_encode_fields. Qed.

(** A 16-byte supplementary header (the relocation header without the
    far-text fields) decodes with the missing fields zero. *)
Lemma decode_esuph_short bs :
  length bs = 16%nat ->
  let s := decode_esuph bs in
  (esh_ftseg s = 0) /\ (esh_ftrsize s = 0) /\ (esh_compr_tseg s = 0) /\
  (esh_compr_dseg s = 0) /\ (esh_compr_ftseg s = 0).
Proof.
  intros Hlen. unfold decode_esuph, field; cbn.
  rewrite !drop_ge by lia. conjs; reflexivity.
Qed.

(** ** Properties *)


(** The byte layout of the three structures is consistent: a well-typed
    header, supplementary header or relocation record that is written
    out and read back is itself, and a record takes 8 bytes. *)
Lemma headers_roundtrip h s r :
  wf_mh h -> wf_esuph s -> wf_reloc r ->
  decode_mh (encode_mh h) = h /\ decode_esuph (encode_esuph s) = s /\
  decode_reloc (encode_reloc r) = r /\ length (encode_reloc r) = 8%nat.
Proof.
  intros Hh Hs Hr. split; [now apply decode_encode_mh|].
  split; [now apply decode_encode_esuph|].
  split; [now apply decode_encode_reloc | apply length_encode_reloc].
Qed.
