(* ===== verification/Layout.v ===== *)
(** * Layout: the layout planner of sys_execve

    Lines 390-394 and 408-542 of exec.c decide, from the header and the
    length [slen] of the argument block, how long the data segment is:
    data + bss (+ the low stack's base), then either the structured policy
    of version 1 (stack, arguments, heap, each added with an overflow
    check, a heap of 0xFFF0 or more meaning "as much as there is") or the
    legacy policy of version 0 ([chmem] is the whole size), then rounding
    up to a paragraph.  Every definition below is one of those fragments,
    in the context of a [BuildConfig]; [exec_layout] composes them in the
    order of the source, taking the supplementary header as already read.

    A jump to [error_exec3] is [Fail] with the value [retval] has at the
    jump: the errno negated where the source assigns one, and otherwise the
    count the last [read] returned, which the exit path turns into
    [-ENOEXEC] ([exec_retval]). *)

From Stdlib Require Import ZArith Lia List Bool.
From stdpp Require Import base decidable option list.
From S2P Require Import Prelude.
From S2P Require Import Paras.
From S2P Require Import Config.
From S2P Require Import Aout.

Local Open Scope Z_scope.
Local Open Scope exec_scope.

(** The idiom [if (add_overflow(a, b, &a)) { retval = e; goto error_exec3; }]. *)
Definition add_or_fail (a b e : Z) : result Z :=
  let '(r, o) := add_overflow a b in
  if o then Fail e else Ok r.

(** What the exit path returns for a jump to [error_exec3] (lines 699-703):
    a non-negative [retval] becomes [-ENOEXEC]. *)
Definition exec_retval (retval : Z) : Z :=
  if 0 <=? retval then - ENOEXEC else retval.

(** The size of the supplementary header to read, by the [switch (mh.hlen)]
    of line 418. *)
Inductive hdr_kind : Type :=
| HdrMinix
| HdrBig (nbytes : Z).

(** What the planner hands to the loader. *)
Record layout : Type := {
  l_len : Z;
  l_min_len : Z;
  l_stack : Z;
  l_base_data : Z
}.

Section Planner.
Context `{BuildConfig}.

(** Lines 390-394: the header's type and a non-empty text segment. *)
Definition exec_hdr_ok (mh : minix_exec_hdr) : bool :=
  negb ((negb (type mh =? MINIX_SPLITID_AHISTORICAL) &&
         negb (type mh =? MINIX_SPLITID)) ||
        (u16 (tseg mh) =? 0)).

(** Lines 408-412: [min_len = (size_t)mh.dseg + (size_t)mh.bseg]. *)
Definition exec_min_len (mh : minix_exec_hdr) : result Z :=
  let min_len := u16 (dseg mh) in
  add_or_fail min_len (u16 (bseg mh)) (- EINVAL).

(** Lines 418-423 and 459-460: the case labels of [switch (mh.hlen)]. *)
Definition exec_hlen_kind (hlen : Z) : option hdr_kind :=
  if hlen =? EXEC_MINIX_HDR_SIZE then Some HdrMinix
  else if CONFIG_EXEC_MMODEL &&
          ((hlen =? EXEC_RELOC_HDR_SIZE) || (hlen =? EXEC_FARTEXT_HDR_SIZE))
  then Some (HdrBig (hlen - EXEC_MINIX_HDR_SIZE))
  else None.

(** Lines 437-457: the checks on the supplementary header once read, with
    [retval] the count its [read] returned.  The result is [base_data], the
    new [min_len] and the new [retval]. *)
Definition exec_suph_check (esuph : elks_supl_hdr) (min_len retval : Z)
  : result (Z * Z * Z) :=
  if negb CONFIG_EXEC_COMPRESS &&
     (negb (esh_compr_tseg esuph =? 0) || negb (esh_compr_ftseg esuph =? 0) ||
      negb (esh_compr_dseg esuph =? 0))
  then Fail retval
  else
    let retval := - EINVAL in
    if negb (msh_tbase esuph =? 0) then Fail retval
    else
      let base_data := u16 (msh_dbase esuph) in
      if CONFIG_EXEC_LOW_STACK then
        if negb (Z.land base_data 0xf =? 0) then Fail retval
        else
          let* min_len := add_or_fail min_len base_data retval in
          Ok (base_data, min_len, retval)
      else
        if negb (base_data =? 0) then Fail retval
        else Ok (base_data, min_len, retval).

(** Line 486: the heap asked for, or the default. *)
Definition exec_heap (mh : minix_exec_hdr) : Z :=
  if negb (chmem mh =? 0) then chmem mh else INIT_HEAP.

(** Line 476: the stack asked for, or the default. *)
Definition exec_stack (mh : minix_exec_hdr) : Z :=
  if negb (minstack mh =? 0) then minstack mh else INIT_STACK.

(** Lines 470-497, [case 1]: [chmem] is the heap.  The result is [len] and
    [stack] ([stack] was initialised to 0 at line 355). *)
Definition exec_len_v1 (mh : minix_exec_hdr) (base_data slen min_len : Z)
  : result (Z * Z) :=
  let len := min_len in
  let* '(len, stack) :=
    if CONFIG_EXEC_LOW_STACK && negb (base_data =? 0) then Ok (len, 0)
    else
      let stack := exec_stack mh in
      let* len := add_or_fail len stack (- EFBIG) in
      let* len := add_or_fail len slen (- E2BIG) in
      Ok (len, stack) in
  let heap := exec_heap mh in
  if 0xFFF0 <=? heap then
    Ok (if len <? 0xFFF0 then 0xFFF0 else len, stack)
  else
    let* len := add_or_fail len heap (- EFBIG) in
    Ok (len, stack).

(** Lines 498-533, [case 0]: [chmem] is the size of data + bss + heap +
    stack, or 0 for the defaults. *)
Definition exec_len_v0 (mh : minix_exec_hdr) (base_data slen min_len : Z)
  : result (Z * Z) :=
  let len := chmem mh in
  if negb (len =? 0) then
    if len <=? min_len then Fail (- EINVAL)
    else
      let stack := 0 in
      let heap := u16 (len - min_len) in
      if heap <? slen then Fail (- E2BIG)
      else Ok (len, stack)
  else
    let stack := INIT_STACK in
    let len := min_len in
    let* len :=
      if CONFIG_EXEC_LOW_STACK && negb (base_data =? 0)
      then add_or_fail len INIT_HEAP (- EFBIG)
      else add_or_fail len (INIT_HEAP + INIT_STACK) (- EFBIG) in
    let* len := add_or_fail len slen (- E2BIG) in
    Ok (len, stack).

(** Lines 467-534: [switch (mh.version)]. *)
Definition exec_version_switch (mh : minix_exec_hdr)
  (base_data slen min_len retval : Z) : result (Z * Z) :=
  if version mh =? 1 then exec_len_v1 mh base_data slen min_len
  else if version mh =? 0 then exec_len_v0 mh base_data slen min_len
  else Fail retval.

(** Lines 536-542: round up to a paragraph. *)
Definition exec_round (len : Z) : result Z :=
  let* len := add_or_fail len 15 (- E2BIG) in
  Ok (Z.land len (u16 (Z.lnot 15))).

(** Lines 408-542 with the supplementary header [esuph] as [read] filled
    it ([esuph_zero] for a Minix header, which reads nothing).  On entry
    [retval] is [sizeof(mh)], the count the header's [read] returned (line
    381 left otherwise); after the supplementary header's [read] it is that
    header's size. *)
Definition exec_layout (mh : minix_exec_hdr) (esuph : elks_supl_hdr)
  (slen : Z) : result layout :=
  let retval := EXEC_MINIX_HDR_SIZE in
  let* min_len := exec_min_len mh in
  let* '(base_data, min_len, retval) :=
    match exec_hlen_kind (hlen mh) with
    | Some HdrMinix => Ok (0, min_len, retval)
    | Some (HdrBig n) => exec_suph_check esuph min_len n
    | None => Fail retval
    end in
  let* '(len, stack) := exec_version_switch mh base_data slen min_len retval in
  let* len := exec_round len in
  Ok {| l_len := len; l_min_len := min_len; l_stack := stack;
        l_base_data := base_data |}.

(** Lines 549-562: the paragraphs to allocate for the code segment and the
    bytes of text to read into it. *)
Definition exec_text_size (mh : minix_exec_hdr) (esuph : elks_supl_hdr) : Z * Z :=
  let bytes := u16 (tseg mh) in
  let paras := bytes_to_paras bytes in
  let '(bytes, paras) :=
    if CONFIG_EXEC_COMPRESS &&
       (negb (esh_compr_tseg esuph =? 0) || negb (esh_compr_ftseg esuph =? 0))
    then (if negb (esh_compr_tseg esuph =? 0) then esh_compr_tseg esuph else bytes,
          u16 (paras + 1))
    else (bytes, paras) in
  let paras :=
    if CONFIG_EXEC_MMODEL
    then u16 (paras + bytes_to_paras (u16 (esh_ftseg esuph)))
    else paras in
  (paras, bytes).

End Planner.

(** * The planner's contract

    The same computation on unbounded integers, as the design states it:
    sums are exact, and a sum that does not fit 16 bits is an error, told
    apart by the part that made it overflow. *)

(** Policy 1 (version 1): [low] says that the stack lies below the data
    (a relocation base was given), so that stack and arguments are not
    counted. *)
Definition plan_v1 (min_len stack slen heap : Z) (low : bool) : result (Z * Z) :=
  let stack := if low then 0 else stack in
  let used := if low then min_len else min_len + stack + slen in
  if negb low && (65536 <=? min_len + stack) then Fail (- EFBIG)
  else if negb low && (65536 <=? used) then Fail (- E2BIG)
  else if 0xFFF0 <=? heap then Ok (Z.max used 0xFFF0, stack)
  else if 65536 <=? used + heap then Fail (- EFBIG)
  else Ok (used + heap, stack).

(** Policy 0 (version 0): [chmem] is the total, or 0 for the defaults. *)
Definition plan_v0 (min_len chmem slen init_heap init_stack : Z) (low : bool)
  : result (Z * Z) :=
  if negb (chmem =? 0) then
    if chmem <=? min_len then Fail (- EINVAL)
    else if chmem - min_len <? slen then Fail (- E2BIG)
    else Ok (chmem, 0)
  else
    let dflt := if low then init_heap else init_heap + init_stack in
    if 65536 <=? min_len + dflt then Fail (- EFBIG)
    else if 65536 <=? min_len + dflt + slen then Fail (- E2BIG)
    else Ok (min_len + dflt + slen, init_stack).

(** Rounding up to a paragraph. *)
Definition plan_round (len : Z) : result Z :=
  if 65536 <=? len + 15 then Fail (- E2BIG) else Ok (16 * ((len + 15) / 16)).

Section Contract.
Context `{BuildConfig}.

(** The stack is placed below the data: [CONFIG_EXEC_LOW_STACK] and a
    relocation base. *)
Definition low_stack (base_data : Z) : bool :=
  CONFIG_EXEC_LOW_STACK && negb (base_data =? 0).

(** The relocation base a supplementary header of [n] bytes asks for, and
    the value of [retval] after its checks. *)
Definition plan_base (esuph : elks_supl_hdr) (n : Z) : result (Z * Z) :=
  if negb CONFIG_EXEC_COMPRESS &&
     (negb (esh_compr_tseg esuph =? 0) || negb (esh_compr_ftseg esuph =? 0) ||
      negb (esh_compr_dseg esuph =? 0))
  then Fail n
  else if negb (msh_tbase esuph =? 0) then Fail (- EINVAL)
  else
    let base := msh_dbase esuph mod 65536 in
    if CONFIG_EXEC_LOW_STACK then
      if negb (base mod 16 =? 0) then Fail (- EINVAL) else Ok (base, - EINVAL)
    else
      if negb (base =? 0) then Fail (- EINVAL) else Ok (base, - EINVAL).

(** The plan of either version. *)
Definition plan_version (mh : minix_exec_hdr) (bd slen ml rv : Z) : result (Z * Z) :=
  if version mh =? 1
  then plan_v1 ml (exec_stack mh) slen (exec_heap mh) (low_stack bd)
  else if version mh =? 0
  then plan_v0 ml (chmem mh) slen INIT_HEAP INIT_STACK (low_stack bd)
  else Fail rv.

(** The whole plan. *)
Definition plan_layout (mh : minix_exec_hdr) (esuph : elks_supl_hdr) (slen : Z)
  : result layout :=
  let d := dseg mh mod 65536 in
  let b := bseg mh mod 65536 in
  if 65536 <=? d + b then Fail (- EINVAL)
  else
    let* '(base, retval) :=
      match exec_hlen_kind (hlen mh) with
      | Some HdrMinix => Ok (0, EXEC_MINIX_HDR_SIZE)
      | Some (HdrBig n) => plan_base esuph n
      | None => Fail EXEC_MINIX_HDR_SIZE
      end in
    if 65536 <=? d + b + base then Fail (- EINVAL)
    else
      let min_len := d + b + base in
      let* '(len, stack) := plan_version mh base slen min_len retval in
      let* len := plan_round len in
      Ok {| l_len := len; l_min_len := min_len; l_stack := stack;
            l_base_data := base |}.

(** The plans the design allows, as a relation: [planned mh slen base l]
    says that [l] is the layout of header [mh] for an argument block of
    [slen] bytes and relocation base [base].  One rule per policy and case;
    every sum is exact. *)
Definition round16 (z : Z) : Z := 16 * ((z + 15) / 16).

Definition plan_min (mh : minix_exec_hdr) (base : Z) : Z :=
  dseg mh mod 65536 + bseg mh mod 65536 + base.

Inductive planned (mh : minix_exec_hdr) (slen base : Z) : layout -> Prop :=
| planned_v1 used len :
    version mh = 1 -> exec_heap mh < 0xFFF0 ->
    used = (if low_stack base then 0 else exec_stack mh + slen) ->
    plan_min mh base + used + exec_heap mh + 15 < 65536 ->
    len = round16 (plan_min mh base + used + exec_heap mh) ->
    planned mh slen base
      {| l_len := len; l_min_len := plan_min mh base;
         l_stack := if low_stack base then 0 else exec_stack mh;
         l_base_data := base |}
| planned_v1_max used :
    version mh = 1 -> 0xFFF0 <= exec_heap mh ->
    used = (if low_stack base then 0 else exec_stack mh + slen) ->
    plan_min mh base + used <= 0xFFF0 ->
    planned mh slen base
      {| l_len := 0xFFF0; l_min_len := plan_min mh base;
         l_stack := if low_stack base then 0 else exec_stack mh;
         l_base_data := base |}
| planned_v0_chmem len :
    version mh = 0 -> chmem mh <> 0 ->
    plan_min mh base < chmem mh -> slen <= chmem mh - plan_min mh base ->
    chmem mh + 15 < 65536 -> len = round16 (chmem mh) ->
    planned mh slen base
      {| l_len := len; l_min_len := plan_min mh base; l_stack := 0;
         l_base_data := base |}
| planned_v0_default dflt len :
    version mh = 0 -> chmem mh = 0 ->
    dflt = (if low_stack base then INIT_HEAP else INIT_HEAP + INIT_STACK) ->
    plan_min mh base + dflt + slen + 15 < 65536 ->
    len = round16 (plan_min mh base + dflt + slen) ->
    planned mh slen base
      {| l_len := len; l_min_len := plan_min mh base; l_stack := INIT_STACK;
         l_base_data := base |}.

(** The relocation bases a header allows: none for a Minix header, the
    supplementary header's (its low 16 bits, a whole number of paragraphs,
    and only in a low-stack build) otherwise. *)
Inductive header_base (mh : minix_exec_hdr) (esuph : elks_supl_hdr) : Z -> Prop :=
| header_base_minix :
    exec_hlen_kind (hlen mh) = Some HdrMinix -> header_base mh esuph 0
| header_base_big n base rv :
    exec_hlen_kind (hlen mh) = Some (HdrBig n) ->
    plan_base esuph n = Ok (base, rv) -> header_base mh esuph base.

(** What every layout satisfies: the invariant the loader and the commit
    rely on. *)
Definition layout_ok (mh : minix_exec_hdr) (slen : Z) (l : layout) : Prop :=
  l_min_len l = u16 (dseg mh) + u16 (bseg mh) + l_base_data l /\
  fits16 (l_base_data l) /\ l_base_data l mod 16 = 0 /\
  l_len l mod 16 = 0 /\ l_min_len l <= l_len l <= 65520 /\
  fits16 (l_stack l) /\
  (l_base_data l = 0 -> l_min_len l + l_stack l + slen <= l_len l).

End Contract.

(** * Lemmas on the fragments *)

Lemma add_or_fail_spec a b e :
  fits16 a -> 0 <= b ->
  add_or_fail a b e = if a + b <? 65536 then Ok (a + b) else Fail e.
Proof.
  intros Ha Hb. unfold add_or_fail, add_overflow.
  case_bool_decide; case_if; cbn [negb]; try words; [|reflexivity].
  now rewrite u16_small.
Qed.

Lemma add_or_fail_wp a b e (P Q : Z -> Prop) :
  fits16 a -> 0 <= b ->
  (a + b < 65536 -> P (a + b)) -> (65536 <= a + b -> Q e) ->
  wp (add_or_fail a b e) P Q.
Proof. intros. rewrite add_or_fail_spec by assumption. case_if; cbn; auto. Qed.

Lemma exec_round_plan len : fits16 len -> exec_round len = plan_round len.
Proof.
  intros Hl. unfold exec_round, plan_round.
  rewrite add_or_fail_spec by (auto; lia).
  repeat case_if; cbn [bind]; try lia; [|reflexivity].
  change (u16 (Z.lnot 15)) with 65520. now rewrite land_not15 by words.
Qed.

Lemma plan_round_wp len (P Q : Z -> Prop) :
  (len + 15 < 65536 -> P (16 * ((len + 15) / 16))) ->
  (65536 <= len + 15 -> Q (- E2BIG)) ->
  wp (plan_round len) P Q.
Proof. intros. unfold plan_round. case_if; cbn; auto with zarith. Qed.

Section PlannerLemmas.
Context `{BuildConfig}.

Lemma exec_hlen_kind_big h n :
  exec_hlen_kind h = Some (HdrBig n) ->
  CONFIG_EXEC_MMODEL = true /\ (n = 16 \/ n = 32) /\ h = n + 32.
Proof.
  unfold exec_hlen_kind, EXEC_MINIX_HDR_SIZE, EXEC_RELOC_HDR_SIZE,
    EXEC_FARTEXT_HDR_SIZE.
  destruct CONFIG_EXEC_MMODEL; cbn [andb];
    destruct (Z.eqb_spec h 32), (Z.eqb_spec h 48), (Z.eqb_spec h 64);
    cbn [orb]; intros [= <-] || discriminate; conjs; auto; lia.
Qed.

Lemma exec_hlen_kind_minix h : exec_hlen_kind h = Some HdrMinix <-> h = 32.
Proof.
  unfold exec_hlen_kind, EXEC_MINIX_HDR_SIZE.
  destruct (Z.eqb_spec h 32); [tauto|].
  split; [|tauto]. now destruct (_ && _).
Qed.

Lemma low_stack_0 : low_stack 0 = false.
Proof. unfold low_stack. apply andb_false_r. Qed.

Lemma low_stack_true base :
  low_stack base = true <-> CONFIG_EXEC_LOW_STACK = true /\ base <> 0.
Proof.
  unfold low_stack. rewrite andb_true_iff, negb_true_iff, Z.eqb_neq. tauto.
Qed.

Lemma exec_stack_range mh : wf_mh mh -> 0 < exec_stack mh < 65536.
Proof.
  intros Hm. unfold exec_stack. pose proof INIT_STACK_fits. pose proof INIT_STACK_pos.
  destruct Hm as (_ & _ & _ & _ & _ & _ & _ & _ & _ & Hms & _).
  case_if; words.
Qed.

Lemma exec_heap_range mh : wf_mh mh -> 0 < exec_heap mh < 65536.
Proof.
  intros Hm. unfold exec_heap. pose proof INIT_HEAP_fits. pose proof INIT_HEAP_pos.
  destruct Hm as (_ & _ & _ & _ & _ & _ & _ & _ & Hch & _ & _).
  case_if; words.
Qed.

Lemma exec_len_v1_plan mh bd slen ml :
  wf_mh mh -> fits16 ml -> fits16 slen ->
  exec_len_v1 mh bd slen ml =
  plan_v1 ml (exec_stack mh) slen (exec_heap mh) (low_stack bd).
Proof.
  intros Hm Hml Hsl. unfold exec_len_v1, plan_v1. fold (low_stack bd).
  pose proof (exec_stack_range mh Hm). pose proof (exec_heap_range mh Hm).
  destruct (low_stack bd); cbn [negb andb bind].
  - repeat case_if; try lia; rewrite ?add_or_fail_spec by (try assumption; words).
    all: repeat case_if; cbn; f_equal; try words; f_equal; words.
  - rewrite add_or_fail_spec by (try assumption; words).
    repeat (case_if; cbn [bind]; rewrite ?add_or_fail_spec by words); try words.
    all: f_equal; f_equal; words.
Qed.

Lemma exec_len_v0_plan mh bd slen ml :
  wf_mh mh -> fits16 ml -> fits16 slen ->
  exec_len_v0 mh bd slen ml =
  plan_v0 ml (chmem mh) slen INIT_HEAP INIT_STACK (low_stack bd).
Proof.
  intros Hm Hml Hsl. unfold exec_len_v0, plan_v0. fold (low_stack bd).
  pose proof INIT_HEAP_pos. pose proof INIT_STACK_pos. pose proof INIT_sum_int.
  destruct Hm as (_ & _ & _ & _ & _ & _ & _ & _ & Hch & _ & _).
  destruct (Z.eqb_spec (chmem mh) 0); cbn [negb].
  - destruct (low_stack bd); rewrite add_or_fail_spec by (try assumption; words).
    all: repeat (case_if; cbn [bind]; rewrite ?add_or_fail_spec by words);
      first [reflexivity | words].
  - repeat case_if; first [reflexivity | words].
Qed.

Lemma exec_min_len_wp mh (P Q : Z -> Prop) :
  (u16 (dseg mh) + u16 (bseg mh) < 65536 -> P (u16 (dseg mh) + u16 (bseg mh))) ->
  (65536 <= u16 (dseg mh) + u16 (bseg mh) -> Q (- EINVAL)) ->
  wp (exec_min_len mh) P Q.
Proof.
  intros. unfold exec_min_len.
  pose proof (u16_range (bseg mh)). apply add_or_fail_wp; auto with exec; words.
Qed.

Lemma exec_suph_check_plan esuph ml n :
  fits16 ml ->
  exec_suph_check esuph ml n =
  bind (plan_base esuph n) (fun '(base, retval) =>
    if 65536 <=? ml + base then Fail (- EINVAL) else Ok (base, ml + base, retval)).
Proof.
  intros Hml. unfold exec_suph_check, plan_base. fold (u16 (msh_dbase esuph)).
  pose proof (u16_range (msh_dbase esuph)) as Hb. rewrite land_15.
  destruct CONFIG_EXEC_COMPRESS, CONFIG_EXEC_LOW_STACK; cbn [negb andb].
  all: repeat (case_if; cbn [bind negb orb]; rewrite ?add_or_fail_spec by words);
    first [reflexivity | words | (repeat f_equal; words)].
Qed.

Lemma plan_base_wp esuph n (P : Z * Z -> Prop) (Q : Z -> Prop) :
  (forall base, base = u16 (msh_dbase esuph) -> base mod 16 = 0 ->
     msh_tbase esuph = 0 -> (base <> 0 -> CONFIG_EXEC_LOW_STACK = true) ->
     P (base, - EINVAL)) ->
  Q n -> Q (- EINVAL) ->
  wp (plan_base esuph n) P Q.
Proof.
  intros HP Hn He. unfold plan_base. fold (u16 (msh_dbase esuph)).
  destruct CONFIG_EXEC_LOW_STACK.
  all: repeat wp_step; auto; apply HP; auto; try words; congruence.
Qed.

Lemma plan_base_ok esuph n base rv :
  plan_base esuph n = Ok (base, rv) ->
  base = u16 (msh_dbase esuph) /\ base mod 16 = 0 /\ rv = - EINVAL /\
  msh_tbase esuph = 0 /\ (base <> 0 -> CONFIG_EXEC_LOW_STACK = true).
Proof.
  apply (wp_ok_inv _ (fun p => fst p = _ /\ fst p mod 16 = 0 /\ snd p = _ /\ _ /\
                               (fst p <> 0 -> _)) (fun _ => True)).
  apply plan_base_wp; cbn; auto.
Qed.

(** What either policy returns fits 16 bits and covers what it counts. *)
Lemma plan_v1_wp ml stack slen heap (low : bool) (P : Z * Z -> Prop) (Q : Z -> Prop) :
  fits16 ml -> 0 < stack -> 0 <= slen -> 0 < heap ->
  (forall len, fits16 len ->
     (if low then ml else ml + stack + slen) <= len ->
     (heap < 0xFFF0 -> len = (if low then ml else ml + stack + slen) + heap) ->
     (0xFFF0 <= heap -> len = Z.max (if low then ml else ml + stack + slen) 0xFFF0) ->
     P (len, if low then 0 else stack)) ->
  Q (- EFBIG) -> Q (- E2BIG) ->
  wp (plan_v1 ml stack slen heap low) P Q.
Proof.
  intros Hml Hst Hsl Hhp HP H1 H2. unfold plan_v1.
  destruct low; cbn [negb andb]; repeat wp_step; auto; apply HP; words.
Qed.

Lemma plan_v0_wp ml chmem slen ih ist (low : bool) (P : Z * Z -> Prop) (Q : Z -> Prop) :
  fits16 ml -> fits16 chmem -> 0 <= slen -> 0 < ih -> 0 < ist ->
  (chmem <> 0 -> ml < chmem -> slen <= chmem - ml -> P (chmem, 0)) ->
  (chmem = 0 ->
   forall len, fits16 len -> len = ml + (if low then ih else ih + ist) + slen ->
     P (len, ist)) ->
  (chmem <> 0 -> chmem <= ml -> Q (- EINVAL)) ->
  (chmem <> 0 -> ml < chmem -> Q (- E2BIG)) ->
  (chmem = 0 -> Q (- EFBIG)) -> (chmem = 0 -> Q (- E2BIG)) ->
  wp (plan_v0 ml chmem slen ih ist low) P Q.
Proof.
  intros Hml Hch Hsl Hih His HP1 HP2 H1 H2 H3 H4. unfold plan_v0.
  destruct low; repeat wp_step; auto; try (apply HP1; words); apply HP2; words.
Qed.

Lemma exec_version_switch_plan mh bd slen ml rv :
  wf_mh mh -> fits16 ml -> fits16 slen ->
  exec_version_switch mh bd slen ml rv = plan_version mh bd slen ml rv.
Proof.
  intros. unfold exec_version_switch, plan_version.
  now rewrite exec_len_v1_plan, exec_len_v0_plan.
Qed.

Lemma plan_version_fits mh bd slen ml rv len stack :
  wf_mh mh -> fits16 ml -> fits16 slen ->
  plan_version mh bd slen ml rv = Ok (len, stack) -> fits16 len.
Proof.
  intros Hm Hml Hs. apply (wp_ok_inv _ (fun p => fits16 (fst p)) (fun _ => True)).
  pose proof (exec_stack_range mh Hm). pose proof (exec_heap_range mh Hm).
  pose proof INIT_HEAP_pos. pose proof INIT_STACK_pos.
  unfold plan_version. repeat wp_step; auto.
  - apply plan_v1_wp; auto; words.
  - apply plan_v0_wp; auto; try apply Hm; try words. intros; apply Hm.
Qed.

(** The planner computes the plan. *)
Lemma exec_layout_plan mh esuph slen :
  wf_mh mh -> fits16 slen -> exec_layout mh esuph slen = plan_layout mh esuph slen.
Proof.
  intros Hm Hs. unfold exec_layout, plan_layout, exec_min_len.
  fold (u16 (dseg mh)) (u16 (bseg mh)).
  pose proof (u16_range (dseg mh)). pose proof (u16_range (bseg mh)).
  set (d := u16 (dseg mh)) in *. set (b := u16 (bseg mh)) in *.
  rewrite add_or_fail_spec by (auto; words).
  destruct (Z.ltb_spec (d + b) 65536), (Z.leb_spec 65536 (d + b)); try lia;
    cbn [bind]; [|reflexivity].
  assert (forall bd ml rv, fits16 ml ->
    bind (exec_version_switch mh bd slen ml rv) (fun '(len, stack) =>
      bind (exec_round len) (fun len => Ok {| l_len := len; l_min_len := ml;
        l_stack := stack; l_base_data := bd |})) =
    bind (plan_version mh bd slen ml rv) (fun '(len, stack) =>
      bind (plan_round len) (fun len => Ok {| l_len := len; l_min_len := ml;
        l_stack := stack; l_base_data := bd |}))) as Htail.
  { intros bd ml rv Hml. rewrite exec_version_switch_plan by assumption.
    destruct (plan_version mh bd slen ml rv) as [[len st]|] eqn:E; [|reflexivity].
    cbn [bind]. now rewrite (exec_round_plan len) by eauto using plan_version_fits. }
  destruct (exec_hlen_kind (hlen mh)) as [[|n]|]; cbn [bind]; [| |reflexivity].
  - rewrite Z.add_0_r. destruct (Z.leb_spec 65536 (d + b)); [lia|].
    apply Htail; words.
  - rewrite exec_suph_check_plan by words.
    destruct (plan_base esuph n) as [[bd rv]|] eqn:E; cbn [bind]; [|reflexivity].
    apply plan_base_ok in E as (-> & _). pose proof (u16_range (msh_dbase esuph)).
    case_if; cbn [bind]; [reflexivity|]. apply Htail; words.
Qed.

(** ** The plan and the relation *)

Lemma plan_version_planned mh slen base rv (P : layout -> Prop) :
  wf_mh mh -> fits16 slen -> fits16 (plan_min mh base) ->
  (forall l, planned mh slen base l -> P l) ->
  wp (bind (plan_version mh base slen (plan_min mh base) rv)
        (fun '(len, stack) => bind (plan_round len) (fun len =>
           Ok {| l_len := len; l_min_len := plan_min mh base; l_stack := stack;
                 l_base_data := base |})))
     P (fun _ => True).
Proof.
  intros Hm Hs Hmin HP.
  pose proof (exec_stack_range mh Hm). pose proof (exec_heap_range mh Hm).
  pose proof INIT_HEAP_pos. pose proof INIT_STACK_pos.
  assert (fits16 (chmem mh)) by apply Hm.
  unfold plan_version. apply wp_bind. repeat wp_step; auto.
  - apply plan_v1_wp; auto; try words. intros len Hl Hu Hh Hx.
    apply wp_bind, plan_round_wp; auto. intros Hr; cbn [wp]. apply HP.
    destruct (Z.lt_ge_cases (exec_heap mh) 0xFFF0).
    + eapply planned_v1; eauto; unfold round16; destruct (low_stack base); words.
    + replace (16 * ((len + 15) / 16)) with 0xFFF0 by words.
      eapply planned_v1_max; eauto; destruct (low_stack base); words.
  - apply plan_v0_wp; auto; try words.
    + intros. apply wp_bind, plan_round_wp; auto. intros Hr; cbn [wp]. apply HP.
      now eapply planned_v0_chmem.
    + intros Hc len Hl ->. apply wp_bind, plan_round_wp; auto. intros Hr; cbn [wp].
      apply HP. eapply planned_v0_default; eauto.
Qed.

Lemma planned_base mh slen base l : planned mh slen base l -> l_base_data l = base.
Proof. now destruct 1. Qed.

Lemma planned_min mh slen base l :
  planned mh slen base l -> l_min_len l = plan_min mh base.
Proof. now destruct 1. Qed.

Lemma plan_layout_sound mh esuph slen l :
  wf_mh mh -> fits16 slen -> plan_layout mh esuph slen = Ok l ->
  header_base mh esuph (l_base_data l) /\ planned mh slen (l_base_data l) l.
Proof.
  intros Hm Hs.
  apply (wp_ok_inv _ (fun l => header_base mh esuph (l_base_data l) /\
                               planned mh slen (l_base_data l) l) (fun _ => True)).
  unfold plan_layout.
  pose proof (u16_range (dseg mh)). pose proof (u16_range (bseg mh)).
  wp_step; [exact I|]. apply wp_bind.
  destruct (exec_hlen_kind (hlen mh)) as [[|n]|] eqn:Ek; cbn [wp]; auto.
  - wp_step; [exact I|]. apply plan_version_planned; auto; [unfold plan_min; words|].
    intros l' Hl'. rewrite (planned_base _ _ _ _ Hl'). split; [now constructor|assumption].
  - destruct (plan_base esuph n) as [[base rv]|] eqn:Eb; cbn [wp]; auto.
    pose proof (plan_base_ok _ _ _ _ Eb) as (Hb & _).
    pose proof (u16_range (msh_dbase esuph)).
    wp_step; [exact I|]. apply plan_version_planned; auto; [unfold plan_min; words|].
    intros l' Hl'. rewrite (planned_base _ _ _ _ Hl').
    split; [econstructor; eauto | assumption].
Qed.

Lemma planned_tail mh slen base rv l :
  wf_mh mh -> fits16 slen -> 0 <= base -> planned mh slen base l ->
  bind (plan_version mh base slen (plan_min mh base) rv)
    (fun '(len, stack) => bind (plan_round len) (fun len =>
       Ok {| l_len := len; l_min_len := plan_min mh base; l_stack := stack;
             l_base_data := base |})) = Ok l /\
  plan_min mh base < 65536.
Proof.
  intros Hm Hs Hb Hp.
  pose proof (exec_stack_range mh Hm). pose proof (exec_heap_range mh Hm).
  pose proof INIT_HEAP_pos. pose proof INIT_STACK_pos.
  pose proof (u16_range (dseg mh)). pose proof (u16_range (bseg mh)).
  assert (0 <= plan_min mh base) by (unfold plan_min; words).
  unfold plan_version, plan_v1, plan_v0, plan_round.
  destruct Hp as [used len Hv Hh -> Hf -> | used Hv Hh -> Hf
                 | len Hv Hc Hlt Hsl Hf -> | dflt len Hv Hc -> Hf ->];
    rewrite Hv; cbn [Z.eqb Pos.eqb]; unfold round16 in *.
  all: destruct (low_stack base); cbn [negb andb].
  all: repeat (case_if; cbn [bind]); try words; split; try words.
  all: do 2 f_equal; words.
Qed.

Lemma plan_layout_complete mh esuph slen base l :
  wf_mh mh -> fits16 slen ->
  header_base mh esuph base -> planned mh slen base l ->
  plan_layout mh esuph slen = Ok l.
Proof.
  intros Hm Hs Hb Hp.
  pose proof (u16_range (dseg mh)). pose proof (u16_range (bseg mh)).
  assert (0 <= base) as Hbase.
  { destruct Hb as [|n base rv _ Eb]; [lia|].
    apply plan_base_ok in Eb as (-> & _). words. }
  unfold plan_layout. fold (plan_min mh base).
  destruct Hb as [Ek | n base rv Ek Eb]; rewrite Ek, ?Eb; cbn [bind].
  - destruct (planned_tail mh slen 0 EXEC_MINIX_HDR_SIZE l Hm Hs Hbase Hp) as [E Hlt].
    unfold plan_min in *. repeat case_if; try lia. exact E.
  - destruct (planned_tail mh slen base rv l Hm Hs Hbase Hp) as [E Hlt].
    unfold plan_min in *. repeat case_if; try words. exact E.
Qed.

Lemma planned_layout_ok mh esuph slen base l :
  wf_mh mh -> fits16 slen ->
  header_base mh esuph base -> planned mh slen base l -> layout_ok mh slen l.
Proof.
  intros Hm Hs Hb Hp.
  pose proof (exec_stack_range mh Hm). pose proof (exec_heap_range mh Hm).
  pose proof INIT_HEAP_pos. pose proof INIT_STACK_pos. pose proof INIT_STACK_fits.
  pose proof (u16_range (dseg mh)). pose proof (u16_range (bseg mh)).
  assert (fits16 base /\ base mod 16 = 0 /\ (low_stack base = true -> base <> 0))
    as (Hb1 & Hb2 & Hb3).
  { unfold low_stack. destruct Hb as [|n base rv _ Eb].
    - rewrite andb_false_r. conjs; [words | reflexivity | discriminate].
    - apply plan_base_ok in Eb as (-> & ? & _). conjs; [apply u16_range | assumption |].
      intros [_ Hn%negb_true_iff%Z.eqb_neq]%andb_true_iff. exact Hn. }
  unfold layout_ok.
  destruct Hp; cbn [l_len l_min_len l_stack l_base_data]; subst;
    unfold round16, plan_min in *; fold (u16 (dseg mh)) (u16 (bseg mh)) in *.
  all: destruct (low_stack base) eqn:El; conjs; try words; intros ->; now destruct Hb3.
Qed.

(** Why the planner fails: with an errno of its own, or with the count of
    the last [read] still in [retval]. *)
Lemma plan_layout_fail mh esuph slen e :
  wf_mh mh -> fits16 slen -> plan_layout mh esuph slen = Fail e ->
  e = - EINVAL \/ e = - EFBIG \/ e = - E2BIG \/ 0 <= e.
Proof.
  intros Hm Hs.
  apply (wp_fail_inv _ (fun _ => True)
           (fun e => e = - EINVAL \/ e = - EFBIG \/ e = - E2BIG \/ 0 <= e)).
  pose proof (exec_stack_range mh Hm). pose proof (exec_heap_range mh Hm).
  pose proof INIT_HEAP_pos. pose proof INIT_STACK_pos.
  pose proof (u16_range (dseg mh)). pose proof (u16_range (bseg mh)).
  assert (fits16 (chmem mh)) by apply Hm.
  unfold plan_layout. wp_step; auto. apply wp_bind.
  assert (forall base rv, 0 <= base ->
    rv = - EINVAL \/ 0 <= rv ->
    wp (if 65536 <=? dseg mh mod 65536 + bseg mh mod 65536 + base
        then Fail (- EINVAL)
        else bind (plan_version mh base slen
                     (dseg mh mod 65536 + bseg mh mod 65536 + base) rv)
               (fun '(len, stack) => bind (plan_round len) (fun len =>
                  Ok {| l_len := len;
                        l_min_len := dseg mh mod 65536 + bseg mh mod 65536 + base;
                        l_stack := stack; l_base_data := base |})))
      (fun _ => True)
      (fun e => e = - EINVAL \/ e = - EFBIG \/ e = - E2BIG \/ 0 <= e)) as Htail.
  { intros base rv Hb Hrv. wp_step; auto. apply wp_bind. unfold plan_version.
    repeat wp_step; [| |tauto].
    - apply plan_v1_wp; auto; try words. intros; apply wp_bind, plan_round_wp; cbn; auto.
    - apply plan_v0_wp; auto; try words; intros; apply wp_bind, plan_round_wp; cbn; auto. }
  destruct (exec_hlen_kind (hlen mh)) as [[|n]|] eqn:Ek; cbn [wp].
  - apply Htail; [lia | right; unfold EXEC_MINIX_HDR_SIZE; lia].
  - apply exec_hlen_kind_big in Ek as (_ & Hn & _).
    apply plan_base_wp; [|do 3 right; lia|auto].
    intros base -> _ _ _. apply Htail; [words | auto].
  - do 3 right. unfold EXEC_MINIX_HDR_SIZE; lia.
Qed.

End PlannerLemmas.

(** * Examples *)

(** The header of the design's scenario: 100 bytes of text, 50 of data, 30
    of bss, version 1, no [chmem], no [minstack]. *)
Definition hello_mh : minix_exec_hdr :=
  {| type := MINIX_SPLITID; hlen := 32; reserved1 := 0; version := 1;
     tseg := 100; dseg := 50; bseg := 30; entry := 0; chmem := 0;
     minstack := 0; syms := 0 |}.

(** The same program linked by the old ld86: version 0, [chmem] the whole
    size. *)
Definition legacy_mh (total : Z) : minix_exec_hdr :=
  {| type := MINIX_SPLITID; hlen := 32; reserved1 := 0; version := 0;
     tseg := 100; dseg := 50; bseg := 30; entry := 0; chmem := total;
     minstack := 0; syms := 0 |}.

Lemma hello_mh_wf : wf_mh hello_mh.
Proof. decide_closed. Qed.

Lemma legacy_mh_wf total : fits16 total -> wf_mh (legacy_mh total).
Proof.
  unfold wf_mh; cbn. unfold MINIX_SPLITID. intros; conjs; words.
Qed.

(** * Properties of the planner *)

Section PlannerProperties.
Context `{BuildConfig}.

(** C1.  The planner returns exactly the layouts of the contract: for a
    well-formed header and a 16-bit argument length, [exec_layout] returns
    [l] if and only if [l] is the plan ([planned]) for a relocation base
    the header allows ([header_base]).  The sums of [planned] are exact, so
    the 16-bit code never returns a wrapped length. *)
Theorem exec_layout_iff_planned mh esuph slen l :
  wf_mh mh -> fits16 slen ->
  exec_layout mh esuph slen = Ok l <->
  exists base, header_base mh esuph base /\ planned mh slen base l.
Proof.
  intros Hm Hs. rewrite exec_layout_plan by assumption. split.
  - intros E. exists (l_base_data l). now apply plan_layout_sound.
  - intros (base & Hb & Hp). eapply plan_layout_complete; eauto.
Qed.

(** C11.  Every layout the planner returns satisfies the invariant
    [layout_ok]: the length is a multiple of 16, at most 0xFFF0 and at
    least data + bss + base; the base is a whole number of paragraphs; and
    without a base, data, bss, stack and arguments fit in the segment. *)
Theorem exec_layout_invariant mh esuph slen l :
  wf_mh mh -> fits16 slen ->
  exec_layout mh esuph slen = Ok l -> layout_ok mh slen l.
Proof.
  intros Hm Hs E. rewrite exec_layout_plan in E by assumption.
  apply plan_layout_sound in E as [Hb Hp]; auto.
  eapply planned_layout_ok; eauto.
Qed.

(** C14.  Overflow is an error, never a wrapped value: for a Minix header
    of version 1 with a heap below the 0xFFF0 sentinel, the planner
    succeeds exactly when data + bss + stack + arguments + heap, rounded
    up, fits 16 bits, and then returns that exact sum rounded up; otherwise
    it fails with EINVAL, EFBIG or E2BIG. *)
Theorem exec_layout_v1_exact mh esuph slen :
  wf_mh mh -> fits16 slen ->
  hlen mh = 32 -> version mh = 1 -> exec_heap mh < 0xFFF0 ->
  let min_len := u16 (dseg mh) + u16 (bseg mh) in
  let total := min_len + exec_stack mh + slen + exec_heap mh in
  (total + 15 < 65536 ->
   exec_layout mh esuph slen =
   Ok {| l_len := round16 total; l_min_len := min_len;
         l_stack := exec_stack mh; l_base_data := 0 |}) /\
  (65536 <= total + 15 ->
   exists e, exec_layout mh esuph slen = Fail e /\
             (e = - EINVAL \/ e = - EFBIG \/ e = - E2BIG)).
Proof.
  intros Hm Hs Hh Hv Hheap min_len total. subst total min_len.
  pose proof (exec_stack_range mh Hm). pose proof (exec_heap_range mh Hm).
  pose proof (u16_range (dseg mh)). pose proof (u16_range (bseg mh)).
  rewrite exec_layout_plan by assumption.
  unfold plan_layout, plan_version, round16.
  rewrite (proj2 (exec_hlen_kind_minix _) Hh), Hv. cbn [bind].
  rewrite low_stack_0. unfold plan_v1, plan_round, u16 in *.
  split; intros Hfit; repeat (case_if; cbn [bind negb andb Z.eqb Pos.eqb]);
    try words; eauto 6.
  do 2 f_equal; words.
Qed.

(** C21.  The planner fails only with the errnos of the source: whatever
    the header, the value the system call returns for a failed plan
    ([exec_retval] of the value [retval] had at the jump) is -ENOEXEC,
    -EINVAL, -EFBIG or -E2BIG. *)
Theorem exec_layout_errno mh esuph slen e :
  wf_mh mh -> fits16 slen ->
  exec_layout mh esuph slen = Fail e ->
  In (exec_retval e) [- ENOEXEC; - EINVAL; - EFBIG; - E2BIG].
Proof.
  intros Hm Hs E. rewrite exec_layout_plan in E by assumption.
  apply plan_layout_fail in E; auto. unfold exec_retval, EINVAL, EFBIG, E2BIG in *.
  cbn [In]. case_if; lia.
Qed.

(** C25.  The legacy policy rejects a [chmem] that does not exceed data +
    bss: a version 0 Minix header with a non-zero [chmem] at most
    data + bss fails with -EINVAL (before any allocation: the planner
    allocates nothing). *)
Theorem exec_layout_v0_chmem_small mh esuph slen :
  wf_mh mh -> fits16 slen ->
  hlen mh = 32 -> version mh = 0 -> chmem mh <> 0 ->
  chmem mh <= u16 (dseg mh) + u16 (bseg mh) ->
  exec_layout mh esuph slen = Fail (- EINVAL).
Proof.
  intros Hm Hs Hh Hv Hc Hsmall.
  rewrite exec_layout_plan by assumption. unfold plan_layout, plan_version.
  rewrite (proj2 (exec_hlen_kind_minix _) Hh), Hv. cbn [bind].
  unfold plan_v0, u16 in *.
  repeat (case_if; cbn [bind negb Z.eqb]); first [reflexivity | lia].
Qed.

(** C26.  The legacy policy with a usable [chmem]: a version 0 Minix header
    whose [chmem] exceeds data + bss by at least the argument length gets
    exactly [chmem] rounded up, and no protected stack. *)
Theorem exec_layout_v0_chmem mh esuph slen :
  wf_mh mh -> fits16 slen ->
  hlen mh = 32 -> version mh = 0 ->
  u16 (dseg mh) + u16 (bseg mh) < chmem mh ->
  slen <= chmem mh - (u16 (dseg mh) + u16 (bseg mh)) ->
  chmem mh + 15 < 65536 ->
  exec_layout mh esuph slen =
  Ok {| l_len := round16 (chmem mh);
        l_min_len := u16 (dseg mh) + u16 (bseg mh);
        l_stack := 0; l_base_data := 0 |}.
Proof.
  intros Hm Hs Hh Hv Hbig Hargs Hfit.
  pose proof (u16_range (dseg mh)). pose proof (u16_range (bseg mh)).
  rewrite exec_layout_plan by assumption. unfold plan_layout, plan_version.
  rewrite (proj2 (exec_hlen_kind_minix _) Hh), Hv. cbn [bind].
  unfold plan_v0, plan_round, round16, u16 in *.
  repeat (case_if; cbn [bind negb Z.eqb]); try words. all: do 2 f_equal; lia.
Qed.

End PlannerProperties.


(** * Witnesses: the properties at concrete headers *)

Definition hello_layout : layout :=
  {| l_len := 8304; l_min_len := 80; l_stack := 4096; l_base_data := 0 |}.

Lemma exec_layout_iff_planned_witness :
  wf_mh hello_mh /\ fits16 20 /\
  (exec_layout hello_mh esuph_zero 20 = Ok hello_layout <->
   exists base, header_base hello_mh esuph_zero base /\
                planned hello_mh 20 base hello_layout).
Proof.
  split; [exact hello_mh_wf|]. split; [words|].
  apply (exec_layout_iff_planned hello_mh esuph_zero 20 hello_layout hello_mh_wf).
  words.
Defined.

Lemma exec_layout_invariant_witness :
  exec_layout hello_mh esuph_zero 20 = Ok hello_layout /\
  layout_ok hello_mh 20 hello_layout.
Proof.
  split; [reflexivity|].
  apply (exec_layout_invariant hello_mh esuph_zero 20 hello_layout hello_mh_wf);
    [words | reflexivity].
Defined.

Lemma exec_layout_v1_exact_witness :
  (50 + 30 + 4096 + 20 + 4096 + 15 < 65536 ->
   exec_layout hello_mh esuph_zero 20 = Ok hello_layout) /\
  (65536 <= 50 + 30 + 4096 + 20 + 4096 + 15 ->
   exists e, exec_layout hello_mh esuph_zero 20 = Fail e /\
             (e = - EINVAL \/ e = - EFBIG \/ e = - E2BIG)).
Proof.
  exact (exec_layout_v1_exact hello_mh esuph_zero 20 hello_mh_wf
           ltac:(words) eq_refl eq_refl eq_refl).
Defined.

Lemma exec_layout_errno_witness :
  exec_layout (legacy_mh 60) esuph_zero 20 = Fail (- EINVAL) /\
  In (exec_retval (- EINVAL)) [- ENOEXEC; - EINVAL; - EFBIG; - E2BIG].
Proof.
  split; [reflexivity|].
  apply (exec_layout_errno (legacy_mh 60) esuph_zero 20 (- EINVAL));
    [apply legacy_mh_wf; words | words | reflexivity].
Defined.

Lemma exec_layout_v0_chmem_small_witness :
  exec_layout (legacy_mh 60) esuph_zero 20 = Fail (- EINVAL).
Proof.
  apply (exec_layout_v0_chmem_small (legacy_mh 60) esuph_zero 20);
    [apply legacy_mh_wf; words | words | reflexivity | reflexivity
    | discriminate | vm_compute; discriminate].
Defined.

Lemma exec_layout_v0_chmem_witness :
  exec_layout (legacy_mh 200) esuph_zero 20 =
  Ok {| l_len := 208; l_min_len := 80; l_stack := 0; l_base_data := 0 |}.
Proof.
  apply (exec_layout_v0_chmem (legacy_mh 200) esuph_zero 20);
    [apply legacy_mh_wf; words | words | reflexivity | reflexivity
    | vm_compute; reflexivity | vm_compute; discriminate | reflexivity].
Defined.
