(* ===== verification/Farmem.v ===== *)
(** * Farmem: real-mode memory and the far-memory primitives

    The loader writes user segments through the primitives of
    arch/segment.h: [peekb], [pokeb], [peekw], [pokew], [fmemsetb] and
    [fmemcpyb], each taking an offset and a segment.  On the 8086 the byte
    at [seg:off] has the 20-bit linear address [seg * 16 + off]; offsets
    are 16 bits and wrap inside the segment, addresses wrap at one
    megabyte.  Memory is a finite map from linear addresses to bytes; an
    address never written reads 0, and a read yields a byte whatever the
    map holds.  Two memories with the same contents
    are [mem_equiv], and every primitive is [Proper] for it.

    The primitives are outside src/: they are modelled from their use in
    exec.c and the architecture (see the manifest). *)

From Stdlib Require Import ZArith Lia List Bool.
From stdpp Require Import base decidable option list gmap.
From S2P Require Import Prelude.

Local Open Scope Z_scope.

Notation mem := (gmap Z Z).

(** ** Addresses *)

Definition linear (seg off : Z) : Z := (u16 seg * 16 + u16 off) mod 1048576.

(** ** Bytes and words *)

Definition peek (m : mem) (a : Z) : Z := u8 (default 0 (m !! a)).

Definition peekb (off seg : Z) (m : mem) : Z := peek m (linear seg off).

Definition pokeb (off seg val : Z) (m : mem) : mem :=
  <[linear seg off := u8 val]> m.

Definition peekw (off seg : Z) (m : mem) : Z :=
  peekb off seg m + 256 * peekb (off + 1) seg m.

Definition pokew (off seg val : Z) (m : mem) : mem :=
  pokeb (off + 1) seg (u16 val / 256) (pokeb off seg (u16 val) m).

(** ** Blocks *)

(** [count] bytes [val] from [seg:off] on, ascending. *)
Fixpoint fmemsetb_n (count : nat) (off seg val : Z) (m : mem) : mem :=
  match count with
  | O => m
  | S n => fmemsetb_n n (off + 1) seg val (pokeb off seg val m)
  end.

Definition fmemsetb (off seg val count : Z) (m : mem) : mem :=
  fmemsetb_n (Z.to_nat count) off seg val m.

(** The bytes [bs] stored from [seg:off] on, ascending. *)
Fixpoint poke_bytes (off seg : Z) (bs : list Z) (m : mem) : mem :=
  match bs with
  | [] => m
  | b :: bs' => poke_bytes (off + 1) seg bs' (pokeb off seg b m)
  end.

(** The words [ws] stored from [seg:off] on. *)
Fixpoint poke_words (off seg : Z) (ws : list Z) (m : mem) : mem :=
  match ws with
  | [] => m
  | w :: ws' => poke_words (off + 2) seg ws' (pokew off seg w m)
  end.

(** The [count] bytes from [seg:off] on. *)
Fixpoint peek_bytes (count : nat) (off seg : Z) (m : mem) : list Z :=
  match count with
  | O => []
  | S n => peekb off seg m :: peek_bytes n (off + 1) seg m
  end.

(** [count] bytes copied from [sseg:soff] to [dseg:doff], ascending, one
    byte at a time (the copy is a [rep movsb]). *)
Fixpoint fmemcpyb_n (count : nat) (doff dseg soff sseg : Z) (m : mem) : mem :=
  match count with
  | O => m
  | S n =>
      fmemcpyb_n n (doff + 1) dseg (soff + 1) sseg
        (pokeb doff dseg (peekb soff sseg m) m)
  end.

Definition fmemcpyb (doff dseg soff sseg count : Z) (m : mem) : mem :=
  fmemcpyb_n (Z.to_nat count) doff dseg soff sseg m.

(** ** Equivalence of memories *)

Definition mem_equiv (m1 m2 : mem) : Prop := forall a, peek m1 a = peek m2 a.

#[export] Instance mem_equiv_equivalence : Equivalence mem_equiv.
Proof.
  split.
  - now intros m a.
  - intros m1 m2 E a. symmetry. apply E.
  - intros m1 m2 m3 E1 E2 a. now rewrite E1.
Qed.

(** [m1] and [m2] agree outside the addresses [A]. *)
Definition same_outside (A : Z -> Prop) (m1 m2 : mem) : Prop :=
  forall a, ~ A a -> peek m1 a = peek m2 a.

(** The addresses of the [n] bytes from [seg:off] on. *)
Definition in_block (seg off n : Z) (a : Z) : Prop :=
  exists i, 0 <= i < n /\ a = linear seg (off + i).

(** The 64 KiB that the offsets of a segment reach. *)
Definition in_segment (seg : Z) (a : Z) : Prop := in_block seg 0 65536 a.

(** ** Lemmas: addresses *)

Lemma linear_range seg off : 0 <= linear seg off < 1048576.
Proof. unfold linear. apply Z.mod_pos_bound. lia. Qed.

Lemma linear_u16_off seg off : linear seg (u16 off) = linear seg off.
Proof. unfold linear. now rewrite u16_idem. Qed.

Lemma linear_u16_seg seg off : linear (u16 seg) off = linear seg off.
Proof. unfold linear. now rewrite u16_idem. Qed.

(** A paragraph further in the segment register is 16 bytes further in
    the segment. *)
Lemma linear_paras seg paras off :
  0 <= u16 off + 16 * paras < 65536 ->
  linear (seg + paras) off = linear seg (off + 16 * paras).
Proof. intros Hr. unfold linear. words. Qed.

(** Distinct offsets of a segment are distinct addresses. *)
Lemma linear_inj_off seg off1 off2 :
  linear seg off1 = linear seg off2 -> u16 off1 = u16 off2.
Proof. unfold linear. words. Qed.

Lemma linear_next_ne seg off : linear seg (off + 1) <> linear seg off.
Proof. intros E%linear_inj_off. words. Qed.

(** ** Lemmas: bytes *)

Lemma peek_range m a : fits8 (peek m a).
Proof. apply u8_range. Qed.

Lemma peek_insert m a b v :
  peek (<[a := v]> m) b = if decide (a = b) then u8 v else peek m b.
Proof. unfold peek. rewrite lookup_insert. now case_decide. Qed.

Lemma peek_empty a : peek ∅ a = 0.
Proof. unfold peek. now rewrite lookup_empty. Qed.

Lemma peekb_pokeb m off seg off' seg' v :
  peekb off' seg' (pokeb off seg v m) =
  if decide (linear seg off = linear seg' off') then u8 v else peekb off' seg' m.
Proof. unfold peekb, pokeb. now rewrite peek_insert, u8_idem. Qed.

Lemma peekb_pokeb_same m off seg v : peekb off seg (pokeb off seg v m) = u8 v.
Proof. rewrite peekb_pokeb. now case_decide. Qed.

Lemma peek_pokeb_other m off seg v a :
  a <> linear seg off -> peek (pokeb off seg v m) a = peek m a.
Proof. intros Hne. unfold pokeb. rewrite peek_insert. case_decide; congruence. Qed.

Lemma peekb_range m off seg : fits8 (peekb off seg m).
Proof. apply peek_range. Qed.

Lemma pokeb_same_outside m off seg v :
  same_outside (eq (linear seg off)) (pokeb off seg v m) m.
Proof. intros a Ha. apply peek_pokeb_other. congruence. Qed.

(** ** Lemmas: words *)

Lemma peekw_pokew_same m off seg v : peekw off seg (pokew off seg v m) = u16 v.
Proof.
  unfold peekw, pokew. rewrite !peekb_pokeb.
  pose proof (linear_next_ne seg off).
  repeat case_decide; try congruence. words.
Qed.

Lemma peek_pokew_other m off seg v a :
  a <> linear seg off -> a <> linear seg (off + 1) ->
  peek (pokew off seg v m) a = peek m a.
Proof. intros. unfold pokew. now rewrite !peek_pokeb_other. Qed.

Lemma pokew_same_outside m off seg v :
  same_outside (in_block seg off 2) (pokew off seg v m) m.
Proof.
  intros a Ha. apply peek_pokew_other; intros ->; apply Ha.
  - exists 0. now rewrite Z.add_0_r.
  - exists 1. split; [lia | reflexivity].
Qed.

Lemma peekw_range m off seg : fits16 (peekw off seg m).
Proof.
  unfold peekw. pose proof (peekb_range m off seg).
  pose proof (peekb_range m (off + 1) seg). unfold fits8, fits16 in *. lia.
Qed.

(** A word read elsewhere is not changed by a word written. *)
Lemma peekw_pokew_other m off seg v off' seg' :
  ~ in_block seg off 2 (linear seg' off') ->
  ~ in_block seg off 2 (linear seg' (off' + 1)) ->
  peekw off' seg' (pokew off seg v m) = peekw off' seg' m.
Proof.
  intros H1 H2. unfold peekw, peekb.
  now rewrite !(pokew_same_outside m off seg v) by assumption.
Qed.

Lemma linear_u16_off_add seg off i : linear seg (u16 off + i) = linear seg (off + i).
Proof. unfold linear. now rewrite u16_add_l. Qed.

Lemma peekw_u16 m seg off : peekw (u16 off) seg m = peekw off seg m.
Proof. unfold peekw, peekb. now rewrite linear_u16_off, linear_u16_off_add. Qed.

Lemma linear_peekw_add m seg off i : peekw (u16 off + i) seg m = peekw (off + i) seg m.
Proof.
  unfold peekw, peekb. rewrite linear_u16_off_add, <- !Z.add_assoc.
  now rewrite linear_u16_off_add.
Qed.

Lemma pokew_u16 m seg off v : pokew (u16 off) seg v m = pokew off seg v m.
Proof. unfold pokew, pokeb. now rewrite linear_u16_off, linear_u16_off_add. Qed.

(** A word read is not changed by a word written two bytes or more
    away in the same segment. *)
Lemma peekw_pokew_apart m seg off off' v :
  u16 off' <> u16 (off - 1) -> u16 off' <> u16 off -> u16 off' <> u16 (off + 1) ->
  peekw off seg (pokew off' seg v m) = peekw off seg m.
Proof.
  intros H1 H2 H3. unfold peekw, pokew. rewrite !peekb_pokeb.
  repeat case_decide; try reflexivity;
    match goal with E : linear _ _ = linear _ _ |- _ =>
      apply linear_inj_off in E; exfalso; revert E H1 H2 H3; unfold u16; clear; intros; zlia
    end.
Qed.

Lemma in_segment_linear seg off : in_segment seg (linear seg off).
Proof.
  exists (u16 off). split; [apply u16_range|]. now rewrite Z.add_0_l, linear_u16_off.
Qed.

Lemma pokeb_in_segment m off seg v :
  same_outside (in_segment seg) (pokeb off seg v m) m.
Proof.
  intros a Ha. apply peek_pokeb_other. intros ->. apply Ha, in_segment_linear.
Qed.

Lemma pokew_in_segment m off seg v :
  same_outside (in_segment seg) (pokew off seg v m) m.
Proof.
  intros a Ha. unfold pokew. now rewrite !pokeb_in_segment.
Qed.

Lemma pokew_val_u16 m seg off v : pokew off seg (u16 v) m = pokew off seg v m.
Proof. unfold pokew. now rewrite u16_idem. Qed.

(** A word of a block, written: nothing changes outside the block. *)
Lemma pokew_in_block m seg off n i v :
  0 <= i -> i + 2 <= n ->
  same_outside (in_block seg off n) (pokew (off + i) seg v m) m.
Proof.
  intros Hi Hn a Ha. apply peek_pokew_other; intros ->; apply Ha.
  - exists i. split; [lia | reflexivity].
  - exists (i + 1). split; [lia | now rewrite Z.add_assoc].
Qed.

Lemma same_outside_refl A m : same_outside A m m.
Proof. now intros a _. Qed.

Lemma same_outside_trans A m1 m2 m3 :
  same_outside A m1 m2 -> same_outside A m2 m3 -> same_outside A m1 m3.
Proof. intros H1 H2 a Ha. now rewrite H1, H2. Qed.

(** ** Proper instances *)

#[export] Instance peek_proper : Proper (mem_equiv ==> eq ==> eq) peek.
Proof. intros m1 m2 E a ? <-. apply E. Qed.

#[export] Instance peekb_proper off seg : Proper (mem_equiv ==> eq) (peekb off seg).
Proof. intros m1 m2 E. apply E. Qed.

#[export] Instance peekw_proper off seg : Proper (mem_equiv ==> eq) (peekw off seg).
Proof. intros m1 m2 E. unfold peekw. now rewrite E. Qed.

#[export] Instance pokeb_proper off seg v :
  Proper (mem_equiv ==> mem_equiv) (pokeb off seg v).
Proof.
  intros m1 m2 E a. unfold pokeb. rewrite !peek_insert.
  case_decide; [reflexivity | apply E].
Qed.

#[export] Instance pokew_proper off seg v :
  Proper (mem_equiv ==> mem_equiv) (pokew off seg v).
Proof. intros m1 m2 E. unfold pokew. now rewrite E. Qed.

#[export] Instance fmemsetb_n_proper n off seg v :
  Proper (mem_equiv ==> mem_equiv) (fmemsetb_n n off seg v).
Proof.
  revert off; induction n as [|n IH]; intros off m1 m2 E; cbn; [exact E|].
  apply IH. now rewrite E.
Qed.

#[export] Instance fmemsetb_proper off seg v count :
  Proper (mem_equiv ==> mem_equiv) (fmemsetb off seg v count).
Proof. apply fmemsetb_n_proper. Qed.

#[export] Instance poke_bytes_proper off seg bs :
  Proper (mem_equiv ==> mem_equiv) (poke_bytes off seg bs).
Proof.
  revert off; induction bs as [|b bs IH]; intros off m1 m2 E; cbn; [exact E|].
  apply IH. now rewrite E.
Qed.
