(* ===== verification/Printk.v ===== *)
(** * Printk: the kernel's formatted console output (kernel/printk.c)

    [con_write] sends a buffer to the console driver one character at a
    time, a line feed preceded by a carriage return, and under
    [CONFIG_DCON_ANSI_PRINTK] each call preceded by an ANSI colour
    sequence that cycles through seven colours.  [numout] prints a 16- or
    32-bit unsigned number in a base, building the digits from the right
    in a 16-byte buffer.  [printk] walks a format string, with the
    conversions [%d %u %o %p %x %X %s %t %c %%] and the length letters [h]
    and [l]; [panic] prints a message and eight frames of the call chain
    and never returns.

    The console is the list of characters given to the driver's
    [con_charout], with the colour that is static in [con_write].  A
    format string is the list of its characters before the terminating
    NUL; arguments are read from memory at the pointer [p] that walks the
    caller's stack (kernel stack and kernel data are one segment, [kds]).
    Where the code would read a format beyond its terminator the model
    stops with [Overruns]; where it would loop for ever it stops with
    [Hangs]. *)

From Stdlib Require Import ZArith Lia List Bool Ascii String.
From stdpp Require Import base decidable option list gmap.
From S2P Require Import Prelude.
From S2P Require Import Config.
From S2P Require Import Farmem.

Local Open Scope Z_scope.

(** ** Characters *)

Definition ch (a : ascii) : Z := Z.of_nat (nat_of_ascii a).

Definition str (s : string) : list Z := map ch (list_ascii_of_string s).

Definition LF : Z := 10.
Definition CR : Z := 13.
Definition ESC : Z := 27.

(** ** The console *)

Record console := { con_out : list Z; colour : Z }.

Definition con_init : console := {| con_out := []; colour := ch "1" |}.

Definition con_charout (c : Z) (k : console) : console :=
  {| con_out := con_out k ++ [c]; colour := colour k |}.

Definition con_puts (cs : list Z) (k : console) : console :=
  {| con_out := con_out k ++ cs; colour := colour k |}.

Inductive outcome :=
  | Returns (k : console)
  | Overruns (k : console)
  | Hangs.

Section Printk.
Context `{BuildConfig}.

(** ** con_write *)

Definition con_colour (k : console) : console :=
  if CONFIG_DCON_ANSI_PRINTK then
    let c := if colour k =? ch "8" then ch "1" else colour k in
    let k := con_puts [ESC; ch "["; ch "3"; c; ch ";"; ch "4"; ch "0"; ch "m"] k in
    {| con_out := con_out k; colour := u8 (c + 1) |}
  else k.

Fixpoint con_write_loop (len : nat) (buf : list Z) (k : console) : console :=
  match len with
  | O => k
  | S n =>
      let c := hd 0 buf in
      let k := if c =? LF then con_charout CR k else k in
      con_write_loop n (tl buf) (con_charout c k)
  end.

Definition con_write (buf : list Z) (len : Z) (k : console) : console :=
  con_write_loop (Z.to_nat len) buf (con_colour k).

(** ** numout *)

Definition nstring : list Z := str "0123456789ABCDEF".

(** The digit loop: [room] is the number of bytes left of [buf] at and
    below [bp], [acc] the digits already stored above it. *)
Fixpoint numout_loop (room : nat) (base v : Z) (acc : list Z) : list Z :=
  match room with
  | O => acc
  | S n =>
      let c := u8 (v mod base) in
      let acc := nth (Z.to_nat c) nstring 0 :: acc in
      let v := v / base in
      if negb (v =? 0) then numout_loop n base v acc else acc
  end.

Definition numout_value (m : mem) (kds ptr len : Z) : Z :=
  if len =? 2 then peekw ptr kds m
  else peekw ptr kds m + 65536 * peekw (ptr + 2) kds m.

Definition numout (m : mem) (kds ptr len base : Z) (useSign : bool)
    (k : console) : console :=
  let v := numout_value m kds ptr len in
  let '(v, k) :=
    if useSign && (v <? 0) then (u32 (- v), con_write (str "-") 1 k)
    else (v, k) in
  let digits := numout_loop 15 base v [] in
  con_write digits (Z.of_nat (length digits)) k.

(** ** printk *)

(** A NUL-terminated string at [cp], each character given to [put];
    [None] when the segment holds no NUL, and the loop never ends. *)
Fixpoint puts_loop (fuel : nat) (put : Z -> console -> console)
    (rd : Z -> Z) (cp : Z) (k : console) : option console :=
  match fuel with
  | O => None
  | S n =>
      let c := rd cp in
      if c =? 0 then Some k else puts_loop n put rd (u16 (cp + 1)) (put c k)
  end.

(** A pointer has 65536 values: a string that has not ended after as many
    characters never ends. *)
Definition SEG_BYTES : nat := 65536.

(** The [switch] on the conversion character: the pointer and the console
    after it, [None] when a string never ends. *)
Definition printk_conv (m : mem) (kds fs : Z) (c len p : Z) (k : console) :
    option (Z * console) :=
  if (c =? ch "d") || (c =? ch "u") then
    Some (u16 (p + len), numout m kds p len 10 (c =? ch "d") k)
  else if (c =? ch "o") || (c =? ch "p") || (c =? ch "x") || (c =? ch "X") then
    Some (u16 (p + len), numout m kds p len (if c =? ch "o" then 8 else 16) false k)
  else if c =? ch "s" then
    k' ← puts_loop SEG_BYTES (fun c => con_write [c] 1) (fun cp => peekb cp kds m)
           (peekw p kds m) k;
    Some (u16 (p + 2), k')
  else if c =? ch "t" then
    k' ← puts_loop SEG_BYTES con_charout (fun cp => peekb cp fs m) (peekw p kds m) k;
    Some (u16 (p + 2), k')
  else if c =? ch "c" then
    Some (u16 (p + 2), con_write [peekb p kds m] 1 k)
  else if c =? ch "%" then Some (p, con_write (str "%") 1 k)
  else Some (p, con_write (str "?") 1 k).

(** The conversion met at the terminator of the format: the [switch]
    takes its default, and the loop goes on beyond the string. *)
Definition printk_end (k : console) : outcome :=
  Overruns (con_write (str "?") 1 k).

Fixpoint printk_loop (m : mem) (kds fs : Z) (fmt : list Z) (p : Z)
    (k : console) : outcome :=
  let conv c len rest :=
    match printk_conv m kds fs c len p k with
    | Some (p', k') => rest p' k'
    | None => Hangs
    end in
  match fmt with
  | [] => Returns k
  | c :: fmt1 =>
      if negb (c =? ch "%") then
        printk_loop m kds fs fmt1 p (con_write [c] 1 k)
      else
        match fmt1 with
        | [] => printk_end k
        | c1 :: fmt2 =>
            if c1 =? ch "h" then
              match fmt2 with
              | [] => printk_end k
              | c2 :: fmt3 => conv c2 2 (printk_loop m kds fs fmt3)
              end
            else if c1 =? ch "l" then
              match fmt2 with
              | [] => printk_end k
              | c2 :: fmt3 => conv c2 4 (printk_loop m kds fs fmt3)
              end
            else conv c1 2 (printk_loop m kds fs fmt2)
        end
  end.

(** [printk(fmt, a1, ...)] with the arguments at [p = &a1]. *)
Definition printk (m : mem) (kds fs : Z) (fmt : list Z) (p : Z)
    (k : console) : outcome :=
  printk_loop m kds fs fmt p k.

(** ** panic *)

(** A call that returned. *)
Definition returned (o : outcome) : option console :=
  match o with
  | Returns k => Some k
  | Overruns _ | Hangs => None
  end.

(** The string at [cp]: its characters before the NUL; [None] when the
    segment holds no NUL. *)
Fixpoint cstring (fuel : nat) (rd : Z -> Z) (cp : Z) : option (list Z) :=
  match fuel with
  | O => None
  | S n =>
      let c := rd cp in
      if c =? 0 then Some [] else cons c <$> cstring n rd (u16 (cp + 1))
  end.

(** The stack with [args] pushed below [sp]. *)
Definition pushed (m : mem) (kds : Z) (args : list Z) (sp : Z) : mem :=
  poke_words (u16 (sp - 2 * Z.of_nat (length args))) kds args m.

(** [printk(fmt, args...)] called with the stack pointer at [sp]: the
    arguments are pushed below it, where they stay. *)
Definition printk_call (m : mem) (kds fs : Z) (fmt args : list Z) (sp : Z)
    (k : console) : outcome * mem :=
  let m := pushed m kds args sp in
  (printk m kds fs fmt (u16 (sp - 2 * Z.of_nat (length args))) k, m).

(** The same with the format a string of the kernel at [fmt]. *)
Definition printk_at (m : mem) (kds fs : Z) (fmt : Z) (args : list Z) (sp : Z)
    (k : console) : outcome * mem :=
  let m := pushed m kds args sp in
  match cstring SEG_BYTES (fun cp => peekb cp kds m) fmt with
  | Some cs => (printk m kds fs cs (u16 (sp - 2 * Z.of_nat (length args))) k, m)
  | None => (Hangs, m)
  end.

(** Lines 184-185: [n] parameters of the frame at [bp], from [bp[j]] on. *)
Fixpoint panic_params (n : nat) (j : Z) (m : mem) (kds fs sp bp : Z) (k : console)
    : option (console * mem) :=
  match n with
  | O => Some (k, m)
  | S n' =>
      let '(o, m) := printk_call m kds fs (str " %p") [peekw (bp + 2 * j) kds m] sp k in
      k ← returned o;
      panic_params n' (j + 1) m kds fs sp bp k
  end.

(** Lines 180-187: [n] frames of the chain that starts at [bp], numbered
    from [i]. *)
Fixpoint panic_frames (n : nat) (i : Z) (m : mem) (kds fs sp bp : Z) (k : console)
    : option (console * mem) :=
  match n with
  | O => Some (k, m)
  | S n' =>
      let '(o, m) := printk_call m kds fs (str "(%u) ") [i] sp k in
      k ← returned o;
      let '(o, m) :=
        printk_call m kds fs (str "ret addr = %p params = ") [peekw (bp + 2) kds m] sp k in
      k ← returned o;
      let bp := peekw bp kds m in
      '(k, m) ← panic_params 6 2 m kds fs sp bp k;
      let '(o, m) := printk_call m kds fs [LF] [] sp k in
      k ← returned o;
      panic_frames n' (i + 1) m kds fs sp bp k
  end.

(** [panic(error, a1)], lines 172-190, in a frame at [bp] (two words
    below the address of [error]) with the stack pointer at [sp]: what the
    console holds when [panic] reaches its last loop, which it never
    leaves; [None] when a [printk] on the way does not return. *)
Definition panic (m : mem) (kds fs sp bp : Z) (error a1 : Z) (k : console)
    : option console :=
  let '(o, m) := printk_call m kds fs (LF :: str "panic: ") [] sp k in
  k ← returned o;
  let '(o, m) := printk_at m kds fs error [a1] sp k in
  k ← returned o;
  let '(o, m) := printk_call m kds fs (LF :: str "apparant call stack:" ++ [LF]) [] sp k in
  k ← returned o;
  fst <$> panic_frames 8 0 m kds fs sp bp k.

(** [kernel_restarted], lines 192-195: [panic] with the message at [msg]
    and, for [a1], the word the caller left where the second argument
    would be. *)
Definition kernel_restarted (m : mem) (kds fs sp bp : Z) (msg : Z) (k : console)
    : option console :=
  panic m kds fs sp bp msg (peekw (bp + 6) kds m) k.

(** ** redirect_main *)

(** [redirect_main] stores a near jump to [kernel_restarted] (at offset
    [restarted] of the kernel code) through [pokeb] and [pokew], with the
    arguments in the order the source gives them. *)
Definition redirect_main (cs restarted : Z) (m : mem) : mem :=
  pokew cs 1 (u16 restarted - 3) (pokeb cs 0 0xe9 m).

End Printk.

(** ** What the console receives: reference definitions *)

(** A buffer as the console receives it: CR before every LF. *)
Definition crlf (cs : list Z) : list Z :=
  flat_map (fun c => if c =? LF then [CR; c] else [c]) cs.

(** The value of a digit of [nstring], and of a string of digits. *)
Definition digit_value (c : Z) : Z :=
  if (ch "0" <=? c) && (c <=? ch "9") then c - ch "0" else c - ch "A" + 10.

Definition digits_value (base : Z) (ds : list Z) : Z :=
  fold_left (fun a d => a * base + digit_value d) ds 0.

(** The colour is one of the digits ['1'] to ['8']. *)
Definition colour_ok (k : console) : Prop := ch "1" <= colour k <= ch "8".

(** A format is complete when no conversion is cut by its end. *)
Fixpoint fmt_complete (fmt : list Z) : bool :=
  match fmt with
  | [] => true
  | c :: fmt1 =>
      if negb (c =? ch "%") then fmt_complete fmt1
      else
        match fmt1 with
        | [] => false
        | c1 :: fmt2 =>
            if (c1 =? ch "h") || (c1 =? ch "l") then
              match fmt2 with
              | [] => false
              | _ :: fmt3 => fmt_complete fmt3
              end
            else fmt_complete fmt2
        end
  end.

(** A format has no string conversion when no [%s] or [%t] is in it. *)
Fixpoint fmt_no_string (fmt : list Z) : bool :=
  match fmt with
  | [] => true
  | c :: fmt1 =>
      if negb (c =? ch "%") then fmt_no_string fmt1
      else
        match fmt1 with
        | [] => true
        | c1 :: fmt2 =>
            if (c1 =? ch "h") || (c1 =? ch "l") then
              match fmt2 with
              | [] => true
              | c2 :: fmt3 =>
                  negb ((c2 =? ch "s") || (c2 =? ch "t")) && fmt_no_string fmt3
              end
            else negb ((c1 =? ch "s") || (c1 =? ch "t")) && fmt_no_string fmt2
        end
  end.

Definition outcome_ok (o : outcome) : Prop :=
  match o with
  | Returns k | Overruns k => colour_ok k
  | Hangs => True
  end.

(** [out] put before what a console holds. *)
Definition prepend (out : list Z) (k : console) : console :=
  {| con_out := out ++ con_out k; colour := colour k |}.

Definition outcome_map (f : console -> console) (o : outcome) : outcome :=
  match o with
  | Returns k => Returns (f k)
  | Overruns k => Overruns (f k)
  | Hangs => Hangs
  end.

(** ** Lemmas: the console *)

Lemma console_eq k1 k2 :
  con_out k1 = con_out k2 -> colour k1 = colour k2 -> k1 = k2.
Proof. destruct k1, k2. cbn. now intros -> ->. Qed.

Lemma con_puts_nil k : con_puts [] k = k.
Proof. apply console_eq; cbn; [apply app_nil_r | reflexivity]. Qed.

Lemma con_puts_app cs1 cs2 k : con_puts cs2 (con_puts cs1 k) = con_puts (cs1 ++ cs2) k.
Proof. apply console_eq; cbn; [now rewrite app_assoc | reflexivity]. Qed.

Lemma con_charout_puts c k : con_charout c k = con_puts [c] k.
Proof. reflexivity. Qed.

Lemma crlf_app cs1 cs2 : crlf (cs1 ++ cs2) = crlf cs1 ++ crlf cs2.
Proof. apply flat_map_app. Qed.

Lemma crlf_cons c cs : crlf (c :: cs) = (if c =? LF then [CR; c] else [c]) ++ crlf cs.
Proof. reflexivity. Qed.

(** Without a line feed nothing is added. *)
Lemma crlf_plain cs : Forall (fun c => c <> LF) cs -> crlf cs = cs.
Proof.
  induction 1 as [|c cs Hc _ IH]; [reflexivity|].
  rewrite crlf_cons, IH. now destruct (Z.eqb_spec c LF).
Qed.

Lemma crlf_length cs : (length cs <= length (crlf cs) <= 2 * length cs)%nat.
Proof.
  induction cs as [|c cs IH]; [cbn; lia|].
  rewrite crlf_cons, length_app. destruct (c =? LF); cbn [length]; lia.
Qed.

Section PrintkLemmas.
Context `{BuildConfig}.

(** The loop of [con_write] over a whole buffer sends it with its line
    ends translated. *)
Lemma con_write_loop_crlf buf k :
  con_write_loop (length buf) buf k = con_puts (crlf buf) k.
Proof.
  revert k; induction buf as [|c buf IH]; intros k; cbn [length con_write_loop].
  - now rewrite con_puts_nil.
  - cbn [hd tl]. rewrite IH, crlf_cons.
    destruct (c =? LF); now rewrite !con_charout_puts, !con_puts_app.
Qed.

Lemma con_colour_plain k : CONFIG_DCON_ANSI_PRINTK = false -> con_colour k = k.
Proof. unfold con_colour. now intros ->. Qed.

Lemma con_colour_ok k : colour_ok k -> colour_ok (con_colour k).
Proof.
  unfold colour_ok, con_colour. intros Hk.
  destruct CONFIG_DCON_ANSI_PRINTK; [|exact Hk]. cbn [colour].
  change (ch "1") with 49 in *. change (ch "8") with 56 in *.
  destruct (Z.eqb_spec (colour k) 56); words.
Qed.

Lemma con_write_loop_colour n buf k :
  colour (con_write_loop n buf k) = colour k.
Proof.
  revert buf k; induction n as [|n IH]; intros buf k; [reflexivity|].
  cbn [con_write_loop]. rewrite IH. now destruct (hd 0 buf =? LF).
Qed.

Lemma con_write_ok buf len k : colour_ok k -> colour_ok (con_write buf len k).
Proof.
  intros Hk. unfold con_write, colour_ok.
  rewrite con_write_loop_colour. now apply con_colour_ok.
Qed.

End PrintkLemmas.

(** ** Lemmas: digits *)

Lemma nstring_digit d :
  0 <= d < 16 -> digit_value (nth (Z.to_nat d) nstring 0) = d.
Proof.
  intros Hd. rewrite <- (Z2Nat.id d) at 2 by lia.
  assert (Hn : (Z.to_nat d < 16)%nat) by lia.
  revert Hn. generalize (Z.to_nat d) as n. intros n Hn.
  do 16 (destruct n as [|n]; [reflexivity|]). lia.
Qed.

Lemma nstring_char d :
  0 <= d < 16 -> ch "0" <= nth (Z.to_nat d) nstring 0 <= ch "F".
Proof.
  intros Hd. assert (Hn : (Z.to_nat d < 16)%nat) by lia.
  revert Hn. generalize (Z.to_nat d) as n. intros n Hn.
  do 16 (destruct n as [|n]; [vm_compute; split; discriminate|]). lia.
Qed.

Lemma digits_value_snoc base ds d :
  digits_value base (ds ++ [d]) = digits_value base ds * base + digit_value d.
Proof. unfold digits_value. now rewrite fold_left_app. Qed.

(** The digits already stored play no part in the loop. *)
Lemma numout_loop_acc room base v acc :
  numout_loop room base v acc = numout_loop room base v [] ++ acc.
Proof.
  revert v acc; induction room as [|n IH]; intros v acc; [reflexivity|].
  cbn [numout_loop]. destruct (negb (v / base =? 0)); [|reflexivity].
  rewrite IH, (IH _ [_]). now rewrite <- app_assoc.
Qed.

Lemma numout_loop_step n base v :
  numout_loop (S n) base v [] =
  (if negb (v / base =? 0) then numout_loop n base (v / base) [] else []) ++
  [nth (Z.to_nat (u8 (v mod base))) nstring 0].
Proof.
  cbn [numout_loop]. destruct (negb (v / base =? 0)); [|reflexivity].
  apply numout_loop_acc.
Qed.

Section Digits.
Context (base : Z) (Hbase : 2 <= base <= 16).

Lemma digit_of_mod v : 0 <= v -> 0 <= u8 (v mod base) < 16 /\ u8 (v mod base) = v mod base.
Proof using Hbase. intros Hv. pose proof (Z.mod_pos_bound v base). words. Qed.

(** The digits of a number that fits the buffer read back as the
    number. *)
Lemma numout_loop_value room v :
  0 <= v < base ^ Z.of_nat (S room) ->
  digits_value base (numout_loop (S room) base v []) = v.
Proof using Hbase.
  revert v; induction room as [|n IH]; intros v Hv;
    rewrite numout_loop_step, digits_value_snoc;
    destruct (digit_of_mod v) as [Hd Hu]; try lia;
    rewrite nstring_digit, Hu by lia.
  - change (base ^ Z.of_nat 1) with (base ^ 1) in Hv. rewrite Z.pow_1_r in Hv.
    rewrite Z.div_small, Z.mod_small by lia. case_if; cbn; lia.
  - rewrite Nat2Z.inj_succ, Z.pow_succ_r in Hv by lia.
    case_if.
    + cbn [digits_value fold_left]. pose proof (Z.div_mod v base). lia.
    + rewrite IH; [pose proof (Z.div_mod v base); lia|].
      split; [apply Z.div_pos; lia | apply Z.div_lt_upper_bound; lia].
Qed.

Lemma numout_loop_chars room v :
  0 <= v -> Forall (fun c => ch "0" <= c <= ch "F") (numout_loop room base v []).
Proof using Hbase.
  revert v; induction room as [|n IH]; intros v Hv; [constructor|].
  rewrite numout_loop_step. apply Forall_app. split.
  - case_if; [constructor | apply IH, Z.div_pos; lia].
  - constructor; [|constructor]. apply nstring_char, digit_of_mod, Hv.
Qed.

Lemma numout_loop_length room v :
  (1 <= length (numout_loop (S room) base v []) <= S room)%nat.
Proof using Type.
  revert v; induction room as [|n IH]; intros v; rewrite numout_loop_step, length_app.
  - case_if; cbn; lia.
  - case_if; [| specialize (IH (v / base))]; cbn [length] in *; lia.
Qed.

Lemma nstring_zero d : 0 <= d < 16 -> nth (Z.to_nat d) nstring 0 = ch "0" -> d = 0.
Proof using Type. intros Hd E. now rewrite <- (nstring_digit d), E. Qed.

Lemma hd_app_nonempty (l1 l2 : list Z) : (1 <= length l1)%nat -> hd 0 (l1 ++ l2) = hd 0 l1.
Proof using Type. destruct l1; cbn; [lia | reflexivity]. Qed.

(** No leading zero, but for the number 0. *)
Lemma numout_loop_head room v :
  0 < v < base ^ Z.of_nat (S room) ->
  hd 0 (numout_loop (S room) base v []) <> ch "0".
Proof using Hbase.
  revert v; induction room as [|n IH]; intros v Hv; rewrite numout_loop_step;
    destruct (digit_of_mod v) as [Hd Hu]; try lia.
  - change (base ^ Z.of_nat 1) with (base ^ 1) in Hv. rewrite Z.pow_1_r in Hv.
    rewrite Z.div_small by lia. cbn. intros E%nstring_zero; [|lia].
    rewrite Hu, Z.mod_small in E; lia.
  - rewrite Nat2Z.inj_succ, Z.pow_succ_r in Hv by lia.
    pose proof (Z.div_mod v base). case_if.
    + cbn. intros E%nstring_zero; nia.
    + rewrite hd_app_nonempty by apply numout_loop_length. apply IH.
      split; [|apply Z.div_lt_upper_bound; lia].
      pose proof (Z.div_pos v base). lia.
Qed.

End Digits.

(** ** Lemmas: numout and printk *)

Lemma prepend_out k : k = prepend (con_out k) {| con_out := []; colour := colour k |}.
Proof. apply console_eq; cbn; [now rewrite app_nil_r | reflexivity]. Qed.

Lemma con_puts_frame out cs k : con_puts cs (prepend out k) = prepend out (con_puts cs k).
Proof. apply console_eq; cbn; [now rewrite app_assoc | reflexivity]. Qed.

Lemma con_charout_frame out c k :
  con_charout c (prepend out k) = prepend out (con_charout c k).
Proof. apply con_puts_frame. Qed.

Lemma printk_base_room base : In base [8; 10; 16] -> 2 <= base <= 16 /\ 4294967296 <= base ^ 15.
Proof. cbn. intros [<-|[<-|[<-|[]]]]; split; lia. Qed.

Lemma digit_char_plain ds :
  Forall (fun c => ch "0" <= c <= ch "F") ds -> crlf ds = ds.
Proof.
  intros Hds. apply crlf_plain. eapply Forall_impl; [exact Hds|].
  intros c. change (ch "0") with 48. unfold LF. lia.
Qed.

(** The cases of [printk_loop], by induction on the length of the format:
    the empty format, a plain character, a conversion cut by the end of
    the format (three times), and a conversion with [h], with [l] and
    without a length. *)
Ltac printk_induction fmt IH :=
  induction fmt as [fmt IH] using list_length_ind;
  let c := fresh "c" in
  let fmt1 := fresh "fmt" in
  destruct fmt as [|c fmt1]; cbn [printk_loop fmt_complete fmt_no_string];
  [ | destruct (negb (c =? ch "%"));
      [ | let c1 := fresh "c" in
          let fmt2 := fresh "fmt" in
          destruct fmt1 as [|c1 fmt2];
          [ | destruct (c1 =? ch "h"); [ | destruct (c1 =? ch "l") ];
              [ destruct fmt2 as [|? ?] | destruct fmt2 as [|? ?] | ] ] ] ];
  cbv beta iota; cbn [orb].

Section NumoutLemmas.
Context `{BuildConfig}.

Lemma numout_value_range m kds ptr len : fits32 (numout_value m kds ptr len).
Proof.
  unfold numout_value. pose proof (peekw_range m ptr kds).
  pose proof (peekw_range m (ptr + 2) kds). case_if; words.
Qed.

(** The sign test of [numout] is dead: [v] is unsigned. *)
Lemma numout_sign m kds ptr len base useSign k :
  numout m kds ptr len base useSign k =
  let ds := numout_loop 15 base (numout_value m kds ptr len) [] in
  con_write ds (Z.of_nat (length ds)) k.
Proof.
  unfold numout. pose proof (numout_value_range m kds ptr len) as Hv.
  destruct (Z.ltb_spec (numout_value m kds ptr len) 0); [unfold fits32 in Hv; lia|].
  now rewrite andb_false_r.
Qed.

Lemma con_write_crlf buf k :
  CONFIG_DCON_ANSI_PRINTK = false ->
  con_write buf (Z.of_nat (length buf)) k = con_puts (crlf buf) k.
Proof.
  intros Hc. unfold con_write.
  now rewrite Nat2Z.id, con_colour_plain, con_write_loop_crlf.
Qed.

Lemma con_write_char c k :
  CONFIG_DCON_ANSI_PRINTK = false -> con_write [c] 1 k = con_puts (crlf [c]) k.
Proof. apply (con_write_crlf [c]). Qed.

Lemma numout_ok m kds ptr len base useSign k :
  colour_ok k -> colour_ok (numout m kds ptr len base useSign k).
Proof. intros Hk. rewrite numout_sign. now apply con_write_ok. Qed.

Lemma puts_loop_ok fuel put rd cp k k' :
  (forall c k, colour_ok k -> colour_ok (put c k)) ->
  colour_ok k -> puts_loop fuel put rd cp k = Some k' -> colour_ok k'.
Proof.
  intros Hput. revert cp k; induction fuel as [|n IH]; intros cp k Hk; [discriminate|].
  cbn [puts_loop]. case_if; [intros [= <-]; exact Hk|]. apply IH, Hput, Hk.
Qed.

Lemma printk_conv_ok m kds fs c len p k p' k' :
  colour_ok k -> printk_conv m kds fs c len p k = Some (p', k') -> colour_ok k'.
Proof.
  intros Hk. unfold printk_conv.
  destruct (_ || _); [intros [= <- <-]; now apply numout_ok|].
  destruct (_ || _); [intros [= <- <-]; now apply numout_ok|].
  destruct (c =? ch "s").
  { intros (k1 & E & [= <- <-])%bind_Some. revert E.
    apply puts_loop_ok; [intros; now apply con_write_ok | exact Hk]. }
  destruct (c =? ch "t").
  { intros (k1 & E & [= <- <-])%bind_Some. revert E. now apply puts_loop_ok. }
  destruct (c =? ch "c"); [intros [= <- <-]; now apply con_write_ok|].
  destruct (c =? ch "%"); intros [= <- <-]; now apply con_write_ok.
Qed.

(** A conversion other than a string always returns. *)
Lemma printk_conv_some m kds fs c len p k :
  (c =? ch "s") || (c =? ch "t") = false ->
  is_Some (printk_conv m kds fs c len p k).
Proof.
  intros [Hs Ht]%orb_false_elim. unfold printk_conv. rewrite Hs, Ht.
  destruct (_ || _); [eexists; reflexivity|].
  destruct (_ || _); [eexists; reflexivity|].
  destruct (c =? ch "c"); [eexists; reflexivity|].
  destruct (c =? ch "%"); eexists; reflexivity.
Qed.

(** What the console holds plays no part: every routine only appends. *)
Lemma con_colour_frame out k : con_colour (prepend out k) = prepend out (con_colour k).
Proof.
  unfold con_colour. destruct CONFIG_DCON_ANSI_PRINTK; [|reflexivity].
  apply console_eq; cbn; [now rewrite app_assoc | reflexivity].
Qed.

Lemma con_write_loop_frame out n buf k :
  con_write_loop n buf (prepend out k) = prepend out (con_write_loop n buf k).
Proof.
  revert buf k; induction n as [|n IH]; intros buf k; [reflexivity|].
  cbn [con_write_loop]. destruct (hd 0 buf =? LF);
    now rewrite ?con_charout_frame, IH.
Qed.

Lemma con_write_frame out buf len k :
  con_write buf len (prepend out k) = prepend out (con_write buf len k).
Proof. unfold con_write. now rewrite con_colour_frame, con_write_loop_frame. Qed.

Lemma numout_frame out m kds ptr len base useSign k :
  numout m kds ptr len base useSign (prepend out k) =
  prepend out (numout m kds ptr len base useSign k).
Proof. rewrite !numout_sign. apply con_write_frame. Qed.

Lemma puts_loop_frame out fuel put rd cp k :
  (forall c k, put c (prepend out k) = prepend out (put c k)) ->
  puts_loop fuel put rd cp (prepend out k) = prepend out <$> puts_loop fuel put rd cp k.
Proof.
  intros Hput. revert cp k; induction fuel as [|n IH]; intros cp k; [reflexivity|].
  cbn [puts_loop]. case_if; [reflexivity|]. now rewrite Hput, IH.
Qed.

Lemma printk_conv_frame out m kds fs c len p k :
  printk_conv m kds fs c len p (prepend out k) =
  prod_map id (prepend out) <$> printk_conv m kds fs c len p k.
Proof.
  unfold printk_conv.
  rewrite !numout_frame, !con_write_frame, !puts_loop_frame
    by (intros; apply con_write_frame || apply con_charout_frame).
  destruct (_ || _); [reflexivity|]. destruct (_ || _); [reflexivity|].
  destruct (c =? ch "s"); [now destruct puts_loop|].
  destruct (c =? ch "t"); [now destruct puts_loop|].
  destruct (c =? ch "c"); [reflexivity|]. now destruct (c =? ch "%").
Qed.

Lemma printk_step_frame out m kds fs c len p k (rest : Z -> console -> outcome) :
  (forall p k, rest p (prepend out k) = outcome_map (prepend out) (rest p k)) ->
  match printk_conv m kds fs c len p (prepend out k) with
  | Some (p', k') => rest p' k'
  | None => Hangs
  end =
  outcome_map (prepend out)
    match printk_conv m kds fs c len p k with
    | Some (p', k') => rest p' k'
    | None => Hangs
    end.
Proof.
  intros Hrest. rewrite printk_conv_frame.
  destruct printk_conv as [[p' k']|]; [apply Hrest | reflexivity].
Qed.

Lemma printk_loop_frame out m kds fs fmt p k :
  printk_loop m kds fs fmt p (prepend out k) =
  outcome_map (prepend out) (printk_loop m kds fs fmt p k).
Proof.
  revert p k. printk_induction fmt IH; intros p k;
    unfold printk_end; rewrite ?con_write_frame; try reflexivity;
    try apply printk_step_frame; intros; apply IH; cbn; lia.
Qed.

Lemma printk_loop_ok m kds fs fmt p k :
  colour_ok k -> outcome_ok (printk_loop m kds fs fmt p k).
Proof.
  revert p k. printk_induction fmt IH; intros p k Hk;
    try (apply IH; [cbn; lia | now apply con_write_ok]);
    try (now apply con_write_ok); try exact Hk.
  all: destruct printk_conv as [[p' k']|] eqn:E; [|exact I].
  all: apply IH; [cbn; lia | eapply printk_conv_ok; eassumption].
Qed.

(** A complete format without string conversions is printed to its
    end. *)
Lemma printk_loop_returns m kds fs fmt p k :
  fmt_complete fmt = true -> fmt_no_string fmt = true ->
  exists k', printk_loop m kds fs fmt p k = Returns k'.
Proof.
  revert p k. printk_induction fmt IH; intros p k; try discriminate;
    try (intros; first [eexists; reflexivity | apply IH; [cbn; lia | assumption..]]).
  all: intros Hc [Hs Hn]%andb_prop; apply negb_true_iff in Hs.
  all: match goal with
    | |- context [printk_conv ?m ?kds ?fs ?c ?len ?p ?k] =>
        destruct (printk_conv_some m kds fs c len p k Hs) as [[p' k'] ->]
    end; apply IH; cbn; auto; lia.
Qed.

(** A format cut in a conversion is never printed to its end. *)
Lemma printk_loop_cut m kds fs fmt p k k' :
  fmt_complete fmt = false -> printk_loop m kds fs fmt p k <> Returns k'.
Proof.
  revert p k. printk_induction fmt IH; intros p k; try discriminate;
    try (intros; apply IH; [cbn; lia | assumption]).
  all: intros Hc; destruct printk_conv as [[p' k1]|]; try discriminate;
    apply IH; cbn; auto; lia.
Qed.

End NumoutLemmas.

(** ** Properties *)

(** ** Lemmas: panic *)

Section PrintkCall.
Context `{BuildConfig}.

(** A call with a complete format without strings returns. *)
Lemma printk_call_returns m kds fs fmt args sp k :
  fmt_complete fmt = true -> fmt_no_string fmt = true ->
  exists k', printk_call m kds fs fmt args sp k = (Returns k', pushed m kds args sp).
Proof.
  intros Hc Hn. unfold printk_call, printk.
  destruct (printk_loop_returns (pushed m kds args sp) kds fs fmt
              (u16 (sp - 2 * Z.of_nat (length args))) k Hc Hn) as [k' ->].
  now exists k'.
Qed.

End PrintkCall.

(** The next call of [printk] with a format of [panic] returns. *)
Ltac panic_step :=
  match goal with
  | |- context [printk_call ?m ?kds ?fs ?fmt ?args ?sp ?k] =>
      let E := fresh "E" in
      destruct (printk_call_returns m kds fs fmt args sp k eq_refl eq_refl) as [?k E];
      rewrite E; cbn [returned mbind option_bind]
  end.

Section PanicLemmas.
Context `{BuildConfig}.

Lemma panic_params_some n : forall j m kds fs sp bp k,
  is_Some (panic_params n j m kds fs sp bp k).
Proof.
  induction n as [|n IH]; intros; cbn [panic_params]; [now eexists|]. panic_step. apply IH.
Qed.

Lemma panic_frames_some n : forall i m kds fs sp bp k,
  is_Some (panic_frames n i m kds fs sp bp k).
Proof.
  induction n as [|n IH]; intros; cbn [panic_frames]; [now eexists|]. do 2 panic_step.
  match goal with
  | |- context [panic_params ?n ?j ?m ?kds ?fs ?sp ?bp ?k] =>
      destruct (panic_params_some n j m kds fs sp bp k) as [[? ?] ->]
  end.
  cbn [mbind option_bind]. panic_step. apply IH.
Qed.

End PanicLemmas.

Section PrintkProperties.
Context `{BuildConfig}.

(** C17.  [numout] prints the number it is given: for the bases of
    [printk] (8, 10, 16) and a console without colours, the characters
    sent are digits of [nstring], at most 11 of them, and read back in the
    base they are the 16- or 32-bit value at [ptr]; the 16-byte buffer
    never truncates. *)
Theorem numout_prints_value m kds ptr len base useSign k :
  CONFIG_DCON_ANSI_PRINTK = false -> In base [8; 10; 16] ->
  exists ds,
    numout m kds ptr len base useSign k = con_puts ds k /\
    digits_value base ds = numout_value m kds ptr len /\
    Forall (fun c => ch "0" <= c <= ch "F") ds /\
    (1 <= length ds <= 15)%nat.
Proof.
  intros Hc [Hb Hroom]%printk_base_room.
  pose proof (numout_value_range m kds ptr len) as Hv. unfold fits32 in Hv.
  exists (numout_loop 15 base (numout_value m kds ptr len) []).
  assert (Hds := numout_loop_chars base Hb 15 (numout_value m kds ptr len) ltac:(lia)).
  rewrite numout_sign. cbn zeta. rewrite con_write_crlf, digit_char_plain by assumption.
  split; [reflexivity|]. split; [|split; [exact Hds | apply numout_loop_length]].
  apply numout_loop_value; [exact Hb|]. change (Z.of_nat 15) with 15. lia.
Qed.

(** C38.  [%d] is not signed: the sign test of [numout] compares an
    unsigned long with 0, so a number is printed the same with and
    without [useSign], and -5 is printed as 65531. *)
Theorem numout_never_signed m kds ptr len base k :
  numout m kds ptr len base true k = numout m kds ptr len base false k /\
  con_out (numout (H := elks_config) (pokew 100 7 (-5) ∅) 7 100 2 10 true con_init)
  = str "65531".
Proof. split; [now rewrite !numout_sign | vm_compute; reflexivity]. Qed.

(** C27.  A format without [%] is written as it is, one [con_write] per
    character, each line feed preceded by a carriage return, and [printk]
    returns. *)
Theorem printk_plain m kds fs fmt p k :
  CONFIG_DCON_ANSI_PRINTK = false -> Forall (fun c => c <> ch "%") fmt ->
  printk m kds fs fmt p k = Returns (con_puts (crlf fmt) k).
Proof.
  intros Hc Hfmt. unfold printk. revert k.
  induction Hfmt as [|c fmt Hc1 _ IH]; intros k; cbn [printk_loop].
  - now rewrite con_puts_nil.
  - destruct (Z.eqb_spec c (ch "%")) as [|_]; [contradiction|]. cbn [negb].
    now rewrite IH, con_write_char, con_puts_app, <- crlf_app by exact Hc.
Qed.


(** A format with a field width, as exec.c uses for its entry message:
    [printk] has none, takes the [0] for an unknown conversion and prints
    the rest as it is, whatever the arguments are. *)
Lemma printk_entry_format m kds fs p k :
  CONFIG_DCON_ANSI_PRINTK = false ->
  printk m kds fs (str "ENTRY %04x:%04x" ++ [LF]) p k =
  Returns (con_puts (str "ENTRY ?4x:?4x" ++ [CR; LF]) k).
Proof.
  intros Hc. rewrite (prepend_out k) at 1. unfold printk. rewrite printk_loop_frame.
  destruct H, k. cbn in Hc. subst. vm_compute. reflexivity.
Qed.

(** C23.  [printk] returns exactly on the formats it can parse: a format
    in which no conversion is cut by the end of the string, and without
    [%s] and [%t], is printed to its end; a format cut in a conversion is
    not, whatever the arguments are (the loop reads on beyond the
    terminator). *)
Theorem printk_returns_iff_complete m kds fs fmt p k :
  fmt_no_string fmt = true ->
  (exists k', printk m kds fs fmt p k = Returns k') <-> fmt_complete fmt = true.
Proof.
  intros Hn. split.
  - intros [k' E]. destruct (fmt_complete fmt) eqn:Hc; [reflexivity|].
    now apply printk_loop_cut with (m := m) (kds := kds) (fs := fs) (p := p) (k := k) (k' := k') in Hc.
  - intros Hc. now apply printk_loop_returns.
Qed.

(** C28.  The colour of the console stays one of the digits 1 to 8
    through every [printk], under every configuration. *)
Theorem printk_colour_ok m kds fs fmt p k :
  colour_ok k -> outcome_ok (printk m kds fs fmt p k).
Proof. apply printk_loop_ok. Qed.

(** C31.  [panic] gets to its last loop whatever the stack holds: when
    its message is a complete format without [%s] and [%t], every
    [printk] of [panic] returns and the walk over the frames ends after
    eight of them, for every memory, every frame pointer and every chain
    of saved frame pointers, cyclic ones and wild ones included. *)
Theorem panic_halts m kds fs sp bp error a1 k fmt :
  cstring SEG_BYTES (fun cp => peekb cp kds (pushed m kds [a1] sp)) error = Some fmt ->
  fmt_complete fmt = true -> fmt_no_string fmt = true ->
  is_Some (panic m kds fs sp bp error a1 k).
Proof.
  intros Hm Hc Hn. unfold panic. panic_step. change (pushed m kds [] sp) with m.
  unfold printk_at, printk. rewrite Hm.
  destruct (printk_loop_returns (pushed m kds [a1] sp) kds fs fmt
              (u16 (sp - 2 * Z.of_nat (length [a1]))) k0 Hc Hn) as [k1 ->].
  cbn [returned mbind option_bind]. panic_step.
  match goal with
  | |- context [panic_frames ?n ?i ?m ?kds ?fs ?sp ?bp ?k] =>
      destruct (panic_frames_some n i m kds fs sp bp k) as [[? ?] ->]
  end.
  now eexists.
Qed.

(** C40.  [redirect_main] calls [pokeb] and [pokew] with the segment
    first, where exec.c gives the offset first.  With the order of exec.c
    the jump opcode 0xe9 lands at offset [cs] of segment 0 and the first
    byte of the kernel's code segment, where the jump is meant to be,
    is left as it was. *)
Theorem redirect_main_misses cs restarted m :
  1 <= cs < 65536 ->
  peekb 0 cs (redirect_main cs restarted m) = peekb 0 cs m /\
  peekb cs 0 (redirect_main cs restarted m) = 0xe9.
Proof.
  intros Hcs. unfold redirect_main, pokew. rewrite !peekb_pokeb.
  unfold linear. split; repeat case_decide; try reflexivity; exfalso; words.
Qed.

Lemma redirect_main_misses_witness :
  peekb 0 0x1000 (redirect_main 0x1000 0x200 ∅) = peekb 0 0x1000 ∅ /\
  peekb 0x1000 0 (redirect_main 0x1000 0x200 ∅) = 0xe9.
Proof. apply redirect_main_misses. lia. Defined.

End PrintkProperties.

(** ** The properties at concrete inputs *)

Definition demo_mem : mem := pokew 100 7 0x1234 (pokew 102 7 0xABCD ∅).

Lemma numout_prints_value_witness :
  exists ds,
    numout (H := elks_config) demo_mem 7 100 2 16 false con_init = con_puts ds con_init /\
    digits_value 16 ds = numout_value demo_mem 7 100 2 /\
    Forall (fun c => ch "0" <= c <= ch "F") ds /\
    (1 <= length ds <= 15)%nat.
Proof.
  apply (numout_prints_value (H := elks_config)); [reflexivity | cbn; auto].
Defined.

Lemma printk_plain_witness :
  printk (H := elks_config) demo_mem 7 9 (str "exec" ++ [LF]) 100 con_init =
  Returns (con_puts (crlf (str "exec" ++ [LF])) con_init).
Proof.
  apply (printk_plain (H := elks_config)); [reflexivity|].
  repeat constructor; discriminate.
Defined.

Lemma printk_returns_iff_complete_witness :
  (exists k',
     printk (H := elks_config) demo_mem 7 9 (str "cs=%x ip=%lx") 100 con_init = Returns k')
  <-> fmt_complete (str "cs=%x ip=%lx") = true.
Proof. apply (printk_returns_iff_complete (H := elks_config)). reflexivity. Defined.

Lemma printk_colour_ok_witness :
  outcome_ok (printk (H := small_config) demo_mem 7 9 (str "%d files") 100 con_init).
Proof.
  apply (printk_colour_ok (H := small_config)). unfold colour_ok. vm_compute.
  split; discriminate.
Defined.

(** A kernel stack with the frame of [panic] at 0xE000 and two frames
    above it, and the message of [kernel_restarted] at 0x200. *)
Definition panic_mem : mem :=
  poke_bytes 0x200 0x100 (str "kernel restarted" ++ [LF; 0])
    (poke_words 0xE000 0x100
       ([0xE010; 0x1234; 0x200; 7; 0; 0; 0; 0] ++
        [0xE020; 0x2345; 0x11; 0x12; 0x13; 0x14; 0x15; 0x16] ++
        [0; 0x3456; 0x21; 0x22; 0x23; 0x24; 0x25; 0x26]) ∅).

Lemma panic_halts_witness :
  is_Some (panic (H := elks_config) panic_mem 0x100 0 0xDFF0 0xE000 0x200 7 con_init).
Proof.
  apply (panic_halts (H := elks_config) panic_mem 0x100 0 0xDFF0 0xE000 0x200 7 con_init
           (str "kernel restarted" ++ [LF])); vm_compute; reflexivity.
Defined.

(** What [kernel_restarted] prints on the stack of [panic_mem]:
    the message, and for each of eight frames the return address of the
    frame and six words of the frame that called it; the chain ends
    with a null frame pointer, which is followed like any other. *)
Example kernel_restarted_prints :
  con_out <$> kernel_restarted (H := elks_config) panic_mem 0x100 0 0xDFF0 0xE000 0x200 con_init =
  Some (crlf (LF :: str "panic: kernel restarted" ++ [LF; LF] ++
              str "apparant call stack:" ++ [LF] ++
              str "(0) ret addr = 1234 params =  11 12 13 14 15 16" ++ [LF] ++
              str "(1) ret addr = 2345 params =  21 22 23 24 25 26" ++ [LF] ++
              str "(2) ret addr = 3456 params =  0 0 0 0 0 0" ++ [LF] ++
              concat (map (fun i => str "(" ++ [ch "0" + i] ++
                                    str ") ret addr = 0 params =  0 0 0 0 0 0" ++ [LF])
                        [3; 4; 5; 6; 7]))).
Proof. vm_compute. reflexivity. Qed.
