(* ===== verification/Kernel.v ===== *)
(** * Kernel: the state exec works on

    exec.c is written against the rest of the kernel: segment descriptors
    with reference counts (arch/i86/mm/malloc.c), inodes and open files
    (fs/), the task structure with its registers, signal table and
    descriptor table (linuxmt/sched.h), and the console.  This file holds
    these structures as records, the kernel state as one record of them,
    and the small operations of the collaborators that exec calls:
    [seg_get], [seg_put], [iput], [file_read], [sys_close], [get_ustack],
    [put_ustack].  They are outside src/ and are modelled from their use
    in exec.c and their contract (see the manifest).

    Pointers to shared structures are keys of finite maps; a structure is
    updated with [x <| field := v |>] and [x <| field ::= f |>]. *)

From Stdlib Require Import ZArith Lia List Bool.
From stdpp Require Import base decidable option list gmap.
From S2P Require Import Prelude.
From S2P Require Import Config.
From S2P Require Import Farmem.
From S2P Require Import Printk.

Local Open Scope Z_scope.

(** ** Record update *)

Class Setter {R T : Type} (proj : R -> T) : Type := set : (T -> T) -> R -> R.
Arguments set {R T} proj {Setter} f x : simpl nomatch.

Notation "x <| proj ::= f |>" := (set proj f x)
  (at level 12, f at next level, left associativity, format "x  <| proj  ::=  f |>").
Notation "x <| proj := v |>" := (set proj (fun _ => v) x)
  (at level 12, left associativity, format "x  <| proj  :=  v |>").

(** ** The backing store *)

(** A file as exec sees it: its bytes, and the offset of the first byte
    the device cannot deliver, if any. *)
Record image := { img_bytes : list Z; img_bad : option Z }.

(** ** Structures *)

(** A segment descriptor (struct segment): base and size in paragraphs,
    flags, and the number of tasks that hold it. *)
Record segment_s := {
  seg_base : Z;
  seg_size : Z;
  seg_flags : Z;
  seg_ref_count : Z
}.

(** An inode: reference count, mode with the set-id bits, owner, and the
    file it names. *)
Record inode_s := {
  i_count : Z;
  i_mode : Z;
  i_uid : Z;
  i_gid : Z;
  i_image : image;
  i_fop_read : bool
}.

(** An open file (struct file): position, inode, reference count. *)
Record file_s := {
  f_pos : Z;
  f_inode : nat;
  f_count : Z
}.

(** The saved user registers exec touches. *)
Record pt_regs := {
  r_ds : Z;
  r_es : Z;
  r_ss : Z;
  r_sp : Z
}.

(** The segments of a task: keys of the segment table, or NULL. *)
Record mm_s := {
  mm_seg_code : option nat;
  mm_seg_data : option nat
}.

(** Signal state: one disposition per signal, and the user handler. *)
Record sig_s := {
  sig_action : list Z;
  sig_handler : Z
}.

(** Descriptors: one open file or NULL per descriptor, and the
    close-on-exec bit mask. *)
Record files_s := {
  files_fd : list (option nat);
  files_close_on_exec : Z
}.

(** A task (struct task_struct), the fields exec reads or writes. *)
Record task := {
  t_regs : pt_regs;
  t_xregs_cs : Z;
  t_mm : mm_s;
  t_sig : sig_s;
  t_files : files_s;
  t_endseg : Z;
  t_enddata : Z;
  t_begstack : Z;
  t_endbrk : Z;
  t_minstack : Z;
  t_inode : option nat;
  euid : Z;
  egid : Z;
  t_state : Z
}.

(** The kernel: memory, the live segments, inodes and open files by key,
    the console, the kernel's data segment and the stack pointer of the
    kernel at the call, the current task and the other tasks of the table. *)
Record kernel := {
  k_mem : mem;
  k_segs : gmap nat segment_s;
  k_inodes : gmap nat inode_s;
  k_filps : gmap nat file_s;
  k_con : console;
  kernel_ds : Z;
  k_ksp : Z;
  k_cur : task;
  k_others : list task;
  k_slot : nat;
  k_seg_mem : list (option nat)
}.

(** ** Setters *)

#[export] Instance set_seg_base : Setter seg_base :=
  fun f x => {| seg_base := f (seg_base x); seg_size := seg_size x; seg_flags
  := seg_flags x; seg_ref_count := seg_ref_count x |}.

#[export] Instance set_seg_size : Setter seg_size :=
  fun f x => {| seg_base := seg_base x; seg_size := f (seg_size x); seg_flags
  := seg_flags x; seg_ref_count := seg_ref_count x |}.

#[export] Instance set_seg_flags : Setter seg_flags :=
  fun f x => {| seg_base := seg_base x; seg_size := seg_size x; seg_flags := f
  (seg_flags x); seg_ref_count := seg_ref_count x |}.

#[export] Instance set_seg_ref_count : Setter seg_ref_count :=
  fun f x => {| seg_base := seg_base x; seg_size := seg_size x; seg_flags :=
  seg_flags x; seg_ref_count := f (seg_ref_count x) |}.

#[export] Instance set_i_count : Setter i_count :=
fun f x => {| i_count := f (i_count x); i_mode := i_mode x; i_uid := i_uid x;
    i_gid := i_gid x; i_image := i_image x; i_fop_read := i_fop_read x |}.

#[export] Instance set_i_mode : Setter i_mode :=
fun f x => {| i_count := i_count x; i_mode := f (i_mode x); i_uid := i_uid x;
    i_gid := i_gid x; i_image := i_image x; i_fop_read := i_fop_read x |}.

#[export] Instance set_i_uid : Setter i_uid :=
fun f x => {| i_count := i_count x; i_mode := i_mode x; i_uid := f (i_uid x);
    i_gid := i_gid x; i_image := i_image x; i_fop_read := i_fop_read x |}.

#[export] Instance set_i_gid : Setter i_gid :=
fun f x => {| i_count := i_count x; i_mode := i_mode x; i_uid := i_uid x;
    i_gid := f (i_gid x); i_image := i_image x; i_fop_read := i_fop_read x |}.

#[export] Instance set_i_image : Setter i_image :=
fun f x => {| i_count := i_count x; i_mode := i_mode x; i_uid := i_uid x;
    i_gid := i_gid x; i_image := f (i_image x); i_fop_read := i_fop_read x |}.

#[export] Instance set_i_fop_read : Setter i_fop_read :=
fun f x => {| i_count := i_count x; i_mode := i_mode x; i_uid := i_uid x;
    i_gid := i_gid x; i_image := i_image x; i_fop_read := f (i_fop_read x) |}.

#[export] Instance set_f_pos : Setter f_pos :=
  fun f x => {| f_pos := f (f_pos x); f_inode := f_inode x; f_count := f_count
  x |}.

#[export] Instance set_f_inode : Setter f_inode :=
  fun f x => {| f_pos := f_pos x; f_inode := f (f_inode x); f_count := f_count
  x |}.

#[export] Instance set_f_count : Setter f_count :=
  fun f x => {| f_pos := f_pos x; f_inode := f_inode x; f_count := f (f_count
  x) |}.

#[export] Instance set_r_ds : Setter r_ds :=
  fun f x => {| r_ds := f (r_ds x); r_es := r_es x; r_ss := r_ss x; r_sp :=
  r_sp x |}.

#[export] Instance set_r_es : Setter r_es :=
  fun f x => {| r_ds := r_ds x; r_es := f (r_es x); r_ss := r_ss x; r_sp :=
  r_sp x |}.

#[export] Instance set_r_ss : Setter r_ss :=
  fun f x => {| r_ds := r_ds x; r_es := r_es x; r_ss := f (r_ss x); r_sp :=
  r_sp x |}.

#[export] Instance set_r_sp : Setter r_sp :=
  fun f x => {| r_ds := r_ds x; r_es := r_es x; r_ss := r_ss x; r_sp := f
  (r_sp x) |}.

#[export] Instance set_mm_seg_code : Setter mm_seg_code :=
  fun f x => {| mm_seg_code := f (mm_seg_code x); mm_seg_data := mm_seg_data x
  |}.

#[export] Instance set_mm_seg_data : Setter mm_seg_data :=
  fun f x => {| mm_seg_code := mm_seg_code x; mm_seg_data := f (mm_seg_data x)
  |}.

#[export] Instance set_sig_action : Setter sig_action :=
  fun f x => {| sig_action := f (sig_action x); sig_handler := sig_handler x
  |}.

#[export] Instance set_sig_handler : Setter sig_handler :=
  fun f x => {| sig_action := sig_action x; sig_handler := f (sig_handler x)
  |}.

#[export] Instance set_files_fd : Setter files_fd :=
  fun f x => {| files_fd := f (files_fd x); files_close_on_exec :=
  files_close_on_exec x |}.

#[export] Instance set_files_close_on_exec : Setter files_close_on_exec :=
  fun f x => {| files_fd := files_fd x; files_close_on_exec := f
  (files_close_on_exec x) |}.

#[export] Instance set_t_regs : Setter t_regs :=
  fun f x => {| t_regs := f (t_regs x); t_xregs_cs := t_xregs_cs x; t_mm := t_mm
  x; t_sig := t_sig x; t_files := t_files x; t_endseg := t_endseg x; t_enddata :=
  t_enddata x; t_begstack := t_begstack x; t_endbrk := t_endbrk x; t_minstack
  := t_minstack x; t_inode := t_inode x; euid := euid x; egid := egid x;
  t_state := t_state x |}.

#[export] Instance set_t_xregs_cs : Setter t_xregs_cs :=
  fun f x => {| t_regs := t_regs x; t_xregs_cs := f (t_xregs_cs x); t_mm := t_mm
  x; t_sig := t_sig x; t_files := t_files x; t_endseg := t_endseg x; t_enddata :=
  t_enddata x; t_begstack := t_begstack x; t_endbrk := t_endbrk x; t_minstack
  := t_minstack x; t_inode := t_inode x; euid := euid x; egid := egid x;
  t_state := t_state x |}.

#[export] Instance set_t_mm : Setter t_mm :=
  fun f x => {| t_regs := t_regs x; t_xregs_cs := t_xregs_cs x; t_mm := f (t_mm
  x); t_sig := t_sig x; t_files := t_files x; t_endseg := t_endseg x; t_enddata :=
  t_enddata x; t_begstack := t_begstack x; t_endbrk := t_endbrk x; t_minstack
  := t_minstack x; t_inode := t_inode x; euid := euid x; egid := egid x;
  t_state := t_state x |}.

#[export] Instance set_t_sig : Setter t_sig :=
  fun f x => {| t_regs := t_regs x; t_xregs_cs := t_xregs_cs x; t_mm := t_mm x;
  t_sig := f (t_sig x); t_files := t_files x; t_endseg := t_endseg x; t_enddata :=
  t_enddata x; t_begstack := t_begstack x; t_endbrk := t_endbrk x; t_minstack
  := t_minstack x; t_inode := t_inode x; euid := euid x; egid := egid x;
  t_state := t_state x |}.

#[export] Instance set_t_files : Setter t_files :=
  fun f x => {| t_regs := t_regs x; t_xregs_cs := t_xregs_cs x; t_mm := t_mm x;
  t_sig := t_sig x; t_files := f (t_files x); t_endseg := t_endseg x; t_enddata :=
  t_enddata x; t_begstack := t_begstack x; t_endbrk := t_endbrk x; t_minstack
  := t_minstack x; t_inode := t_inode x; euid := euid x; egid := egid x;
  t_state := t_state x |}.

#[export] Instance set_t_endseg : Setter t_endseg :=
  fun f x => {| t_regs := t_regs x; t_xregs_cs := t_xregs_cs x; t_mm := t_mm x;
  t_sig := t_sig x; t_files := t_files x; t_endseg := f (t_endseg x); t_enddata :=
  t_enddata x; t_begstack := t_begstack x; t_endbrk := t_endbrk x; t_minstack
  := t_minstack x; t_inode := t_inode x; euid := euid x; egid := egid x;
  t_state := t_state x |}.

#[export] Instance set_t_enddata : Setter t_enddata :=
  fun f x => {| t_regs := t_regs x; t_xregs_cs := t_xregs_cs x; t_mm := t_mm x;
  t_sig := t_sig x; t_files := t_files x; t_endseg := t_endseg x; t_enddata := f
  (t_enddata x); t_begstack := t_begstack x; t_endbrk := t_endbrk x;
  t_minstack := t_minstack x; t_inode := t_inode x; euid := euid x; egid :=
  egid x; t_state := t_state x |}.

#[export] Instance set_t_begstack : Setter t_begstack :=
  fun f x => {| t_regs := t_regs x; t_xregs_cs := t_xregs_cs x; t_mm := t_mm x;
  t_sig := t_sig x; t_files := t_files x; t_endseg := t_endseg x; t_enddata :=
  t_enddata x; t_begstack := f (t_begstack x); t_endbrk := t_endbrk x;
  t_minstack := t_minstack x; t_inode := t_inode x; euid := euid x; egid :=
  egid x; t_state := t_state x |}.

#[export] Instance set_t_endbrk : Setter t_endbrk :=
  fun f x => {| t_regs := t_regs x; t_xregs_cs := t_xregs_cs x; t_mm := t_mm x;
  t_sig := t_sig x; t_files := t_files x; t_endseg := t_endseg x; t_enddata :=
  t_enddata x; t_begstack := t_begstack x; t_endbrk := f (t_endbrk x);
  t_minstack := t_minstack x; t_inode := t_inode x; euid := euid x; egid :=
  egid x; t_state := t_state x |}.

#[export] Instance set_t_minstack : Setter t_minstack :=
  fun f x => {| t_regs := t_regs x; t_xregs_cs := t_xregs_cs x; t_mm := t_mm x;
  t_sig := t_sig x; t_files := t_files x; t_endseg := t_endseg x; t_enddata :=
  t_enddata x; t_begstack := t_begstack x; t_endbrk := t_endbrk x; t_minstack
  := f (t_minstack x); t_inode := t_inode x; euid := euid x; egid := egid x;
  t_state := t_state x |}.

#[export] Instance set_t_inode : Setter t_inode :=
  fun f x => {| t_regs := t_regs x; t_xregs_cs := t_xregs_cs x; t_mm := t_mm x;
  t_sig := t_sig x; t_files := t_files x; t_endseg := t_endseg x; t_enddata :=
  t_enddata x; t_begstack := t_begstack x; t_endbrk := t_endbrk x; t_minstack
  := t_minstack x; t_inode := f (t_inode x); euid := euid x; egid := egid x;
  t_state := t_state x |}.

#[export] Instance set_euid : Setter euid :=
  fun f x => {| t_regs := t_regs x; t_xregs_cs := t_xregs_cs x; t_mm := t_mm x;
  t_sig := t_sig x; t_files := t_files x; t_endseg := t_endseg x; t_enddata :=
  t_enddata x; t_begstack := t_begstack x; t_endbrk := t_endbrk x; t_minstack
  := t_minstack x; t_inode := t_inode x; euid := f (euid x); egid := egid x;
  t_state := t_state x |}.

#[export] Instance set_egid : Setter egid :=
  fun f x => {| t_regs := t_regs x; t_xregs_cs := t_xregs_cs x; t_mm := t_mm x;
  t_sig := t_sig x; t_files := t_files x; t_endseg := t_endseg x; t_enddata :=
  t_enddata x; t_begstack := t_begstack x; t_endbrk := t_endbrk x; t_minstack
  := t_minstack x; t_inode := t_inode x; euid := euid x; egid := f (egid x);
  t_state := t_state x |}.

#[export] Instance set_t_state : Setter t_state :=
  fun f x => {| t_regs := t_regs x; t_xregs_cs := t_xregs_cs x; t_mm := t_mm x;
  t_sig := t_sig x; t_files := t_files x; t_endseg := t_endseg x; t_enddata :=
  t_enddata x; t_begstack := t_begstack x; t_endbrk := t_endbrk x; t_minstack
  := t_minstack x; t_inode := t_inode x; euid := euid x; egid := egid x;
  t_state := f (t_state x) |}.

#[export] Instance set_k_mem : Setter k_mem :=
fun f x => {| k_mem := f (k_mem x); k_segs := k_segs x; k_inodes := k_inodes
    x; k_filps := k_filps x; k_con := k_con x; kernel_ds := kernel_ds x; k_ksp
    := k_ksp x; k_cur := k_cur x; k_others := k_others x; k_slot := k_slot x;
    k_seg_mem := k_seg_mem x |}.

#[export] Instance set_k_segs : Setter k_segs :=
fun f x => {| k_mem := k_mem x; k_segs := f (k_segs x); k_inodes := k_inodes
    x; k_filps := k_filps x; k_con := k_con x; kernel_ds := kernel_ds x; k_ksp
    := k_ksp x; k_cur := k_cur x; k_others := k_others x; k_slot := k_slot x;
    k_seg_mem := k_seg_mem x |}.

#[export] Instance set_k_inodes : Setter k_inodes :=
fun f x => {| k_mem := k_mem x; k_segs := k_segs x; k_inodes := f (k_inodes
    x); k_filps := k_filps x; k_con := k_con x; kernel_ds := kernel_ds x;
    k_ksp := k_ksp x; k_cur := k_cur x; k_others := k_others x; k_slot :=
    k_slot x; k_seg_mem := k_seg_mem x |}.

#[export] Instance set_k_filps : Setter k_filps :=
fun f x => {| k_mem := k_mem x; k_segs := k_segs x; k_inodes := k_inodes x;
    k_filps := f (k_filps x); k_con := k_con x; kernel_ds := kernel_ds x;
    k_ksp := k_ksp x; k_cur := k_cur x; k_others := k_others x; k_slot :=
    k_slot x; k_seg_mem := k_seg_mem x |}.

#[export] Instance set_k_con : Setter k_con :=
fun f x => {| k_mem := k_mem x; k_segs := k_segs x; k_inodes := k_inodes x;
    k_filps := k_filps x; k_con := f (k_con x); kernel_ds := kernel_ds x;
    k_ksp := k_ksp x; k_cur := k_cur x; k_others := k_others x; k_slot :=
    k_slot x; k_seg_mem := k_seg_mem x |}.

#[export] Instance set_kernel_ds : Setter kernel_ds :=
fun f x => {| k_mem := k_mem x; k_segs := k_segs x; k_inodes := k_inodes x;
    k_filps := k_filps x; k_con := k_con x; kernel_ds := f (kernel_ds x);
    k_ksp := k_ksp x; k_cur := k_cur x; k_others := k_others x; k_slot :=
    k_slot x; k_seg_mem := k_seg_mem x |}.

#[export] Instance set_k_ksp : Setter k_ksp :=
fun f x => {| k_mem := k_mem x; k_segs := k_segs x; k_inodes := k_inodes x;
    k_filps := k_filps x; k_con := k_con x; kernel_ds := kernel_ds x; k_ksp :=
    f (k_ksp x); k_cur := k_cur x; k_others := k_others x; k_slot := k_slot x;
    k_seg_mem := k_seg_mem x |}.

#[export] Instance set_k_cur : Setter k_cur :=
fun f x => {| k_mem := k_mem x; k_segs := k_segs x; k_inodes := k_inodes x;
    k_filps := k_filps x; k_con := k_con x; kernel_ds := kernel_ds x; k_ksp :=
    k_ksp x; k_cur := f (k_cur x); k_others := k_others x; k_slot := k_slot x;
    k_seg_mem := k_seg_mem x |}.

#[export] Instance set_k_others : Setter k_others :=
fun f x => {| k_mem := k_mem x; k_segs := k_segs x; k_inodes := k_inodes x;
    k_filps := k_filps x; k_con := k_con x; kernel_ds := kernel_ds x; k_ksp :=
    k_ksp x; k_cur := k_cur x; k_others := f (k_others x); k_slot := k_slot x;
    k_seg_mem := k_seg_mem x |}.

#[export] Instance set_k_slot : Setter k_slot :=
fun f x => {| k_mem := k_mem x; k_segs := k_segs x; k_inodes := k_inodes x;
    k_filps := k_filps x; k_con := k_con x; kernel_ds := kernel_ds x; k_ksp :=
    k_ksp x; k_cur := k_cur x; k_others := k_others x; k_slot := f (k_slot x);
    k_seg_mem := k_seg_mem x |}.

#[export] Instance set_k_seg_mem : Setter k_seg_mem :=
fun f x => {| k_mem := k_mem x; k_segs := k_segs x; k_inodes := k_inodes x;
    k_filps := k_filps x; k_con := k_con x; kernel_ds := kernel_ds x; k_ksp :=
    k_ksp x; k_cur := k_cur x; k_others := k_others x; k_slot := k_slot x;
    k_seg_mem := f (k_seg_mem x) |}.

(** Setters unfolded to the records they build. *)
Ltac setters :=
  lazy [set set_seg_base set_seg_size set_seg_flags set_seg_ref_count
    set_i_count set_i_mode set_i_uid set_i_gid set_i_image set_i_fop_read
    set_f_pos
    set_f_inode set_f_count set_r_ds set_r_es set_r_ss set_r_sp
    set_mm_seg_code set_mm_seg_data set_sig_action set_sig_handler
    set_files_fd set_files_close_on_exec set_t_regs set_t_xregs_cs set_t_mm
    set_t_sig set_t_files set_t_endseg set_t_enddata set_t_begstack set_t_endbrk
    set_t_minstack set_t_inode set_euid set_egid set_t_state set_k_mem
    set_k_segs set_k_inodes set_k_filps set_k_con set_kernel_ds set_k_ksp set_k_cur
    set_k_others set_k_slot set_k_seg_mem];
  cbn [seg_base seg_size seg_flags seg_ref_count i_count i_mode i_uid i_gid
    i_image i_fop_read f_pos f_inode f_count r_ds r_es r_ss r_sp mm_seg_code
    mm_seg_data sig_action sig_handler files_fd files_close_on_exec t_regs
    t_xregs_cs t_mm t_sig t_files t_endseg t_enddata t_begstack t_endbrk
    t_minstack t_inode euid egid t_state k_mem k_segs k_inodes k_filps k_con
    kernel_ds k_ksp k_cur k_others k_slot k_seg_mem].

(** The same in one pass, projections included: for goals whose records
    are all explicit, where nested setters are too many for two passes. *)
Ltac setters_explicit :=
  lazy [set set_seg_base set_seg_size set_seg_flags set_seg_ref_count
    set_i_count set_i_mode set_i_uid set_i_gid set_i_image set_i_fop_read
    set_f_pos set_f_inode set_f_count set_r_ds set_r_es set_r_ss set_r_sp
    set_mm_seg_code set_mm_seg_data set_sig_action set_sig_handler
    set_files_fd set_files_close_on_exec set_t_regs set_t_xregs_cs set_t_mm
    set_t_sig set_t_files set_t_endseg set_t_enddata set_t_begstack
    set_t_endbrk set_t_minstack set_t_inode set_euid set_egid set_t_state
    set_k_mem set_k_segs set_k_inodes set_k_filps set_k_con set_kernel_ds
    set_k_ksp set_k_cur set_k_others set_k_slot set_k_seg_mem seg_base
    seg_size seg_flags seg_ref_count i_count i_mode i_uid i_gid i_image
    i_fop_read f_pos f_inode f_count r_ds r_es r_ss r_sp mm_seg_code
    mm_seg_data sig_action sig_handler files_fd files_close_on_exec t_regs
    t_xregs_cs t_mm t_sig t_files t_endseg t_enddata t_begstack t_endbrk
    t_minstack t_inode euid egid t_state k_mem k_segs k_inodes k_filps k_con
    kernel_ds k_ksp k_cur k_others k_slot k_seg_mem].

Ltac setters_in H :=
  lazy [set set_seg_base set_seg_size set_seg_flags set_seg_ref_count
    set_i_count set_i_mode set_i_uid set_i_gid set_i_image set_i_fop_read
    set_f_pos
    set_f_inode set_f_count set_r_ds set_r_es set_r_ss set_r_sp
    set_mm_seg_code set_mm_seg_data set_sig_action set_sig_handler
    set_files_fd set_files_close_on_exec set_t_regs set_t_xregs_cs set_t_mm
    set_t_sig set_t_files set_t_endseg set_t_enddata set_t_begstack set_t_endbrk
    set_t_minstack set_t_inode set_euid set_egid set_t_state set_k_mem
    set_k_segs set_k_inodes set_k_filps set_k_con set_kernel_ds set_k_ksp set_k_cur
    set_k_others set_k_slot set_k_seg_mem] in H;
  cbn [seg_base seg_size seg_flags seg_ref_count i_count i_mode i_uid i_gid
    i_image i_fop_read f_pos f_inode f_count r_ds r_es r_ss r_sp mm_seg_code
    mm_seg_data sig_action sig_handler files_fd files_close_on_exec t_regs
    t_xregs_cs t_mm t_sig t_files t_endseg t_enddata t_begstack t_endbrk
    t_minstack t_inode euid egid t_state k_mem k_segs k_inodes k_filps k_con
    kernel_ds k_ksp k_cur k_others k_slot k_seg_mem] in H.

(** A kernel as the record of its fields. *)
Ltac explicit_kernel k :=
  destruct k as [?mem ?segs ?inodes ?filps ?con ?kds ?ksp
                 [[?ds ?es ?ss ?sp] ?cs [?ocode ?odata] [?act ?hdl] ?files
                  ?endseg ?enddata ?begstack ?endbrk ?minstack ?tino ?eu ?eg ?st]
                 ?others ?slot ?segmem].

Lemma file_eq (a b : file_s) :
  f_pos a = f_pos b -> f_inode a = f_inode b -> f_count a = f_count b -> a = b.
Proof. destruct a, b. cbn. now intros -> -> ->. Qed.

(** ** Constants of the headers *)

Definition SIGDISP_DFL : Z := 0.
Definition S_ISUID : Z := 2048.
Definition S_ISGID : Z := 1024.
Definition EBADF : Z := 9.

(** ** Segments *)

Definition seg_get (s : nat) (t : gmap nat segment_s) : gmap nat segment_s :=
  alter (set seg_ref_count (fun n => u16 (n + 1))) s t.

(** [seg_put]: one holder less, and the segment freed with the last. *)
Definition seg_put (s : nat) (t : gmap nat segment_s) : gmap nat segment_s :=
  match t !! s with
  | Some sg =>
      let n := u16 (seg_ref_count sg - 1) in
      if n =? 0 then delete s t else <[s := sg <| seg_ref_count := n |>]> t
  | None => t
  end.

(** [seg_put] of a pointer that may be NULL (the tests of lines 724-725). *)
Definition seg_put_opt (s : option nat) (t : gmap nat segment_s) :
    gmap nat segment_s :=
  match s with
  | Some s => seg_put s t
  | None => t
  end.

(** ** Inodes and files *)

(** [iput]: one reference less, and the inode dropped with the last. *)
Definition iput (i : option nat) (t : gmap nat inode_s) : gmap nat inode_s :=
  match i with
  | Some i =>
      match t !! i with
      | Some ino =>
          let n := u16 (i_count ino - 1) in
          if n =? 0 then delete i t else <[i := ino <| i_count := n |>]> t
      | None => t
      end
  | None => t
  end.

(** A read of [count] bytes at [pos]: the result of [read] and the bytes
    delivered.  The read is short at the end of the file, and fails with
    -EIO, delivering nothing, when it reaches a byte the device cannot
    deliver. *)
Definition file_read (img : image) (pos count : Z) : Z * list Z :=
  let bs := take (Z.to_nat count) (drop (Z.to_nat pos) (img_bytes img)) in
  let n := Z.of_nat (length bs) in
  match img_bad img with
  | Some bad => if bad <? pos + n then (- EIO, []) else (n, bs)
  | None => (n, bs)
  end.

(** [filp->f_op->read]: the result as the [int] the callers store it in,
    the bytes, and the file with its position advanced. *)
Definition f_read (img : image) (count : Z) (f : file_s) : Z * list Z * file_s :=
  let '(r, bs) := file_read img (f_pos f) count in
  (s16 r, bs, f <| f_pos ::= fun pos => pos + Z.of_nat (length bs) |>).

(** ** The user stack *)

Definition get_ustack (t : task) (off : Z) (m : mem) : Z :=
  peekw (r_sp (t_regs t) + off) (r_ss (t_regs t)) m.

Definition put_ustack (t : task) (off val : Z) (m : mem) : mem :=
  pokew (r_sp (t_regs t) + off) (r_ss (t_regs t)) val m.

(** ** Descriptors *)

Definition FD_ISSET (fd : nat) (fds : Z) : bool := Z.testbit fds (Z.of_nat fd).

(** The release of an open file: one reference less, and with the last
    the file closed and its inode put. *)
Definition fput (fi : nat) (k : kernel) : kernel :=
  match k_filps k !! fi with
  | Some f =>
      if f_count f <=? 1 then
        k <| k_filps ::= delete fi |> <| k_inodes ::= iput (Some (f_inode f)) |>
      else k <| k_filps ::= <[fi := f <| f_count ::= Z.pred |>]> |>
  | None => k
  end.

Section Descriptors.
Context `{BuildConfig}.

(** [sys_close]: the close-on-exec bit cleared, the descriptor emptied and
    its file released. *)
Definition sys_close (fd : nat) (k : kernel) : kernel :=
  if (fd <? NR_OPEN)%nat then
    let k :=
      k <| k_cur ::= set t_files
             (set files_close_on_exec (fun fds => Z.clearbit fds (Z.of_nat fd))) |> in
    match files_fd (t_files (k_cur k)) !! fd with
    | Some (Some fi) =>
        fput fi (k <| k_cur ::= set t_files (set files_fd (<[fd := None]>)) |>)
    | _ => k
    end
  else k.

End Descriptors.

(** ** Structures behind pointers *)

(** [seg->base] for the segment with key [s]. *)
Definition seg_base_of (s : nat) (k : kernel) : Z :=
  from_option seg_base 0 (k_segs k !! s).

Definition inode_null : inode_s :=
  {| i_count := 0; i_mode := 0; i_uid := 0; i_gid := 0;
     i_image := {| img_bytes := []; img_bad := None |};
     i_fop_read := true |}.

(** [*inode] for the inode with key [i]. *)
Definition inode_of (i : nat) (k : kernel) : inode_s :=
  default inode_null (k_inodes k !! i).

(** ** Calls of printk *)

Section CallPrintk.
Context `{BuildConfig}.

(** [printk(fmt, args...)] from kernel code: the arguments are pushed
    below the kernel's stack pointer, where [printk] reads them, and are
    dead after the call; what stays is the console. *)
Definition call_printk (fmt : list Z) (args : list Z) (k : kernel) : kernel :=
  let p := u16 (k_ksp k - 2 * Z.of_nat (length args)) in
  let m := poke_words p (kernel_ds k) args (k_mem k) in
  match printk m (kernel_ds k) (r_ds (t_regs (k_cur k))) fmt p (k_con k) with
  | Returns c | Overruns c => k <| k_con := c |>
  | Hangs => k
  end.

(** The console after the call. *)
Definition printed (fmt : list Z) (args : list Z) (k : kernel) : console :=
  k_con (call_printk fmt args k).

End CallPrintk.

(** ** The entry transfer *)

(** What exec needs of [arch_setup_user_stack]: it builds a frame of
    [frame_size] bytes below the user stack pointer, which it lowers by as
    much; the frame holds the entry point and the code segment at known
    places; nothing else of the task or of memory changes. *)
Class EntryTransfer : Type := {
  arch_setup_user_stack : task -> Z -> mem -> task * mem;
  frame_size : Z;
  frame_ip : Z;
  frame_cs : Z;
  frame_size_range : 0 <= frame_size <= 256;
  arch_setup_task : forall t entry m,
    (arch_setup_user_stack t entry m).1 =
    t <| t_regs ::= set r_sp (fun sp => u16 (sp - frame_size)) |>;
  arch_setup_mem : forall t entry m,
    same_outside
      (in_block (r_ss (t_regs t)) (r_sp (t_regs t) - frame_size) frame_size)
      (arch_setup_user_stack t entry m).2 m;
  arch_setup_entry : forall t entry m,
    let '(t', m') := arch_setup_user_stack t entry m in
    peekw (r_sp (t_regs t') + frame_ip) (r_ss (t_regs t')) m' = u16 entry /\
    peekw (r_sp (t_regs t') + frame_cs) (r_ss (t_regs t')) m' = u16 (t_xregs_cs t)
}.

Definition USER_FLAGS : Z := 0x3200.

(** The frame of arch/i86: flags, cs, ip and bp, for the [iret] that
    starts the program. *)
Definition i86_setup_user_stack (t : task) (entry : Z) (m : mem) : task * mem :=
  let m := put_ustack t (-2) USER_FLAGS m in
  let m := put_ustack t (-4) (t_xregs_cs t) m in
  let m := put_ustack t (-6) entry m in
  let m := put_ustack t (-8) 0 m in
  (t <| t_regs ::= set r_sp (fun sp => u16 (sp - 8)) |>, m).

(** ** Contracts of the descriptor operations *)

(** What closing descriptor [fd] does to the descriptors of a task. *)
Definition close_fd (fd : nat) (f : files_s) : files_s :=
  {| files_fd := <[fd := None]> (files_fd f);
     files_close_on_exec := Z.clearbit (files_close_on_exec f) (Z.of_nat fd) |}.

(** [k] with the descriptors of its task, the open files and the inodes
    taken from [k']. *)
Definition with_files (k k' : kernel) : kernel :=
  k <| k_cur ::= set t_files (fun _ => t_files (k_cur k')) |>
    <| k_filps := k_filps k' |> <| k_inodes := k_inodes k' |>.

(** [k'] differs from [k] in descriptors, open files and inodes only. *)
Definition files_only (k k' : kernel) : Prop := k' = with_files k k'.

(** ** A small kernel for examples *)

Definition task0 : task := {|
  t_regs := {| r_ds := 0x3000; r_es := 0x3000; r_ss := 0x3000; r_sp := 0xFF00 |};
  t_xregs_cs := 0x2800;
  t_mm := {| mm_seg_code := Some 1%nat; mm_seg_data := Some 2%nat |};
  t_sig := {| sig_action := [0; 1; 2; 0]; sig_handler := 0x0123 |};
  t_files := {| files_fd := [Some 5%nat; Some 5%nat; Some 6%nat; None];
                files_close_on_exec := 4 |};
  t_endseg := 0x8000; t_enddata := 0x1000; t_begstack := 0x7F00;
  t_endbrk := 0x1000; t_minstack := 0x1000;
  t_inode := Some 7%nat; euid := 100; egid := 100; t_state := 0
|}.

Definition kernel0 : kernel := {|
  k_mem := ∅;
  k_segs := {[ 1%nat := {| seg_base := 0x2800; seg_size := 0x100; seg_flags := 1;
                           seg_ref_count := 1 |};
               2%nat := {| seg_base := 0x3000; seg_size := 0x800; seg_flags := 2;
                           seg_ref_count := 1 |} ]};
  k_inodes := {[ 7%nat := {| i_count := 1; i_mode := 493; i_uid := 0; i_gid := 0;
                             i_image := {| img_bytes := []; img_bad := None |};
     i_fop_read := true |} ]};
  k_filps := {[ 5%nat := {| f_pos := 0; f_inode := 3%nat; f_count := 2 |};
                6%nat := {| f_pos := 0; f_inode := 4%nat; f_count := 1 |} ]};
  k_con := con_init;
  kernel_ds := 0x0100;
  k_ksp := 0xF000;
  k_cur := task0;
  k_others := [];
  k_slot := 0;
  k_seg_mem := []
|}.

(** ** Lemmas: reads *)

(** A read delivers at most what is asked, or fails with -EIO and
    delivers nothing. *)
Lemma file_read_cases img pos count :
  0 <= count ->
  let '(r, bs) := file_read img pos count in
  (r = - EIO /\ bs = []) \/ (r = Z.of_nat (length bs) /\ 0 <= r <= count).
Proof.
  intros Hc. unfold file_read.
  set (bs := take _ _). assert (Hl : (length bs <= Z.to_nat count)%nat)
    by (subst bs; rewrite length_take; lia).
  destruct (img_bad img) as [bad|]; [case_if|]; auto; right; split; lia.
Qed.

Lemma f_read_cases img count f :
  0 <= count < 32768 ->
  let '(r, bs, f') := f_read img count f in
  ((r = - EIO /\ bs = []) \/ (r = Z.of_nat (length bs) /\ 0 <= r <= count)) /\
  f' = f <| f_pos ::= fun pos => pos + Z.of_nat (length bs) |>.
Proof.
  intros Hc. unfold f_read. pose proof (file_read_cases img (f_pos f) count) as Hr.
  destruct file_read as [r bs]. split; [|reflexivity].
  destruct Hr as [[-> ->]|[-> Hr]]; [lia | now left |].
  right. unfold s16. rewrite u16_small by (unfold fits16; lia). case_if; lia.
Qed.

(** ** The i86 frame implements the entry transfer *)

Lemma in_block_intro seg off n i : 0 <= i < n -> in_block seg off n (linear seg (off + i)).
Proof. intros Hi. now exists i. Qed.

Lemma put_ustack_frame t off v m n :
  - n <= off -> off + 2 <= 0 ->
  same_outside (in_block (r_ss (t_regs t)) (r_sp (t_regs t) - n) n) (put_ustack t off v m) m.
Proof.
  intros Hlo Hhi a Ha. unfold put_ustack. apply peek_pokew_other; intros ->; apply Ha.
  - replace (r_sp (t_regs t) + off) with (r_sp (t_regs t) - n + (off + n)) by lia.
    apply in_block_intro. lia.
  - replace (r_sp (t_regs t) + off + 1) with (r_sp (t_regs t) - n + (off + n + 1)) by lia.
    apply in_block_intro. lia.
Qed.

#[export, refine] Instance i86_entry : EntryTransfer := {|
  arch_setup_user_stack := i86_setup_user_stack;
  frame_size := 8; frame_ip := 2; frame_cs := 4
|}.
Proof.
  - lia.
  - reflexivity.
  - intros t entry m. unfold i86_setup_user_stack. cbn [snd].
    repeat (eapply same_outside_trans; [apply put_ustack_frame; lia|]).
    apply same_outside_refl.
  - intros t entry m. unfold i86_setup_user_stack, put_ustack. setters.
    rewrite !linear_peekw_add. split.
    + replace (r_sp (t_regs t) - 8 + 2) with (r_sp (t_regs t) + -6) by lia.
      rewrite peekw_pokew_apart by words. apply peekw_pokew_same.
    + replace (r_sp (t_regs t) - 8 + 4) with (r_sp (t_regs t) + -4) by lia.
      rewrite !peekw_pokew_apart by words. apply peekw_pokew_same.
Defined.

(** ** Lemmas: calls of printk *)

Section CallPrintkLemmas.
Context `{BuildConfig}.

(** A call of [printk] changes the console and nothing else. *)
Lemma call_printk_frame fmt args k :
  call_printk fmt args k = k <| k_con := k_con (call_printk fmt args k) |>.
Proof. unfold call_printk. destruct printk; now destruct k. Qed.

Lemma call_printk_mem fmt args k : k_mem (call_printk fmt args k) = k_mem k.
Proof. rewrite call_printk_frame. now destruct k. Qed.

(** The same with the console named, for rewriting every call of a goal. *)
Lemma call_printk_printed fmt args k :
  call_printk fmt args k = k <| k_con := printed fmt args k |>.
Proof. apply call_printk_frame. Qed.

End CallPrintkLemmas.

(** ** Lemmas: reference counts *)

(** A segment held by more than one task outlives a release. *)
Lemma seg_put_shared s sg t :
  t !! s = Some sg -> 1 < seg_ref_count sg < 65536 ->
  seg_put s t = <[s := sg <| seg_ref_count := seg_ref_count sg - 1 |>]> t.
Proof.
  intros Hs Hn. unfold seg_put. rewrite Hs, u16_small by (unfold fits16; lia).
  case_if; [lia | reflexivity].
Qed.

(** The last release frees the segment. *)
Lemma seg_put_last s sg t :
  t !! s = Some sg -> seg_ref_count sg = 1 -> seg_put s t = delete s t.
Proof. intros Hs Hn. unfold seg_put. now rewrite Hs, Hn. Qed.

Lemma seg_get_count s sg t :
  t !! s = Some sg ->
  seg_get s t = <[s := sg <| seg_ref_count := u16 (seg_ref_count sg + 1) |>]> t.
Proof.
  intros Hs. unfold seg_get. apply map_eq. intros i.
  destruct (decide (i = s)) as [->|Hne].
  - now rewrite lookup_alter_eq, lookup_insert_eq, Hs.
  - now rewrite lookup_alter_ne, lookup_insert_ne by congruence.
Qed.

(** A reference taken and released leaves the table as it was. *)
Lemma seg_put_get s sg t :
  t !! s = Some sg -> 0 < seg_ref_count sg < 65535 -> seg_put s (seg_get s t) = t.
Proof.
  intros Hs Hn. rewrite (seg_get_count s sg) by exact Hs.
  rewrite (seg_put_shared s (sg <| seg_ref_count := u16 (seg_ref_count sg + 1) |>));
    [| apply lookup_insert_eq | setters; rewrite u16_small by (unfold fits16; lia); lia].
  rewrite insert_insert_eq. setters. rewrite u16_small by (unfold fits16; lia).
  replace (seg_ref_count sg + 1 - 1) with (seg_ref_count sg) by lia.
  rewrite insert_id; [reflexivity | now destruct sg].
Qed.

(** ** Lemmas: descriptors *)

Lemma files_only_refl k : files_only k k.
Proof.
  destruct k as [? ? ? ? ? ? ? [? ? ? ? [] ? ? ? ? ? ? ? ? ?] ?]. reflexivity.
Qed.

Lemma files_only_trans k1 k2 k3 :
  files_only k1 k2 -> files_only k2 k3 -> files_only k1 k3.
Proof.
  unfold files_only, with_files. intros -> ->.
  destruct k1 as [? ? ? ? ? ? ? [? ? ? ? [] ? ? ? ? ? ? ? ? ?] ?]. reflexivity.
Qed.

Lemma fput_files_only fi k : files_only k (fput fi k).
Proof.
  unfold fput. destruct (k_filps k !! fi); [case_if|]; try apply files_only_refl;
    destruct k as [? ? ? ? ? ? ? [? ? ? ? [] ? ? ? ? ? ? ? ? ?] ?]; reflexivity.
Qed.

Lemma fput_cur fi k : k_cur (fput fi k) = k_cur k.
Proof. unfold fput. destruct (k_filps k !! fi); [case_if|]; reflexivity. Qed.

Section DescriptorLemmas.
Context `{BuildConfig}.

Lemma sys_close_files_only fd k : files_only k (sys_close fd k).
Proof.
  unfold sys_close. destruct (fd <? NR_OPEN)%nat; [|apply files_only_refl].
  assert (H1 : forall f, files_only k (k <| k_cur ::= set t_files f |>))
    by (intros; destruct k as [? ? ? ? ? ? ? [? ? ? ? [] ? ? ? ? ? ? ? ? ?] ?]; reflexivity).
  destruct (_ !! fd) as [[fi|]|]; try apply H1.
  eapply files_only_trans; [|apply fput_files_only].
  destruct k as [? ? ? ? ? ? ? [? ? ? ? [] ? ? ? ? ? ? ? ? ?] ?]. reflexivity.
Qed.

(** Closing a descriptor empties its slot and clears its bit. *)
Lemma sys_close_files fd k :
  (fd < NR_OPEN)%nat ->
  t_files (k_cur (sys_close fd k)) = close_fd fd (t_files (k_cur k)).
Proof.
  intros Hfd. unfold sys_close. rewrite (proj2 (Nat.ltb_lt _ _) Hfd).
  destruct k as [? ? ? ? ? ? ? [? ? ? ? [fds mask] ? ? ? ? ? ? ? ? ?] ?].
  setters. destruct (fds !! fd) as [[fi|]|] eqn:Hl; rewrite ?fput_cur; setters;
    unfold close_fd; cbn [files_fd files_close_on_exec]; f_equal.
  - symmetry. now apply list_insert_id.
  - symmetry. apply list_insert_ge. now apply lookup_ge_None.
Qed.

End DescriptorLemmas.
