(* ===== verification/Alloc.v ===== *)
(** * Alloc: the segment allocator exec is written against

    [sys_execve] and [execve_os2] take their segments from [seg_alloc]
    (arch/i86/mm/malloc.c, outside src/) and give them back with
    [seg_put].  What they rely on is stated as the class [SegAllocator]:
    an allocation either fails or adds one descriptor under a key that
    was free, of the size and kind asked for, held once, whose paragraphs
    lie in memory and apart from every segment of the table.  The
    theorems on the loader are proved against the class; [bump_alloc], an
    allocator that places each segment above the highest one, shows that
    the laws can be met. *)

From Stdlib Require Import ZArith Lia List Bool.
From stdpp Require Import base decidable option list gmap fin_maps.
From S2P Require Import Prelude.
From S2P Require Import Farmem.
From S2P Require Import Kernel.

Local Open Scope Z_scope.

(** ** Kinds of segment *)

Definition SEG_FLAG_CSEG : Z := 1.
Definition SEG_FLAG_DSEG : Z := 2.

(** ** The interface *)

(** The paragraphs of two segments do not overlap. *)
Definition seg_apart (a b : segment_s) : Prop :=
  seg_base a + seg_size a <= seg_base b \/ seg_base b + seg_size b <= seg_base a.

(** A fresh descriptor: of the size and kind asked for, held once. *)
Definition fresh_segment (base paras flags : Z) : segment_s :=
  {| seg_base := base; seg_size := paras; seg_flags := flags; seg_ref_count := 1 |}.

Class SegAllocator : Type := {
  seg_alloc : Z -> Z -> gmap nat segment_s -> option (nat * gmap nat segment_s);
  seg_alloc_spec paras flags t s t' :
    seg_alloc paras flags t = Some (s, t') ->
    t !! s = None /\
    exists base,
      t' = <[s := fresh_segment base paras flags]> t /\
      0 <= base /\ base + paras <= 65536 /\
      forall s' sg, t !! s' = Some sg -> seg_apart (fresh_segment base paras flags) sg
}.

(** ** An allocator *)

(** Memory for segments starts after the kernel and ends at 640 KiB. *)
Definition MEM_START : Z := 0x2000.
Definition MEM_END : Z := 0xA000.

(** The paragraph after the highest segment. *)
Definition seg_top (t : gmap nat segment_s) : Z :=
  map_fold (fun _ sg top => Z.max top (seg_base sg + seg_size sg)) MEM_START t.

Definition bump_seg_alloc (paras flags : Z) (t : gmap nat segment_s)
    : option (nat * gmap nat segment_s) :=
  let base := seg_top t in
  if (0 <=? paras) && (base + paras <=? MEM_END) then
    let s := fresh (dom t) in
    Some (s, <[s := fresh_segment base paras flags]> t)
  else None.

(** ** Lemmas *)

Lemma seg_top_bounds t :
  MEM_START <= seg_top t /\
  forall s sg, t !! s = Some sg -> seg_base sg + seg_size sg <= seg_top t.
Proof.
  unfold seg_top.
  apply (map_fold_weak_ind (fun top t => MEM_START <= top /\
           forall s sg, t !! s = Some sg -> seg_base sg + seg_size sg <= top)).
  - split; [lia|]. intros s sg Hs. now rewrite lookup_empty in Hs.
  - intros s sg t' top Hfresh [Hlo Hall]. split; [lia|].
    intros s' sg' [[-> ->]|[_ Hs']]%lookup_insert_Some; [lia|].
    specialize (Hall _ _ Hs'). lia.
Qed.

Lemma fresh_dom_None (t : gmap nat segment_s) : t !! fresh (dom t) = None.
Proof. apply not_elem_of_dom, is_fresh. Qed.

#[export, refine] Instance bump_alloc : SegAllocator := {|
  seg_alloc := bump_seg_alloc
|}.
Proof.
  intros paras flags t s t'. unfold bump_seg_alloc.
  destruct (_ && _) eqn:Hc; [|discriminate]. intros [= <- <-].
  apply andb_prop in Hc as [Hp Hb]. apply Z.leb_le in Hp, Hb.
  destruct (seg_top_bounds t) as [Hlo Hall].
  split; [apply fresh_dom_None|]. exists (seg_top t).
  split; [reflexivity|]. unfold MEM_START, MEM_END in *.
  split; [lia|]. split; [lia|].
  intros s' sg Hs. right. cbn. now apply (Hall s').
Defined.

Section AllocatorLemmas.
Context `{SegAllocator}.

(** A segment allocated and put back leaves the table as it was. *)
Lemma seg_alloc_put paras flags t s t' :
  seg_alloc paras flags t = Some (s, t') -> seg_put s t' = t.
Proof.
  intros (Hs & base & -> & _)%seg_alloc_spec. unfold seg_put.
  rewrite lookup_insert_eq. cbn. now rewrite delete_insert_id.
Qed.

(** An allocation leaves every segment of the table as it was. *)
Lemma seg_alloc_other paras flags t s t' s' :
  seg_alloc paras flags t = Some (s, t') -> s' <> s -> t' !! s' = t !! s'.
Proof.
  intros (Hs & base & -> & _)%seg_alloc_spec Hne. now rewrite lookup_insert_ne.
Qed.

Lemma seg_alloc_old paras flags t s t' s' sg :
  seg_alloc paras flags t = Some (s, t') -> t !! s' = Some sg -> t' !! s' = Some sg.
Proof.
  intros Ha Hs'. erewrite seg_alloc_other; [exact Hs' | exact Ha |].
  apply seg_alloc_spec in Ha as [Hs _]. congruence.
Qed.

(** The segment allocated. *)
Lemma seg_alloc_new paras flags t s t' :
  seg_alloc paras flags t = Some (s, t') ->
  exists base, t' !! s = Some (fresh_segment base paras flags) /\
    0 <= base /\ base + paras <= 65536.
Proof.
  intros (Hs & base & -> & Hb & Hp & _)%seg_alloc_spec. exists base.
  now rewrite lookup_insert_eq.
Qed.

End AllocatorLemmas.
