(* ===== verification/Files.v ===== *)
(** * Files: the backing store as sys_execve uses it

    [sys_execve] opens the program with [open_namei] and [open_filp],
    reads it through [filp->f_op->read], some of it into structures of
    the kernel and the segments into the memory of the program-to-be,
    skips parts of it by adding to [filp->f_pos], and closes it with
    [close_filp].  These routines are in fs/, outside src/; they are
    modelled from the way exec.c uses them:

    - a path names an inode or nothing ([NameSpace]); [open_namei] takes a
      reference to the inode, loading it when no one holds it;
    - [open_filp] takes a free entry of the file table, or fails with
      -ENFILE when there is none;
    - [close_filp] frees the entry and leaves the reference to the inode
      to its caller, which is why [sys_execve] calls [iput] itself;
    - a read delivers bytes at [f_pos] and advances it ([Kernel.f_read]).

    The file ends with what the two loaders share: the [flow] of a system
    call written with [goto]s, [set_ds], and [rollback], what the way
    out of a failed exec undoes.

    [f_pos] is an unbounded integer: the files exec loads are far from
    the 2 GiB at which the position of the kernel would wrap. *)

From Stdlib Require Import ZArith Lia List Bool.
From stdpp Require Import base decidable option list gmap fin_maps.
From S2P Require Import Prelude.
From S2P Require Import Config.
From S2P Require Import Farmem.
From S2P Require Import Kernel.

Local Open Scope Z_scope.

Definition ENOENT : Z := 2.
Definition ENFILE : Z := 23.

(** The entries of the file table. *)
Definition NR_FILE : nat := 64.

(** ** Names *)

(** What a path names: the key of an inode and the inode as the disk
    holds it. *)
Class NameSpace : Type := { namei : list Z -> option (nat * inode_s) }.

(** A reference to inode [i] taken: one more when it is in core, the
    inode of the disk with one reference when it is not. *)
Definition iget (i : nat) (disk : inode_s) (t : gmap nat inode_s) : gmap nat inode_s :=
  match t !! i with
  | Some ino => <[i := ino <| i_count ::= fun n => u16 (n + 1) |>]> t
  | None => <[i := disk <| i_count := 1 |>]> t
  end.

Section Names.
Context `{NameSpace}.

(** [open_namei(filename, 0, 0, &inode, NULL)]: the result and the inode. *)
Definition open_namei (filename : list Z) (k : kernel) : Z * nat * kernel :=
  match namei filename with
  | Some (i, disk) => (0, i, k <| k_inodes ::= iget i disk |>)
  | None => (- ENOENT, 0%nat, k)
  end.

End Names.

(** ** Open files *)

Definition file_null : file_s := {| f_pos := 0; f_inode := 0%nat; f_count := 0 |}.

(** [*filp] for the file with key [fi]. *)
Definition file_of (fi : nat) (k : kernel) : file_s :=
  default file_null (k_filps k !! fi).

(** [open_filp(O_RDONLY, inode, &filp)]: the result and the file. *)
Definition open_filp (inode : nat) (k : kernel) : Z * nat * kernel :=
  if bool_decide (NR_FILE <= size (k_filps k))%nat then (- ENFILE, 0%nat, k)
  else
    let fi := fresh (dom (k_filps k)) in
    (0, fi, k <| k_filps ::= <[fi := {| f_pos := 0; f_inode := inode; f_count := 1 |}]> |>).

(** [close_filp(inode, filp)]: the entry is free again. *)
Definition close_filp (inode filp : nat) (k : kernel) : kernel :=
  k <| k_filps ::= delete filp |>.

(** [filp->f_op->read(inode, filp, buf, count)] into a structure of the
    kernel: the result, the bytes delivered, and the position advanced. *)
Definition filp_read (inode filp : nat) (count : Z) (k : kernel) : Z * list Z * kernel :=
  let '(r, bs, f) := f_read (i_image (inode_of inode k)) count (file_of filp k) in
  (r, bs, k <| k_filps ::= <[filp := f]> |>).

(** The same read with [buf] an offset of the segment in [t_regs.ds] of
    the current task, where [read] stores what it delivers. *)
Definition read_user (inode filp : nat) (buf count : Z) (k : kernel) : Z * kernel :=
  let '(r, bs, k) := filp_read inode filp count k in
  (r, k <| k_mem ::= poke_bytes buf (r_ds (t_regs (k_cur k))) bs |>).

(** [filp->f_pos += n]. *)
Definition filp_skip (filp : nat) (n : Z) (k : kernel) : kernel :=
  k <| k_filps ::= alter (set f_pos (fun pos => pos + n)) filp |>.

(** [filp->f_pos = n]. *)
Definition filp_seek (filp : nat) (n : Z) (k : kernel) : kernel :=
  k <| k_filps ::= alter (set f_pos (fun _ => n)) filp |>.

(** ** The flow of control *)

Inductive flow (A : Type) : Type :=
| Next (a : A) (k : kernel)
| Return (r : option (Z * kernel)).
Arguments Next {A} a k.
Arguments Return {A} r.

Definition flow_bind {A B : Type} (x : flow A) (f : A -> kernel -> flow B) : flow B :=
  match x with
  | Next a k => f a k
  | Return r => Return r
  end.

(** [t_regs.ds] of the current task. *)
Definition set_ds (ds : Z) (k : kernel) : kernel :=
  k <| k_cur ::= set t_regs (set r_ds (fun _ => ds)) |>.

(** [seg_t] arithmetic: a base and a number of paragraphs. *)
Definition seg_add (base paras : Z) : Z := u16 (base + paras).

(** What the way out of a failed exec does to the kernel: [ds] is
    restored, the file closed and the inode released. *)
Definition rollback (ds : Z) (inode filp : nat) (k : kernel) : kernel :=
  close_filp inode filp (set_ds ds k) <| k_inodes ::= iput (Some inode) |>.

(** What a stage gives: a state with [Q] to go on from, or a call that
    has returned as [D] allows. *)
Definition flow_ok {A : Type} (D : option (Z * kernel) -> Prop)
    (Q : A -> kernel -> Prop) (x : flow A) : Prop :=
  match x with
  | Next a k => Q a k
  | Return r => D r
  end.

(** ** Lemmas *)

Lemma flow_ok_bind {A B : Type} D (Q : A -> kernel -> Prop) (R : B -> kernel -> Prop) x f :
  flow_ok D Q x -> (forall a k, Q a k -> flow_ok D R (f a k)) ->
  flow_ok D R (flow_bind x f).
Proof. destruct x as [a k|r]; cbn; auto. Qed.

Lemma flow_ok_weaken {A : Type} D (Q R : A -> kernel -> Prop) x :
  flow_ok D Q x -> (forall a k, Q a k -> R a k) -> flow_ok D R x.
Proof. destruct x as [a k|r]; cbn; auto. Qed.

(** [ds] set to what it is. *)
Lemma set_ds_same k : set_ds (r_ds (t_regs (k_cur k))) k = k.
Proof. explicit_kernel k. reflexivity. Qed.

(** A reference taken and put back leaves the inodes as they were. *)
Lemma iput_iget i disk t :
  (forall ino, t !! i = Some ino -> 0 < i_count ino < 65535) ->
  iput (Some i) (iget i disk t) = t.
Proof.
  intros Hc. unfold iget, iput. destruct (t !! i) as [ino|] eqn:Hi.
  - specialize (Hc _ eq_refl). rewrite lookup_insert_eq. setters.
    replace (u16 (u16 (i_count ino + 1) - 1)) with (i_count ino) by words.
    case_if; [lia|]. rewrite insert_insert_eq. destruct ino. now apply insert_id.
  - rewrite lookup_insert_eq. setters. cbn. now apply delete_insert_id.
Qed.

Lemma fresh_filp_None (t : gmap nat file_s) : t !! fresh (dom t) = None.
Proof. apply not_elem_of_dom, is_fresh. Qed.

(** A file opened and closed leaves the file table as it was. *)
Lemma close_open_filp inode k r fi k' :
  open_filp inode k = (r, fi, k') -> r = 0 ->
  k_filps (close_filp inode fi k') = k_filps k.
Proof.
  unfold open_filp. case_bool_decide; intros [= <- <- <-] Hr; [discriminate|].
  unfold close_filp. setters. apply delete_insert_id, fresh_filp_None.
Qed.

(** Only the file table is touched by opening, by closing, and by moving
    in a file. *)
Lemma open_filp_frame inode k :
  let '(_, _, k') := open_filp inode k in k' = k <| k_filps := k_filps k' |>.
Proof. unfold open_filp. case_bool_decide; now destruct k. Qed.

Lemma filp_read_frame inode filp count k :
  let '(_, _, k') := filp_read inode filp count k in k' = k <| k_filps := k_filps k' |>.
Proof. unfold filp_read. destruct f_read as [[r bs] f]. now destruct k. Qed.

(** The kernel after a read: the position has advanced by what was
    delivered. *)
Lemma filp_read_eq inode filp count k :
  let '(_, bs, k') := filp_read inode filp count k in
  k' = k <| k_filps ::=
             <[filp := file_of filp k <| f_pos ::= fun pos => pos + Z.of_nat (length bs) |>]> |>.
Proof. unfold filp_read, f_read. now destruct file_read. Qed.

(** The bytes a read delivers are the bytes of the file at the position,
    as many as asked when the result is the count. *)
Lemma filp_read_full inode filp count k :
  0 <= count < 32768 ->
  let '(r, bs, k') := filp_read inode filp count k in
  r = count ->
  bs = take (Z.to_nat count) (drop (Z.to_nat (f_pos (file_of filp k)))
                                (img_bytes (i_image (inode_of inode k)))) /\
  Z.of_nat (length bs) = count.
Proof.
  intros Hc. unfold filp_read, f_read, file_read.
  set (bs := take _ _). assert (Hl : (length bs <= Z.to_nat count)%nat)
    by (subst bs; rewrite length_take; lia).
  destruct (img_bad _) as [bad|]; [case_if|]; cbn; intros Hr;
    try (exfalso; revert Hr; vm_compute (s16 (- EIO)); lia);
    rewrite s16_small in Hr by lia; auto.
Qed.
