(* ===== verification/Reloc.v ===== *)
(** * Reloc: the relocation engine ([relocate], exec.c lines 77-126)

    [relocate] reads a stream of [rsize] bytes of 8-byte relocation
    records from the file and applies them to the segment [place_base].
    Only segment relocations ([R_SEGWORD]) are accepted; the word at the
    record's offset is overwritten with the base of the code segment
    ([S_TEXT]), of the far text that follows the text ([S_FTEXT]) or of the
    data segment ([S_DATA]).  A stream whose length is not a multiple of
    the record size is refused before any read; a short or failed read, an
    unknown type or an unknown symbol ends the loop at [error].

    The loop recurses on [rsize], which decreases by one record per
    iteration: it is defined by well-founded recursion and is total.  The
    contract is [apply_relocs], the fold of the patches over the decoded
    records. *)

From Stdlib Require Import ZArith Lia List Bool.
From stdpp Require Import base decidable option list gmap.
From Equations Require Import Equations.
From S2P Require Import Prelude.
From S2P Require Import Paras.
From S2P Require Import Config.
From S2P Require Import Aout.
From S2P Require Import Farmem.
From S2P Require Import Printk.
From S2P Require Import Kernel.

Local Open Scope Z_scope.

(** [sizeof(struct minix_reloc)] *)
Definition sizeof_reloc : Z := 8.

(** How a loop is left: by its condition, or by [goto error] with the
    value [retval] has then. *)
Inductive loop_exit :=
  | LoopEnd
  | GotoError (retval : Z).

(** The two [switch]es of lines 94-115: the value for the record, [None]
    for [goto error]. *)
Definition reloc_val (seg_code seg_data : segment_s) (tseg : Z)
    (reloc : minix_reloc) : option Z :=
  if r_type reloc =? R_SEGWORD then
    if r_symndx reloc =? S_TEXT then Some (seg_base seg_code)
    else if r_symndx reloc =? S_FTEXT then
      Some (u16 (seg_base seg_code + bytes_to_paras tseg))
    else if r_symndx reloc =? S_DATA then Some (seg_base seg_data)
    else None
  else None.

(** The body of the loop, lines 91-115: one record read and applied. *)
Definition relocate_body (place_base : Z) (seg_code seg_data : segment_s)
    (img : image) (tseg : Z) (filp : file_s) (m : mem) :
    loop_exit * file_s * mem :=
  let '(retval, bytes, filp) := f_read img sizeof_reloc filp in
  if negb (retval =? sizeof_reloc) then (GotoError retval, filp, m)
  else
    let reloc := decode_reloc bytes in
    match reloc_val seg_code seg_data tseg reloc with
    | Some val => (LoopEnd, filp, pokew (u16 (r_vaddr reloc)) place_base val m)
    | None => (GotoError retval, filp, m)
    end.

(** The loop of lines 90-117. *)
Equations? relocate_loop (place_base : Z) (seg_code seg_data : segment_s)
    (img : image) (tseg : Z) (rsize : Z) (filp : file_s) (m : mem) :
    loop_exit * file_s * mem by wf (Z.to_nat rsize) lt :=
  relocate_loop place_base seg_code seg_data img tseg rsize filp m
    with Z_le_dec sizeof_reloc rsize := {
    | left _ with relocate_body place_base seg_code seg_data img tseg filp m := {
      | (LoopEnd, filp', m') =>
          relocate_loop place_base seg_code seg_data img tseg
            (rsize - sizeof_reloc) filp' m'
      | (GotoError retval, filp', m') => (GotoError retval, filp', m') }
    | right _ => (LoopEnd, filp, m) }.
Proof. unfold sizeof_reloc in *. lia. Qed.

(** [relocate]: the result, the file and the kernel after it. *)
Definition relocate (place_base rsize : Z) (seg_code seg_data : segment_s)
    (img : image) (filp : file_s) (tseg : Z) (k : kernel) :
    Z * file_s * kernel :=
  let save_ds := r_ds (t_regs (k_cur k)) in
  if negb (u16 (s16 rsize) mod sizeof_reloc =? 0) then (- EINVAL, filp, k)
  else
    let k := k <| k_cur ::= set t_regs (set r_ds (fun _ => kernel_ds k)) |> in
    let '(e, filp, m) :=
      relocate_loop place_base seg_code seg_data img tseg rsize filp (k_mem k) in
    let k := k <| k_mem := m |>
               <| k_cur ::= set t_regs (set r_ds (fun _ => save_ds)) |> in
    match e with
    | LoopEnd => (0, filp, k)
    | GotoError retval => (if 0 <=? retval then - EINVAL else retval, filp, k)
    end.

(** ** The contract *)

(** One record applied to a memory. *)
Definition apply_reloc (place_base : Z) (seg_code seg_data : segment_s)
    (tseg : Z) (m : mem) (reloc : minix_reloc) : mem :=
  match reloc_val seg_code seg_data tseg reloc with
  | Some val => pokew (u16 (r_vaddr reloc)) place_base val m
  | None => m
  end.

Definition apply_relocs (place_base : Z) (seg_code seg_data : segment_s)
    (tseg : Z) (rs : list minix_reloc) (m : mem) : mem :=
  fold_left (apply_reloc place_base seg_code seg_data tseg) rs m.

(** A record the engine accepts. *)
Definition reloc_ok (reloc : minix_reloc) : bool :=
  (r_type reloc =? R_SEGWORD) &&
  ((r_symndx reloc =? S_TEXT) || (r_symndx reloc =? S_FTEXT) ||
   (r_symndx reloc =? S_DATA)).

(** The file holds the records [rs] at [pos], all of them readable. *)
Definition holds_relocs (img : image) (pos : Z) (rs : list minix_reloc) : Prop :=
  0 <= pos /\
  take (length rs * 8) (drop (Z.to_nat pos) (img_bytes img)) =
    flat_map encode_reloc rs /\
  match img_bad img with
  | Some bad => pos + 8 * Z.of_nat (length rs) <= bad
  | None => True
  end.

(** The word of [r'] is apart from the word at [off]: the two do not share
    a byte. *)
Definition reloc_apart (off : Z) (r' : minix_reloc) : Prop :=
  u16 (r_vaddr r') <> u16 (off - 1) /\ u16 (r_vaddr r') <> u16 off /\
  u16 (r_vaddr r') <> u16 (off + 1).

(** ** Lemmas *)

Lemma rsize_mod rsize : u16 (s16 rsize) mod sizeof_reloc = rsize mod sizeof_reloc.
Proof. unfold sizeof_reloc, s16. case_if; words. Qed.

(** The first record of a stream is read whole, and the rest follows. *)
Lemma holds_relocs_cons img pos r rs :
  holds_relocs img pos (r :: rs) ->
  file_read img pos sizeof_reloc = (sizeof_reloc, encode_reloc r) /\
  holds_relocs img (pos + sizeof_reloc) rs.
Proof.
  unfold holds_relocs, file_read, sizeof_reloc. intros (Hpos & E & Hbad).
  cbn [length flat_map] in E, Hbad. pose proof (length_encode_reloc r) as Hr.
  assert (E1 : take 8 (drop (Z.to_nat pos) (img_bytes img)) = encode_reloc r).
  { apply (f_equal (take 8)) in E. rewrite take_take, take_app_length' in E by done.
    now replace (8 `min` (S (length rs) * 8))%nat with 8%nat in E by lia. }
  assert (E2 : take (length rs * 8) (drop (Z.to_nat (pos + 8)) (img_bytes img))
               = flat_map encode_reloc rs).
  { apply (f_equal (drop 8)) in E. rewrite drop_app_length' in E by done.
    rewrite <- E, Z2Nat.inj_add, <- drop_drop, take_drop_commute by lia.
    reflexivity. }
  change (Z.to_nat 8) with 8%nat. rewrite E1, Hr. split; [|split; [lia | split; [exact E2|]]].
  - destruct (img_bad img) as [bad|]; [|reflexivity].
    destruct (Z.ltb_spec bad (pos + Z.of_nat 8)); [lia | reflexivity].
  - destruct (img_bad img); [lia | exact I].
Qed.

Lemma reloc_ok_val seg_code seg_data tseg r :
  reloc_ok r = true -> is_Some (reloc_val seg_code seg_data tseg r).
Proof.
  unfold reloc_ok, reloc_val. intros [-> Hs]%andb_prop.
  destruct (r_symndx r =? S_TEXT); [eauto|].
  destruct (r_symndx r =? S_FTEXT); [eauto|].
  destruct (r_symndx r =? S_DATA); [eauto | discriminate].
Qed.

(** The current task's [ds] set and set back leaves the kernel as it
    was. *)
Lemma restore_ds k ds m :
  k <| k_cur ::= set t_regs (set r_ds (fun _ => ds)) |> <| k_mem := m |>
    <| k_cur ::= set t_regs (set r_ds (fun _ => r_ds (t_regs (k_cur k)))) |>
  = k <| k_mem := m |>.
Proof. destruct k as [? ? ? ? ? ? ? [[] ? ? ? ? ? ? ? ? ? ? ? ? ?] ?]. reflexivity. Qed.

Lemma apply_relocs_app place_base seg_code seg_data tseg rs1 rs2 m :
  apply_relocs place_base seg_code seg_data tseg (rs1 ++ rs2) m =
  apply_relocs place_base seg_code seg_data tseg rs2
    (apply_relocs place_base seg_code seg_data tseg rs1 m).
Proof. apply fold_left_app. Qed.

Lemma apply_relocs_cons place_base seg_code seg_data tseg r rs m :
  apply_relocs place_base seg_code seg_data tseg (r :: rs) m =
  apply_relocs place_base seg_code seg_data tseg rs
    (apply_reloc place_base seg_code seg_data tseg m r).
Proof. reflexivity. Qed.

Lemma apply_relocs_apart place_base seg_code seg_data tseg off rs m :
  Forall (reloc_apart off) rs ->
  peekw off place_base (apply_relocs place_base seg_code seg_data tseg rs m) =
  peekw off place_base m.
Proof.
  intros Hrs. revert m.
  induction Hrs as [|r rs (H1 & H2 & H3) _ IH]; intros m; [reflexivity|].
  rewrite apply_relocs_cons, IH. unfold apply_reloc.
  destruct reloc_val; [|reflexivity].
  rewrite pokew_u16. now apply peekw_pokew_apart.
Qed.

(** The word of a record holds its value when no later record touches
    it, whatever was there and whatever came before. *)
Lemma apply_relocs_at place_base seg_code seg_data tseg rs1 r rs2 val m :
  reloc_val seg_code seg_data tseg r = Some val ->
  Forall (reloc_apart (r_vaddr r)) rs2 ->
  peekw (r_vaddr r) place_base
    (apply_relocs place_base seg_code seg_data tseg (rs1 ++ r :: rs2) m) = u16 val.
Proof.
  intros Hval Hrs. rewrite apply_relocs_app, apply_relocs_cons.
  rewrite apply_relocs_apart by exact Hrs. unfold apply_reloc. rewrite Hval.
  now rewrite pokew_u16, peekw_pokew_same.
Qed.

Section RelocLemmas.
Context (place_base : Z) (seg_code seg_data : segment_s) (img : image) (tseg : Z).

Notation body := (relocate_body place_base seg_code seg_data img tseg).
Notation loop := (relocate_loop place_base seg_code seg_data img tseg).

(** The loop, unfolded once. *)
Lemma relocate_loop_step rsize filp m :
  loop rsize filp m =
  if sizeof_reloc <=? rsize then
    match body filp m with
    | (LoopEnd, filp', m') => loop (rsize - sizeof_reloc) filp' m'
    | r => r
    end
  else (LoopEnd, filp, m).
Proof.
  simp relocate_loop. destruct (Z_le_dec sizeof_reloc rsize) as [Hle|Hle]; cbn.
  - rewrite (proj2 (Z.leb_le _ _) Hle). now destruct (body filp m) as [[[|r] f'] m'].
  - now rewrite (proj2 (Z.leb_gt _ _)) by lia.
Qed.

(** An invariant of the body is an invariant of the loop. *)
Lemma relocate_loop_inv (P : file_s -> mem -> Prop) :
  (forall filp m e filp' m', P filp m -> body filp m = (e, filp', m') -> P filp' m') ->
  forall rsize filp m e filp' m',
    P filp m -> loop rsize filp m = (e, filp', m') -> P filp' m'.
Proof.
  intros Hbody rsize. remember (Z.to_nat rsize) as n eqn:Hn. revert rsize Hn.
  induction n as [n IH] using lt_wf_ind. intros rsize -> filp m e filp' m' HP.
  rewrite relocate_loop_step. case_if; [|intros [= <- <- <-]; exact HP].
  destruct (body filp m) as [[[|r] f1] m1] eqn:Hb.
  - apply (IH (Z.to_nat (rsize - sizeof_reloc))); [unfold sizeof_reloc in *; lia | reflexivity |].
    eapply Hbody; eassumption.
  - intros [= <- <- <-]. eapply Hbody; eassumption.
Qed.

(** A record the engine accepts, read whole: the body applies it. *)
Lemma relocate_body_ok filp m r rs :
  holds_relocs img (f_pos filp) (r :: rs) -> wf_reloc r -> reloc_ok r = true ->
  body filp m =
  (LoopEnd, filp <| f_pos ::= fun pos => pos + sizeof_reloc |>,
   apply_reloc place_base seg_code seg_data tseg m r).
Proof.
  intros [Hrd _]%holds_relocs_cons Hwf Hok. unfold relocate_body, f_read, apply_reloc.
  rewrite Hrd, decode_encode_reloc, length_encode_reloc by exact Hwf.
  destruct (reloc_ok_val seg_code seg_data tseg r Hok) as [val ->]. reflexivity.
Qed.

(** On a stream of accepted records the loop is the fold of the
    contract. *)
Lemma relocate_loop_ok rs filp m :
  holds_relocs img (f_pos filp) rs -> Forall wf_reloc rs ->
  forallb reloc_ok rs = true ->
  loop (sizeof_reloc * Z.of_nat (length rs)) filp m =
  (LoopEnd, filp <| f_pos ::= fun pos => pos + sizeof_reloc * Z.of_nat (length rs) |>,
   apply_relocs place_base seg_code seg_data tseg rs m).
Proof.
  revert filp m. induction rs as [|r rs IH]; intros filp m Hh Hwf Hok;
    rewrite relocate_loop_step.
  - case_if; [unfold sizeof_reloc in *; cbn [length] in *; lia|].
    do 2 f_equal. apply file_eq; setters; cbn [length]; lia.
  - apply Forall_cons in Hwf as [Hr Hwf]. cbn [forallb] in Hok.
    apply andb_prop in Hok as [Hokr Hok].
    rewrite (relocate_body_ok _ _ r rs) by assumption.
    case_if; [|unfold sizeof_reloc in *; cbn [length] in *; lia].
    replace (sizeof_reloc * Z.of_nat (length (r :: rs)) - sizeof_reloc)
      with (sizeof_reloc * Z.of_nat (length rs)) by (cbn [length]; lia).
    rewrite IH; [| now apply holds_relocs_cons in Hh | assumption..].
    do 2 f_equal. apply file_eq; setters; cbn [length]; lia.
Qed.

(** What a pass through the body may change: memory inside the 64 KiB of
    [place_base], and the position of the file, by at most a record. *)
Definition reloc_frame (filp : file_s) (m : mem) (filp' : file_s) (m' : mem) : Prop :=
  same_outside (in_segment place_base) m' m /\
  f_pos filp <= f_pos filp' /\ f_inode filp' = f_inode filp /\
  f_count filp' = f_count filp.

Lemma relocate_body_frame filp m e filp' m' :
  body filp m = (e, filp', m') ->
  reloc_frame filp m filp' m' /\
  match e with
  | GotoError r => r = - EIO \/ 0 <= r <= sizeof_reloc
  | LoopEnd => True
  end.
Proof.
  unfold relocate_body, reloc_frame.
  pose proof (f_read_cases img sizeof_reloc filp ltac:(unfold sizeof_reloc; lia)) as Hr.
  destruct f_read as [[r bs] f1]. destruct Hr as [Hr ->].
  assert (Hf : f_pos filp <= f_pos (filp <| f_pos ::= fun pos => pos + Z.of_nat (length bs) |>))
    by (setters; lia).
  case_if; [destruct reloc_val |]; intros [= <- <- <-];
    (split; [split; [|split; [exact Hf | split; reflexivity]] |]);
    auto using same_outside_refl, pokew_in_segment; lia.
Qed.

Lemma relocate_loop_frame rsize filp m e filp' m' :
  loop rsize filp m = (e, filp', m') -> reloc_frame filp m filp' m'.
Proof.
  apply (relocate_loop_inv (fun f1 m1 => reloc_frame filp m f1 m1)).
  - intros f1 m1 e1 f2 m2 (Hm & Hp & Hi & Hc) [(Hm' & Hp' & Hi' & Hc') _]%relocate_body_frame.
    split; [eapply same_outside_trans; eassumption|]. split; [lia|]. split; congruence.
  - split; [apply same_outside_refl|]. split; [lia|]. split; reflexivity.
Qed.

(** The value [retval] has at [error]. *)
Lemma relocate_loop_error rsize filp m r filp' m' :
  loop rsize filp m = (GotoError r, filp', m') -> r = - EIO \/ 0 <= r <= sizeof_reloc.
Proof.
  remember (Z.to_nat rsize) as n eqn:Hn. revert rsize Hn filp m.
  induction n as [n IH] using lt_wf_ind. intros rsize -> filp m.
  rewrite relocate_loop_step. case_if; [|discriminate].
  destruct (body filp m) as [[[|r1] f1] m1] eqn:Hb.
  - apply (IH (Z.to_nat (rsize - sizeof_reloc))); [unfold sizeof_reloc in *; lia | reflexivity].
  - intros [= <- <- <-]. now apply relocate_body_frame in Hb.
Qed.

(** On a stream of accepted records [relocate] is the contract. *)
Lemma relocate_ok rs filp k :
  holds_relocs img (f_pos filp) rs -> Forall wf_reloc rs ->
  forallb reloc_ok rs = true ->
  relocate place_base (sizeof_reloc * Z.of_nat (length rs)) seg_code seg_data img filp tseg k =
  (0, filp <| f_pos ::= fun pos => pos + sizeof_reloc * Z.of_nat (length rs) |>,
   k <| k_mem := apply_relocs place_base seg_code seg_data tseg rs (k_mem k) |>).
Proof.
  intros Hh Hwf Hok. unfold relocate.
  rewrite rsize_mod, Z.mul_comm, Z.mod_mul by discriminate. cbn [Z.eqb negb].
  rewrite Z.mul_comm.
  change (k_mem (k <| k_cur ::= _ |>)) with (k_mem k).
  rewrite relocate_loop_ok by assumption. now rewrite restore_ds.
Qed.

End RelocLemmas.

(** [relocate] changes nothing of the kernel but memory, and its result
    is 0 or negative. *)
Lemma relocate_only_mem place_base rsize seg_code seg_data img filp tseg k :
  let '(r, _, k') := relocate place_base rsize seg_code seg_data img filp tseg k in
  k' = k <| k_mem := k_mem k' |> /\ (r = 0 \/ r < 0).
Proof.
  unfold relocate. destruct (negb _); [split; [now destruct k | right; unfold EINVAL; lia]|].
  destruct relocate_loop as [[e f1] m1].
  destruct e as [|r]; rewrite restore_ds; (split; [now destruct k|]);
    [now left | right; case_if; unfold EINVAL; lia].
Qed.

(** ** Examples *)

Definition demo_relocs : list minix_reloc :=
  [ {| r_vaddr := 4; r_symndx := S_DATA; r_type := R_SEGWORD |};
    {| r_vaddr := 10; r_symndx := S_TEXT; r_type := R_SEGWORD |};
    {| r_vaddr := 0x1000C; r_symndx := S_FTEXT; r_type := R_SEGWORD |} ].

Definition demo_image : image :=
  {| img_bytes := replicate 32 0 ++ flat_map encode_reloc demo_relocs; img_bad := None |}.

Definition demo_filp : file_s := {| f_pos := 32; f_inode := 7%nat; f_count := 1 |}.

Definition demo_code : segment_s :=
  {| seg_base := 0x2000; seg_size := 1; seg_flags := 1; seg_ref_count := 1 |}.

Definition demo_data : segment_s :=
  {| seg_base := 0x2400; seg_size := 0x100; seg_flags := 2; seg_ref_count := 1 |}.

Lemma demo_holds : holds_relocs demo_image 32 demo_relocs.
Proof. split; [lia | split; [reflexivity | exact I]]. Qed.

Lemma demo_relocs_wf : Forall wf_reloc demo_relocs.
Proof. repeat constructor; vm_compute; congruence. Qed.


(** ** Properties *)

(** C8.  [relocate] implements its contract: on a stream of [rs]
    well-formed records of accepted type and symbol, all readable at the
    position of the file, it returns 0, leaves the file after the stream,
    and leaves the kernel as it was but for memory, which is
    [apply_relocs] of the records in order. *)
Theorem relocate_stream place_base seg_code seg_data img filp tseg k rs :
  holds_relocs img (f_pos filp) rs -> Forall wf_reloc rs ->
  forallb reloc_ok rs = true ->
  relocate place_base (sizeof_reloc * Z.of_nat (length rs)) seg_code seg_data img filp tseg k =
  (0, filp <| f_pos ::= fun pos => pos + sizeof_reloc * Z.of_nat (length rs) |>,
   k <| k_mem := apply_relocs place_base seg_code seg_data tseg rs (k_mem k) |>).
Proof. apply relocate_ok. Qed.

Lemma relocate_stream_witness :
  relocate 0x2000 (sizeof_reloc * Z.of_nat (length demo_relocs)) demo_code demo_data
    demo_image demo_filp 100 kernel0 =
  (0, demo_filp <| f_pos ::= fun pos => pos + sizeof_reloc * Z.of_nat (length demo_relocs) |>,
   kernel0 <| k_mem := apply_relocs 0x2000 demo_code demo_data 100 demo_relocs
                         (k_mem kernel0) |>).
Proof.
  apply relocate_stream; [exact demo_holds | exact demo_relocs_wf | reflexivity].
Defined.

(** C12.  Relocation round trip: after [relocate] on a stream of accepted
    records, the word at the offset of a record of symbol [S_DATA] is the
    base of the data segment, whatever the word held before and whatever
    the earlier records did, provided no later record shares a byte with
    it. *)
Theorem relocate_roundtrip place_base seg_code seg_data img filp tseg k rs1 r rs2 :
  holds_relocs img (f_pos filp) (rs1 ++ r :: rs2) ->
  Forall wf_reloc (rs1 ++ r :: rs2) ->
  forallb reloc_ok (rs1 ++ r :: rs2) = true ->
  r_symndx r = S_DATA ->
  Forall (reloc_apart (r_vaddr r)) rs2 ->
  peekw (r_vaddr r) place_base
    (k_mem (relocate place_base (sizeof_reloc * Z.of_nat (length (rs1 ++ r :: rs2)))
              seg_code seg_data img filp tseg k).2) =
  u16 (seg_base seg_data).
Proof.
  intros Hh Hwf Hok Hsym Hrs2. rewrite relocate_ok by assumption. cbn [snd].
  change (k_mem (k <| k_mem := ?m |>)) with m.
  apply apply_relocs_at; [|exact Hrs2].
  rewrite forallb_app in Hok. cbn [forallb] in Hok.
  apply andb_prop in Hok as [_ [[Ht _]%andb_prop _]%andb_prop].
  unfold reloc_val. now rewrite Ht, Hsym.
Qed.

Lemma relocate_roundtrip_witness :
  peekw 4 0x2000
    (k_mem (relocate 0x2000 (sizeof_reloc * Z.of_nat (length demo_relocs))
              demo_code demo_data demo_image demo_filp 100 kernel0).2) =
  u16 (seg_base demo_data).
Proof.
  apply (relocate_roundtrip 0x2000 demo_code demo_data demo_image demo_filp 100 kernel0
           [] (Build_minix_reloc 4 S_DATA R_SEGWORD));
    [exact demo_holds | exact demo_relocs_wf | reflexivity | reflexivity |].
  repeat constructor; vm_compute; congruence.
Defined.

(** C22.  A stream whose length is not a multiple of the record size is
    refused with -EINVAL before anything is read or written. *)
Theorem relocate_bad_size place_base rsize seg_code seg_data img filp tseg k :
  rsize mod sizeof_reloc <> 0 ->
  relocate place_base rsize seg_code seg_data img filp tseg k = (- EINVAL, filp, k).
Proof.
  intros Hr. unfold relocate. rewrite rsize_mod.
  now destruct (Z.eqb_spec (rsize mod sizeof_reloc) 0).
Qed.

Lemma relocate_bad_size_witness :
  relocate 0x2000 20 demo_code demo_data demo_image demo_filp 100 kernel0 =
  (- EINVAL, demo_filp, kernel0).
Proof. apply relocate_bad_size. discriminate. Defined.

(** C15.  Whatever the stream holds, [relocate] returns 0, -EINVAL or -EIO;
    it changes nothing of the kernel but memory (the [ds] of the current
    task is restored on every path), nothing of memory outside the 64 KiB
    of the segment it patches, and never moves the file backwards. *)
Theorem relocate_frame place_base rsize seg_code seg_data img filp tseg k :
  let '(r, filp', k') := relocate place_base rsize seg_code seg_data img filp tseg k in
  (r = 0 \/ r = - EINVAL \/ r = - EIO) /\
  k' = k <| k_mem := k_mem k' |> /\
  same_outside (in_segment place_base) (k_mem k') (k_mem k) /\
  f_pos filp <= f_pos filp' /\ f_inode filp' = f_inode filp.
Proof.
  unfold relocate. destruct (negb _).
  { split; [auto|]. split; [now destruct k|].
    split; [apply same_outside_refl | split; [lia | reflexivity]]. }
  destruct relocate_loop as [[e f1] m1] eqn:Hloop.
  pose proof (relocate_loop_frame _ _ _ _ _ _ _ _ _ _ _ Hloop) as (Hm & Hp & Hi & _).
  change (k_mem (k <| k_cur ::= _ |>)) with (k_mem k) in Hm.
  assert (Hk : forall r, let k' := k <| k_cur ::= set t_regs (set r_ds (fun _ => kernel_ds k)) |>
                        <| k_mem := m1 |>
                        <| k_cur ::= set t_regs (set r_ds (fun _ => r_ds (t_regs (k_cur k)))) |> in
                 (r = 0 \/ r = - EINVAL \/ r = - EIO) ->
                 (r = 0 \/ r = - EINVAL \/ r = - EIO) /\ k' = k <| k_mem := k_mem k' |> /\
                 same_outside (in_segment place_base) (k_mem k') (k_mem k) /\
                 f_pos filp <= f_pos f1 /\ f_inode f1 = f_inode filp).
  { intros r k' Hr. subst k'. rewrite restore_ds. auto. }
  destruct e as [|r]; apply Hk; auto.
  apply relocate_loop_error in Hloop as [->|Hr]; [case_if; auto | case_if; auto; lia].
Qed.

