(* ===== verification/Finalize.v ===== *)
(** * Finalize: the commit of exec (exec.c lines 664-691 and 715-787)

    From line 664 on "exec() will surely succeed".  [exec_commit] is the
    end of [sys_execve]: the bss is wiped, the break and stack fields of
    the task are set from the layout, and the argument block is copied to
    the top of the new data segment (or below the data with
    [CONFIG_EXEC_LOW_STACK]).  [finalize_exec] releases the old segments,
    installs the new ones, sets the stack registers, rounds the break to
    an even address, rebases the pointers of argv and envp in the copied
    block, resets the signals, closes the close-on-exec descriptors,
    replaces the inode, applies set-uid and set-gid, and builds the frame
    for the entry point.

    The loops over signals and descriptors run a known number of times.
    The loop over argv and envp ends at the second null word, which the
    block is expected to hold: it is modelled with the number of words of
    a 64 KiB segment as fuel, and returns [None] when one sweep of the
    segment does not find them. *)

From Stdlib Require Import ZArith Lia List Bool Ascii String.
From stdpp Require Import base decidable option list gmap.
From S2P Require Import Prelude.
From S2P Require Import Config.
From S2P Require Import Aout.
From S2P Require Import Layout.
From S2P Require Import Farmem.
From S2P Require Import Printk.
From S2P Require Import Kernel.

Local Open Scope Z_scope.

(** The words of a segment: the fuel of the loop over argv and envp. *)
Definition SEG_WORDS : nat := 32768.

Section Finalize.
Context `{BuildConfig} `{EntryTransfer}.

(** ** The end of sys_execve, lines 666-682 *)

(** [t_begstack], lines 673-680. *)
Definition exec_begstack (base_data endseg slen : Z) : Z :=
  let begstack :=
    if CONFIG_EXEC_LOW_STACK then
      u16 ((if negb (base_data =? 0) then base_data else endseg) - slen)
    else u16 (endseg - slen) in
  Z.land begstack (u16 (Z.lnot 1)).

Definition exec_commit (mh : minix_exec_hdr) (l : layout) (seg_data : nat)
    (sptr ds slen : Z) (k : kernel) : kernel :=
  let base_data := l_base_data l in
  let k := k <| k_mem ::= fmemsetb (u16 (u16 (dseg mh) + base_data))
                            (seg_base_of seg_data k) 0 (u16 (bseg mh)) |> in
  let k := k <| k_cur ::= set t_endseg (fun _ => l_len l) |> in
  let k := k <| k_cur ::= set t_enddata
                  (fun _ => u16 (u16 (dseg mh) + u16 (bseg mh) + base_data)) |> in
  let begstack := exec_begstack base_data (t_endseg (k_cur k)) slen in
  let k := k <| k_cur ::= set t_begstack (fun _ => begstack) |> in
  let k := k <| k_mem ::= fmemcpyb begstack (seg_base_of seg_data k) sptr ds slen |> in
  k <| k_cur ::= set t_minstack (fun _ => l_stack l) |>.

(** ** finalize_exec *)

(** Lines 735-737: the break, rounded up to an even address. *)
Definition exec_endbrk (enddata : Z) : Z :=
  if Z.odd (s16 enddata) then u16 (enddata + 1) else enddata.

(** Lines 746-752: the loop over argv and envp.  [i] is the offset of the
    word before the next, [n] the number of arrays ended. *)
Fixpoint fixup_loop (fuel : nat) (t : task) (i n : Z) (m : mem) : option mem :=
  match fuel with
  | O => None
  | S fuel' =>
      let i := s16 (i + 2) in
      let v := s16 (get_ustack t i m) in
      let '(m, n) :=
        if negb (v =? 0) then (put_ustack t i (t_begstack t + v) m, n)
        else (m, n + 1) in
      if n <? 2 then fixup_loop fuel' t i n m else Some m
  end.

(** Lines 755-758: every signal back to its default. *)
Fixpoint signal_loop (fuel i : nat) (action : list Z) : list Z :=
  match fuel with
  | O => action
  | S fuel' =>
      let action := <[i := SIGDISP_DFL]> action in
      if (S i <? NSIG)%nat then signal_loop fuel' (S i) action else action
  end.

(** Lines 762-766: the descriptors marked close-on-exec closed. *)
Fixpoint close_loop (fuel i : nat) (k : kernel) : kernel :=
  match fuel with
  | O => k
  | S fuel' =>
      let k :=
        if FD_ISSET i (files_close_on_exec (t_files (k_cur k)))
        then sys_close i k else k in
      if (S i <? NR_OPEN)%nat then close_loop fuel' (S i) k else k
  end.

(** Lines 776-779: set-uid and set-gid. *)
Definition exec_setid (ino : inode_s) (t : task) : task :=
  let t :=
    if negb (Z.land (i_mode ino) S_ISUID =? 0)
    then t <| euid := i_uid ino |> else t in
  if negb (Z.land (i_mode ino) S_ISGID =? 0)
  then t <| egid := i_gid ino |> else t.

(** The message of line 729. *)
Definition entry_message : list Z := str "ENTRY %04x:%04x" ++ [LF].

(** [finalize_exec], block by block. *)

(** Lines 723-725: the old binary flushed out. *)
Definition finalize_flush (k : kernel) : kernel :=
  let t := k_cur k in
  k <| k_segs ::= fun segs =>
         seg_put_opt (mm_seg_data (t_mm t)) (seg_put_opt (mm_seg_code (t_mm t)) segs) |>.

(** Lines 727-729: the code segment installed, and announced. *)
Definition finalize_code (seg_code : nat) (entry : Z) (k : kernel) : kernel :=
  call_printk entry_message [seg_base_of seg_code k; entry]
    (k <| k_cur ::= fun t =>
            t <| t_mm ::= set mm_seg_code (fun _ => Some seg_code) |>
              <| t_xregs_cs := seg_base_of seg_code k |> |>).

(** Lines 731-733: the data segment installed, and the stack registers. *)
Definition finalize_data (seg_data : nat) (k : kernel) : kernel :=
  k <| k_cur ::= fun t =>
         t <| t_mm ::= set mm_seg_data (fun _ => Some seg_data) |>
           <| t_regs ::= fun r =>
                r <| r_es := seg_base_of seg_data k |>
                  <| r_ss := seg_base_of seg_data k |>
                  <| r_sp := u16 (t_begstack t) |> |> |>.

(** Lines 735-737. *)
Definition finalize_brk (k : kernel) : kernel :=
  k <| k_cur ::= fun t => t <| t_endbrk := exec_endbrk (t_enddata t) |> |>.

(** Lines 739-752. *)
Definition finalize_fixup (k : kernel) : option kernel :=
  m ← fixup_loop SEG_WORDS (k_cur k) 0 0 (k_mem k);
  Some (k <| k_mem := m |>).

(** Lines 754-759. *)
Definition finalize_signals (k : kernel) : kernel :=
  k <| k_cur ::= set t_sig (fun s =>
         {| sig_action := signal_loop NSIG 0 (sig_action s); sig_handler := 0 |}) |>.

(** Lines 761-766. *)
Definition finalize_files (k : kernel) : kernel := close_loop NR_OPEN 0 k.

(** Lines 769-779: the inode replaced, and the effective ids. *)
Definition finalize_inode (inode : nat) (k : kernel) : kernel :=
  let inodes := iput (t_inode (k_cur k)) (k_inodes k) in
  let ino := default inode_null (inodes !! inode) in
  k <| k_inodes := inodes |>
    <| k_cur ::= fun t => exec_setid ino (t <| t_inode := Some inode |>) |>.

(** Line 782. *)
Definition finalize_entry (entry : Z) (k : kernel) : kernel :=
  let '(t, m) := arch_setup_user_stack (k_cur k) entry (k_mem k) in
  k <| k_cur := t |> <| k_mem := m |>.

Definition finalize_exec (inode : nat) (seg_code seg_data : nat) (entry : Z)
    (k : kernel) : option kernel :=
  k ← finalize_fixup
        (finalize_brk (finalize_data seg_data
           (finalize_code seg_code entry (finalize_flush k))));
  Some (finalize_entry entry
          (finalize_inode inode (finalize_files (finalize_signals k)))).

End Finalize.

(** ** The contract of the loop over argv and envp *)

(** The words [ws] are those of the user stack from offset [off] on. *)
Definition holds_words (t : task) (off : Z) (ws : list Z) (m : mem) : Prop :=
  forall (i : nat) w, ws !! i = Some w -> get_ustack t (off + 2 * Z.of_nat i) m = w.

(** A pointer of the block rebased. *)
Definition rebase (t : task) (v : Z) : Z := u16 (t_begstack t + v).

(** The pointers [ws] stored at [off] rebased in place, one after the
    other. *)
Fixpoint rebase_words (t : task) (off : Z) (ws : list Z) (m : mem) : mem :=
  match ws with
  | [] => m
  | w :: ws' => rebase_words t (off + 2) ws' (put_ustack t off (rebase t w) m)
  end.

(** An argument block: the count, the pointers of argv, a null word, the
    pointers of envp, a null word. *)
Definition arg_block (argc : Z) (argv envp : list Z) : list Z :=
  argc :: argv ++ [0] ++ envp ++ [0].

(** A non-null 16-bit word. *)
Definition nonnull (w : Z) : Prop := 0 < w < 65536.

(** ** The contract of finalize_exec *)

(** The task with its stack registers on the data segment of base
    [dbase], at the argument block. *)
Definition stack_view (t : task) (dbase : Z) : task :=
  t <| t_regs := {| r_ds := r_ds (t_regs t); r_es := dbase; r_ss := dbase;
                    r_sp := u16 (t_begstack t) |} |>.

(** The effective ids after exec of a file of mode [mode]. *)
Definition setid_euid (ino : inode_s) (t : task) : Z :=
  if negb (Z.land (i_mode ino) S_ISUID =? 0) then i_uid ino else euid t.

Definition setid_egid (ino : inode_s) (t : task) : Z :=
  if negb (Z.land (i_mode ino) S_ISGID =? 0) then i_gid ino else egid t.

(** The segment table after the old segments of [k] are released. *)
Definition flushed_segs (k : kernel) : gmap nat segment_s :=
  seg_put_opt (mm_seg_data (t_mm (k_cur k)))
    (seg_put_opt (mm_seg_code (t_mm (k_cur k))) (k_segs k)).

Section Contract.
Context `{BuildConfig} `{EntryTransfer}.

(** The task [finalize_exec] hands to the entry transfer: every field,
    from the task before, the new segments [seg_code] and [seg_data] and
    their bases, the descriptors [files] left by the loop over them, and
    the inode [ino] of the program. *)
Definition committed_task (t : task) (seg_code seg_data : nat) (cbase dbase : Z)
    (files : files_s) (inode : nat) (ino : inode_s) : task :=
  {| t_regs := {| r_ds := r_ds (t_regs t); r_es := dbase; r_ss := dbase;
                  r_sp := u16 (t_begstack t) |};
     t_xregs_cs := cbase;
     t_mm := {| mm_seg_code := Some seg_code; mm_seg_data := Some seg_data |};
     t_sig := {| sig_action := signal_loop NSIG 0 (sig_action (t_sig t));
                 sig_handler := 0 |};
     t_files := files;
     t_endseg := t_endseg t; t_enddata := t_enddata t;
     t_begstack := t_begstack t; t_endbrk := exec_endbrk (t_enddata t);
     t_minstack := t_minstack t;
     t_inode := Some inode;
     euid := setid_euid ino t; egid := setid_egid ino t;
     t_state := t_state t |}.

End Contract.

(** ** Lemmas: small computations *)

Lemma exec_endbrk_spec enddata :
  0 <= enddata < 65535 ->
  let brk := exec_endbrk enddata in
  Z.even brk = true /\ enddata <= brk <= enddata + 1.
Proof.
  intros He. unfold exec_endbrk, s16. rewrite u16_small by (unfold fits16; lia).
  assert (Ho : Z.odd (if enddata <? 32768 then enddata else enddata - 65536) = Z.odd enddata).
  { case_if; [reflexivity|]. rewrite Z.odd_sub. now destruct (Z.odd enddata). }
  rewrite Ho. destruct (Z.odd enddata) eqn:Hodd.
  - rewrite u16_small by (unfold fits16; lia). rewrite Z.even_add, <- Z.negb_odd, Hodd. split; [reflexivity | lia].
  - rewrite <- Z.negb_odd, Hodd. split; [reflexivity | lia].
Qed.

(** ** Lemmas: words of the user stack *)

Lemma holds_words_cons t off w ws m :
  holds_words t off (w :: ws) m <->
  get_ustack t off m = w /\ holds_words t (off + 2) ws m.
Proof.
  unfold holds_words. split.
  - intros Hh. split.
    + rewrite <- (Hh 0%nat w eq_refl). f_equal. lia.
    + intros i w' Hi. rewrite <- (Hh (S i) w' Hi). f_equal. lia.
  - intros [H0 Hh] [|i] w' Hi.
    + injection Hi as <-. rewrite <- H0. f_equal. lia.
    + rewrite <- (Hh i w' Hi). f_equal. lia.
Qed.

Lemma get_put_same t off v m : get_ustack t off (put_ustack t off v m) = u16 v.
Proof. apply peekw_pokew_same. Qed.

(** A word two bytes or more away from the word written is not changed. *)
Lemma get_put_apart t off d v m :
  2 <= d <= 65534 \/ -65534 <= d <= -2 ->
  get_ustack t (off + d) (put_ustack t off v m) = get_ustack t (off + d) m.
Proof.
  intros Hd. unfold get_ustack, put_ustack. apply peekw_pokew_apart; words.
Qed.

Lemma put_rebase t off w m :
  put_ustack t off (t_begstack t + s16 w) m = put_ustack t off (rebase t w) m.
Proof.
  assert (E : u16 (t_begstack t + s16 w) = rebase t w)
    by (unfold rebase, s16; case_if; words).
  unfold put_ustack. now rewrite <- pokew_val_u16, E.
Qed.

(** The words after the rebased ones, and those before, are not
    changed. *)
Lemma get_rebase_words_out t off ws m d :
  2 * Z.of_nat (length ws) <= d <= 65534 \/
  2 * Z.of_nat (length ws) - 65536 <= d <= -2 ->
  get_ustack t (off + d) (rebase_words t off ws m) = get_ustack t (off + d) m.
Proof.
  revert off d m; induction ws as [|w ws IH]; intros off d m Hd; [reflexivity|].
  cbn [rebase_words length] in *.
  replace (off + d) with (off + 2 + (d - 2)) by lia.
  rewrite IH by lia. replace (off + 2 + (d - 2)) with (off + d) by lia.
  apply get_put_apart. lia.
Qed.

(** The rebased words hold the rebased pointers. *)
Lemma get_rebase_words_in t off ws m (i : nat) w :
  ws !! i = Some w -> 2 * Z.of_nat (length ws) <= 65534 ->
  get_ustack t (off + 2 * Z.of_nat i) (rebase_words t off ws m) = rebase t w.
Proof.
  revert off i m; induction ws as [|w0 ws IH]; intros off i m Hi Hl; [discriminate|].
  cbn [rebase_words length] in *. destruct i as [|i].
  - injection Hi as ->.
    replace (off + 2 * Z.of_nat 0) with (off + 2 + -2) by lia.
    rewrite get_rebase_words_out by lia.
    replace (off + 2 + -2) with off by lia.
    rewrite get_put_same. unfold rebase. apply u16_idem.
  - replace (off + 2 * Z.of_nat (S i)) with (off + 2 + 2 * Z.of_nat i) by lia.
    apply IH; [exact Hi | lia].
Qed.

Lemma rebase_words_frame t off ws m n :
  0 <= off -> off + 2 * Z.of_nat (length ws) <= n ->
  same_outside (in_block (r_ss (t_regs t)) (r_sp (t_regs t)) n)
    (rebase_words t off ws m) m.
Proof.
  revert off m; induction ws as [|w ws IH]; intros off m Ho Hn;
    [apply same_outside_refl|].
  cbn [rebase_words length] in *.
  eapply same_outside_trans; [apply IH; lia|].
  apply pokew_in_block; lia.
Qed.

Lemma holds_words_app t off l1 l2 m :
  holds_words t off (l1 ++ l2) m <->
  holds_words t off l1 m /\ holds_words t (off + 2 * Z.of_nat (length l1)) l2 m.
Proof.
  revert off; induction l1 as [|w l1 IH]; intros off; cbn [app length].
  - rewrite Z.add_0_r. split; [intros Hh; split; [intros i w [=] | exact Hh] | now intros [_ Hh]].
  - rewrite !holds_words_cons, IH.
    replace (off + 2 + 2 * Z.of_nat (length l1)) with (off + 2 * Z.of_nat (S (length l1))) by lia.
    tauto.
Qed.

(** Words that lie after the rebased ones, or before them, are held as
    before. *)
Lemma holds_words_rebase_out t off ws off' l m :
  (2 * Z.of_nat (length ws) <= off' - off /\
   off' - off + 2 * Z.of_nat (length l) <= 65536) \/
  (2 * Z.of_nat (length ws) - 65536 <= off' - off /\
   off' - off + 2 * Z.of_nat (length l) <= 0) ->
  holds_words t off' l m -> holds_words t off' l (rebase_words t off ws m).
Proof.
  intros Hd Hh j w Hj. pose proof (lookup_lt_Some _ _ _ Hj) as Hlt.
  replace (off' + 2 * Z.of_nat j) with (off + (off' - off + 2 * Z.of_nat j)) by lia.
  rewrite get_rebase_words_out by lia.
  replace (off + (off' - off + 2 * Z.of_nat j)) with (off' + 2 * Z.of_nat j) by lia.
  now apply Hh.
Qed.

Lemma holds_words_rebase_in t off ws m :
  2 * Z.of_nat (length ws) <= 65534 ->
  holds_words t off (map (rebase t) ws) (rebase_words t off ws m).
Proof.
  intros Hl j w Hj. rewrite list_lookup_fmap in Hj.
  destruct (ws !! j) as [w0|] eqn:Hw; [|discriminate]. injection Hj as <-.
  now apply get_rebase_words_in.
Qed.

(** ** Lemmas: the loop over argv and envp *)

Lemma s16_nonnull w : nonnull w -> (s16 w =? 0) = false.
Proof.
  intros Hw. unfold nonnull in Hw. unfold s16.
  rewrite u16_small by (unfold fits16; lia). case_if; lia.
Qed.

(** One array: the loop rebases its pointers, counts its null word, and
    goes on to the next array or ends. *)
Lemma fixup_array fuel t i n ws m :
  Forall nonnull ws -> holds_words t (i + 2) (ws ++ [0]) m ->
  -2 <= i -> i + 2 * Z.of_nat (length ws + 1) < 32768 -> n < 2 ->
  fixup_loop (length ws + 1 + fuel) t i n m =
  let m' := rebase_words t (i + 2) ws m in
  if n + 1 <? 2
  then fixup_loop fuel t (i + 2 * Z.of_nat (length ws + 1)) (n + 1) m'
  else Some m'.
Proof.
  intros Hws. revert i m. induction Hws as [|w ws Hw _ IH]; intros i m Hh Hi Hl Hn;
    apply holds_words_cons in Hh as [Hv Hh]; cbn [length Nat.add app fixup_loop];
    rewrite (s16_small (i + 2)), Hv by lia.
  - cbn [s16 Z.eqb negb rebase_words]. change (s16 0 =? 0) with true. cbn [negb].
    now replace (i + 2 * Z.of_nat 1) with (i + 2) by lia.
  - rewrite s16_nonnull by exact Hw. cbn [negb]. cbn [length] in Hl.
    rewrite (proj2 (Z.ltb_lt n 2)) by lia. rewrite put_rebase, IH; try lia.
    + cbn [rebase_words]. cbv zeta.
      now replace (i + 2 + 2 * Z.of_nat (length ws + 1))
        with (i + 2 * Z.of_nat (S (length ws + 1))) by lia.
    + intros j w' Hj. pose proof (lookup_lt_Some _ _ _ Hj) as Hlt.
      rewrite length_app in Hlt. cbn [length] in Hlt.
      replace (i + 2 + 2 + 2 * Z.of_nat j) with (i + 2 + (2 + 2 * Z.of_nat j)) by lia.
      rewrite get_put_apart by lia.
      replace (i + 2 + (2 + 2 * Z.of_nat j)) with (i + 2 + 2 + 2 * Z.of_nat j) by lia.
      now apply Hh.
Qed.

(** The loop on an argument block, given fuel for its words. *)
Lemma fixup_block fuel t argc argv envp m :
  holds_words t 0 (arg_block argc argv envp) m ->
  Forall nonnull argv -> Forall nonnull envp ->
  2 * Z.of_nat (length (arg_block argc argv envp)) < 32768 ->
  fixup_loop (length argv + 1 + (length envp + 1 + fuel)) t 0 0 m =
  Some (rebase_words t (2 * Z.of_nat (length argv + 2)) envp (rebase_words t 2 argv m)).
Proof.
  unfold arg_block. intros [_ Hh]%holds_words_cons Hargv Henvp Hlen.
  cbn [length] in Hlen. rewrite !length_app in Hlen. cbn [length] in Hlen.
  rewrite app_assoc in Hh.
  rewrite fixup_array; [| exact Hargv | | lia..].
  2: { intros j w Hj. apply Hh. now apply lookup_app_l_Some. }
  cbv zeta. cbn [Z.add Z.ltb Z.compare Pos.compare].
  rewrite fixup_array; [| exact Henvp | | lia..].
  - cbv zeta. cbn [Z.add Z.ltb Z.compare Pos.compare]. do 2 f_equal. lia.
  - intros j w Hj. pose proof (lookup_lt_Some _ _ _ Hj) as Hlt.
    rewrite length_app in Hlt. cbn [length] in Hlt.
    replace (0 + 2 * Z.of_nat (length argv + 1) + 2 + 2 * Z.of_nat j)
      with (0 + 2 + 2 * Z.of_nat (length argv + 1 + j)) by lia.
    rewrite get_rebase_words_out by lia.
    replace (length argv + 1 + j)%nat with (length (argv ++ [0%Z]) + j)%nat
      by (rewrite length_app; cbn [length]; lia).
    apply Hh. now rewrite lookup_app_r, Nat.add_comm, Nat.add_sub by lia.
Qed.

(** The block after the two arrays are rebased. *)
Lemma rebased_block t argc argv envp m :
  holds_words t 0 (arg_block argc argv envp) m ->
  2 * Z.of_nat (length (arg_block argc argv envp)) < 32768 ->
  holds_words t 0 (arg_block argc (map (rebase t) argv) (map (rebase t) envp))
    (rebase_words t (2 * Z.of_nat (length argv + 2)) envp (rebase_words t 2 argv m)).
Proof.
  unfold arg_block. cbn [length]. rewrite !length_app. cbn [length].
  rewrite !holds_words_cons, !holds_words_app, !holds_words_cons, !length_map.
  cbn [length]. intros (Hc & Hv & (Hz & _) & He & Hz' & _) Hlen.
  remember (2 * Z.of_nat (length argv + 2)) as B eqn:HB.
  assert (Hget : forall off,
    off = 0 \/ off = 2 + 2 * Z.of_nat (length argv) \/
    off = B + 2 * Z.of_nat (length envp) ->
    get_ustack t off (rebase_words t B envp (rebase_words t 2 argv m)) =
    get_ustack t off m).
  { intros off Hoff. replace off with (B + (off - B)) at 1 by lia.
    rewrite get_rebase_words_out by lia.
    replace (B + (off - B)) with (2 + (off - 2)) by lia.
    rewrite get_rebase_words_out by lia. f_equal. lia. }
  conjs; try (now intros i w [=]).
  - rewrite Hget by lia. exact Hc.
  - apply holds_words_rebase_out; [rewrite length_map; lia|].
    apply holds_words_rebase_in. lia.
  - rewrite Hget by lia. exact Hz.
  - replace (0 + 2 + 2 * Z.of_nat (length argv) + 2 * Z.of_nat 1) with B by lia.
    apply holds_words_rebase_in. lia.
  - rewrite Hget by lia. exact Hz'.
Qed.

Lemma fixup_fuel (a e : nat) :
  2 * Z.of_nat (a + e + 3) < 32768 ->
  SEG_WORDS = (a + 1 + (e + 1 + (SEG_WORDS - (a + e + 2))))%nat.
Proof.
  intros Hl. assert (Hs : Z.of_nat SEG_WORDS = 32768) by reflexivity. lia.
Qed.

(** The loop on an argument block, with the fuel of [finalize_exec]. *)
Lemma fixup_loop_block t argc argv envp m :
  holds_words t 0 (arg_block argc argv envp) m ->
  Forall nonnull argv -> Forall nonnull envp ->
  2 * Z.of_nat (length (arg_block argc argv envp)) < 32768 ->
  fixup_loop SEG_WORDS t 0 0 m =
  Some (rebase_words t (2 * Z.of_nat (length argv + 2)) envp (rebase_words t 2 argv m)).
Proof.
  intros Hh Hargv Henvp Hlen. rewrite (fixup_fuel (length argv) (length envp)).
  - now apply (fixup_block _ t argc).
  - unfold arg_block in Hlen. cbn [length] in Hlen. rewrite !length_app in Hlen.
    cbn [length] in Hlen. lia.
Qed.

Section FinalizeLemmas.
Context `{BuildConfig}.

(** Without a base the block is put right below the end of the segment,
    on an even address. *)
Lemma exec_begstack_top endseg slen :
  0 <= slen <= endseg -> endseg < 65536 ->
  let b := exec_begstack 0 endseg slen in
  Z.even b = true /\ endseg - slen - 1 <= b <= endseg - slen.
Proof.
  intros Hs He. unfold exec_begstack. cbn [Z.eqb negb].
  assert (Hb : (if CONFIG_EXEC_LOW_STACK then u16 (endseg - slen) else u16 (endseg - slen))
               = endseg - slen).
  { destruct CONFIG_EXEC_LOW_STACK; apply u16_small; unfold fits16; lia. }
  rewrite Hb. change (u16 (Z.lnot 1)) with 65534.
  rewrite land_not1 by (unfold fits16; lia).
  split; [rewrite Z.even_mul; reflexivity | zlia].
Qed.

Lemma call_printk_entry args k :
  CONFIG_DCON_ANSI_PRINTK = false ->
  k_con (call_printk entry_message args k) =
  con_puts (str "ENTRY ?4x:?4x" ++ [CR; LF]) (k_con k).
Proof. intros Hc. unfold call_printk, entry_message. now rewrite printk_entry_format. Qed.

(** One pass of the loop over the descriptors, on slot [j]. *)
Lemma close_step_fd i k j :
  (i < NR_OPEN)%nat ->
  let f := t_files (k_cur k) in
  let k1 := if FD_ISSET i (files_close_on_exec f) then sys_close i k else k in
  let f1 := t_files (k_cur k1) in
  files_fd f1 !! j =
    (if bool_decide (j = i) && FD_ISSET j (files_close_on_exec f)
     then (fun _ => None) <$> files_fd f !! j else files_fd f !! j) /\
  FD_ISSET j (files_close_on_exec f1) =
    FD_ISSET j (files_close_on_exec f) && negb (bool_decide (j = i)).
Proof.
  intros Hi f k1 f1. subst f1 k1. destruct (FD_ISSET i (files_close_on_exec f)) eqn:Hb.
  - rewrite sys_close_files by exact Hi. fold f. unfold close_fd, FD_ISSET.
    cbn [files_fd files_close_on_exec]. rewrite Z.clearbit_eqb. case_bool_decide as Hj.
    + subst j. unfold FD_ISSET in Hb. rewrite Hb, Z.eqb_refl. cbn [andb negb]. split; [|reflexivity].
      destruct (files_fd f !! i) eqn:Hl.
      * rewrite list_lookup_insert_eq by (now apply lookup_lt_Some in Hl). reflexivity.
      * rewrite list_insert_ge by (now apply lookup_ge_None). now rewrite Hl.
    + rewrite list_lookup_insert_ne by congruence.
      rewrite (proj2 (Z.eqb_neq _ _)) by lia. now rewrite andb_true_r.
  - fold f. case_bool_decide as Hj; [subst j; rewrite Hb|]; cbn [andb negb];
      now rewrite ?andb_true_r.
Qed.

(** The loop over the descriptors: every slot marked close-on-exec is
    emptied and its mark cleared, the others are as before. *)
Lemma close_loop_fd fuel i k j :
  (i + fuel = NR_OPEN)%nat -> (0 < fuel)%nat ->
  let f := t_files (k_cur k) in
  let f' := t_files (k_cur (close_loop fuel i k)) in
  files_fd f' !! j =
    (if bool_decide (i <= j < NR_OPEN)%nat && FD_ISSET j (files_close_on_exec f)
     then (fun _ => None) <$> files_fd f !! j else files_fd f !! j) /\
  FD_ISSET j (files_close_on_exec f') =
    FD_ISSET j (files_close_on_exec f) && negb (bool_decide (i <= j < NR_OPEN)%nat).
Proof.
  revert i k; induction fuel as [|fuel IH]; intros i k Hi Hf; [lia|].
  cbn [close_loop]. cbv zeta.
  destruct (close_step_fd i k j ltac:(lia)) as [Hfd Hbit]. cbv zeta in Hfd, Hbit.
  destruct (Nat.ltb_spec (S i) NR_OPEN) as [Hlt|Hge].
  - destruct (IH (S i) (if FD_ISSET i (files_close_on_exec (t_files (k_cur k)))
                        then sys_close i k else k) ltac:(lia) ltac:(lia)) as [Hfd' Hbit'].
    cbv zeta in Hfd', Hbit'. rewrite Hfd', Hbit', Hfd, Hbit.
    repeat case_bool_decide; try lia;
      destruct (FD_ISSET j _); cbn [andb negb]; split; try reflexivity;
      now destruct (files_fd _ !! j).
  - rewrite Hfd, Hbit. repeat case_bool_decide; try lia; now split.
Qed.

Lemma close_loop_files_only fuel i k : files_only k (close_loop fuel i k).
Proof.
  revert i k; induction fuel as [|fuel IH]; intros i k; [apply files_only_refl|].
  cbn [close_loop]. assert (Hs : files_only k
    (if FD_ISSET i (files_close_on_exec (t_files (k_cur k))) then sys_close i k else k))
    by (destruct FD_ISSET; [apply sys_close_files_only | apply files_only_refl]).
  case_if; [|exact Hs]. eapply files_only_trans; [exact Hs | apply IH].
Qed.

(** The loop over the signals sets every one of them. *)
Lemma signal_loop_spec fuel i action :
  (i + fuel = NSIG)%nat -> (0 < fuel)%nat -> length action = NSIG ->
  signal_loop fuel i action = take i action ++ replicate fuel SIGDISP_DFL.
Proof.
  revert i action; induction fuel as [|fuel IH]; intros i action Hi Hf Hl; [lia|].
  cbn [signal_loop]. destruct (Nat.ltb_spec (S i) NSIG) as [Hlt|Hge].
  - rewrite IH by (rewrite ?length_insert; lia).
    rewrite (take_S_r _ _ SIGDISP_DFL) by (apply list_lookup_insert_eq; lia).
    rewrite take_insert_ge by lia. now rewrite <- app_assoc.
  - assert (fuel = 0%nat) as -> by lia. cbn [replicate].
    rewrite <- (take_drop (S i) (<[i := SIGDISP_DFL]> action)) at 1.
    rewrite drop_ge, app_nil_r by (rewrite length_insert; lia).
    rewrite (take_S_r _ _ SIGDISP_DFL) by (apply list_lookup_insert_eq; lia).
    now rewrite take_insert_ge by lia.
Qed.

End FinalizeLemmas.

(** The loop reads the stack registers and the base of the block, and
    nothing else of the task. *)
Lemma fixup_loop_ext fuel t t' i n m :
  t_regs t = t_regs t' -> t_begstack t = t_begstack t' ->
  fixup_loop fuel t i n m = fixup_loop fuel t' i n m.
Proof.
  intros Hr Hb. revert i n m; induction fuel as [|fuel IH]; intros i n m; [reflexivity|].
  cbn [fixup_loop]. unfold get_ustack, put_ustack. rewrite Hr, Hb.
  destruct (negb _); case_if; auto.
Qed.

Lemma holds_words_ext t t' off ws m :
  t_regs t = t_regs t' -> holds_words t off ws m -> holds_words t' off ws m.
Proof. intros Hr Hh i w Hi. unfold get_ustack. rewrite <- Hr. now apply Hh. Qed.

(** Words outside the addresses written are held as before. *)
Lemma holds_words_outside A t off ws m m' :
  same_outside A m' m ->
  (forall d, 0 <= d < 2 * Z.of_nat (length ws) ->
     ~ A (linear (r_ss (t_regs t)) (r_sp (t_regs t) + off + d))) ->
  holds_words t off ws m -> holds_words t off ws m'.
Proof.
  intros Hm HA Hh i w Hi. pose proof (lookup_lt_Some _ _ _ Hi) as Hlt.
  rewrite <- (Hh i w Hi). unfold get_ustack, peekw, peekb.
  rewrite !Hm; [reflexivity | |].
  - replace (r_sp (t_regs t) + (off + 2 * Z.of_nat i) + 1)
      with (r_sp (t_regs t) + off + (2 * Z.of_nat i + 1)) by lia. apply HA. lia.
  - replace (r_sp (t_regs t) + (off + 2 * Z.of_nat i))
      with (r_sp (t_regs t) + off + 2 * Z.of_nat i) by lia. apply HA. lia.
Qed.

(** The frame of the entry transfer lies below the stack pointer: a block
    at the stack pointer is clear of it. *)
Lemma frame_clear ss sp fs d :
  0 <= fs <= 256 -> 0 <= d < 32768 ->
  ~ in_block ss (sp - fs) fs (linear ss (sp + 0 + d)).
Proof.
  intros Hfs Hd (e & He & Heq). apply linear_inj_off in Heq. revert Heq. words.
Qed.

(** ** Lemmas: finalize_exec as a whole *)

Lemma exec_setid_eq ino t :
  exec_setid ino t = t <| euid := setid_euid ino t |> <| egid := setid_egid ino t |>.
Proof.
  unfold exec_setid, setid_euid, setid_egid.
  destruct t as [[] ? [] [] [] ? ? ? ? ? ? ? ? ?]. now repeat case_if.
Qed.

(** ** Lemmas: the commit of sys_execve *)

Section CommitLemmas.
Context `{BuildConfig}.

(** What [exec_commit] writes: the bss cleared and the arguments copied
    in memory, and four fields of the task. *)
Lemma exec_commit_eq mh l seg_data sptr ds slen k :
  let dbase := seg_base_of seg_data k in
  let begstack := exec_begstack (l_base_data l) (l_len l) slen in
  exec_commit mh l seg_data sptr ds slen k =
  k <| k_mem := fmemcpyb begstack dbase sptr ds slen
                  (fmemsetb (u16 (u16 (dseg mh) + l_base_data l)) dbase 0 (u16 (bseg mh))
                     (k_mem k)) |>
    <| k_cur := k_cur k <| t_endseg := l_len l |>
                  <| t_enddata := u16 (u16 (dseg mh) + u16 (bseg mh) + l_base_data l) |>
                  <| t_begstack := begstack |>
                  <| t_minstack := l_stack l |> |>.
Proof. explicit_kernel k. reflexivity. Qed.

Lemma exec_commit_cur mh l seg_data sptr ds slen k :
  k_cur (exec_commit mh l seg_data sptr ds slen k) =
  k_cur k <| t_endseg := l_len l |>
          <| t_enddata := u16 (u16 (dseg mh) + u16 (bseg mh) + l_base_data l) |>
          <| t_begstack := exec_begstack (l_base_data l) (l_len l) slen |>
          <| t_minstack := l_stack l |>.
Proof. explicit_kernel k. reflexivity. Qed.

Lemma exec_commit_segs mh l seg_data sptr ds slen k :
  k_segs (exec_commit mh l seg_data sptr ds slen k) = k_segs k.
Proof. explicit_kernel k. reflexivity. Qed.

End CommitLemmas.


Section FinalizeExec.
Context `{BuildConfig} `{EntryTransfer}.

(** The state [finalize_exec] leaves, field by field.  [kx] is the kernel
    when the descriptors are closed, [ky] the kernel when the entry is
    printed. *)
Lemma finalize_exec_final inode seg_code seg_data entry k k' :
  finalize_exec inode seg_code seg_data entry k = Some k' ->
  let t0 := k_cur k in
  let cbase := from_option seg_base 0 (flushed_segs k !! seg_code) in
  let dbase := from_option seg_base 0 (flushed_segs k !! seg_data) in
  exists m1 kx ky,
    t_files (k_cur kx) = t_files t0 /\ k_con ky = k_con k /\
    let kc := close_loop NR_OPEN 0 kx in
    let inodes := iput (t_inode t0) (k_inodes kc) in
    let tc := committed_task t0 seg_code seg_data cbase dbase (t_files (k_cur kc))
                inode (default inode_null (inodes !! inode)) in
    fixup_loop SEG_WORDS tc 0 0 (k_mem k) = Some m1 /\
    k' = {| k_mem := (arch_setup_user_stack tc entry m1).2;
            k_segs := flushed_segs k;
            k_inodes := inodes;
            k_filps := k_filps kc;
            k_con := k_con (call_printk entry_message [cbase; entry] ky);
            kernel_ds := kernel_ds k; k_ksp := k_ksp k;
            k_cur := (arch_setup_user_stack tc entry m1).1;
            k_others := k_others k; k_slot := k_slot k;
            k_seg_mem := k_seg_mem k |}.
Proof.
  explicit_kernel k. unfold finalize_exec, flushed_segs, committed_task.
  unfold finalize_flush; setters.
  unfold finalize_code, seg_base_of; setters. rewrite call_printk_frame.
  match goal with |- context [k_con (call_printk ?f ?a ?k0)] =>
    remember (k_con (call_printk f a k0)) as con' eqn:Hcon' end.
  setters.
  unfold finalize_data, seg_base_of; setters.
  unfold finalize_brk; setters.
  unfold finalize_fixup; setters.
  intros (k1 & (m1 & Hfix & [= <-])%bind_Some & [= <-])%bind_Some.
  unfold finalize_signals; setters. unfold finalize_files.
  match goal with |- context [close_loop _ _ ?k0] =>
    pose proof (close_loop_files_only NR_OPEN 0 k0) as Hcl;
    remember (close_loop NR_OPEN 0 k0) as kc eqn:Hkc;
    exists m1, k0 end.
  rewrite Hcl. unfold with_files; setters.
  unfold finalize_inode; setters. rewrite exec_setid_eq; setters.
  unfold finalize_entry; setters.
  subst con'. eexists. split; [reflexivity|]. split; cycle 1.
  - cbv zeta. rewrite <- Hkc.
    erewrite fixup_loop_ext; [split; [exact Hfix|] | reflexivity | reflexivity].
    now destruct arch_setup_user_stack.
  - reflexivity.
Qed.

(** [finalize_exec] fails only in the loop over argv and envp. *)
Lemma finalize_exec_some inode seg_code seg_data entry k m1 :
  fixup_loop SEG_WORDS
    (stack_view (k_cur k) (from_option seg_base 0 (flushed_segs k !! seg_data)))
    0 0 (k_mem k) = Some m1 ->
  is_Some (finalize_exec inode seg_code seg_data entry k).
Proof.
  explicit_kernel k. unfold finalize_exec, flushed_segs, stack_view; setters.
  intros Hfix. unfold finalize_flush; setters.
  unfold finalize_code, seg_base_of; setters. rewrite call_printk_frame; setters.
  unfold finalize_data, seg_base_of; setters. unfold finalize_brk; setters.
  unfold finalize_fixup; setters.
  erewrite fixup_loop_ext, Hfix; [eexists; reflexivity | reflexivity..].
Qed.

(** The task after [finalize_exec]. *)
Lemma finalize_exec_cur inode seg_code seg_data entry k k' :
  finalize_exec inode seg_code seg_data entry k = Some k' ->
  exists files ino,
    k_cur k' =
    committed_task (k_cur k) seg_code seg_data
      (from_option seg_base 0 (flushed_segs k !! seg_code))
      (from_option seg_base 0 (flushed_segs k !! seg_data)) files inode ino
      <| t_regs ::= set r_sp (fun sp => u16 (sp - frame_size)) |>.
Proof.
  intros (m1 & kx & ky & _ & _ & _ & ->)%finalize_exec_final.
  do 2 eexists. cbn [k_cur]. apply arch_setup_task.
Qed.

(** The segments [finalize_exec] leaves: the old image flushed out. *)
Lemma finalize_exec_segs inode seg_code seg_data entry k k' :
  finalize_exec inode seg_code seg_data entry k = Some k' -> k_segs k' = flushed_segs k.
Proof. now intros (m1 & kx & ky & _ & _ & _ & ->)%finalize_exec_final. Qed.

(** The table of the OS/2 loader is not touched. *)
Lemma finalize_exec_seg_mem inode seg_code seg_data entry k k' :
  finalize_exec inode seg_code seg_data entry k = Some k' -> k_seg_mem k' = k_seg_mem k.
Proof. now intros (m1 & kx & ky & _ & _ & _ & ->)%finalize_exec_final. Qed.

End FinalizeExec.

(** ** Examples *)

(** The block of [prog a b] with one environment string: argc, two
    pointers of argv, a null word, one pointer of envp, a null word, and
    the strings. *)
Definition demo_args : list Z :=
  flat_map (le_split 2) (arg_block 2 [12; 15] [18]) ++ [97; 98; 0; 99; 100; 0; 101; 0].

(** A task whose stack pointer is at the block, in segment 0x5000. *)
Definition demo_task : task :=
  task0 <| t_regs := {| r_ds := 0x5000; r_es := 0x5000; r_ss := 0x5000; r_sp := 8284 |} |>
        <| t_begstack := 8284 |>.

Definition demo_stack : mem := poke_bytes 8284 0x5000 demo_args ∅.

Lemma demo_stack_holds : holds_words demo_task 0 (arg_block 2 [12; 15] [18]) demo_stack.
Proof. intros i w Hi. do 6 (destruct i as [|i]; [now injection Hi as <-|]). discriminate. Qed.

(** ** Properties *)

(** C9.  Argument-block fix-ups: when the user stack holds an argument
    block (a count, the pointers of argv, a null word, the pointers of
    envp, a null word; the pointers not null), the loop of
    [finalize_exec] ends, every pointer is replaced by the base of the
    block plus the pointer, the count and the two null words are
    unchanged, and nothing outside the block is written. *)
Theorem fixup_loop_arg_block t argc argv envp m :
  holds_words t 0 (arg_block argc argv envp) m ->
  Forall nonnull argv -> Forall nonnull envp ->
  2 * Z.of_nat (length (arg_block argc argv envp)) < 32768 ->
  exists m',
    fixup_loop SEG_WORDS t 0 0 m = Some m' /\
    holds_words t 0 (arg_block argc (map (rebase t) argv) (map (rebase t) envp)) m' /\
    same_outside
      (in_block (r_ss (t_regs t)) (r_sp (t_regs t))
         (2 * Z.of_nat (length (arg_block argc argv envp)))) m' m.
Proof.
  intros Hh Hargv Henvp Hlen. eexists. split; [|split].
  - now apply (fixup_loop_block t argc argv envp).
  - now apply rebased_block.
  - unfold arg_block in *. cbn [length] in *. rewrite !length_app in *. cbn [length] in *.
    eapply same_outside_trans; apply rebase_words_frame; lia.
Qed.

Lemma fixup_loop_arg_block_witness :
  exists m',
    fixup_loop SEG_WORDS demo_task 0 0 demo_stack = Some m' /\
    holds_words demo_task 0
      (arg_block 2 (map (rebase demo_task) [12; 15]) (map (rebase demo_task) [18])) m' /\
    same_outside
      (in_block (r_ss (t_regs demo_task)) (r_sp (t_regs demo_task))
         (2 * Z.of_nat (length (arg_block 2 [12; 15] [18])))) m' demo_stack.
Proof.
  apply fixup_loop_arg_block; [exact demo_stack_holds | | | cbn; lia];
    repeat constructor; unfold nonnull; lia.
Defined.

Section FinalizeProperties.
Context `{BuildConfig} `{EntryTransfer}.

(** C10.  [finalize_exec] installs the new image: the old code and data
    segments are released once each, the task holds the new segments,
    [cs] is the base of the code segment, [es] and [ss] the base of the
    data segment, [sp] the argument block less the entry frame, the break
    is [t_enddata] rounded to an even address, every signal is reset with
    no handler, and the inode is the program's. *)
Theorem finalize_exec_installs inode seg_code seg_data entry k k' :
  finalize_exec inode seg_code seg_data entry k = Some k' ->
  let t := k_cur k in
  let t' := k_cur k' in
  let cbase := from_option seg_base 0 (flushed_segs k !! seg_code) in
  let dbase := from_option seg_base 0 (flushed_segs k !! seg_data) in
  k_segs k' = flushed_segs k /\
  t_mm t' = {| mm_seg_code := Some seg_code; mm_seg_data := Some seg_data |} /\
  t_xregs_cs t' = cbase /\
  t_regs t' = {| r_ds := r_ds (t_regs t); r_es := dbase; r_ss := dbase;
                 r_sp := u16 (u16 (t_begstack t) - frame_size) |} /\
  t_endbrk t' = exec_endbrk (t_enddata t) /\
  t_sig t' = {| sig_action := signal_loop NSIG 0 (sig_action (t_sig t));
                sig_handler := 0 |} /\
  t_inode t' = Some inode.
Proof.
  intros Hfin. destruct (finalize_exec_cur _ _ _ _ _ _ Hfin) as (files & ino & ->).
  apply finalize_exec_final in Hfin as (m1 & kx & ky & _ & _ & _ & ->).
  cbv zeta. unfold committed_task. setters. conjs; reflexivity.
Qed.

(** C16.  After [finalize_exec] no descriptor marked close-on-exec is
    open: every slot below [NR_OPEN] whose mark was set is empty, every
    other slot is as before, and no mark below [NR_OPEN] is left. *)
Theorem finalize_exec_descriptors inode seg_code seg_data entry k k' j :
  finalize_exec inode seg_code seg_data entry k = Some k' ->
  let f := t_files (k_cur k) in
  let f' := t_files (k_cur k') in
  files_fd f' !! j =
    (if bool_decide (j < NR_OPEN)%nat && FD_ISSET j (files_close_on_exec f)
     then (fun _ => None) <$> files_fd f !! j else files_fd f !! j) /\
  FD_ISSET j (files_close_on_exec f') =
    FD_ISSET j (files_close_on_exec f) && negb (bool_decide (j < NR_OPEN)%nat).
Proof.
  intros Hfin.
  apply finalize_exec_final in Hfin as (m1 & kx & ky & Hkx & _ & _ & ->).
  cbv zeta. rewrite arch_setup_task. unfold committed_task. setters. rewrite <- Hkx.
  pose proof NR_OPEN_pos.
  destruct (close_loop_fd NR_OPEN 0 kx j ltac:(lia) ltac:(lia)) as [-> ->].
  split; repeat case_bool_decide; try lia; reflexivity.
Qed.

(** C37.  The entry message is never what it is meant to be: the format
    of line 729 has a field width, which [printk] does not have, so every
    exec prints [ENTRY ?4x:?4x] whatever the segment and the entry point
    are. *)
Theorem finalize_exec_entry_message inode seg_code seg_data entry k k' :
  CONFIG_DCON_ANSI_PRINTK = false ->
  finalize_exec inode seg_code seg_data entry k = Some k' ->
  k_con k' = con_puts (str "ENTRY ?4x:?4x" ++ [CR; LF]) (k_con k).
Proof.
  intros Hc (m1 & kx & ky & _ & Hky & _ & ->)%finalize_exec_final.
  cbn [k_con]. now rewrite call_printk_entry, Hky.
Qed.

(** C13.  The commit on an argument block: when the new data segment
    holds an argument block at [t_begstack], [finalize_exec] succeeds;
    in the memory it leaves, the pointers of argv and envp are rebased and
    the count and the null words are as before; and the frame of the
    entry transfer, at the new stack pointer, holds the entry point and
    the base of the code segment. *)
Theorem finalize_exec_stack inode seg_code seg_data entry k argc argv envp :
  let cbase := from_option seg_base 0 (flushed_segs k !! seg_code) in
  let dbase := from_option seg_base 0 (flushed_segs k !! seg_data) in
  let tv := stack_view (k_cur k) dbase in
  holds_words tv 0 (arg_block argc argv envp) (k_mem k) ->
  Forall nonnull argv -> Forall nonnull envp ->
  2 * Z.of_nat (length (arg_block argc argv envp)) < 32768 ->
  exists k',
    finalize_exec inode seg_code seg_data entry k = Some k' /\
    holds_words tv 0 (arg_block argc (map (rebase tv) argv) (map (rebase tv) envp))
      (k_mem k') /\
    get_ustack (k_cur k') frame_ip (k_mem k') = u16 entry /\
    get_ustack (k_cur k') frame_cs (k_mem k') = u16 cbase.
Proof.
  intros cbase dbase tv Hh Hargv Henvp Hlen.
  pose proof (fixup_loop_block tv argc argv envp _ Hh Hargv Henvp Hlen) as Hfix.
  destruct (finalize_exec_some inode seg_code seg_data entry k _ Hfix) as [k' Hk'].
  exists k'. split; [exact Hk'|].
  apply finalize_exec_final in Hk' as (m1 & kx & ky & _ & _ & Hfix' & ->). cbv zeta in Hfix'.
  rewrite (fixup_loop_ext _ _ tv), Hfix in Hfix' by reflexivity. injection Hfix' as <-.
  cbn [k_mem k_cur]. set (tc := committed_task _ _ _ _ _ _ _ _).
  pose proof (arch_setup_mem tc entry) as Hmem.
  pose proof (arch_setup_entry tc entry) as Hentry.
  pose proof frame_size_range as Hfs.
  split.
  - eapply holds_words_outside; [apply Hmem | | now apply rebased_block].
    intros d Hd. apply frame_clear; [exact Hfs|].
    unfold arg_block in Hd, Hlen. cbn [length] in Hd, Hlen.
    rewrite !length_app, !length_map in Hd. rewrite !length_app in Hlen.
    cbn [length] in Hd, Hlen. lia.
  - specialize (Hentry (rebase_words tv (2 * Z.of_nat (length argv + 2)) envp
                          (rebase_words tv 2 argv (k_mem k)))).
    destruct arch_setup_user_stack as [t' m']. exact Hentry.
Qed.

(** The loop over the signals leaves every signal at its default. *)
Theorem signal_loop_resets action :
  length action = NSIG -> signal_loop NSIG 0 action = replicate NSIG SIGDISP_DFL.
Proof.
  intros Hl. pose proof NSIG_pos. now rewrite signal_loop_spec by lia.
Qed.

End FinalizeProperties.

(** ** The properties on an example

    The program of inode 8 (mode 04755, owner 0) committed on segments 3
    and 4, its argument block at offset 8284 of segment 4, entry point
    0x40; the task ran as user 100 with descriptor 2 marked
    close-on-exec. *)
Definition demo_kernel : kernel :=
  kernel0
    <| k_mem := demo_stack |>
    <| k_segs ::= fun segs =>
         <[3%nat := {| seg_base := 0x4000; seg_size := 0x100; seg_flags := 1;
                       seg_ref_count := 1 |}]>
           (<[4%nat := {| seg_base := 0x5000; seg_size := 0x800; seg_flags := 2;
                          seg_ref_count := 1 |}]> segs) |>
    <| k_inodes ::= fun inodes =>
         <[8%nat := {| i_count := 1; i_mode := 2541; i_uid := 0; i_gid := 0;
                       i_image := {| img_bytes := []; img_bad := None |};
                       i_fop_read := true |}]> inodes |>
    <| k_cur ::= fun t => t <| t_begstack := 8284 |>
                            <| t_sig := {| sig_action := replicate 32 1;
                                           sig_handler := 0x0123 |} |> |>.

Definition demo_final : kernel :=
  default kernel0 (finalize_exec 8 3 4 0x40 demo_kernel).

Lemma demo_finalize : finalize_exec 8 3 4 0x40 demo_kernel = Some demo_final.
Proof. vm_compute. reflexivity. Qed.

Lemma demo_kernel_holds :
  holds_words (stack_view (k_cur demo_kernel) 0x5000) 0 (arg_block 2 [12; 15] [18])
    (k_mem demo_kernel).
Proof. intros i w Hi. do 6 (destruct i as [|i]; [now injection Hi as <-|]). discriminate. Qed.

Lemma finalize_exec_installs_witness :
  k_segs demo_final = flushed_segs demo_kernel /\
  t_mm (k_cur demo_final) = {| mm_seg_code := Some 3%nat; mm_seg_data := Some 4%nat |} /\
  t_xregs_cs (k_cur demo_final) = 0x4000 /\
  t_regs (k_cur demo_final) =
    {| r_ds := 0x3000; r_es := 0x5000; r_ss := 0x5000; r_sp := 8276 |} /\
  t_endbrk (k_cur demo_final) = 0x1000 /\
  t_sig (k_cur demo_final) = {| sig_action := replicate 32 0; sig_handler := 0 |} /\
  t_inode (k_cur demo_final) = Some 8%nat.
Proof. exact (finalize_exec_installs 8 3 4 0x40 demo_kernel demo_final demo_finalize). Defined.

Lemma finalize_exec_descriptors_witness :
  files_fd (t_files (k_cur demo_final)) !! 2%nat = Some None /\
  FD_ISSET 2 (files_close_on_exec (t_files (k_cur demo_final))) = false.
Proof.
  exact (finalize_exec_descriptors 8 3 4 0x40 demo_kernel demo_final 2 demo_finalize).
Defined.

Lemma finalize_exec_entry_message_witness :
  k_con demo_final = con_puts (str "ENTRY ?4x:?4x" ++ [CR; LF]) (k_con demo_kernel).
Proof.
  exact (finalize_exec_entry_message 8 3 4 0x40 demo_kernel demo_final eq_refl demo_finalize).
Defined.

Lemma finalize_exec_stack_witness :
  exists k',
    finalize_exec 8 3 4 0x40 demo_kernel = Some k' /\
    holds_words (stack_view (k_cur demo_kernel) 0x5000) 0
      (arg_block 2 [8296; 8299] [8302]) (k_mem k') /\
    get_ustack (k_cur k') frame_ip (k_mem k') = 0x40 /\
    get_ustack (k_cur k') frame_cs (k_mem k') = 0x4000.
Proof.
  apply (finalize_exec_stack 8 3 4 0x40 demo_kernel 2 [12; 15] [18]);
    [exact demo_kernel_holds | | | cbn; lia]; repeat constructor; unfold nonnull; lia.
Defined.

Lemma signal_loop_resets_witness :
  signal_loop NSIG 0 (replicate 32 1) = replicate NSIG SIGDISP_DFL.
Proof. apply signal_loop_resets. reflexivity. Defined.
