(* ===== verification/Os2.v ===== *)
(** * Os2: the loader of OS/2 programs

    [execve_os2] (exec.c, lines 129-343) loads a segmented executable
    (the NE format): a DOS header that locates the OS/2 header, a table of
    segments, and after each segment its fixups.  The model follows the
    code: the headers read and checked ([os2_read_headers]), the sizes
    announced and defaulted ([os2_defaults]), the segment table read
    ([os2_read_segments]), a first loop that sizes, allocates and clears
    each segment ([os2_alloc_loop]), the test that a code and a data
    segment were met ([os2_check_segments]), a second loop that reads
    each segment and applies its fixups ([os2_load_loop],
    [os2_reloc_loop]), and the commit ([os2_commit]).  The labels
    [errout2], [errout] and [normal_out] are definitions that fall through
    to each other.

    The structures of linuxmt/os2.h are outside src/; their layout is the
    one of the NE format.  Of the static variables of the loader the model
    keeps [seg_mem], the table of the segments allocated, in the kernel
    state ([k_seg_mem]): it is the only one read before it is written, by
    the loop of [errout2].  An entry of the table that is NULL or out of
    the table reads as a segment of base 0; the code reads whatever the
    address holds.

    Every [printk] of the code is a call of [Kernel.call_printk] with the
    same format and arguments; a 32-bit argument is the two words the
    compiler pushes.

    The lemmas follow an exec in flight ([os2_flight]): a state that
    differs from the one of the call in memory, the console, the
    position in the file and [ds], and in the segments allocated so
    far, which are those [seg_mem] holds.  Every stage keeps the exec in
    flight or leaves through a label that undoes it ([os2_abort],
    [os2_abort2]), which gives the atomicity of the loader when
    [seg_mem] is empty at the call; the examples show what happens when
    it is not.  The first loop keeps [alloc_inv]: one segment for each
    entry met, [seg_code] and [seg_data] those of the entries the header
    names; with it the commit gives [os2_committed], what a call that
    returns 0 leaves. *)

From Stdlib Require Import ZArith Lia List Bool Ascii String.
From stdpp Require Import base decidable option list gmap fin_maps.
From S2P Require Import Prelude.
From S2P Require Import Config.
From S2P Require Import Aout.
From S2P Require Import Farmem.
From S2P Require Import Printk.
From S2P Require Import Kernel.
From S2P Require Import Alloc.
From S2P Require Import Files.
From S2P Require Import Finalize.

Local Open Scope Z_scope.

(** ** The NE format *)

Definition NEMAGIC : Z := 0x454E.
Definition NETARGET_OS2 : Z := 1.
Definition NEPRG_FLG_MULTIPLEDATA : Z := 2.
Definition NESEG_DATA : Z := 1.
Definition NESEG_RELOCINFO : Z := 0x100.
Definition NEFIXSRC_SEGMENT : Z := 2.
Definition NEFIXSRC_FARADDR : Z := 3.
Definition NEFIXFLG_TARGET_MASK : Z := 3.
Definition NEFIXFLG_INTERNALREF : Z := 0.
Definition NEFIXFLG_ADDITIVE : Z := 4.

Definition sizeof_doshdr : Z := 64.
Definition sizeof_os2hdr : Z := 64.
Definition sizeof_ne_segment : Z := 8.
Definition sizeof_reloc_num : Z := 2.
Definition sizeof_ne_reloc : Z := 8.

(** The DOS header: what exec reads of it. *)
Record dos_exec_hdr : Type := {
  dos_magic : Z;
  ext_hdr_offset : Z
}.

(** The OS/2 header: the fields exec reads. *)
Record os2_exec_hdr : Type := {
  ne_magic : Z;
  program_flags : Z;
  auto_data_segment : Z;
  heap_size : Z;
  stack_size : Z;
  reg_ip : Z;
  reg_cs : Z;
  num_segments : Z;
  num_modules : Z;
  segment_table_offset : Z;
  num_movable_entries : Z;
  file_alignment_shift_count : Z;
  num_resource_entries : Z;
  target_os : Z
}.

(** An entry of the segment table. *)
Record ne_segment : Type := {
  ns_offset : Z;
  ns_size : Z;
  ns_flags : Z;
  ns_min_alloc : Z
}.

(** A fixup record. *)
Record ne_reloc : Type := {
  nr_src_type : Z;
  nr_flags : Z;
  nr_src_chain : Z;
  nr_segment : Z;
  nr_offset : Z
}.

Definition decode_doshdr (bs : list Z) : dos_exec_hdr :=
  {| dos_magic := field bs 0 2; ext_hdr_offset := field bs 60 4 |}.

Definition decode_os2hdr (bs : list Z) : os2_exec_hdr :=
  {| ne_magic := field bs 0 2; program_flags := field bs 12 1;
     auto_data_segment := field bs 14 2; heap_size := field bs 16 2;
     stack_size := field bs 18 2; reg_ip := field bs 20 2; reg_cs := field bs 22 2;
     num_segments := field bs 28 2; num_modules := field bs 30 2;
     segment_table_offset := field bs 34 2; num_movable_entries := field bs 48 2;
     file_alignment_shift_count := field bs 50 2;
     num_resource_entries := field bs 52 2; target_os := field bs 54 1 |}.

Definition decode_ne_segment (bs : list Z) : ne_segment :=
  {| ns_offset := field bs 0 2; ns_size := field bs 2 2; ns_flags := field bs 4 2;
     ns_min_alloc := field bs 6 2 |}.

Definition decode_ne_reloc (bs : list Z) : ne_reloc :=
  {| nr_src_type := field bs 0 1; nr_flags := field bs 1 1; nr_src_chain := field bs 2 2;
     nr_segment := field bs 4 1; nr_offset := field bs 6 2 |}.

(** The first [n] entries of the table [os2segs] after a read of [bs]. *)
Definition decode_os2segs (n : nat) (bs : list Z) : list ne_segment :=
  map (fun i => decode_ne_segment (drop (8 * i) bs)) (seq 0 n).

(** ** The table seg_mem *)

(** [seg_mem[seg]]. *)
Definition seg_mem_get (seg : nat) (k : kernel) : option nat :=
  default None (k_seg_mem k !! seg).

(** [seg_mem[seg] = v]. *)
Definition seg_mem_set (seg : nat) (v : option nat) (k : kernel) : kernel :=
  k <| k_seg_mem ::= fun sm =>
         <[seg := v]> (sm ++ replicate (S seg - length sm) None) |>.

(** [seg_mem[i]->base] with [i] an [int]. *)
Definition seg_mem_base (i : Z) (k : kernel) : Z :=
  if i <? 0 then 0
  else match seg_mem_get (Z.to_nat i) k with
       | Some s => seg_base_of s k
       | None => 0
       end.

(** The two words of a 32-bit argument of [printk]. *)
Definition long_words (v : Z) : list Z := [u16 v; u16 (u32 v / 65536)].

(** A format that ends a line. *)
Definition line (s : string) : list Z := str s ++ [LF].

Section Os2.
Context `{BuildConfig} `{EntryTransfer} `{SegAllocator}.

(** ** The labels, lines 327-341 *)

(** [normal_out], lines 337-341. *)
Definition os2_normal_out (retval : Z) (inode filp : nat) (k : kernel) : Z * kernel :=
  let k := close_filp inode filp k in
  if negb (retval =? 0) then (retval, k <| k_inodes ::= iput (Some inode) |>)
  else (retval, k).

(** [errout], lines 333-336. *)
Definition os2_errout (retval ds : Z) (inode filp : nat) (k : kernel) : Z * kernel :=
  let retval := if 0 <=? retval then - EINVAL else retval in
  os2_normal_out retval inode filp (set_ds ds k).

(** The loop of [errout2], lines 328-332. *)
Fixpoint os2_release_loop (fuel seg : nat) (k : kernel) : kernel :=
  match fuel with
  | O => k
  | S fuel' =>
      let k :=
        match seg_mem_get seg k with
        | Some s => k <| k_segs ::= seg_put s |>
        | None => k
        end in
      os2_release_loop fuel' (S seg) (seg_mem_set seg None k)
  end.

(** [errout2], lines 327-332. *)
Definition os2_errout2 (retval ds : Z) (inode filp : nat) (k : kernel) : Z * kernel :=
  os2_errout retval ds inode filp (os2_release_loop NEMAXSEGS 0 k).

(** ** The headers, lines 147-165 *)

(** Lines 158-162: the OS/2 header is one exec can load. *)
Definition os2_hdr_ok (h : os2_exec_hdr) : bool :=
  negb (negb (ne_magic h =? NEMAGIC) || negb (target_os h =? NETARGET_OS2) ||
        negb (Z.land (program_flags h) 0x1F =? NEPRG_FLG_MULTIPLEDATA) ||
        (auto_data_segment h =? 0) || (num_segments h <? auto_data_segment h) ||
        negb (num_modules h =? 0) || negb (num_movable_entries h =? 0) ||
        negb (num_resource_entries h =? 0)).

(** The values are [ds], the DOS header and the OS/2 header. *)
Definition os2_read_headers (inode filp : nat) (k : kernel)
    : flow (Z * dos_exec_hdr * os2_exec_hdr) :=
  let ds := r_ds (t_regs (k_cur k)) in
  let k := set_ds (kernel_ds k) k in
  let k := filp_seek filp 0 k in
  let '(retval, bs, k) := filp_read inode filp sizeof_doshdr k in
  if negb (u16 retval =? sizeof_doshdr) then Return (Some (os2_errout retval ds inode filp k))
  else
    let doshdr := decode_doshdr bs in
    let k := filp_seek filp (ext_hdr_offset doshdr) k in
    let '(retval, bs, k) := filp_read inode filp sizeof_os2hdr k in
    if negb (u16 retval =? sizeof_os2hdr)
    then Return (Some (os2_errout retval ds inode filp k))
    else
      let os2hdr := decode_os2hdr bs in
      if negb (os2_hdr_ok os2hdr) then
        let k := call_printk (line "EXEC: Unsupported OS/2 format") [] k in
        Return (Some (os2_errout retval ds inode filp k))
      else Next (ds, doshdr, os2hdr) k.

(** ** The sizes, lines 167-180 *)

(** Lines 171-174: the heap and the stack asked for, or the defaults. *)
Definition os2_heap (os2hdr : os2_exec_hdr) : Z :=
  if heap_size os2hdr =? 0 then u16 INIT_HEAP else heap_size os2hdr.

Definition os2_stack (os2hdr : os2_exec_hdr) : Z :=
  if stack_size os2hdr =? 0 then u16 INIT_STACK else stack_size os2hdr.

(** The values are the heap and the stack of the header after line 174. *)
Definition os2_defaults (inode filp : nat) (ds : Z) (os2hdr : os2_exec_hdr)
    (k : kernel) : flow (Z * Z) :=
  let k := call_printk (line "Segments: %d") [num_segments os2hdr] k in
  let k := call_printk (line "Auto data segment: %d") [auto_data_segment os2hdr] k in
  let k := call_printk (line "Heap: %u") [heap_size os2hdr] k in
  let k := call_printk (line "Stack: %u") [stack_size os2hdr] k in
  let heap_size := os2_heap os2hdr in
  let stack_size := os2_stack os2hdr in
  if Z.of_nat NEMAXSEGS <? num_segments os2hdr then
    let k := call_printk (line "EXEC: %d segments, exceeds %d max")
               [num_segments os2hdr; Z.of_nat NEMAXSEGS] k in
    Return (Some (os2_errout (- E2BIG) ds inode filp k))
  else Next (heap_size, stack_size) k.

(** ** The segment table, lines 182-187 *)

Definition os2_read_segments (inode filp : nat) (ds : Z) (doshdr : dos_exec_hdr)
    (os2hdr : os2_exec_hdr) (k : kernel) : flow (list ne_segment) :=
  let k := filp_seek filp (u32 (segment_table_offset os2hdr + ext_hdr_offset doshdr)) k in
  let count := u16 (num_segments os2hdr * sizeof_ne_segment) in
  let '(retval, bs, k) := filp_read inode filp count k in
  if negb (u16 retval =? count) then Return (Some (os2_errout retval ds inode filp k))
  else Next (decode_os2segs (Z.to_nat (num_segments os2hdr)) bs) k.

(** ** The first loop, lines 190-234 *)

(** Lines 192-193: the paragraphs of a segment, 0 for 64 KiB. *)
Definition os2_seg_paras (segp : ne_segment) : Z :=
  let s := Z.shiftr (Z.land (u16 (ns_min_alloc segp + 15)) (u16 (Z.lnot 15))) 4 in
  if s =? 0 then 0x1000 else s.

(** Lines 196-208: the automatic data segment with stack, arguments and
    heap.  The result is the paragraphs and the heap to announce, or
    nothing when they do not fit. *)
Definition os2_auto_paras (s heap_size stack_size slen : Z) : option (Z * option Z) :=
  let heap := if heap_size =? 0xffff then 1 else heap_size in
  let s := u16 (s + u16 (Z.shiftr (u16 (stack_size + slen + 15)) 4 +
                         Z.shiftr (u16 (heap + 15)) 4)) in
  if 0x1000 <=? s then None
  else if heap_size =? 0xffff then Some (0x0FFF, Some (u16 (Z.shiftl (0x0FFF - s) 4)))
  else Some (s, None).

(** Lines 222-233: the bss of a segment cleared. *)
Definition os2_clear_bss (segp : ne_segment) (base : Z) (k : kernel) : kernel :=
  if negb (ns_min_alloc segp =? ns_size segp) then
    let k := call_printk (line "Clear bss at %04x:%04x for %u bytes")
               [base; ns_size segp; u16 (ns_min_alloc segp - ns_size segp)] k in
    k <| k_mem ::= fmemsetb (ns_size segp) base 0 (u16 (ns_min_alloc segp - ns_size segp)) |>
  else if ns_min_alloc segp =? 0 then
    let k := call_printk (line "Clear bss at %04x:%04x for 64K bytes")
               [base; ns_size segp] k in
    k <| k_mem ::= fun m => fmemsetb 0x8000 base 0 0x8000 (fmemsetb 0 base 0 0x8000 m) |>
  else k.

(** Lines 192-209: the paragraphs of segment [seg], with the heap
    announced when it is all that remains; nothing when the automatic
    data segment does not fit. *)
Definition os2_size_segment (os2hdr : os2_exec_hdr) (heap_size stack_size slen : Z)
    (segp : ne_segment) (seg : nat) (k : kernel) : option (Z * kernel) :=
  let s := os2_seg_paras segp in
  if Z.of_nat seg + 1 =? auto_data_segment os2hdr then
    match os2_auto_paras s heap_size stack_size slen with
    | None => None
    | Some (s, Some heap) => Some (s, call_printk (line "Auto max heap: %u") [heap] k)
    | Some (s, None) => Some (s, k)
    end
  else Some (s, k).

(** The values are [s], [seg_code] and [seg_data] as the loop leaves
    them.  [retval] is -ENOMEM throughout (line 187). *)
Fixpoint os2_alloc_loop (inode filp : nat) (ds : Z) (os2hdr : os2_exec_hdr)
    (heap_size stack_size slen : Z) (segs : list ne_segment) (seg : nat)
    (s : Z) (seg_code seg_data : option nat) (k : kernel)
    : flow (Z * option nat * option nat) :=
  match segs with
  | [] => Next (s, seg_code, seg_data) k
  | segp :: segs' =>
      let retval := - ENOMEM in
      match os2_size_segment os2hdr heap_size stack_size slen segp seg k with
      | None => Return (Some (os2_errout2 (- E2BIG) ds inode filp k))
      | Some (s, k) =>
          let k := call_printk
                     (line "Segment %d: offset %04x size %5u/%6lu flags %04x minalloc %u")
                     ([Z.of_nat seg + 1;
                       u16 (Z.shiftl (ns_offset segp) (file_alignment_shift_count os2hdr));
                       ns_size segp] ++ long_words (Z.shiftl s 4) ++
                      [ns_flags segp; ns_min_alloc segp]) k in
          let flags := if negb (Z.land (ns_flags segp) NESEG_DATA =? 0)
                       then SEG_FLAG_DSEG else SEG_FLAG_CSEG in
          match seg_alloc s flags (k_segs k) with
          | None => Return (Some (os2_errout2 retval ds inode filp (seg_mem_set seg None k)))
          | Some (sm, segtab) =>
              let k := seg_mem_set seg (Some sm) (k <| k_segs := segtab |>) in
              let seg_code :=
                if Z.of_nat seg + 1 =? reg_cs os2hdr then Some sm else seg_code in
              let seg_data :=
                if Z.of_nat seg + 1 =? auto_data_segment os2hdr then Some sm
                else seg_data in
              let k := os2_clear_bss segp (seg_base_of sm k) k in
              os2_alloc_loop inode filp ds os2hdr heap_size stack_size slen segs'
                (S seg) s seg_code seg_data k
          end
      end
  end.

(** Lines 235-238. *)
Definition os2_check_segments (inode filp : nat) (ds : Z)
    (seg_code seg_data : option nat) (k : kernel) : flow (nat * nat) :=
  match seg_code, seg_data with
  | Some sc, Some sd => Next (sc, sd) k
  | _, _ =>
      let k := call_printk (line "Missing code and data segments") [] k in
      Return (Some (os2_errout2 (- ENOMEM) ds inode filp k))
  end.

(** ** The second loop, lines 241-305 *)

(** Lines 269-271: the fixup is one exec applies. *)
Definition os2_reloc_ok (r : ne_reloc) : bool :=
  negb (negb (Z.land (nr_flags r) NEFIXFLG_TARGET_MASK =? NEFIXFLG_INTERNALREF) ||
        (negb (nr_src_type r =? NEFIXSRC_SEGMENT) &&
         negb (nr_src_type r =? NEFIXSRC_FARADDR))).

(** Lines 276-302: a fixup applied to the segment of base [base]. *)
Definition os2_apply_reloc (r : ne_reloc) (base : Z) (k : kernel) : kernel :=
  let target := seg_mem_base (nr_segment r - 1) k in
  if nr_src_type r =? NEFIXSRC_SEGMENT then
    let k := call_printk (line "pokew %04x:%04x <- seg %d %04x")
               [base; nr_src_chain r; nr_segment r; target] k in
    k <| k_mem ::= pokew (nr_src_chain r) base target |>
  else if nr_src_type r =? NEFIXSRC_FARADDR then
    let k :=
      if negb (Z.land (nr_flags r) NEFIXFLG_ADDITIVE =? 0) then
        let k := call_printk (line "pokew %04x:%04x += offset %04x")
                   [base; nr_src_chain r; nr_offset r] k in
        let prev := peekw (nr_src_chain r) base (k_mem k) in
        k <| k_mem ::= pokew (nr_src_chain r) base (u16 (prev + nr_offset r)) |>
      else
        let k := call_printk (line "pokew %04x:%04x = offset %04x")
                   [base; nr_src_chain r; nr_offset r] k in
        k <| k_mem ::= pokew (nr_src_chain r) base (nr_offset r) |> in
    let k := call_printk (line "pokew %04x:%04x <- seg %d %04x")
               [base; u16 (nr_src_chain r + 2); nr_segment r; target] k in
    k <| k_mem ::= pokew (u16 (nr_src_chain r + 2)) base target |>
  else k.

(** Lines 261-303: the fixups of a segment, [count] of them to go, the
    next one numbered [n + 1]. *)
Fixpoint os2_reloc_loop (inode filp : nat) (ds : Z) (base : Z) (count : nat) (n : Z)
    (k : kernel) : flow unit :=
  match count with
  | O => Next tt k
  | S count' =>
      let '(retval, bs, k) := filp_read inode filp sizeof_ne_reloc k in
      if negb (u16 retval =? sizeof_ne_reloc)
      then Return (Some (os2_errout2 retval ds inode filp k))
      else
        let reloc := decode_ne_reloc bs in
        let k := call_printk
                   (str "Reloc %d: type %d flags %d, " ++
                    line "source chain %04x (segment %d offset %04x)")
                   [n + 1; nr_src_type reloc; nr_flags reloc; nr_src_chain reloc;
                    nr_segment reloc; nr_offset reloc] k in
        if negb (os2_reloc_ok reloc) then
          let k := call_printk (line "Unsupported fixup type %d flags %d")
                     [nr_src_type reloc; nr_flags reloc] k in
          Return (Some (os2_errout2 retval ds inode filp k))
        else
          os2_reloc_loop inode filp ds base count' (n + 1) (os2_apply_reloc reloc base k)
  end.

(** Lines 242-304: one segment read and fixed up.  [retval] is what the
    last assignment left. *)
Definition os2_load_segment (inode filp : nat) (ds : Z) (os2hdr : os2_exec_hdr)
    (segp : ne_segment) (seg : nat) (retval : Z) (k : kernel) : flow Z :=
  if ns_size segp =? 0 then
    let k := call_printk (line "EXEC: can't read 64K segment!") [] k in
    Return (Some (os2_errout2 retval ds inode filp k))
  else
    let pos := u32 (Z.shiftl (ns_offset segp) (file_alignment_shift_count os2hdr)) in
    let k := filp_seek filp pos k in
    let base := seg_mem_base (Z.of_nat seg) k in
    let k := set_ds base k in
    let k := call_printk (line "Reading seg %d %04x:0000 %u bytes offset %04lx")
               ([Z.of_nat seg + 1; base; ns_size segp] ++ long_words pos) k in
    let '(retval, k) := read_user inode filp 0 (ns_size segp) k in
    if negb (u16 retval =? ns_size segp)
    then Return (Some (os2_errout2 retval ds inode filp k))
    else
      let k := set_ds (kernel_ds k) k in
      if negb (Z.land (ns_flags segp) NESEG_RELOCINFO =? 0) then
        let '(retval, bs, k) := filp_read inode filp sizeof_reloc_num k in
        if negb (u16 retval =? sizeof_reloc_num)
        then Return (Some (os2_errout2 retval ds inode filp k))
        else
          let num_records := field bs 0 2 in
          let k := call_printk (line "%d relocation records") [num_records] k in
          flow_bind (os2_reloc_loop inode filp ds base (Z.to_nat num_records) 0 k)
            (fun _ k => Next (if num_records =? 0 then retval else sizeof_ne_reloc) k)
      else Next retval k.

Fixpoint os2_load_loop (inode filp : nat) (ds : Z) (os2hdr : os2_exec_hdr)
    (segs : list ne_segment) (seg : nat) (retval : Z) (k : kernel) : flow unit :=
  match segs with
  | [] => Next tt k
  | segp :: segs' =>
      flow_bind (os2_load_segment inode filp ds os2hdr segp seg retval k)
        (fun retval k => os2_load_loop inode filp ds os2hdr segs' (S seg) retval k)
  end.

(** ** The commit, lines 307-325 *)

Definition os2_commit (inode filp : nat) (ds : Z) (os2hdr : os2_exec_hdr)
    (os2segs : list ne_segment) (s stack_size : Z) (seg_code seg_data : nat)
    (sptr slen : Z) (k : kernel) : option (Z * kernel) :=
  let auto := Z.to_nat (auto_data_segment os2hdr - 1) in
  let endseg := u16 (Z.shiftl s 4) in
  let enddata := from_option ns_min_alloc 0 (os2segs !! auto) in
  let begstack := Z.land (u16 (endseg - slen)) (u16 (Z.lnot 1)) in
  let k := k <| k_cur ::= fun t =>
                  t <| t_endseg := endseg |> <| t_enddata := enddata |>
                    <| t_begstack := begstack |> |> in
  let k := call_printk (line "t_endseg %04x, t_begstack %04x") [endseg; begstack] k in
  let k := k <| k_cur ::= set t_minstack (fun _ => stack_size) |> in
  if negb (bool_decide (Some seg_data = seg_mem_get auto k)) then None
  else
    let dbase := seg_mem_base (Z.of_nat auto) k in
    let k := call_printk (line "fmemcpy %04x:%04x <- %d") [dbase; begstack; slen] k in
    let k := k <| k_mem ::= fmemcpyb begstack dbase sptr ds slen |> in
    let k := set_ds (seg_base_of seg_data k) k in
    k ← finalize_exec inode seg_code seg_data (reg_ip os2hdr) k;
    let retval := 0 in
    Some (os2_normal_out retval inode filp k).

(** ** execve_os2 *)

Definition execve_os2_flow (inode filp : nat) (sptr slen : Z) (k : kernel)
    : flow unit :=
  flow_bind (os2_read_headers inode filp k) (fun '(ds, doshdr, os2hdr) k =>
  flow_bind (os2_defaults inode filp ds os2hdr k)
    (fun '(heap_size, stack_size) k =>
  flow_bind (os2_read_segments inode filp ds doshdr os2hdr k) (fun os2segs k =>
  flow_bind (os2_alloc_loop inode filp ds os2hdr heap_size stack_size slen os2segs
               0 0 None None k) (fun '(s, seg_code, seg_data) k =>
  flow_bind (os2_check_segments inode filp ds seg_code seg_data k)
    (fun '(seg_code, seg_data) k =>
  flow_bind (os2_load_loop inode filp ds os2hdr os2segs 0 (- ENOMEM) k) (fun _ k =>
  Return (os2_commit inode filp ds os2hdr os2segs s stack_size seg_code seg_data
            sptr slen k))))))).

Definition execve_os2 (inode filp : nat) (sptr slen : Z) (k : kernel)
    : option (Z * kernel) :=
  match execve_os2_flow inode filp sptr slen k with
  | Return r => r
  | Next _ _ => None
  end.

End Os2.

(** ** The state of an exec in flight *)

(** The kernel without what the loader changes while it reads: memory,
    the console, the entry of its file and [ds]. *)
Definition os2_erase (filp : nat) (k : kernel) : kernel :=
  set_ds 0 (k <| k_mem := ∅ |> <| k_con := con_init |> <| k_filps ::= delete filp |>).

(** The same without the segments and the table [seg_mem]. *)
Definition os2_core (filp : nat) (k : kernel) : kernel :=
  os2_erase filp k <| k_segs := ∅ |> <| k_seg_mem := [] |>.

(** The table [seg_mem] holds no segment. *)
Definition seg_mem_clear (k : kernel) : Prop := forall i, seg_mem_get i k = None.

(** The table [t] is [t0] with the segments [keys], each new and held
    once. *)
Definition allocated (t0 t : gmap nat segment_s) (keys : list nat) : Prop :=
  NoDup keys /\
  (forall s, s ∈ keys ->
     t0 !! s = None /\ exists sg, t !! s = Some sg /\ seg_ref_count sg = 1) /\
  (forall s, s ∉ keys -> t !! s = t0 !! s).

(** [k] is a state of the exec from [k0] with the segments [keys]
    allocated, which [seg_mem] holds in this order. *)
Definition os2_flight (k0 : kernel) (filp : nat) (keys : list nat) (k : kernel) : Prop :=
  os2_core filp k = os2_core filp k0 /\
  (forall i, seg_mem_get i k = keys !! i) /\
  allocated (k_segs k0) (k_segs k) keys.

(** A call that has returned: with 0 and a kernel that has [ok], or with
    an error, the table [seg_mem] clear and the kernel as the way out of
    [k0] leaves it, but for memory and the console. *)
Definition os2_done (ok : kernel -> Prop) (k0 : kernel) (inode filp : nat)
    (r : option (Z * kernel)) : Prop :=
  forall e k', r = Some (e, k') ->
  (e = 0 /\ ok k') \/
  (e < 0 /\ seg_mem_clear k' /\
   exists m c sm, k' = rollback (r_ds (t_regs (k_cur k0))) inode filp k0
                         <| k_mem := m |> <| k_con := c |> <| k_seg_mem := sm |>).

(** The segment a register of the header names: when [v] is set, it is
    the segment allocated for entry [n], counted from 1. *)
Definition picked (n : Z) (keys : list nat) (v : option nat) : Prop :=
  forall c, v = Some c -> 1 <= n /\ keys !! Z.to_nat (n - 1) = Some c.

(** The paragraphs the first loop computes for entry [seg] of the
    table, with no reference to the kernel. *)
Definition os2_paras (os2hdr : os2_exec_hdr) (heap stack slen : Z) (seg : nat)
    (segp : ne_segment) : option Z :=
  if Z.of_nat seg + 1 =? auto_data_segment os2hdr
  then fst <$> os2_auto_paras (os2_seg_paras segp) heap stack slen
  else Some (os2_seg_paras segp).

(** The value of [s] after the first loop over [segs], entered at entry
    [seg] with [s]: the paragraphs of the last entry. *)
Definition sized (os2hdr : os2_exec_hdr) (heap stack slen : Z) (seg : nat)
    (segs : list ne_segment) (s s' : Z) : Prop :=
  match last segs with
  | Some segp => os2_paras os2hdr heap stack slen (seg + length segs - 1) segp = Some s'
  | None => s' = s
  end.

(** The task as the commit hands it to [finalize_exec], with [ds] at the
    base [dbase] of the data segment. *)
Definition staged_task (os2hdr : os2_exec_hdr) (os2segs : list ne_segment)
    (s stack slen dbase : Z) (t : task) : task :=
  let endseg := u16 (Z.shiftl s 4) in
  t <| t_endseg := endseg |>
    <| t_enddata := from_option ns_min_alloc 0
                      (os2segs !! Z.to_nat (auto_data_segment os2hdr - 1)) |>
    <| t_begstack := Z.land (u16 (endseg - slen)) (u16 (Z.lnot 1)) |>
    <| t_minstack := stack |>
    <| t_regs ::= set r_ds (fun _ => dbase) |>.

Section Committed.
Context `{BuildConfig} `{EntryTransfer}.

(** What a call that returned 0 from [k0] has committed in [k']: the
    header [os2hdr] it accepted and the table [os2segs] it read, one new
    segment for each entry, which [seg_mem] still holds, the segments of
    the old image given back, and the task on the segments the header
    names, with the limits of lines 310-314. *)
Definition os2_committed (k0 : kernel) (inode : nat) (slen : Z) (k' : kernel) : Prop :=
  exists os2hdr os2segs keys seg_code seg_data s segs,
    os2_hdr_ok os2hdr = true /\
    length os2segs = Z.to_nat (num_segments os2hdr) /\
    length keys = length os2segs /\
    1 <= reg_cs os2hdr /\
    keys !! Z.to_nat (reg_cs os2hdr - 1) = Some seg_code /\
    keys !! Z.to_nat (auto_data_segment os2hdr - 1) = Some seg_data /\
    sized os2hdr (os2_heap os2hdr) (os2_stack os2hdr) slen 0 os2segs 0 s /\
    allocated (k_segs k0) segs keys /\
    (forall i, seg_mem_get i k' = keys !! i) /\
    k_segs k' = seg_put_opt (mm_seg_data (t_mm (k_cur k0)))
                  (seg_put_opt (mm_seg_code (t_mm (k_cur k0))) segs) /\
    let t' := k_cur k' in
    t_mm t' = {| mm_seg_code := Some seg_code; mm_seg_data := Some seg_data |} /\
    t_endseg t' = u16 (Z.shiftl s 4) /\
    t_enddata t' = from_option ns_min_alloc 0
                     (os2segs !! Z.to_nat (auto_data_segment os2hdr - 1)) /\
    t_begstack t' = Z.land (u16 (t_endseg t' - slen)) (u16 (Z.lnot 1)) /\
    t_minstack t' = os2_stack os2hdr /\
    r_sp (t_regs t') = u16 (u16 (t_begstack t') - frame_size) /\
    t_inode t' = Some inode.

End Committed.

(** ** Lemmas: the table seg_mem *)

Lemma seg_mem_get_set seg v k i :
  seg_mem_get i (seg_mem_set seg v k) = if decide (i = seg) then v else seg_mem_get i k.
Proof.
  unfold seg_mem_get, seg_mem_set. destruct k as [? ? ? ? ? ? ? ? ? ? sm]. setters.
  cbn [k_seg_mem].
  assert (Hlen : (seg < length (sm ++ replicate (S seg - length sm) None))%nat)
    by (rewrite length_app, length_replicate; lia).
  case_decide as Hi; [subst; now rewrite list_lookup_insert_eq|].
  rewrite list_lookup_insert_ne by congruence.
  destruct (sm !! i) as [v'|] eqn:Hl.
  - now rewrite (lookup_app_l_Some _ _ _ _ Hl).
  - apply lookup_ge_None in Hl. rewrite lookup_app_r by lia.
    destruct (replicate _ _ !! _) as [v'|] eqn:Hr; [|reflexivity].
    now apply lookup_replicate in Hr as [-> _].
Qed.

Lemma seg_mem_get_segs i f k : seg_mem_get i (k <| k_segs ::= f |>) = seg_mem_get i k.
Proof. now destruct k. Qed.

Lemma seg_mem_set_segs seg v k : k_segs (seg_mem_set seg v k) = k_segs k.
Proof. now destruct k. Qed.

(** ** Lemmas: what the steps of the loader leave alone *)

Lemma os2_erase_set_ds filp ds k : os2_erase filp (set_ds ds k) = os2_erase filp k.
Proof. explicit_kernel k. reflexivity. Qed.

Lemma os2_erase_mem filp f k : os2_erase filp (k <| k_mem ::= f |>) = os2_erase filp k.
Proof. now destruct k. Qed.

Lemma os2_erase_con filp c k : os2_erase filp (k <| k_con := c |>) = os2_erase filp k.
Proof. now destruct k. Qed.

Lemma os2_erase_filps_insert filp f k :
  os2_erase filp (k <| k_filps ::= <[filp := f]> |>) = os2_erase filp k.
Proof. destruct k. unfold os2_erase, set_ds. setters. now rewrite delete_insert_eq. Qed.

Lemma os2_erase_filp_seek filp n k : os2_erase filp (filp_seek filp n k) = os2_erase filp k.
Proof. destruct k. unfold os2_erase, filp_seek, set_ds. setters. now rewrite delete_alter_eq. Qed.

Lemma os2_erase_filp_read inode filp count k :
  os2_erase filp (filp_read inode filp count k).2 = os2_erase filp k.
Proof. unfold filp_read. destruct f_read as [[r bs] f]. apply os2_erase_filps_insert. Qed.

Lemma os2_erase_read_user inode filp buf count k :
  os2_erase filp (read_user inode filp buf count k).2 = os2_erase filp k.
Proof.
  unfold read_user. pose proof (os2_erase_filp_read inode filp count k) as E.
  destruct filp_read as [[r bs] k1]. cbn in *. now rewrite os2_erase_mem.
Qed.

Section PrintkQuiet.
Context `{BuildConfig}.

Lemma os2_erase_printk filp fmt args k :
  os2_erase filp (call_printk fmt args k) = os2_erase filp k.
Proof. rewrite call_printk_frame. apply os2_erase_con. Qed.

End PrintkQuiet.

Create Rewrite HintDb os2.
#[export] Hint Rewrite os2_erase_set_ds os2_erase_mem os2_erase_con os2_erase_filp_seek
  @os2_erase_printk : os2.

(** The core is kept by what keeps [os2_erase], by a change of the
    segments and by a store into [seg_mem]. *)
Lemma os2_core_quiet filp k k' :
  os2_erase filp k' = os2_erase filp k -> os2_core filp k' = os2_core filp k.
Proof. unfold os2_core. now intros ->. Qed.

Lemma os2_core_segs filp f k : os2_core filp (k <| k_segs ::= f |>) = os2_core filp k.
Proof. now destruct k. Qed.

Lemma os2_core_seg_mem_set filp seg v k : os2_core filp (seg_mem_set seg v k) = os2_core filp k.
Proof. now destruct k. Qed.

Lemma os2_erase_tables filp k k' :
  os2_erase filp k' = os2_erase filp k ->
  k_segs k' = k_segs k /\ k_seg_mem k' = k_seg_mem k.
Proof.
  intros E. split; [apply (f_equal k_segs) in E | apply (f_equal k_seg_mem) in E];
    now destruct k, k'.
Qed.

(** An exec in flight stays so through a quiet step. *)
Lemma os2_flight_quiet k0 filp keys k k' :
  os2_flight k0 filp keys k -> os2_erase filp k' = os2_erase filp k ->
  os2_flight k0 filp keys k'.
Proof.
  intros (Hc & Hm & Ha) E. destruct (os2_erase_tables _ _ _ E) as [Hs Hsm].
  unfold os2_flight, seg_mem_get in *. rewrite Hs, Hsm.
  now rewrite (os2_core_quiet _ _ _ E).
Qed.

(** The core keeps the segments of the task. *)
Lemma os2_core_mm filp k k0 :
  os2_core filp k = os2_core filp k0 -> t_mm (k_cur k) = t_mm (k_cur k0).
Proof.
  intros E%(f_equal (fun x => t_mm (k_cur x))). explicit_kernel k. explicit_kernel k0.
  exact E.
Qed.

(** The way out gives back the kernel of the core. *)
Lemma rollback_core ds inode filp k k0 :
  os2_core filp k = os2_core filp k0 ->
  rollback ds inode filp k =
  rollback ds inode filp k0 <| k_mem := k_mem k |> <| k_con := k_con k |>
    <| k_segs := k_segs k |> <| k_seg_mem := k_seg_mem k |>.
Proof.
  explicit_kernel k. explicit_kernel k0.
  unfold os2_core, os2_erase, rollback, close_filp, set_ds. cbn.
  intros [= ? Hd]. subst. setters_explicit. now rewrite Hd.
Qed.

(** ** Lemmas: allocation and release *)

Lemma allocated_nil t : allocated t t [].
Proof.
  split; [constructor|]. split; [intros s Hs; now apply elem_of_nil in Hs | reflexivity].
Qed.

(** With no segment allocated the table is the one of the start. *)
Lemma allocated_nil_eq t0 t : allocated t0 t [] -> t = t0.
Proof. intros (_ & _ & Hold). apply map_eq. intros s. apply Hold, not_elem_of_nil. Qed.

Section AllocatedLemmas.
Context `{SegAllocator}.

Lemma allocated_alloc t0 t keys paras flags s t' :
  allocated t0 t keys -> seg_alloc paras flags t = Some (s, t') ->
  allocated t0 t' (keys ++ [s]).
Proof.
  intros (Hnd & Hnew & Hold) (Hs & base & -> & _)%seg_alloc_spec.
  assert (Hnin : s ∉ keys).
  { intros Hin. destruct (Hnew s Hin) as (_ & sg & Hsg & _). congruence. }
  split; [|split].
  - apply NoDup_app. split; [exact Hnd|]. split; [|apply NoDup_singleton].
    intros x Hx ->%list_elem_of_singleton. contradiction.
  - intros x [Hx| ->%list_elem_of_singleton]%elem_of_app.
    + destruct (Hnew x Hx) as (H0 & sg & Hsg & Hc). split; [exact H0|].
      exists sg. rewrite lookup_insert_ne by congruence. auto.
    + split; [now rewrite <- (Hold s Hnin)|].
      eexists. rewrite lookup_insert_eq. split; reflexivity.
  - intros x Hx. rewrite elem_of_app, list_elem_of_singleton in Hx.
    rewrite lookup_insert_ne by (intros ->; tauto). apply Hold. tauto.
Qed.

End AllocatedLemmas.

(** The segments allocated are given back, and the table is as it was. *)
Lemma allocated_release t0 t keys :
  allocated t0 t keys -> foldl (fun t s => seg_put s t) t keys = t0.
Proof.
  revert t. induction keys as [|s keys IH]; intros t Ha; [now apply allocated_nil_eq|].
  destruct Ha as (Hnd & Hnew & Hold). cbn. apply NoDup_cons in Hnd as [Hs Hnd].
  destruct (Hnew s) as (H0 & sg & Hsg & Hc); [left|].
  rewrite (seg_put_last s sg) by assumption. apply IH. split; [exact Hnd|]. split.
  - intros x Hx. destruct (Hnew x) as (Hx0 & sgx & Hsgx & Hcx); [now right|].
    split; [exact Hx0|]. exists sgx.
    rewrite lookup_delete_ne by (intros ->; contradiction). auto.
  - intros x Hx. destruct (decide (x = s)) as [->|Hne]; [now rewrite lookup_delete_eq|].
    rewrite lookup_delete_ne by congruence. apply Hold. rewrite elem_of_cons. tauto.
Qed.

(** The loop of [errout2] touches the segments and [seg_mem] only. *)
Lemma os2_release_loop_core filp n i k :
  os2_core filp (os2_release_loop n i k) = os2_core filp k.
Proof.
  revert i k. induction n as [|n IH]; intros i k; [reflexivity|]. cbn [os2_release_loop].
  rewrite IH, os2_core_seg_mem_set. destruct seg_mem_get; [apply os2_core_segs | reflexivity].
Qed.

(** It gives back the segments [seg_mem] holds, in the order of the table. *)
Lemma os2_release_loop_segs keys n i k :
  (forall j, (i <= j)%nat -> seg_mem_get j k = keys !! j) ->
  k_segs (os2_release_loop n i k) =
  foldl (fun t s => seg_put s t) (k_segs k) (take n (drop i keys)).
Proof.
  revert i k. induction n as [|n IH]; intros i k Hm; [reflexivity|]. cbn [os2_release_loop].
  rewrite (IH (S i)).
  - rewrite seg_mem_set_segs, (Hm i) by lia. destruct (keys !! i) as [s|] eqn:Hi.
    + rewrite (drop_S _ _ _ Hi). cbn. now destruct k.
    + apply lookup_ge_None in Hi. rewrite !drop_ge by lia. now rewrite !take_nil.
  - intros j Hj. rewrite seg_mem_get_set. case_decide; [lia|].
    rewrite <- (Hm j) by lia. destruct (seg_mem_get i k); [apply seg_mem_get_segs | reflexivity].
Qed.

(** It clears the entries it visits. *)
Lemma os2_release_loop_clear n i k j :
  seg_mem_get j (os2_release_loop n i k) =
  if decide (i <= j < i + n)%nat then None else seg_mem_get j k.
Proof.
  revert i k. induction n as [|n IH]; intros i k; cbn [os2_release_loop].
  - case_decide; [lia | reflexivity].
  - rewrite IH, seg_mem_get_set. repeat case_decide; try lia; try reflexivity.
    destruct (seg_mem_get i k); [apply seg_mem_get_segs | reflexivity].
Qed.

(** ** Lemmas: the labels *)

Lemma os2_errout_eq retval ds inode filp k :
  exists e, e < 0 /\ os2_errout retval ds inode filp k = (e, rollback ds inode filp k).
Proof.
  exists (if 0 <=? retval then - EINVAL else retval).
  unfold os2_errout, os2_normal_out, rollback, EINVAL. split; [case_if; lia|].
  match goal with
  | |- context [negb (?x =? 0)] => destruct (Z.eqb_spec x 0) as [E|_]; [|reflexivity]
  end.
  exfalso. revert E. case_if; lia.
Qed.

Lemma seg_mem_get_rollback i ds inode filp k :
  seg_mem_get i (rollback ds inode filp k) = seg_mem_get i k.
Proof. now destruct k. Qed.

(** A way out through [errout] from a state that holds the segments of
    the start and an empty [seg_mem]. *)
Lemma os2_done_rollback ok k0 inode filp k e :
  os2_core filp k = os2_core filp k0 -> k_segs k = k_segs k0 -> seg_mem_clear k ->
  e < 0 ->
  os2_done ok k0 inode filp (Some (e, rollback (r_ds (t_regs (k_cur k0))) inode filp k)).
Proof.
  intros Hc Hs Hm He e' k' [= <- <-]. right. split; [exact He|]. split.
  - intros i. now rewrite seg_mem_get_rollback.
  - exists (k_mem k), (k_con k), (k_seg_mem k).
    rewrite (rollback_core _ _ _ _ _ Hc), Hs. now destruct k0.
Qed.

Section Os2Abort.
Context `{BuildConfig}.

Lemma os2_abort k0 inode filp k retval ok :
  os2_flight k0 filp [] k ->
  os2_done ok k0 inode filp
    (Some (os2_errout retval (r_ds (t_regs (k_cur k0))) inode filp k)).
Proof.
  intros (Hc & Hm & Ha).
  destruct (os2_errout_eq retval (r_ds (t_regs (k_cur k0))) inode filp k) as (e & He & ->).
  apply os2_done_rollback; [exact Hc | now apply allocated_nil_eq | exact Hm | exact He].
Qed.

Lemma os2_abort2 k0 inode filp keys k retval ok :
  os2_flight k0 filp keys k -> (length keys <= NEMAXSEGS)%nat ->
  os2_done ok k0 inode filp
    (Some (os2_errout2 retval (r_ds (t_regs (k_cur k0))) inode filp k)).
Proof.
  intros (Hc & Hm & Ha) Hlen. unfold os2_errout2.
  destruct (os2_errout_eq retval (r_ds (t_regs (k_cur k0))) inode filp
              (os2_release_loop NEMAXSEGS 0 k)) as (e & He & ->).
  apply os2_done_rollback; [| | |exact He].
  - now rewrite os2_release_loop_core.
  - rewrite (os2_release_loop_segs keys) by (intros; apply Hm).
    rewrite drop_0, take_ge by lia. now apply allocated_release.
  - intros j. rewrite os2_release_loop_clear. case_decide; [reflexivity|].
    rewrite Hm. apply lookup_ge_None. lia.
Qed.

End Os2Abort.

(** ** Lemmas: the stages *)

(** The first read of the goal, from a state a quiet step away from the
    state in flight of [F]; [F] becomes the state after the read. *)
Ltac os2_read F :=
  let E := fresh "E" in
  match goal with
  | |- context [filp_read ?i ?f ?c ?st] =>
      pose proof (os2_erase_filp_read i f c st) as E;
      destruct (filp_read i f c st) as [[?retval ?bs] ?k]
  | |- context [read_user ?i ?f ?b ?c ?st] =>
      pose proof (os2_erase_read_user i f b c st) as E;
      destruct (read_user i f b c st) as [?retval ?k]
  end;
  cbn [snd] in E; autorewrite with os2 in E;
  apply (os2_flight_quiet _ _ _ _ _ F) in E; clear F; rename E into F.

(** A state a quiet step away from the state in flight of [F]. *)
Ltac os2_quiet F :=
  apply (os2_flight_quiet _ _ _ _ _ F); autorewrite with os2; reflexivity.

(** Both ways of every test of the goal. *)
Ltac case_bools :=
  repeat match goal with |- context [if ?b then _ else _] => destruct b end.

Lemma os2_flight_start k0 filp : seg_mem_clear k0 -> os2_flight k0 filp [] k0.
Proof.
  intros Hc. split; [reflexivity|]. split; [intros i; now rewrite Hc | apply allocated_nil].
Qed.

(** A store of NULL in the entry after the last one. *)
Lemma os2_flight_null k0 filp keys k :
  os2_flight k0 filp keys k -> os2_flight k0 filp keys (seg_mem_set (length keys) None k).
Proof.
  intros (Hc & Hm & Ha). split; [now rewrite os2_core_seg_mem_set|]. split.
  - intros i. rewrite seg_mem_get_set. case_decide; [subst|apply Hm].
    symmetry. now apply lookup_ge_None.
  - now rewrite seg_mem_set_segs.
Qed.

(** ** Lemmas: what the first loop picks and sizes *)

Lemma picked_step n keys v sm :
  picked n keys v ->
  picked n (keys ++ [sm]) (if Z.of_nat (length keys) + 1 =? n then Some sm else v).
Proof.
  intros Hp c. destruct (Z.eqb_spec (Z.of_nat (length keys) + 1) n) as [E|_].
  - intros [= <-]. split; [lia|]. apply list_lookup_middle. lia.
  - intros [Hn Hl]%Hp. split; [exact Hn | now apply lookup_app_l_Some].
Qed.

Lemma sized_step os2hdr heap stack slen seg segp segs s s1 s' :
  os2_paras os2hdr heap stack slen seg segp = Some s1 ->
  sized os2hdr heap stack slen (S seg) segs s1 s' ->
  sized os2hdr heap stack slen seg (segp :: segs) s s'.
Proof.
  unfold sized. destruct segs as [|a l]; cbn [last length].
  - intros Hp ->. now replace (seg + 1 - 1)%nat with seg by lia.
  - change (last (segp :: a :: l)) with (last (a :: l)).
    destruct (last (a :: l)) as [x|] eqn:El; [|now apply last_None in El].
    intros _ <-. f_equal. lia.
Qed.

Section Os2Stages.
Context `{BuildConfig} `{EntryTransfer} `{SegAllocator}.
Variables (ok : kernel -> Prop) (k0 : kernel) (inode filp : nat).

Notation ds0 := (r_ds (t_regs (k_cur k0))).
Notation done := (os2_done ok k0 inode filp).

(** A segment allocated and stored in the entry after the last one. *)
Lemma os2_flight_alloc keys k paras flags sm segtab :
  os2_flight k0 filp keys k -> seg_alloc paras flags (k_segs k) = Some (sm, segtab) ->
  os2_flight k0 filp (keys ++ [sm])
    (seg_mem_set (length keys) (Some sm) (k <| k_segs := segtab |>)).
Proof.
  intros (Hc & Hm & Ha) Hs. split; [now rewrite os2_core_seg_mem_set, os2_core_segs|]. split.
  - intros i. rewrite seg_mem_get_set, seg_mem_get_segs, Hm.
    case_decide; [subst; now rewrite list_lookup_middle|].
    destruct (decide (i < length keys)%nat); [now rewrite lookup_app_l|].
    rewrite !(lookup_ge_None_2 _ i); [reflexivity | rewrite length_app; cbn; lia | lia].
  - rewrite seg_mem_set_segs. replace (k_segs (k <| k_segs := segtab |>)) with segtab
      by now destruct k. eapply allocated_alloc; eassumption.
Qed.

Lemma os2_read_headers_spec :
  seg_mem_clear k0 ->
  flow_ok done
    (fun '(ds, _, os2hdr) k =>
       ds = ds0 /\ os2_flight k0 filp [] k /\ os2_hdr_ok os2hdr = true)
    (os2_read_headers inode filp k0).
Proof.
  intros F%(os2_flight_start k0 filp). unfold os2_read_headers. cbv zeta.
  os2_read F. destruct (negb (u16 _ =? _)); [now apply os2_abort|].
  os2_read F. destruct (negb (u16 _ =? _)); [now apply os2_abort|].
  destruct (os2_hdr_ok _) eqn:Hok; cbn [negb flow_ok];
    [now split | apply os2_abort; os2_quiet F].
Qed.

Lemma os2_defaults_spec os2hdr k :
  os2_flight k0 filp [] k ->
  flow_ok done
    (fun '(heap, stack) k' =>
       os2_flight k0 filp [] k' /\ num_segments os2hdr <= Z.of_nat NEMAXSEGS /\
       heap = os2_heap os2hdr /\ stack = os2_stack os2hdr)
    (os2_defaults inode filp ds0 os2hdr k).
Proof.
  intros F. unfold os2_defaults. cbv zeta. case_if; cbn [flow_ok].
  - apply os2_abort. os2_quiet F.
  - split; [os2_quiet F | now split; [lia|]].
Qed.

Lemma os2_read_segments_spec doshdr os2hdr k :
  os2_flight k0 filp [] k ->
  flow_ok done
    (fun segs k' => os2_flight k0 filp [] k' /\ length segs = Z.to_nat (num_segments os2hdr))
    (os2_read_segments inode filp ds0 doshdr os2hdr k).
Proof.
  intros F. unfold os2_read_segments. cbv zeta. os2_read F.
  destruct (negb (u16 _ =? _)); cbn [flow_ok]; [now apply os2_abort|].
  split; [exact F|]. unfold decode_os2segs. now rewrite length_map, length_seq.
Qed.

Lemma os2_size_segment_quiet os2hdr heap stack slen segp seg k s k' :
  os2_size_segment os2hdr heap stack slen segp seg k = Some (s, k') ->
  os2_erase filp k' = os2_erase filp k.
Proof.
  unfold os2_size_segment. case_if; [|now intros [= <- <-]].
  destruct os2_auto_paras as [[s' [heap'|]]|]; intros [= <- <-]; autorewrite with os2;
    reflexivity.
Qed.

Lemma os2_size_segment_paras os2hdr heap stack slen segp seg k s k' :
  os2_size_segment os2hdr heap stack slen segp seg k = Some (s, k') ->
  os2_paras os2hdr heap stack slen seg segp = Some s.
Proof.
  unfold os2_size_segment, os2_paras. case_if; [|now intros [= <- <-]].
  destruct os2_auto_paras as [[s' [heap'|]]|]; now intros [= <- <-].
Qed.

Lemma os2_clear_bss_quiet segp base k :
  os2_erase filp (os2_clear_bss segp base k) = os2_erase filp k.
Proof. unfold os2_clear_bss. case_bools; autorewrite with os2; reflexivity. Qed.

Lemma os2_apply_reloc_quiet r base k :
  os2_erase filp (os2_apply_reloc r base k) = os2_erase filp k.
Proof. unfold os2_apply_reloc. case_bools; autorewrite with os2; reflexivity. Qed.

(** What the first loop has done when it has reached entry [seg]: the
    segments allocated are those [seg_mem] holds, one for each entry, and
    [seg_code] and [seg_data] are the segments of the entries the header
    names. *)
Definition alloc_inv (os2hdr : os2_exec_hdr) (seg : nat) (sc sd : option nat)
    (keys : list nat) (k : kernel) : Prop :=
  os2_flight k0 filp keys k /\ length keys = seg /\
  picked (reg_cs os2hdr) keys sc /\ picked (auto_data_segment os2hdr) keys sd.

Lemma alloc_inv_step os2hdr seg sc sd keys k s flags sm segtab segp :
  alloc_inv os2hdr seg sc sd keys k ->
  seg_alloc s flags (k_segs k) = Some (sm, segtab) ->
  alloc_inv os2hdr (S seg)
    (if Z.of_nat seg + 1 =? reg_cs os2hdr then Some sm else sc)
    (if Z.of_nat seg + 1 =? auto_data_segment os2hdr then Some sm else sd)
    (keys ++ [sm])
    (os2_clear_bss segp (seg_base_of sm (seg_mem_set seg (Some sm) (k <| k_segs := segtab |>)))
       (seg_mem_set seg (Some sm) (k <| k_segs := segtab |>))).
Proof.
  intros (F & <- & Hc & Hd) Ea. split; [|split; [rewrite length_app; cbn; lia|]].
  - eapply os2_flight_quiet; [|apply os2_clear_bss_quiet]. eapply os2_flight_alloc; [exact F | exact Ea].
  - split; now apply picked_step.
Qed.

(** The first loop. *)
Lemma os2_alloc_loop_spec os2hdr heap stack slen segs : forall seg s sc sd keys k,
  alloc_inv os2hdr seg sc sd keys k ->
  (seg + length segs <= NEMAXSEGS)%nat ->
  flow_ok done
    (fun '(s', sc', sd') k' => exists keys',
       alloc_inv os2hdr (seg + length segs) sc' sd' keys' k' /\
       sized os2hdr heap stack slen seg segs s s')
    (os2_alloc_loop inode filp ds0 os2hdr heap stack slen segs seg s sc sd k).
Proof.
  induction segs as [|segp segs IH]; intros seg s sc sd keys k I Hn;
    cbn [os2_alloc_loop length flow_ok] in *.
  { exists keys. now rewrite Nat.add_0_r. }
  pose proof I as (F & Hl & _).
  destruct os2_size_segment as [[s' k1]|] eqn:Es;
    [|apply (os2_abort2 _ _ _ keys); [exact F | lia]].
  pose proof (os2_size_segment_paras _ _ _ _ _ _ _ _ _ Es) as Hp.
  apply os2_size_segment_quiet in Es. cbv zeta.
  assert (I1 : forall fmt args, alloc_inv os2hdr seg sc sd keys (call_printk fmt args k1)).
  { intros fmt args. destruct I as (_ & I). split; [|exact I].
    eapply os2_flight_quiet; [exact F|]. now autorewrite with os2. }
  destruct seg_alloc as [[sm segtab]|] eqn:Ea.
  - eapply flow_ok_weaken; [apply (IH _ _ _ _ _ _ (alloc_inv_step _ _ _ _ _ _ _ _ _ _ segp (I1 _ _) Ea)); lia|].
    intros [[s2 sc2] sd2] k2 (keys2 & I2 & Hs2). exists keys2.
    rewrite <- Nat.add_succ_comm. split; [exact I2 | now apply (sized_step _ _ _ _ _ _ _ s s')].
  - destruct (I1 (line "") []) as (F1 & _). subst seg.
    apply (os2_abort2 _ _ _ keys); [|lia]. apply os2_flight_null.
    eapply os2_flight_quiet; [exact F|]. now autorewrite with os2.
Qed.

Lemma os2_check_segments_spec sc sd keys k :
  os2_flight k0 filp keys k -> (length keys <= NEMAXSEGS)%nat ->
  flow_ok done
    (fun '(sc', sd') k' => os2_flight k0 filp keys k' /\ sc = Some sc' /\ sd = Some sd')
    (os2_check_segments inode filp ds0 sc sd k).
Proof.
  intros F Hl. unfold os2_check_segments. destruct sc, sd; cbn [flow_ok]; try easy;
    (apply (os2_abort2 _ _ _ keys); [os2_quiet F | exact Hl]).
Qed.

Lemma os2_reloc_loop_spec base keys count : forall n k,
  os2_flight k0 filp keys k -> (length keys <= NEMAXSEGS)%nat ->
  flow_ok done (fun _ k' => os2_flight k0 filp keys k')
    (os2_reloc_loop inode filp ds0 base count n k).
Proof.
  induction count as [|count IH]; intros n k F Hl; cbn [os2_reloc_loop flow_ok];
    [exact F|].
  os2_read F. destruct (negb (u16 _ =? _)); [now apply (os2_abort2 _ _ _ keys)|].
  cbv zeta. destruct (negb (os2_reloc_ok _)).
  - apply (os2_abort2 _ _ _ keys); [os2_quiet F | exact Hl].
  - apply IH; [|exact Hl]. apply (os2_flight_quiet _ _ _ _ _ F).
    rewrite os2_apply_reloc_quiet. autorewrite with os2. reflexivity.
Qed.

Lemma os2_load_segment_spec os2hdr segp seg retval keys k :
  os2_flight k0 filp keys k -> (length keys <= NEMAXSEGS)%nat ->
  flow_ok done (fun _ k' => os2_flight k0 filp keys k')
    (os2_load_segment inode filp ds0 os2hdr segp seg retval k).
Proof.
  intros F Hl. unfold os2_load_segment. destruct (ns_size segp =? 0).
  { apply (os2_abort2 _ _ _ keys); [os2_quiet F | exact Hl]. }
  cbv zeta. os2_read F. destruct (negb (u16 _ =? _)); [now apply (os2_abort2 _ _ _ keys)|].
  destruct (negb (Z.land _ _ =? 0)); [|cbn [flow_ok]; os2_quiet F].
  os2_read F. destruct (negb (u16 _ =? _)); [now apply (os2_abort2 _ _ _ keys)|].
  apply flow_ok_bind with (Q := fun _ k' => os2_flight k0 filp keys k'); [|auto].
  apply os2_reloc_loop_spec; [os2_quiet F | exact Hl].
Qed.

Lemma os2_load_loop_spec os2hdr keys segs : forall seg retval k,
  os2_flight k0 filp keys k -> (length keys <= NEMAXSEGS)%nat ->
  flow_ok done (fun _ k' => os2_flight k0 filp keys k')
    (os2_load_loop inode filp ds0 os2hdr segs seg retval k).
Proof.
  induction segs as [|segp segs IH]; intros seg retval k F Hl;
    cbn [os2_load_loop flow_ok]; [exact F|].
  eapply flow_ok_bind; [exact (os2_load_segment_spec _ _ _ _ _ _ F Hl)|].
  intros r k' F'. now apply IH.
Qed.

End Os2Stages.

(** ** Lemmas: the commit *)

Section Os2Commit.
Context `{BuildConfig} `{EntryTransfer} `{SegAllocator}.

Lemma os2_commit_staged inode filp ds os2hdr os2segs s stack sc sd sptr slen k e k' :
  os2_commit inode filp ds os2hdr os2segs s stack sc sd sptr slen k = Some (e, k') ->
  e = 0 /\ seg_mem_get (Z.to_nat (auto_data_segment os2hdr - 1)) k = Some sd /\
  exists dbase c m kf,
    finalize_exec inode sc sd (reg_ip os2hdr)
      (k <| k_cur := staged_task os2hdr os2segs s stack slen dbase (k_cur k) |>
         <| k_con := c |> <| k_mem := m |>) = Some kf /\
    k' = close_filp inode filp kf.
Proof.
  unfold os2_commit. cbv zeta. rewrite !call_printk_printed.
  explicit_kernel k. unfold set_ds, seg_mem_get, staged_task. setters_explicit.
  destruct (negb _) eqn:Hg; [discriminate|].
  destruct finalize_exec as [kf|] eqn:Hf; [|discriminate].
  unfold os2_normal_out. cbn [mbind option_bind negb Z.eqb]. intros [= <- <-].
  split; [reflexivity|].
  split; [apply negb_false_iff, bool_decide_eq_true in Hg; symmetry; exact Hg|].
  do 4 eexists. split; [exact Hf | reflexivity].
Qed.

Variables (k0 : kernel) (inode filp : nat) (slen : Z).

Notation ds0 := (r_ds (t_regs (k_cur k0))).
Notation done := (os2_done (os2_committed k0 inode slen) k0 inode filp).

(** The commit from a state in flight. *)
Lemma os2_commit_spec os2hdr os2segs keys s sc sd sptr k :
  os2_flight k0 filp keys k -> os2_hdr_ok os2hdr = true ->
  length os2segs = Z.to_nat (num_segments os2hdr) -> length keys = length os2segs ->
  picked (reg_cs os2hdr) keys (Some sc) ->
  sized os2hdr (os2_heap os2hdr) (os2_stack os2hdr) slen 0 os2segs 0 s ->
  done (os2_commit inode filp ds0 os2hdr os2segs s (os2_stack os2hdr) sc sd sptr slen k).
Proof.
  intros (Hc & Hm & Ha) Hok Hlen Hk Hpc Hs e k'
    (-> & Hg & dbase & c & m & kf & Hf & ->)%os2_commit_staged.
  left. split; [reflexivity|]. destruct (Hpc sc eq_refl) as [Hcs Hkc]. rewrite Hm in Hg.
  pose proof (finalize_exec_segs _ _ _ _ _ _ Hf) as Hsegs.
  pose proof (finalize_exec_seg_mem _ _ _ _ _ _ Hf) as Hsm.
  apply finalize_exec_cur in Hf as (files & ino & Hcur).
  exists os2hdr, os2segs, keys, sc, sd, s, (k_segs k).
  do 8 (split; [first [assumption | reflexivity]|]). split; [|split].
  - intros i. rewrite <- Hm. unfold seg_mem_get, close_filp. destruct kf, k. cbn in *.
    now rewrite Hsm.
  - replace (k_segs (close_filp inode filp kf)) with (k_segs kf) by now destruct kf.
    rewrite Hsegs, <- (os2_core_mm _ _ _ Hc). now destruct k.
  - replace (k_cur (close_filp inode filp kf)) with (k_cur kf) by now destruct kf.
    rewrite Hcur. now destruct k.
Qed.

Lemma execve_os2_flow_spec sptr :
  seg_mem_clear k0 ->
  flow_ok done (fun _ _ => True) (execve_os2_flow inode filp sptr slen k0).
Proof.
  intros Hc. unfold execve_os2_flow.
  eapply flow_ok_bind; [eapply os2_read_headers_spec; exact Hc|].
  intros [[ds doshdr] os2hdr] k1 (-> & F1 & Hok).
  eapply flow_ok_bind; [eapply os2_defaults_spec; exact F1|].
  intros [heap stack] k2 (F2 & Hn & -> & ->).
  eapply flow_ok_bind; [eapply os2_read_segments_spec; exact F2|]. intros segs k3 [F3 Hlen].
  eapply flow_ok_bind.
  { eapply (os2_alloc_loop_spec _ _ _ _ _ _ _ _ segs 0%nat 0 None None []); [|lia].
    split; [exact F3|]. split; [reflexivity|]. split; intros ? [=]. }
  intros [[s sc] sd] k4 (keys & (F4 & Hk & Hpc & Hpd) & Hs). cbn [Nat.add] in Hk.
  eapply flow_ok_bind; [eapply os2_check_segments_spec; [exact F4 | lia]|].
  intros [sc' sd'] k5 (F5 & -> & ->).
  eapply flow_ok_bind; [eapply os2_load_loop_spec; [exact F5 | lia]|]. intros [] k6 F6.
  cbn [flow_ok]. eapply os2_commit_spec; eassumption.
Qed.

(** [execve_os2] from a kernel with an empty [seg_mem]. *)
Lemma execve_os2_done sptr :
  seg_mem_clear k0 -> done (execve_os2 inode filp sptr slen k0).
Proof.
  intros Hc. pose proof (execve_os2_flow_spec sptr Hc) as Hf. unfold execve_os2.
  destruct execve_os2_flow; [intros ? ? [=] | exact Hf].
Qed.

End Os2Commit.


(** ** Examples *)

(** [bs] with zeros up to [n] bytes. *)
Definition pad_to (n : nat) (bs : list Z) : list Z := bs ++ replicate (n - length bs) 0.

(** A word as the file holds it. *)
Definition word (v : Z) : list Z := [u8 v; u8 (v / 256)].

(** A DOS header with the OS/2 header at 64. *)
Definition ne_doshdr : list Z := pad_to 60 [0x4D; 0x5A] ++ [64; 0; 0; 0].

(** An OS/2 header with the segment table right after it and offsets in
    paragraphs. *)
Definition ne_header (auto cs nsegs heap stack : Z) : list Z :=
  pad_to 64 ([0x4E; 0x45] ++ replicate 10 0 ++ [2; 0] ++ word auto ++ word heap ++ word stack
             ++ word 0 ++ word cs ++ replicate 4 0 ++ word nsegs ++ word 0 ++ replicate 2 0
             ++ word 64 ++ replicate 12 0 ++ word 0 ++ word 4 ++ word 0 ++ [1]).

Definition ne_segent (offset size flags min_alloc : Z) : list Z :=
  word offset ++ word size ++ word flags ++ word min_alloc.

Definition ne_fixup (src_type flags chain segment offset : Z) : list Z :=
  [src_type; flags] ++ word chain ++ [segment; 0] ++ word offset.

(** Eight bytes of code at 144 with a fixup of the word at 2 to the base
    of segment 2, and four bytes of data at 176. *)
Definition ne_file (hdr segs : list Z) : list Z :=
  pad_to 176 (ne_doshdr ++ hdr ++ segs ++ [0x90; 0x90; 0; 0; 0x90; 0x90; 0x90; 0xC3]
              ++ word 1 ++ ne_fixup 2 0 2 2 0) ++ [1; 2; 3; 4].

(** A program with its code in segment 1 and its data in segment 2. *)
Definition ne_prog : list Z :=
  ne_file (ne_header 2 1 2 0 0) (ne_segent 9 8 0x100 8 ++ ne_segent 11 4 1 16).

(** The same program asking for 32 KiB of heap and 32 KiB of stack. *)
Definition ne_big : list Z :=
  ne_file (ne_header 2 1 2 0x8000 0x8000) (ne_segent 9 8 0x100 8 ++ ne_segent 11 4 1 16).

(** The same program with its data in segment 1 and its code in segment 2. *)
Definition ne_data_first : list Z :=
  ne_file (ne_header 1 2 2 0 0) (ne_segent 11 4 1 16 ++ ne_segent 9 8 0x100 8).

(** [k] with the image open as [sys_execve] hands it over: inode [i] in
    core, file 9 past the 32 bytes of the first header. *)
Definition ne_open (i : nat) (img : list Z) (k : kernel) : kernel :=
  k <| k_inodes ::= <[i := {| i_count := 1; i_mode := 493; i_uid := 0; i_gid := 0;
                              i_image := {| img_bytes := img; img_bad := None |};
                              i_fop_read := true |}]> |>
    <| k_filps ::= <[9%nat := {| f_pos := 32; f_inode := i; f_count := 1 |}]> |>.

(** The kernel of [Kernel.kernel0] with an argument block at 0x3000:0x100. *)
Definition ne_kernel : kernel := kernel0 <| k_mem := poke_bytes 0x100 0x3000 demo_args ∅ |>.

(** The loader of the full configuration with the allocator of
    [Alloc.bump_alloc]. *)
Definition os2 : nat -> nat -> Z -> Z -> kernel -> option (Z * kernel) :=
  @execve_os2 elks_config i86_entry bump_alloc.

(** What the exec of [ne_prog] leaves. *)
Definition ne_final : kernel :=
  default kernel0 (snd <$> os2 8%nat 9%nat 0x100 20 (ne_open 8 ne_prog ne_kernel)).

(** The program runs in two new segments: 8 bytes of code in one
    paragraph, and 515 paragraphs of data, stack, arguments and heap. *)
Lemma ne_prog_exec :
  os2 8%nat 9%nat 0x100 20 (ne_open 8 ne_prog ne_kernel) = Some (0, ne_final) /\
  k_segs ne_final = {[ 3%nat := fresh_segment 0x3800 1 SEG_FLAG_CSEG;
                       4%nat := fresh_segment 0x3801 515 SEG_FLAG_DSEG ]} /\
  t_mm (k_cur ne_final) = {| mm_seg_code := Some 3%nat; mm_seg_data := Some 4%nat |} /\
  t_endseg (k_cur ne_final) = 515 * 16 /\ t_begstack (k_cur ne_final) = 515 * 16 - 20 /\
  peek_bytes 8 0 0x3800 (k_mem ne_final) = [0x90; 0x90; 0x01; 0x38; 0x90; 0x90; 0x90; 0xC3] /\
  peek_bytes 6 0 0x3801 (k_mem ne_final) = [1; 2; 3; 4; 0; 0].
Proof. vm_compute. repeat split; reflexivity. Qed.

(** ** Properties *)

Section PrintkMem.
Context `{BuildConfig}.

(** A store in memory after a call of [printk] is a store in the memory
    of before. *)
Lemma call_printk_frame_mem fmt args f k :
  f (k_mem k) = k_mem (call_printk fmt args k <| k_mem ::= f |>).
Proof. rewrite <- (call_printk_mem fmt args k). now destruct (call_printk fmt args k). Qed.

End PrintkMem.

(** What the exec of [ne_big] leaves. *)
Definition ne_big_final : kernel :=
  default kernel0 (snd <$> os2 10%nat 9%nat 0x100 20 (ne_open 10 ne_big ne_kernel)).

Section Os2Properties.
Context `{BuildConfig} `{EntryTransfer} `{SegAllocator}.

(** C3.  Atomicity of the OS/2 loader.  When the table [seg_mem] holds
    no segment at the call, an [execve_os2] that fails returns a
    negative value, has released every segment it allocated and cleared
    the table, and leaves the kernel as it was but for memory and the
    console, with the file closed and the inode released. *)
Theorem execve_os2_atomic inode filp sptr slen k r k' :
  seg_mem_clear k ->
  execve_os2 inode filp sptr slen k = Some (r, k') ->
  r = 0 \/
  (r < 0 /\ seg_mem_clear k' /\
   exists m c sm,
     k' = close_filp inode filp k <| k_inodes ::= iput (Some inode) |>
            <| k_mem := m |> <| k_con := c |> <| k_seg_mem := sm |>).
Proof.
  intros Hc E.
  destruct (execve_os2_done k inode filp slen sptr Hc _ _ E)
    as [[-> _]|(Hr & Hcl & m & c & sm & ->)]; [now left|]. right.
  split; [exact Hr|]. split; [exact Hcl|]. exists m, c, sm.
  unfold rollback. now rewrite set_ds_same.
Qed.


(** C32.  The automatic data segment holds what it is sized for: when
    neither the stack with the arguments nor the heap wraps its 16-bit
    sum of line 198, a size that [os2_auto_paras] accepts is less than
    64 KiB and covers the minimum allocation of the segment, the stack,
    the arguments and the heap. *)
Theorem os2_auto_paras_fits s heap_size stack_size slen s' h :
  0 <= s <= 0x1000 -> 0 <= heap_size <= 0xfff0 -> 0 <= stack_size -> 0 <= slen ->
  stack_size + slen + 15 < 65536 ->
  os2_auto_paras s heap_size stack_size slen = Some (s', h) ->
  h = None /\ s' < 0x1000 /\ 16 * s + stack_size + slen + heap_size <= 16 * s'.
Proof.
  intros Hs Hh Hst Hsl Hsum. unfold os2_auto_paras.
  destruct (Z.eqb_spec heap_size 0xffff) as [?|_]; [lia|].
  rewrite !Z.shiftr_div_pow2 by lia. change (2 ^ 4) with 16.
  rewrite (u16_small (stack_size + slen + 15)), (u16_small (heap_size + 15)) by words.
  rewrite !u16_small by words.
  case_if; [discriminate|]. intros [= <- <-]. conjs; [reflexivity | lia | zlia].
Qed.

(** C29.  A segment is given between 1 and 0x1000 paragraphs, which
    hold its minimum allocation, whatever that is: the sum
    [min_alloc + 15] wraps for the 15 largest values, to a size of 0,
    which stands for 64 KiB. *)
Theorem os2_seg_paras_range segp :
  fits16 (ns_min_alloc segp) ->
  0 < os2_seg_paras segp <= 0x1000 /\ ns_min_alloc segp <= 16 * os2_seg_paras segp.
Proof.
  intros Hm. unfold os2_seg_paras. change (u16 (Z.lnot 15)) with 65520.
  rewrite land_not15 by apply u16_range. rewrite Z.shiftr_div_pow2 by lia.
  change (2 ^ 4) with 16. case_if; words.
Qed.

(** C18.  What a fixup writes in the segment at [base]: a segment
    reference puts the base of the segment it names in the word at the
    chain offset; a far address puts its offset there, added to what the
    word held when the fixup is additive, and the base of the segment it
    names in the word after. *)
Theorem os2_apply_reloc_writes r base k :
  os2_reloc_ok r = true -> fits16 (nr_src_chain r) -> fits16 (nr_offset r) ->
  let target := u16 (seg_mem_base (nr_segment r - 1) k) in
  let m := k_mem k in
  let m' := k_mem (os2_apply_reloc r base k) in
  if nr_src_type r =? NEFIXSRC_SEGMENT then peekw (nr_src_chain r) base m' = target
  else
    peekw (nr_src_chain r + 2) base m' = target /\
    peekw (nr_src_chain r) base m' =
    if Z.land (nr_flags r) NEFIXFLG_ADDITIVE =? 0 then nr_offset r
    else u16 (peekw (nr_src_chain r) base m + nr_offset r).
Proof.
  intros Hok Hc Ho. unfold os2_reloc_ok in Hok. cbv zeta. unfold os2_apply_reloc.
  destruct (nr_src_type r =? NEFIXSRC_SEGMENT) eqn:Es; cbn [negb andb] in Hok.
  { rewrite <- call_printk_frame_mem. apply peekw_pokew_same. }
  destruct (nr_src_type r =? NEFIXSRC_FARADDR); [|now rewrite orb_true_r in Hok].
  rewrite <- !call_printk_frame_mem, pokew_u16. split; [apply peekw_pokew_same|].
  rewrite peekw_pokew_apart by (unfold u16, fits16 in *; zlia).
  destruct (Z.land _ _ =? 0); cbn [negb]; rewrite <- call_printk_frame_mem, peekw_pokew_same;
    [now apply u16_small | now rewrite u16_idem].
Qed.

End Os2Properties.

(** The data segment of a program with 16 bytes of data and the default
    stack and heap, called with 20 bytes of arguments. *)
Lemma os2_auto_paras_fits_witness :
  os2_auto_paras 1 4096 4096 20 = Some (515, None) /\
  16 * 1 + 4096 + 20 + 4096 <= 16 * 515.
Proof.
  split; [reflexivity|].
  now apply (os2_auto_paras_fits 1 4096 4096 20 515 None); try lia.
Defined.

(** A segment of 65530 bytes, for which [min_alloc + 15] wraps. *)
Lemma os2_seg_paras_range_witness :
  let segp := {| ns_offset := 9; ns_size := 8; ns_flags := 0; ns_min_alloc := 65530 |} in
  0 < os2_seg_paras segp <= 0x1000 /\ ns_min_alloc segp <= 16 * os2_seg_paras segp.
Proof. intros segp. apply os2_seg_paras_range. unfold fits16. cbn. lia. Defined.

(** An additive far-address fixup of the word at 2 of the code of
    [ne_prog], once loaded, to segment 2. *)
Lemma os2_apply_reloc_writes_witness :
  let r := {| nr_src_type := 3; nr_flags := 4; nr_src_chain := 2; nr_segment := 2;
              nr_offset := 0x10 |} in
  let target := u16 (seg_mem_base (nr_segment r - 1) ne_final) in
  let m' := k_mem (os2_apply_reloc (H := elks_config) r 0x3800 ne_final) in
  if nr_src_type r =? NEFIXSRC_SEGMENT then peekw (nr_src_chain r) 0x3800 m' = target
  else
    peekw (nr_src_chain r + 2) 0x3800 m' = target /\
    peekw (nr_src_chain r) 0x3800 m' =
    if Z.land (nr_flags r) NEFIXFLG_ADDITIVE =? 0 then nr_offset r
    else u16 (peekw (nr_src_chain r) 0x3800 (k_mem ne_final) + nr_offset r).
Proof.
  intros r. apply (os2_apply_reloc_writes (H := elks_config) r 0x3800 ne_final);
    [reflexivity | |]; unfold fits16; cbn; lia.
Defined.


(** The exec of [ne_big] from a kernel that has loaded no OS/2 program
    fails with -E2BIG after it has allocated the code segment. *)
Lemma execve_os2_atomic_witness :
  os2 10%nat 9%nat 0x100 20 (ne_open 10 ne_big ne_kernel) = Some (- E2BIG, ne_big_final) /\
  (- E2BIG = 0 \/
   (- E2BIG < 0 /\ seg_mem_clear ne_big_final /\
    exists m c sm,
      ne_big_final =
      close_filp 10 9 (ne_open 10 ne_big ne_kernel) <| k_inodes ::= iput (Some 10%nat) |>
        <| k_mem := m |> <| k_con := c |> <| k_seg_mem := sm |>)).
Proof.
  split; [vm_compute; reflexivity|].
  apply (execve_os2_atomic (H := elks_config) (H0 := i86_entry) (H1 := bump_alloc)
           10%nat 9%nat 0x100 20 (ne_open 10 ne_big ne_kernel));
    [intros []; reflexivity | vm_compute; reflexivity].
Defined.

(** ** What the model shows of the loader *)




