(* ===== verification/Exec.v ===== *)
(** * Exec: sys_execve as a whole

    [sys_execve] (exec.c, lines 345-713) in the order of the code: the
    file opened ([exec_open]), the header read and checked
    ([exec_header]), the search for a running copy of the program
    ([exec_find_copy]), the layout planned ([exec_plan], which is
    [Layout.exec_layout] with the read of the supplementary header), the
    code segment allocated and read or taken from the copy
    ([exec_load_code], [exec_load_ftext], [exec_reuse_code]), the data
    segment allocated and read ([exec_load_data]), the relocations
    ([exec_relocs]), and the commit ([exec_finish]: [Finalize.exec_commit]
    and [Finalize.finalize_exec]).  Every [goto] of the code is a call of
    the definition that models its label ([error_exec5] ... [error_exec1],
    [normal_out]), which fall through to each other as the labels do.

    A stage returns a [flow]: [Next] with the values it computed and the
    kernel, or [Return] when the system call has returned.  The call has
    no result ([None]) only when the loop over argv and envp of
    [finalize_exec] runs out of the segment.

    The collaborators are classes: the allocator ([Alloc.SegAllocator]),
    the names of files ([Files.NameSpace]) and the decompressor
    ([Decompressor]).  An image that starts with the magic of a DOS
    header is handed to [Os2.execve_os2].

    The theorems are proved from one description of a call in flight
    ([in_flight], [exec_run]): atomicity of a call that fails, on both
    formats; what a call that returns 0 has committed; and the reuse of
    the code segment of a task that runs the program. *)

From Stdlib Require Import ZArith Lia List Bool Ascii String.
From stdpp Require Import base decidable option list gmap fin_maps.
From S2P Require Import Prelude.
From S2P Require Import Paras.
From S2P Require Import Config.
From S2P Require Import Aout.
From S2P Require Import Layout.
From S2P Require Import Farmem.
From S2P Require Import Printk.
From S2P Require Import Kernel.
From S2P Require Import Alloc.
From S2P Require Import Files.
From S2P Require Import Reloc.
From S2P Require Import Finalize.
From S2P Require Import Os2.

Local Open Scope Z_scope.

(** ** Collaborators *)

(** [decompress(buf, seg, orig_size, compr_size, safety)]: the size of
    what it produced, and memory. *)
Class Decompressor : Type := {
  decompress : Z -> Z -> Z -> Z -> Z -> mem -> Z * mem
}.

Definition MZMAGIC : Z := 0x5A4D.
Definition TASK_STOPPED : Z := 4.

(** ** The labels, lines 693-712 *)

(** [error_exec1], lines 710-712. *)
Definition error_exec1 (retval : Z) (k : kernel) : Z * kernel := (retval, k).

(** [error_exec2], lines 708-709. *)
Definition error_exec2 (retval : Z) (inode : nat) (k : kernel) : Z * kernel :=
  error_exec1 retval (k <| k_inodes ::= iput (Some inode) |>).

(** [normal_out], lines 704-709. *)
Definition normal_out (retval : Z) (inode filp : nat) (k : kernel) : Z * kernel :=
  let k := close_filp inode filp k in
  if negb (retval =? 0) then error_exec2 retval inode k else error_exec1 retval k.

(** [error_exec2_5], lines 701-703. *)
Definition error_exec2_5 (retval : Z) (inode filp : nat) (k : kernel) : Z * kernel :=
  normal_out (exec_retval retval) inode filp k.

(** [error_exec3], lines 699-700. *)
Definition error_exec3 (retval ds : Z) (inode filp : nat) (k : kernel) : Z * kernel :=
  error_exec2_5 retval inode filp (set_ds ds k).

(** [error_exec4], lines 696-697. *)
Definition error_exec4 (retval : Z) (seg_code : nat) (ds : Z) (inode filp : nat)
    (k : kernel) : Z * kernel :=
  error_exec3 retval ds inode filp (k <| k_segs ::= seg_put seg_code |>).

(** [error_exec5], lines 693-694. *)
Definition error_exec5 (retval : Z) (seg_data seg_code : nat) (ds : Z)
    (inode filp : nat) (k : kernel) : Z * kernel :=
  error_exec4 retval seg_code ds inode filp (k <| k_segs ::= seg_put seg_data |>).

(** ** The search for a copy, lines 396-406 *)

(** The task table: the current task is entry [k_slot]. *)
Definition task_table (k : kernel) : list task :=
  take (k_slot k) (k_others k) ++ k_cur k :: drop (k_slot k) (k_others k).

Definition exec_find_copy (inode : nat) (k : kernel) : option nat :=
  match find (fun t => (t_state t <=? TASK_STOPPED) &&
                       bool_decide (t_inode t = Some inode)) (task_table k) with
  | Some t => mm_seg_code (t_mm t)
  | None => None
  end.

Section Exec.
Context `{BuildConfig} `{EntryTransfer} `{SegAllocator} `{NameSpace} `{Decompressor}.

(** ** The stages *)

(** Lines 364-373: the image opened. *)
Definition exec_open (filename : list Z) (k : kernel) : flow (nat * nat) :=
  let '(retval, inode, k) := open_namei filename k in
  if negb (retval =? 0) then Return (Some (error_exec1 retval k))
  else
    let '(retval, filp, k) := open_filp inode k in
    if negb (retval =? 0) then Return (Some (error_exec2 retval inode k))
    else if negb (i_fop_read (inode_of inode k))
    then Return (Some (error_exec2_5 retval inode filp k))
    else Next (inode, filp) k.

(** Lines 375-394: the header read into [mh] and checked.  The values are
    [ds] and [mh]. *)
Definition exec_header (inode filp : nat) (sptr slen : Z) (k : kernel)
    : flow (Z * minix_exec_hdr) :=
  let ds := r_ds (t_regs (k_cur k)) in
  let k := set_ds (kernel_ds k) k in
  let '(retval, bs, k) := filp_read inode filp EXEC_MINIX_HDR_SIZE k in
  if negb (retval =? EXEC_MINIX_HDR_SIZE)
  then Return (Some (error_exec3 retval ds inode filp k))
  else if CONFIG_EXEC_OS2 && (field bs 0 2 =? MZMAGIC)
  then Return (execve_os2 inode filp sptr slen (set_ds ds k))
  else
    let mh := decode_mh bs in
    if negb (exec_hdr_ok mh) then Return (Some (error_exec3 retval ds inode filp k))
    else Next (ds, mh) k.

(** Lines 408-542: the layout.  The supplementary header is read when
    [mh.hlen] says there is one (lines 425-430), after the first sum
    (lines 408-412); the rest is [exec_layout]. *)
Definition exec_plan (inode filp : nat) (ds : Z) (mh : minix_exec_hdr) (slen : Z)
    (k : kernel) : flow (elks_supl_hdr * layout) :=
  match exec_min_len mh with
  | Fail retval => Return (Some (error_exec3 retval ds inode filp k))
  | Ok _ =>
      let '(bad, esuph, k) :=
        match exec_hlen_kind (hlen mh) with
        | Some (HdrBig n) =>
            let '(retval, bs, k) := filp_read inode filp n k in
            (if negb (retval =? n) then Some retval else None, decode_esuph bs, k)
        | _ => (None, esuph_zero, k)
        end in
      match bad with
      | Some retval => Return (Some (error_exec3 retval ds inode filp k))
      | None =>
          match exec_layout mh esuph slen with
          | Fail retval => Return (Some (error_exec3 retval ds inode filp k))
          | Ok l => Next (esuph, l) k
          end
      end
  end.

(** Lines 573-578 and 592-598: [retval = -ENOEXEC] and the segment
    decompressed when it is stored compressed ([compr] not 0).  The result
    is whether the size produced is not [size]. *)
Definition exec_decompress (compr seg size bytes : Z) (k : kernel) : bool * kernel :=
  if negb (compr =? 0) then
    let '(n, m) := decompress 0 seg size bytes 16 (k_mem k) in
    (negb (n =? size), k <| k_mem := m |>)
  else (false, k).

(** Lines 579-600: the far text, read after the text. *)
Definition exec_load_ftext (inode filp : nat) (ds : Z) (mh : minix_exec_hdr)
    (esuph : elks_supl_hdr) (seg_code : nat) (k : kernel) : flow unit :=
  if negb CONFIG_EXEC_MMODEL then Next tt k
  else
    let bytes := u16 (esh_ftseg esuph) in
    if bytes =? 0 then Next tt k
    else
      let bytes :=
        if CONFIG_EXEC_COMPRESS && negb (esh_compr_ftseg esuph =? 0)
        then esh_compr_ftseg esuph else bytes in
      let fseg := seg_add (seg_base_of seg_code k) (bytes_to_paras (u16 (tseg mh))) in
      let k := set_ds fseg k in
      let '(retval, k) := read_user inode filp 0 bytes k in
      if negb (u16 retval =? bytes)
      then Return (Some (error_exec4 retval seg_code ds inode filp k))
      else if CONFIG_EXEC_COMPRESS then
        let retval := - ENOEXEC in
        let '(bad, k) :=
          exec_decompress (esh_compr_ftseg esuph) fseg (u16 (esh_ftseg esuph)) bytes k in
        if bad then Return (Some (error_exec4 retval seg_code ds inode filp k))
        else Next tt k
      else Next tt k.

(** Lines 549-600: no copy is running; the code segment allocated and
    read. *)
Definition exec_load_code (inode filp : nat) (ds : Z) (mh : minix_exec_hdr)
    (esuph : elks_supl_hdr) (k : kernel) : flow nat :=
  let '(paras, bytes) := exec_text_size mh esuph in
  let retval := - ENOMEM in
  match seg_alloc paras SEG_FLAG_CSEG (k_segs k) with
  | None => Return (Some (error_exec3 retval ds inode filp k))
  | Some (seg_code, segs) =>
      let k := k <| k_segs := segs |> in
      let k := set_ds (seg_base_of seg_code k) k in
      let '(retval, k) := read_user inode filp 0 bytes k in
      if negb (u16 retval =? bytes)
      then Return (Some (error_exec4 retval seg_code ds inode filp k))
      else
        let '(bad, retval, k) :=
          if CONFIG_EXEC_COMPRESS then
            let '(bad, k) :=
              exec_decompress (esh_compr_tseg esuph) (seg_base_of seg_code k)
                (u16 (tseg mh)) bytes k in
            (bad, - ENOEXEC, k)
          else (false, retval, k) in
        if bad then Return (Some (error_exec4 retval seg_code ds inode filp k))
        else
          flow_bind (exec_load_ftext inode filp ds mh esuph seg_code k)
            (fun _ k => Next seg_code k)
  end.

(** Lines 601-610: a copy is running; its code segment is taken, and the
    text skipped in the file. *)
Definition exec_reuse_code (filp : nat) (mh : minix_exec_hdr)
    (esuph : elks_supl_hdr) (seg_code : nat) (k : kernel) : kernel :=
  let k := k <| k_segs ::= seg_get seg_code |> in
  if CONFIG_EXEC_MMODEL then
    let k := filp_skip filp (if negb (esh_compr_tseg esuph =? 0)
                             then esh_compr_tseg esuph else u16 (tseg mh)) k in
    filp_skip filp (if negb (esh_compr_ftseg esuph =? 0)
                    then esh_compr_ftseg esuph else u16 (esh_ftseg esuph)) k
  else filp_skip filp (u16 (tseg mh)) k.

(** Lines 612-637: the data segment allocated and read. *)
Definition exec_load_data (inode filp : nat) (ds : Z) (mh : minix_exec_hdr)
    (esuph : elks_supl_hdr) (l : layout) (seg_code : nat) (k : kernel) : flow nat :=
  let paras := Z.shiftr (l_len l) 4 in
  let retval := - ENOMEM in
  match seg_alloc paras SEG_FLAG_DSEG (k_segs k) with
  | None => Return (Some (error_exec4 retval seg_code ds inode filp k))
  | Some (seg_data, segs) =>
      let k := k <| k_segs := segs |> in
      let bytes :=
        if CONFIG_EXEC_COMPRESS && negb (esh_compr_dseg esuph =? 0)
        then esh_compr_dseg esuph else u16 (dseg mh) in
      let k := set_ds (seg_base_of seg_data k) k in
      let '(retval, k) := read_user inode filp (l_base_data l) bytes k in
      if negb (u16 retval =? bytes)
      then Return (Some (error_exec5 retval seg_data seg_code ds inode filp k))
      else if CONFIG_EXEC_COMPRESS then
        let '(bad, k) :=
          exec_decompress (esh_compr_dseg esuph) (seg_base_of seg_data k)
            (u16 (dseg mh)) bytes k in
        if bad then Return (Some (error_exec5 retval seg_data seg_code ds inode filp k))
        else Next seg_data k
      else Next seg_data k
  end.

(** A call of [relocate] on the file [filp]: the result and the kernel. *)
Definition call_relocate (place_base rsize : Z) (seg_code seg_data inode filp : nat)
    (tseg : Z) (k : kernel) : Z * kernel :=
  let sc := default (fresh_segment 0 0 0) (k_segs k !! seg_code) in
  let sd := default (fresh_segment 0 0 0) (k_segs k !! seg_data) in
  let '(retval, f, k) :=
    relocate place_base rsize sc sd (i_image (inode_of inode k)) (file_of filp k)
      tseg k in
  (retval, k <| k_filps ::= <[filp := f]> |>).

(** Lines 639-662: the relocations of the text, of the far text and of
    the data. *)
Definition exec_relocs (inode filp : nat) (ds : Z) (mh : minix_exec_hdr)
    (esuph : elks_supl_hdr) (need_reloc_code : bool) (seg_code seg_data : nat)
    (k : kernel) : flow unit :=
  if negb CONFIG_EXEC_MMODEL then Next tt k
  else
    let error retval k :=
      Return (Some (error_exec5 retval seg_data seg_code ds inode filp k)) in
    let data k :=
      let '(retval, k) :=
        call_relocate (seg_base_of seg_data k) (msh_drsize esuph) seg_code seg_data
          inode filp (u16 (tseg mh)) k in
      if negb (retval =? 0) then error retval k else Next tt k in
    if need_reloc_code then
      let '(retval, k) :=
        call_relocate (seg_base_of seg_code k) (msh_trsize esuph) seg_code seg_data
          inode filp (u16 (tseg mh)) k in
      if negb (retval =? 0) then error retval k
      else
        let '(retval, k) :=
          call_relocate
            (seg_add (seg_base_of seg_code k) (bytes_to_paras (u16 (tseg mh))))
            (esh_ftrsize esuph) seg_code seg_data inode filp (u16 (tseg mh)) k in
        if negb (retval =? 0) then error retval k else data k
    else
      data (filp_skip filp (esh_ftrsize esuph) (filp_skip filp (msh_trsize esuph) k)).

(** Lines 664-691: the commit, and the way out. *)
Definition exec_finish (inode filp : nat) (ds : Z) (mh : minix_exec_hdr) (l : layout)
    (seg_code seg_data : nat) (sptr slen : Z) (k : kernel) : option (Z * kernel) :=
  let k := exec_commit mh l seg_data sptr ds slen k in
  k ← finalize_exec inode seg_code seg_data (u16 (entry mh)) k;
  let retval := 0 in
  Some (normal_out retval inode filp k).

(** ** sys_execve *)

(** The code segment: the copy found, or a new one. *)
Definition exec_code (inode filp : nat) (ds : Z) (mh : minix_exec_hdr)
    (esuph : elks_supl_hdr) (copy : option nat) (k : kernel) : flow (nat * bool) :=
  match copy with
  | None =>
      flow_bind (exec_load_code inode filp ds mh esuph k)
        (fun seg_code k => Next (seg_code, true) k)
  | Some seg_code => Next (seg_code, false) (exec_reuse_code filp mh esuph seg_code k)
  end.

Definition sys_execve_flow (filename : list Z) (sptr slen : Z) (k : kernel)
    : flow unit :=
  flow_bind (exec_open filename k) (fun '(inode, filp) k =>
  flow_bind (exec_header inode filp sptr slen k) (fun '(ds, mh) k =>
  let copy := exec_find_copy inode k in
  flow_bind (exec_plan inode filp ds mh slen k) (fun '(esuph, l) k =>
  flow_bind (exec_code inode filp ds mh esuph copy k)
    (fun '(seg_code, need_reloc_code) k =>
  flow_bind (exec_load_data inode filp ds mh esuph l seg_code k) (fun seg_data k =>
  flow_bind (exec_relocs inode filp ds mh esuph need_reloc_code seg_code seg_data k)
    (fun _ k =>
  Return (exec_finish inode filp ds mh l seg_code seg_data sptr slen k))))))).

Definition sys_execve (filename : list Z) (sptr slen : Z) (k : kernel)
    : option (Z * kernel) :=
  match sys_execve_flow filename sptr slen k with
  | Return r => r
  | Next _ k => None
  end.

End Exec.

(** ** What a failed exec undoes *)

(** The kernel without what an exec in flight changes: memory, the
    segment table, the entry of its file and [ds]. *)
Definition erase (filp : nat) (k : kernel) : kernel :=
  set_ds 0 (k <| k_mem := ∅ |> <| k_segs := ∅ |> <| k_filps ::= delete filp |>).

(** A call that failed and left nothing but memory changed. *)
Definition aborted (k0 : kernel) (r : option (Z * kernel)) : Prop :=
  exists e m, r = Some (e, k0 <| k_mem := m |>) /\ e < 0.

(** The reference counts are in use and not at their limit. *)
Definition inodes_ok (k : kernel) : Prop :=
  forall i ino, k_inodes k !! i = Some ino -> 0 < i_count ino < 65535.

Definition segs_ok (k : kernel) : Prop :=
  forall s sg, k_segs k !! s = Some sg -> 0 < seg_ref_count sg < 65535.

(** ** Lemmas: the labels *)

Lemma exec_retval_neg retval : exec_retval retval < 0.
Proof. unfold exec_retval, ENOEXEC. case_if; lia. Qed.

Lemma exec_retval_cases retval :
  exec_retval retval = - ENOEXEC /\ 0 <= retval \/ exec_retval retval = retval /\ retval < 0.
Proof. unfold exec_retval. case_if; auto. Qed.

Lemma error_exec3_eq retval ds inode filp k :
  error_exec3 retval ds inode filp k = (exec_retval retval, rollback ds inode filp k).
Proof.
  unfold error_exec3, error_exec2_5, normal_out, error_exec2, error_exec1, rollback.
  pose proof (exec_retval_neg retval). case_if; [lia | reflexivity].
Qed.

Lemma error_exec2_5_eq retval inode filp k :
  error_exec2_5 retval inode filp k =
  error_exec3 retval (r_ds (t_regs (k_cur k))) inode filp k.
Proof. unfold error_exec3. explicit_kernel k. reflexivity. Qed.

Lemma error_exec4_eq retval seg_code ds inode filp k :
  error_exec4 retval seg_code ds inode filp k =
  (exec_retval retval, rollback ds inode filp (k <| k_segs ::= seg_put seg_code |>)).
Proof. apply error_exec3_eq. Qed.

Lemma error_exec5_eq retval seg_data seg_code ds inode filp k :
  error_exec5 retval seg_data seg_code ds inode filp k =
  (exec_retval retval,
   rollback ds inode filp (k <| k_segs ::= fun t => seg_put seg_code (seg_put seg_data t) |>)).
Proof. unfold error_exec5. rewrite error_exec4_eq. now destruct k. Qed.

(** ** Lemmas: what the steps of an exec in flight leave alone *)

Lemma erase_set_ds filp ds k : erase filp (set_ds ds k) = erase filp k.
Proof. explicit_kernel k. reflexivity. Qed.

Lemma erase_mem filp f k : erase filp (k <| k_mem ::= f |>) = erase filp k.
Proof. now destruct k. Qed.

Lemma erase_segs filp f k : erase filp (k <| k_segs ::= f |>) = erase filp k.
Proof. now destruct k. Qed.

Lemma erase_filps_insert filp f k :
  erase filp (k <| k_filps ::= <[filp := f]> |>) = erase filp k.
Proof. destruct k. unfold erase, set_ds. setters. now rewrite delete_insert_eq. Qed.

Lemma erase_filps_alter filp g k :
  erase filp (k <| k_filps ::= alter g filp |>) = erase filp k.
Proof. destruct k. unfold erase, set_ds. setters. now rewrite delete_alter_eq. Qed.

Lemma erase_filp_read inode filp count k :
  erase filp (filp_read inode filp count k).2 = erase filp k.
Proof. unfold filp_read. destruct f_read as [[r bs] f]. apply erase_filps_insert. Qed.

Lemma erase_read_user inode filp buf count k :
  erase filp (read_user inode filp buf count k).2 = erase filp k.
Proof.
  unfold read_user. pose proof (erase_filp_read inode filp count k) as E.
  destruct filp_read as [[r bs] k1]. cbn in *. now rewrite erase_mem.
Qed.

Lemma erase_filp_skip filp n k : erase filp (filp_skip filp n k) = erase filp k.
Proof. apply erase_filps_alter. Qed.

Lemma erase_call_relocate place_base rsize seg_code seg_data inode filp tseg k :
  erase filp (call_relocate place_base rsize seg_code seg_data inode filp tseg k).2 =
  erase filp k.
Proof.
  unfold call_relocate.
  match goal with |- context [relocate ?a ?b ?c ?d ?e ?f ?g ?h] =>
    pose proof (relocate_only_mem a b c d e f g h) as E end.
  destruct relocate as [[r f] k1]. destruct E as [-> _]. cbn [snd].
  now rewrite erase_filps_insert, (erase_mem filp (fun _ => _)).
Qed.

(** What these steps leave of the segment table. *)
Lemma segs_filp_read inode filp count k :
  k_segs (filp_read inode filp count k).2 = k_segs k.
Proof. unfold filp_read. now destruct f_read as [[r bs] f]. Qed.

Lemma segs_read_user inode filp buf count k :
  k_segs (read_user inode filp buf count k).2 = k_segs k.
Proof.
  unfold read_user. pose proof (segs_filp_read inode filp count k) as E.
  now destruct filp_read as [[r bs] k1].
Qed.

Lemma segs_call_relocate place_base rsize seg_code seg_data inode filp tseg k :
  k_segs (call_relocate place_base rsize seg_code seg_data inode filp tseg k).2 =
  k_segs k.
Proof.
  unfold call_relocate.
  match goal with |- context [relocate ?a ?b ?c ?d ?e ?f ?g ?h] =>
    pose proof (relocate_only_mem a b c d e f g h) as E end.
  destruct relocate as [[r f] k1]. now destruct E as [-> _].
Qed.

(** The result of a call of [relocate]. *)
Lemma call_relocate_result place_base rsize seg_code seg_data inode filp tseg k :
  let r := (call_relocate place_base rsize seg_code seg_data inode filp tseg k).1 in
  r = 0 \/ r < 0.
Proof.
  unfold call_relocate.
  match goal with |- context [relocate ?a ?b ?c ?d ?e ?f ?g ?h] =>
    pose proof (relocate_only_mem a b c d e f g h) as E end.
  destruct relocate as [[r f] k1]. now destruct E as [_ E].
Qed.

(** A reference taken and released leaves the table as it was, whether
    the segment is in the table or not. *)
Lemma seg_put_get_any s t :
  (forall sg, t !! s = Some sg -> 0 < seg_ref_count sg < 65535) ->
  seg_put s (seg_get s t) = t.
Proof.
  intros Hc. destruct (t !! s) as [sg|] eqn:Hs;
    [apply (seg_put_get s sg); [exact Hs | exact (Hc sg eq_refl)]|].
  unfold seg_get, seg_put. rewrite lookup_alter_eq, Hs. cbn.
  apply map_eq. intros i. destruct (decide (i = s)) as [->|Hne].
  - now rewrite lookup_alter_eq, Hs.
  - now rewrite lookup_alter_ne.
Qed.

(** The way out of states that differ in memory and segments only. *)
Lemma rollback_erase ds inode filp k k1 :
  erase filp k = erase filp k1 ->
  rollback ds inode filp k =
  rollback ds inode filp k1 <| k_mem := k_mem k |> <| k_segs := k_segs k |>.
Proof.
  explicit_kernel k. explicit_kernel k1.
  unfold erase, rollback, set_ds, close_filp. setters. intros [= ? Hd]. subst.
  now rewrite Hd.
Qed.

Lemma set_mem_same k : k <| k_mem := k_mem k |> = k.
Proof. now destruct k. Qed.

Lemma inode_of_erase inode filp k k1 :
  erase filp k = erase filp k1 -> inode_of inode k = inode_of inode k1.
Proof.
  intros E. apply (f_equal k_inodes) in E. unfold inode_of.
  destruct k, k1. cbn in E. now subst.
Qed.

(** The search looks at the state, the inode and the code segment of
    each task, and at nothing else of the kernel. *)
Lemma exec_find_copy_frame inode k k' :
  k_others k' = k_others k -> k_slot k' = k_slot k ->
  t_state (k_cur k') = t_state (k_cur k) -> t_inode (k_cur k') = t_inode (k_cur k) ->
  t_mm (k_cur k') = t_mm (k_cur k) ->
  exec_find_copy inode k' = exec_find_copy inode k.
Proof.
  intros Ho Hs Hst Hi Hm. unfold exec_find_copy, task_table. rewrite Ho, Hs.
  generalize (take (k_slot k) (k_others k)) (drop (k_slot k) (k_others k)).
  intros l1 l2. induction l1 as [|t l1 IH]; cbn [app find].
  - rewrite Hst, Hi. destruct (_ && _); [now rewrite Hm | reflexivity].
  - destruct (_ && _); [reflexivity | exact IH].
Qed.

(** ** The state of an exec in flight *)

Section ExecInvariant.
Context `{BuildConfig} `{NameSpace}.

(** The bytes of the file a path names, as a read delivers them. *)
Definition exec_image (filename : list Z) (k : kernel) : list Z :=
  match namei filename with
  | Some (i, disk) => img_bytes (i_image (default disk (k_inodes k !! i)))
  | None => []
  end.

(** The file is an OS/2 program, for a kernel that loads them. *)
Definition is_os2 (filename : list Z) (k : kernel) : bool :=
  CONFIG_EXEC_OS2 && (field (exec_image filename k) 0 2 =? MZMAGIC).

(** [k1] is [k0] with the program open: the way out gives [k0] back. *)
Definition opened (filename : list Z) (k0 : kernel) (inode filp : nat)
    (k1 : kernel) : Prop :=
  k_mem k1 = k_mem k0 /\ k_segs k1 = k_segs k0 /\ k_cur k1 = k_cur k0 /\
  k_others k1 = k_others k0 /\ k_slot k1 = k_slot k0 /\
  rollback (r_ds (t_regs (k_cur k0))) inode filp k1 = k0 /\
  img_bytes (i_image (inode_of inode k1)) = exec_image filename k0 /\
  file_of filp k1 = {| f_pos := 0; f_inode := inode; f_count := 1 |} /\
  option_map fst (namei filename) = Some inode.

(** [k] is a state of the exec of [filename] from [k0]: it differs from
    the state after the open in memory, segments, the position in the
    file and [ds] only. *)
Definition in_flight (filename : list Z) (k0 : kernel) (inode filp : nat)
    (k : kernel) : Prop :=
  exists k1, opened filename k0 inode filp k1 /\ erase filp k = erase filp k1.

Lemma opened_in_flight filename k0 inode filp k1 :
  opened filename k0 inode filp k1 -> in_flight filename k0 inode filp k1.
Proof. intros Ho. now exists k1. Qed.

Lemma in_flight_step filename k0 inode filp k k' :
  in_flight filename k0 inode filp k -> erase filp k' = erase filp k ->
  in_flight filename k0 inode filp k'.
Proof. intros (k1 & Ho & E) E'. exists k1. split; [exact Ho | congruence]. Qed.

(** The ways out of an exec in flight, once the segments it took are
    given back. *)
Lemma abort3 filename k0 inode filp k retval :
  in_flight filename k0 inode filp k -> k_segs k = k_segs k0 ->
  aborted k0 (Some (error_exec3 retval (r_ds (t_regs (k_cur k0))) inode filp k)).
Proof.
  intros (k1 & (_ & _ & _ & _ & _ & Hr & _) & E) Hs. rewrite error_exec3_eq.
  exists (exec_retval retval), (k_mem k). split; [|apply exec_retval_neg].
  rewrite (rollback_erase _ _ _ _ _ E), Hr, Hs. now destruct k0.
Qed.

Lemma abort4 filename k0 inode filp k retval seg_code :
  in_flight filename k0 inode filp k -> seg_put seg_code (k_segs k) = k_segs k0 ->
  aborted k0
    (Some (error_exec4 retval seg_code (r_ds (t_regs (k_cur k0))) inode filp k)).
Proof.
  intros Hf Hs. apply (abort3 filename); [|now destruct k].
  eapply in_flight_step; [exact Hf | apply erase_segs].
Qed.

Lemma abort5 filename k0 inode filp k retval seg_code seg_data :
  in_flight filename k0 inode filp k ->
  seg_put seg_code (seg_put seg_data (k_segs k)) = k_segs k0 ->
  aborted k0
    (Some (error_exec5 retval seg_data seg_code (r_ds (t_regs (k_cur k0))) inode filp k)).
Proof.
  intros Hf Hs. apply (abort4 filename); [|now destruct k].
  eapply in_flight_step; [exact Hf | apply erase_segs].
Qed.

(** The file of an exec in flight. *)
Lemma in_flight_image filename k0 inode filp k :
  in_flight filename k0 inode filp k ->
  img_bytes (i_image (inode_of inode k)) = exec_image filename k0.
Proof.
  intros (k1 & (_ & _ & _ & _ & _ & _ & Hi & _) & E).
  now rewrite (inode_of_erase _ _ _ _ E).
Qed.

(** What a stage of an exec in flight gives: a state in flight with [Q],
    or a call that failed. *)
Definition stage_ok {A : Type} (filename : list Z) (k0 : kernel) (inode filp : nat)
    (Q : A -> kernel -> Prop) (x : flow A) : Prop :=
  match x with
  | Next a k => in_flight filename k0 inode filp k /\ Q a k
  | Return r => aborted k0 r
  end.

Lemma stage_ok_bind {A B : Type} filename k0 inode filp (Q : A -> kernel -> Prop)
    (R : B -> kernel -> Prop) x f :
  stage_ok filename k0 inode filp Q x ->
  (forall a k, in_flight filename k0 inode filp k -> Q a k ->
     stage_ok filename k0 inode filp R (f a k)) ->
  stage_ok filename k0 inode filp R (flow_bind x f).
Proof. destruct x as [a k|r]; cbn; [intros [Hf HQ] Hn; now apply Hn | auto]. Qed.

Lemma stage_ok_weaken {A : Type} filename k0 inode filp (Q R : A -> kernel -> Prop) x :
  stage_ok filename k0 inode filp Q x -> (forall a k, Q a k -> R a k) ->
  stage_ok filename k0 inode filp R x.
Proof. destruct x as [a k|r]; cbn; [intros [Hf HQ] Hn; auto | auto]. Qed.

End ExecInvariant.

(** ** Lemmas: the stages *)

Lemma rollback_open k0 i disk f :
  inodes_ok k0 ->
  rollback (r_ds (t_regs (k_cur k0))) i (fresh (dom (k_filps k0)))
    (k0 <| k_inodes ::= iget i disk |>
        <| k_filps ::= <[fresh (dom (k_filps k0)) := f]> |>) = k0.
Proof.
  intros Hi. pose proof (iput_iget i disk (k_inodes k0) (Hi i)) as Hp.
  pose proof (fresh_filp_None (k_filps k0)) as Hf.
  explicit_kernel k0. unfold rollback, close_filp, set_ds. setters.
  cbn [k_inodes k_filps] in Hp, Hf. now rewrite Hp, delete_insert_id.
Qed.

Lemma inode_of_iget i disk k :
  i_image (inode_of i (k <| k_inodes ::= iget i disk |>)) =
  i_image (default disk (k_inodes k !! i)).
Proof.
  unfold inode_of, iget. destruct k as [? ? inodes ? ? ? ? ? ? ? ?]. setters.
  destruct (inodes !! i) as [ino|]; now rewrite lookup_insert_eq.
Qed.

Section ExecStages.
Context `{BuildConfig} `{EntryTransfer} `{SegAllocator} `{NameSpace} `{Decompressor}.

(** The open: the program is open, or the call has failed and changed
    nothing. *)
Lemma exec_open_spec filename k0 :
  inodes_ok k0 ->
  match exec_open filename k0 with
  | Next (inode, filp) k1 => opened filename k0 inode filp k1
  | Return r => aborted k0 r
  end.
Proof.
  intros Hi. unfold exec_open, open_namei.
  destruct (namei filename) as [[i disk]|] eqn:Hn; cbn [negb Z.eqb]; cycle 1.
  { exists (- ENOENT), (k_mem k0). now rewrite set_mem_same. }
  unfold open_filp. case_bool_decide; cbn [negb Z.eqb].
  { exists (- ENFILE), (k_mem k0). split; [|reflexivity].
    unfold error_exec2, error_exec1. do 2 f_equal. destruct k0. setters.
    now rewrite (iput_iget _ _ _ (Hi i)). }
  set (fi := fresh _). set (f := Build_file_s 0 i 1).
  set (k1 := _ <| k_filps ::= <[fi := f]> |>).
  assert (Ho : opened filename k0 i fi k1).
  { unfold opened, exec_image. rewrite Hn. subst k1 fi. conjs; try (now destruct k0).
    - apply (rollback_open k0 i disk f Hi).
    - rewrite <- (inode_of_iget i disk k0). now destruct k0.
    - unfold file_of. destruct k0. setters. now rewrite lookup_insert_eq. }
  destruct (i_fop_read _); cbn [negb]; [exact Ho|].
  rewrite error_exec2_5_eq. replace (k_cur k1) with (k_cur k0) by now destruct k0.
  apply (abort3 filename); [now apply opened_in_flight | now destruct k0].
Qed.

(** The read of the first header: the first 32 bytes of the file. *)
Lemma exec_header_read filename k0 inode filp k1 :
  opened filename k0 inode filp k1 ->
  let '(retval, bs, k2) :=
    filp_read inode filp EXEC_MINIX_HDR_SIZE (set_ds (kernel_ds k1) k1) in
  in_flight filename k0 inode filp k2 /\ k_segs k2 = k_segs k0 /\
  (retval = EXEC_MINIX_HDR_SIZE ->
   bs = take 32 (exec_image filename k0) /\
   field bs 0 2 = field (exec_image filename k0) 0 2 /\
   k2 = set_ds (kernel_ds k1) k1
          <| k_filps ::= <[filp := {| f_pos := 32; f_inode := inode; f_count := 1 |}]> |>).
Proof.
  intros Ho. pose proof Ho as (_ & Hs & Hc & _ & _ & _ & Hi & Hf & _).
  set (ka := set_ds _ k1).
  assert (Ha : in_flight filename k0 inode filp ka)
    by (eapply in_flight_step; [apply opened_in_flight, Ho | apply erase_set_ds]).
  pose proof (erase_filp_read inode filp EXEC_MINIX_HDR_SIZE ka) as He.
  pose proof (segs_filp_read inode filp EXEC_MINIX_HDR_SIZE ka) as Hsg.
  pose proof (filp_read_full inode filp EXEC_MINIX_HDR_SIZE ka ltac:(now vm_compute)) as Hr.
  pose proof (filp_read_eq inode filp EXEC_MINIX_HDR_SIZE ka) as Hq.
  destruct filp_read as [[retval bs] k2]. cbn [snd] in He, Hsg.
  split; [eapply in_flight_step; eassumption|].
  split; [rewrite Hsg; now destruct k1|]. intros Hrv. destruct (Hr Hrv) as [Hbs Hl].
  replace (file_of filp ka) with (file_of filp k1) in Hbs, Hq by now destruct k1.
  replace (inode_of inode ka) with (inode_of inode k1) in Hbs by now destruct k1.
  rewrite Hf, Hi in Hbs. cbn [f_pos] in Hbs.
  change (Z.to_nat EXEC_MINIX_HDR_SIZE) with 32%nat in Hbs.
  change (Z.to_nat 0) with 0%nat in Hbs. rewrite drop_0 in Hbs.
  split; [exact Hbs|]. split.
  - rewrite Hbs. apply field_take; [lia|].
    rewrite Hbs, length_take in Hl. unfold EXEC_MINIX_HDR_SIZE in Hl. lia.
  - rewrite Hq, Hf, Hl. reflexivity.
Qed.

(** The header read and checked: the exec is in flight with the header
    of the file, or the call has failed. *)
Lemma exec_header_spec filename k0 inode filp sptr slen k1 :
  is_os2 filename k0 = false ->
  opened filename k0 inode filp k1 ->
  match exec_header inode filp sptr slen k1 with
  | Next (ds, mh) k2 =>
      ds = r_ds (t_regs (k_cur k0)) /\ in_flight filename k0 inode filp k2 /\
      k_segs k2 = k_segs k0 /\
      mh = decode_mh (take 32 (exec_image filename k0)) /\
      exec_hdr_ok mh = true /\
      k2 = set_ds (kernel_ds k1) k1
             <| k_filps ::= <[filp := {| f_pos := 32; f_inode := inode; f_count := 1 |}]> |>
  | Return r => aborted k0 r
  end.
Proof.
  intros Hos Ho. pose proof Ho as (_ & _ & Hc & _).
  pose proof (exec_header_read filename k0 inode filp k1 Ho) as Hr.
  unfold exec_header. rewrite Hc. destruct filp_read as [[retval bs] k2].
  destruct Hr as (Hk2 & Hs2 & Hr).
  destruct (negb (retval =? _)) eqn:Hrv; [now apply (abort3 filename)|].
  apply negb_false_iff, Z.eqb_eq in Hrv. destruct (Hr Hrv) as (Hbs & Hm & Hq).
  unfold is_os2 in Hos. rewrite Hm, Hos.
  destruct (negb (exec_hdr_ok _)) eqn:Hok; [now apply (abort3 filename)|].
  apply negb_false_iff in Hok. rewrite <- Hbs. conjs; auto.
Qed.

(** The header of an OS/2 program: the call is the one of [execve_os2],
    unless the read has failed. *)
Lemma exec_header_os2 filename k0 inode filp sptr slen k1 :
  is_os2 filename k0 = true ->
  opened filename k0 inode filp k1 ->
  exists r, exec_header inode filp sptr slen k1 = Return r /\
    (aborted k0 r \/
     exists k2, in_flight filename k0 inode filp k2 /\ k_segs k2 = k_segs k0 /\
       r = execve_os2 inode filp sptr slen (set_ds (r_ds (t_regs (k_cur k0))) k2)).
Proof.
  intros Hos Ho. pose proof Ho as (_ & _ & Hc & _).
  pose proof (exec_header_read filename k0 inode filp k1 Ho) as Hr.
  unfold exec_header. rewrite Hc. destruct filp_read as [[retval bs] k2].
  destruct Hr as (Hk2 & Hs2 & Hr).
  destruct (negb (retval =? _)) eqn:Hrv.
  { eexists. split; [reflexivity|]. left. now apply (abort3 filename). }
  apply negb_false_iff, Z.eqb_eq in Hrv. destruct (Hr Hrv) as (Hbs & Hm & Hq).
  unfold is_os2 in Hos. rewrite Hm, Hos. eexists. split; [reflexivity|]. right. now exists k2.
Qed.

(** The way out of an exec in flight that holds the segments of the
    start gives the kernel of the start, but for memory. *)
Lemma rollback_in_flight filename k0 inode filp k :
  in_flight filename k0 inode filp k -> k_segs k = k_segs k0 ->
  exists m, rollback (r_ds (t_regs (k_cur k0))) inode filp k = k0 <| k_mem := m |>.
Proof.
  intros Hf Hs. destruct (abort3 filename k0 inode filp k 0 Hf Hs) as (e' & m & E & _).
  rewrite error_exec3_eq in E. exists m.
  exact (f_equal (from_option snd k0) E).
Qed.

Lemma rollback_set_ds ds ds' inode filp k :
  rollback ds inode filp (set_ds ds' k) = rollback ds inode filp k.
Proof. explicit_kernel k. reflexivity. Qed.

Lemma ds_set_ds ds k : r_ds (t_regs (k_cur (set_ds ds k))) = ds.
Proof. explicit_kernel k. reflexivity. Qed.

(** The layout: planned, or the call has failed. *)
Lemma exec_plan_spec filename k0 inode filp mh slen k :
  in_flight filename k0 inode filp k -> k_segs k = k_segs k0 ->
  stage_ok filename k0 inode filp (fun _ k' => k_segs k' = k_segs k0)
    (exec_plan inode filp (r_ds (t_regs (k_cur k0))) mh slen k).
Proof.
  intros Hf Hs. unfold exec_plan.
  destruct (exec_min_len mh); [|now apply (abort3 filename)].
  assert (Hrd : forall n,
    let '(_, _, k') := filp_read inode filp n k in
    in_flight filename k0 inode filp k' /\ k_segs k' = k_segs k0).
  { intros n. pose proof (erase_filp_read inode filp n k) as He.
    pose proof (segs_filp_read inode filp n k) as Hsg.
    destruct filp_read as [[r bs] k']. cbn [snd] in *.
    split; [eapply in_flight_step; eassumption | congruence]. }
  destruct (exec_hlen_kind _) as [[|n]|].
  - destruct exec_layout; cbn; [auto | now apply (abort3 filename)].
  - specialize (Hrd n). destruct filp_read as [[r bs] k']. destruct Hrd as [Hf' Hs'].
    destruct (negb _); [now apply (abort3 filename)|].
    destruct exec_layout; cbn; [auto | now apply (abort3 filename)].
  - destruct exec_layout; cbn; [auto | now apply (abort3 filename)].
Qed.

(** A read into the segment in [ds], and a decompression, keep the exec
    in flight and the segments. *)
Lemma read_user_in_flight filename k0 inode filp buf count ds k :
  in_flight filename k0 inode filp k ->
  let k' := (read_user inode filp buf count (set_ds ds k)).2 in
  in_flight filename k0 inode filp k' /\ k_segs k' = k_segs k.
Proof.
  intros Hf. cbn zeta. rewrite segs_read_user. split; [|now destruct k].
  eapply in_flight_step; [exact Hf|]. now rewrite erase_read_user, erase_set_ds.
Qed.

Lemma exec_decompress_in_flight filename k0 inode filp compr seg size bytes k :
  in_flight filename k0 inode filp k ->
  let k' := (exec_decompress compr seg size bytes k).2 in
  in_flight filename k0 inode filp k' /\ k_segs k' = k_segs k.
Proof.
  intros Hf. unfold exec_decompress. destruct (negb _); [|auto].
  destruct decompress as [n m]. cbn. split; [|now destruct k].
  eapply in_flight_step; [exact Hf | apply (erase_mem filp (fun _ => m))].
Qed.

(** The far text: read, or the call has failed and the code segment is
    given back. *)
Lemma exec_load_ftext_spec filename k0 inode filp mh esuph seg_code k :
  in_flight filename k0 inode filp k -> seg_put seg_code (k_segs k) = k_segs k0 ->
  stage_ok filename k0 inode filp (fun _ k' => k_segs k' = k_segs k)
    (exec_load_ftext inode filp (r_ds (t_regs (k_cur k0))) mh esuph seg_code k).
Proof.
  intros Hf Hs. unfold exec_load_ftext.
  destruct (negb CONFIG_EXEC_MMODEL); [cbn; auto|].
  destruct (u16 (esh_ftseg esuph) =? 0); [cbn; auto|]. cbv zeta.
  match goal with |- context [read_user _ _ 0 ?bytes (set_ds ?fseg _)] =>
    destruct (read_user_in_flight filename k0 inode filp 0 bytes fseg k Hf) as [Hf1 Hs1] end.
  destruct read_user as [retval k1]. cbn [snd] in Hf1, Hs1.
  destruct (negb _); [apply (abort4 filename); [exact Hf1 | congruence]|].
  destruct CONFIG_EXEC_COMPRESS; [|cbn; auto].
  match goal with |- context [exec_decompress ?a ?b ?c ?d ?e] =>
    destruct (exec_decompress_in_flight filename k0 inode filp a b c d e Hf1) as [Hf2 Hs2] end.
  destruct exec_decompress as [bad k2]. cbn [snd] in Hf2, Hs2.
  destruct bad; [apply (abort4 filename); [exact Hf2 | congruence]|].
  cbn. split; [exact Hf2 | congruence].
Qed.

(** The code segment: allocated and read, or the call has failed and
    nothing is allocated. *)
Lemma exec_load_code_spec filename k0 inode filp mh esuph k :
  in_flight filename k0 inode filp k -> k_segs k = k_segs k0 ->
  stage_ok filename k0 inode filp
    (fun seg_code k' => seg_put seg_code (k_segs k') = k_segs k0)
    (exec_load_code inode filp (r_ds (t_regs (k_cur k0))) mh esuph k).
Proof.
  intros Hf Hs. unfold exec_load_code. destruct exec_text_size as [paras bytes].
  destruct seg_alloc as [[seg_code segs]|] eqn:Ha; [|now apply (abort3 filename)].
  apply seg_alloc_put in Ha. rewrite Hs in Ha. set (ka := k <| k_segs := segs |>).
  assert (Hfa : in_flight filename k0 inode filp ka)
    by (eapply in_flight_step; [exact Hf | apply (erase_segs filp (fun _ => segs))]).
  destruct (read_user_in_flight filename k0 inode filp 0 bytes (seg_base_of seg_code ka)
              ka Hfa) as [Hf1 Hs1].
  destruct read_user as [retval k1]. cbn [snd] in Hf1, Hs1.
  assert (Hp1 : seg_put seg_code (k_segs k1) = k_segs k0)
    by (rewrite Hs1; now destruct k).
  destruct (negb _); [now apply (abort4 filename)|].
  assert (Hft : forall k2, in_flight filename k0 inode filp k2 -> k_segs k2 = k_segs k1 ->
            stage_ok filename k0 inode filp
              (fun seg_code k' => seg_put seg_code (k_segs k') = k_segs k0)
              (flow_bind (exec_load_ftext inode filp (r_ds (t_regs (k_cur k0))) mh esuph
                            seg_code k2) (fun _ k => Next seg_code k))).
  { intros k2 Hf2 Hs2. eapply stage_ok_bind.
    - apply exec_load_ftext_spec; [exact Hf2 | congruence].
    - intros [] k3 Hf3 Hs3. cbn in *. split; [exact Hf3 | congruence]. }
  destruct CONFIG_EXEC_COMPRESS; [|now apply Hft].
  match goal with |- context [exec_decompress ?a ?b ?c ?d ?e] =>
    destruct (exec_decompress_in_flight filename k0 inode filp a b c d e Hf1) as [Hf2 Hs2] end.
  destruct exec_decompress as [bad k2]. cbn [snd] in Hf2, Hs2.
  destruct bad; [apply (abort4 filename); [exact Hf2 | congruence] | now apply Hft].
Qed.

(** The code segment of a running copy: one reference more, which
    [seg_put] gives back. *)
Lemma exec_reuse_code_spec filename k0 inode filp mh esuph seg_code k :
  segs_ok k0 -> in_flight filename k0 inode filp k -> k_segs k = k_segs k0 ->
  let k' := exec_reuse_code filp mh esuph seg_code k in
  in_flight filename k0 inode filp k' /\ seg_put seg_code (k_segs k') = k_segs k0.
Proof.
  intros Hok Hf Hs. unfold exec_reuse_code. set (ka := k <| k_segs ::= seg_get seg_code |>).
  assert (Hfa : in_flight filename k0 inode filp ka)
    by (eapply in_flight_step; [exact Hf | apply erase_segs]).
  assert (Hsa : seg_put seg_code (k_segs ka) = k_segs k0).
  { replace (k_segs ka) with (seg_get seg_code (k_segs k)) by now destruct k.
    rewrite Hs. apply seg_put_get_any, Hok. }
  assert (Hsk : forall n k1, in_flight filename k0 inode filp k1 ->
            in_flight filename k0 inode filp (filp_skip filp n k1) /\
            k_segs (filp_skip filp n k1) = k_segs k1).
  { intros n k1 Hf1. split; [|now destruct k1].
    eapply in_flight_step; [exact Hf1 | apply erase_filp_skip]. }
  destruct CONFIG_EXEC_MMODEL; cbn zeta.
  - edestruct Hsk as [Hf1 Hs1]; [exact Hfa|]. edestruct Hsk as [Hf2 Hs2]; [exact Hf1|].
    split; [exact Hf2 | now rewrite Hs2, Hs1].
  - edestruct Hsk as [Hf1 Hs1]; [exact Hfa|]. split; [exact Hf1 | now rewrite Hs1].
Qed.

(** The data segment: allocated and read, or the call has failed and
    the code segment is given back. *)
Lemma exec_load_data_spec filename k0 inode filp mh esuph l seg_code k :
  in_flight filename k0 inode filp k -> seg_put seg_code (k_segs k) = k_segs k0 ->
  stage_ok filename k0 inode filp
    (fun seg_data k' => seg_put seg_code (seg_put seg_data (k_segs k')) = k_segs k0)
    (exec_load_data inode filp (r_ds (t_regs (k_cur k0))) mh esuph l seg_code k).
Proof.
  intros Hf Hs. unfold exec_load_data.
  destruct seg_alloc as [[seg_data segs]|] eqn:Ha; [|now apply (abort4 filename)].
  apply seg_alloc_put in Ha. cbv zeta. set (ka := k <| k_segs := segs |>).
  assert (Hfa : in_flight filename k0 inode filp ka)
    by (eapply in_flight_step; [exact Hf | apply (erase_segs filp (fun _ => segs))]).
  match goal with |- context [read_user _ _ ?buf ?bytes (set_ds ?d _)] =>
    destruct (read_user_in_flight filename k0 inode filp buf bytes d ka Hfa) as [Hf1 Hs1] end.
  destruct read_user as [retval k1]. cbn [snd] in Hf1, Hs1.
  assert (Hp1 : seg_put seg_code (seg_put seg_data (k_segs k1)) = k_segs k0)
    by (rewrite Hs1; replace (k_segs ka) with segs by (now destruct k); congruence).
  destruct (negb _); [now apply (abort5 filename)|].
  destruct CONFIG_EXEC_COMPRESS; [|cbn; auto].
  match goal with |- context [exec_decompress ?a ?b ?c ?d ?e] =>
    destruct (exec_decompress_in_flight filename k0 inode filp a b c d e Hf1) as [Hf2 Hs2] end.
  destruct exec_decompress as [bad k2]. cbn [snd] in Hf2, Hs2.
  destruct bad; [apply (abort5 filename); [exact Hf2 | congruence]|].
  cbn. split; [exact Hf2 | congruence].
Qed.

(** A call of [relocate] keeps the exec in flight and the segments. *)
Lemma call_relocate_in_flight filename k0 inode filp place_base rsize seg_code seg_data
    tseg k :
  in_flight filename k0 inode filp k ->
  let '(r, k') := call_relocate place_base rsize seg_code seg_data inode filp tseg k in
  in_flight filename k0 inode filp k' /\ k_segs k' = k_segs k.
Proof.
  intros Hf.
  pose proof (erase_call_relocate place_base rsize seg_code seg_data inode filp tseg k).
  pose proof (segs_call_relocate place_base rsize seg_code seg_data inode filp tseg k).
  destruct call_relocate as [r k']. split; [eapply in_flight_step; eassumption | assumption].
Qed.

(** The relocations: applied, or the call has failed and both segments
    are given back. *)
Lemma exec_relocs_spec filename k0 inode filp mh esuph need_reloc_code seg_code seg_data k :
  in_flight filename k0 inode filp k ->
  seg_put seg_code (seg_put seg_data (k_segs k)) = k_segs k0 ->
  stage_ok filename k0 inode filp (fun _ k' => k_segs k' = k_segs k)
    (exec_relocs inode filp (r_ds (t_regs (k_cur k0))) mh esuph need_reloc_code
       seg_code seg_data k).
Proof.
  intros Hf Hs. unfold exec_relocs. destruct (negb CONFIG_EXEC_MMODEL); [cbn; auto|].
  assert (Hdata : forall k1, in_flight filename k0 inode filp k1 -> k_segs k1 = k_segs k ->
    stage_ok filename k0 inode filp (fun _ k' => k_segs k' = k_segs k)
      (let '(retval, k2) :=
         call_relocate (seg_base_of seg_data k1) (msh_drsize esuph) seg_code seg_data
           inode filp (u16 (tseg mh)) k1 in
       if negb (retval =? 0)
       then Return (Some (error_exec5 retval seg_data seg_code
                            (r_ds (t_regs (k_cur k0))) inode filp k2))
       else Next tt k2)).
  { intros k1 Hf1 Hs1.
    pose proof (call_relocate_in_flight filename k0 inode filp (seg_base_of seg_data k1)
                  (msh_drsize esuph) seg_code seg_data (u16 (tseg mh)) k1 Hf1) as Hc.
    destruct call_relocate as [r k2]. destruct Hc as [Hf2 Hs2].
    destruct (negb _); [apply (abort5 filename); [exact Hf2 | congruence]|].
    cbn. split; [exact Hf2 | congruence]. }
  destruct need_reloc_code.
  - pose proof (call_relocate_in_flight filename k0 inode filp (seg_base_of seg_code k)
                  (msh_trsize esuph) seg_code seg_data (u16 (tseg mh)) k Hf) as Hc.
    destruct call_relocate as [r k1]. destruct Hc as [Hf1 Hs1].
    destruct (negb _); [apply (abort5 filename); [exact Hf1 | congruence]|].
    match goal with |- context [call_relocate ?pb ?rs _ _ _ _ _ k1] =>
      pose proof (call_relocate_in_flight filename k0 inode filp pb rs seg_code seg_data
                    (u16 (tseg mh)) k1 Hf1) as Hc end.
    destruct call_relocate as [r2 k2]. destruct Hc as [Hf2 Hs2].
    destruct (negb _); [apply (abort5 filename); [exact Hf2 | congruence]|].
    apply Hdata; [exact Hf2 | congruence].
  - apply Hdata; [|now destruct k].
    do 2 (eapply in_flight_step; [|apply erase_filp_skip]). exact Hf.
Qed.

(** The layout a call goes on with is the layout planned. *)
Lemma exec_plan_layout inode filp ds mh slen k esuph l k' :
  exec_plan inode filp ds mh slen k = Next (esuph, l) k' ->
  exec_layout mh esuph slen = Ok l.
Proof.
  unfold exec_plan. destruct exec_min_len; [|discriminate].
  destruct exec_hlen_kind as [[|n]|]; [| destruct filp_read as [[r bs] k1]; destruct (negb _) |];
    try discriminate; destruct exec_layout eqn:E; intros [= <- <- <-]; exact E.
Qed.

(** The task of an exec in flight is the task of before, but for [ds]. *)
Lemma in_flight_cur filename k0 inode filp k :
  in_flight filename k0 inode filp k ->
  k_cur k = k_cur k0 <| t_regs ::= set r_ds (fun _ => r_ds (t_regs (k_cur k))) |>.
Proof.
  intros (k1 & (_ & _ & <- & _) & E). apply (f_equal k_cur) in E. revert E.
  explicit_kernel k. explicit_kernel k1. unfold erase, set_ds. setters.
  intros [=]. now subst.
Qed.

(** The task a commit leaves: the task [tc] of [exec_commit], as
    [finalize_exec] hands it to the entry transfer. *)
Lemma exec_finish_cur inode filp ds mh l seg_code seg_data sptr slen k k' :
  exec_finish inode filp ds mh l seg_code seg_data sptr slen k = Some (0, k') ->
  exists tc files ino cbase dbase,
    tc = k_cur k <| t_endseg := l_len l |>
           <| t_enddata := u16 (u16 (dseg mh) + u16 (bseg mh) + l_base_data l) |>
           <| t_begstack := exec_begstack (l_base_data l) (l_len l) slen |>
           <| t_minstack := l_stack l |> /\
    k_cur k' =
    committed_task tc seg_code seg_data cbase dbase files inode ino
      <| t_regs ::= set r_sp (fun sp => u16 (sp - frame_size)) |>.
Proof.
  unfold exec_finish.
  pose proof (exec_commit_cur mh l seg_data sptr ds slen k) as Hc. revert Hc.
  generalize (exec_commit mh l seg_data sptr ds slen k). intros kc Hc.
  destruct finalize_exec as [kf|] eqn:Hfz; [|discriminate].
  apply finalize_exec_cur in Hfz as (files & ino & Hcur). cbn. intros [= <-].
  exists (k_cur kc), files, ino. do 2 eexists. split; [exact Hc|].
  rewrite <- Hcur. now destruct kf.
Qed.

(** The segments a commit leaves: those of the old image are given
    back. *)
Lemma exec_finish_segs inode filp ds mh l seg_code seg_data sptr slen k k' :
  exec_finish inode filp ds mh l seg_code seg_data sptr slen k = Some (0, k') ->
  k_segs k' =
  seg_put_opt (mm_seg_data (t_mm (k_cur k)))
    (seg_put_opt (mm_seg_code (t_mm (k_cur k))) (k_segs k)).
Proof.
  unfold exec_finish. destruct finalize_exec as [kf|] eqn:Hfz; [|discriminate].
  apply finalize_exec_segs in Hfz. cbn. intros [= <-].
  replace (k_segs (close_filp inode filp kf)) with (k_segs kf) by now destruct kf.
  rewrite Hfz. unfold flushed_segs. rewrite exec_commit_segs, exec_commit_cur. now setters.
Qed.

(** The commit returns 0, if it returns. *)
Lemma exec_finish_result inode filp ds mh l seg_code seg_data sptr slen k :
  let r := exec_finish inode filp ds mh l seg_code seg_data sptr slen k in
  r = None \/ exists k', r = Some (0, k').
Proof.
  unfold exec_finish. destruct finalize_exec as [k1|]; cbn; [right | now left].
  unfold normal_out, error_exec1. cbn. eauto.
Qed.

(** A call that reaches the commit: the values and the states of its
    stages, and its result [r]. *)
Inductive exec_run (filename : list Z) (sptr slen : Z) (k0 : kernel)
    (r : option (Z * kernel)) : Prop :=
| ExecRun inode filp k1 mh k2 esuph l k3 seg_code need_reloc_code k4 seg_data k5 k6
    (Hopen : opened filename k0 inode filp k1)
    (Hmh : mh = decode_mh (take 32 (exec_image filename k0)))
    (Hk2 : k2 = set_ds (kernel_ds k1) k1
                  <| k_filps ::= <[filp := {| f_pos := 32; f_inode := inode;
                                              f_count := 1 |}]> |>)
    (Hplan : exec_plan inode filp (r_ds (t_regs (k_cur k0))) mh slen k2 =
             Next (esuph, l) k3)
    (Hcode : exec_code inode filp (r_ds (t_regs (k_cur k0))) mh esuph
               (exec_find_copy inode k2) k3 = Next (seg_code, need_reloc_code) k4)
    (Hdata : exec_load_data inode filp (r_ds (t_regs (k_cur k0))) mh esuph l seg_code k4 =
             Next seg_data k5)
    (Hrel : exec_relocs inode filp (r_ds (t_regs (k_cur k0))) mh esuph need_reloc_code
              seg_code seg_data k5 = Next tt k6)
    (Hflight : in_flight filename k0 inode filp k6)
    (Hsegs : seg_put seg_code (seg_put seg_data (k_segs k6)) = k_segs k0)
    (Hfin : r = exec_finish inode filp (r_ds (t_regs (k_cur k0))) mh l seg_code seg_data
                  sptr slen k6).

(** The call as a whole: it fails and leaves all but memory as it was, or
    it reaches the commit. *)
Lemma sys_execve_flow_spec filename sptr slen k0 :
  is_os2 filename k0 = false -> inodes_ok k0 -> segs_ok k0 ->
  match sys_execve_flow filename sptr slen k0 with
  | Return r => aborted k0 r \/ exec_run filename sptr slen k0 r
  | Next _ _ => False
  end.
Proof.
  intros Hos Hi Hsg. unfold sys_execve_flow.
  pose proof (exec_open_spec filename k0 Hi) as Ho.
  destruct exec_open as [[inode filp] k1|r]; cbn [flow_bind]; [|now left].
  pose proof (exec_header_spec filename k0 inode filp sptr slen k1 Hos Ho) as Hh.
  destruct exec_header as [[ds mh] k2|r]; cbn [flow_bind]; [|now left].
  destruct Hh as (-> & Hf2 & Hs2 & Hmh & _ & Hk2). cbv zeta.
  pose proof (exec_plan_spec filename k0 inode filp mh slen k2 Hf2 Hs2) as Hp.
  destruct exec_plan as [[esuph l] k3|r] eqn:Hplan; cbn [flow_bind]; [|now left].
  destruct Hp as [Hf3 Hs3].
  assert (Hc : stage_ok filename k0 inode filp
            (fun a k' => seg_put a.1 (k_segs k') = k_segs k0)
            (exec_code inode filp (r_ds (t_regs (k_cur k0))) mh esuph
               (exec_find_copy inode k2) k3)).
  { unfold exec_code. destruct exec_find_copy as [seg_code|].
    - now apply exec_reuse_code_spec.
    - eapply stage_ok_bind; [now apply exec_load_code_spec|]. now intros a k Hf Hq. }
  destruct exec_code as [[seg_code nrc] k4|r] eqn:Hcode; cbn [flow_bind]; [|now left].
  destruct Hc as [Hf4 Hs4]. cbn [fst] in Hs4.
  pose proof (exec_load_data_spec filename k0 inode filp mh esuph l seg_code k4 Hf4 Hs4) as Hd.
  destruct exec_load_data as [seg_data k5|r] eqn:Hdata; cbn [flow_bind]; [|now left].
  destruct Hd as [Hf5 Hs5].
  pose proof (exec_relocs_spec filename k0 inode filp mh esuph nrc seg_code seg_data k5
                Hf5 Hs5) as Hr.
  destruct exec_relocs as [[] k6|r] eqn:Hrel; cbn [flow_bind]; [|now left].
  destruct Hr as [Hf6 Hs6]. right. econstructor; eauto. congruence.
Qed.

Lemma aborted_zero k0 k' : ~ aborted k0 (Some (0, k')).
Proof. intros (e & m & [= <- _] & He). lia. Qed.

(** A call that returns 0 has reached the commit. *)
Lemma sys_execve_success filename sptr slen k0 k' :
  is_os2 filename k0 = false -> inodes_ok k0 -> segs_ok k0 ->
  sys_execve filename sptr slen k0 = Some (0, k') ->
  exec_run filename sptr slen k0 (Some (0, k')).
Proof.
  intros Hos Hi Hsg. unfold sys_execve.
  pose proof (sys_execve_flow_spec filename sptr slen k0 Hos Hi Hsg) as Hf.
  destruct sys_execve_flow as [|r0]; [easy|]. intros ->.
  destruct Hf as [Ha|Hr]; [now apply aborted_zero in Ha | exact Hr].
Qed.

End ExecStages.

(** ** Examples *)

(** A program: a Minix header of version 1, 16 bytes of text, 8 of data,
    4 of bss, default heap and stack. *)
Definition prog_mh : minix_exec_hdr :=
  {| type := MINIX_SPLITID; hlen := 32; reserved1 := 0; version := 1; tseg := 16;
     dseg := 8; bseg := 4; entry := 0; chmem := 0; minstack := 0; syms := 0 |}.

Definition prog_text : list Z := seqZ 0x90 16.
Definition prog_data : list Z := seqZ 0x41 8.

Definition prog_inode (bad : option Z) : inode_s :=
  {| i_count := 0; i_mode := 493; i_uid := 0; i_gid := 0;
     i_image := {| img_bytes := encode_mh prog_mh ++ prog_text ++ prog_data;
                   img_bad := bad |};
     i_fop_read := true |}.

(** An OS/2 program on the disk. *)
Definition os2_inode (img : list Z) : inode_s :=
  {| i_count := 0; i_mode := 493; i_uid := 0; i_gid := 0;
     i_image := {| img_bytes := img; img_bad := None |}; i_fop_read := true |}.

(** /bin/prog is the program, and /bin/worn the program on a disk whose
    byte 50, in the data, cannot be read; /bin/os2 is the OS/2 program
    [Os2.ne_prog], and /bin/os2big the one that asks for too much. *)
#[export] Instance prog_names : NameSpace := {|
  namei path :=
    if bool_decide (path = str "/bin/prog"%string) then Some (8%nat, prog_inode None)
    else if bool_decide (path = str "/bin/worn"%string) then Some (9%nat, prog_inode (Some 50))
    else if bool_decide (path = str "/bin/os2"%string) then Some (10%nat, os2_inode ne_prog)
    else if bool_decide (path = str "/bin/os2big"%string) then Some (11%nat, os2_inode ne_big)
    else None
|}.

(** A kernel without the decompressor: the programs of the examples are
    not compressed. *)
#[export] Instance no_decompress : Decompressor := {|
  decompress _ _ _ _ _ m := (0, m)
|}.

(** The kernel of [Kernel.kernel0] with an argument block at 0x3000:0x100. *)
Definition kernel1 : kernel :=
  kernel0 <| k_mem := poke_bytes 0x100 0x3000 demo_args ∅ |>.

Lemma kernel1_inodes_ok : inodes_ok kernel1.
Proof.
  intros i ino Hl. unfold kernel1, kernel0 in Hl. setters_in Hl.
  apply lookup_singleton_Some in Hl as [<- <-]. cbn. lia.
Qed.

Lemma kernel1_segs_ok : segs_ok kernel1.
Proof.
  intros s sg Hl. unfold kernel1, kernel0 in Hl. setters_in Hl.
  apply lookup_insert_Some in Hl as [[<- <-]|[_ [<- <-]%lookup_singleton_Some]]; cbn; lia.
Qed.

(** What the exec of /bin/worn leaves. *)
Definition worn_final : kernel :=
  default kernel0 (snd <$> sys_execve (str "/bin/worn"%string) 0x100 20 kernel1).

Lemma worn_exec : sys_execve (str "/bin/worn"%string) 0x100 20 kernel1 = Some (- EIO, worn_final).
Proof. vm_compute. reflexivity. Qed.

(** What the exec of /bin/prog leaves. *)
Definition prog_final : kernel :=
  default kernel0 (snd <$> sys_execve (str "/bin/prog"%string) 0x100 20 kernel1).

Lemma prog_exec : sys_execve (str "/bin/prog"%string) 0x100 20 kernel1 = Some (0, prog_final).
Proof. vm_compute. reflexivity. Qed.

(** What the exec of /bin/os2 leaves: the program of [Os2.ne_prog_exec],
    loaded through [sys_execve]. *)
Definition os2_final : kernel :=
  default kernel0 (snd <$> sys_execve (str "/bin/os2"%string) 0x100 20 kernel1).

Lemma os2_exec :
  sys_execve (str "/bin/os2"%string) 0x100 20 kernel1 = Some (0, os2_final) /\
  k_segs os2_final = k_segs ne_final /\ k_cur os2_final = k_cur ne_final <| t_inode := Some 10%nat |>.
Proof. vm_compute. repeat split; reflexivity. Qed.

(** What the exec of /bin/os2big leaves. *)
Definition os2big_final : kernel :=
  default kernel0 (snd <$> sys_execve (str "/bin/os2big"%string) 0x100 20 kernel1).

Lemma os2big_exec :
  sys_execve (str "/bin/os2big"%string) 0x100 20 kernel1 = Some (- E2BIG, os2big_final).
Proof. vm_compute. reflexivity. Qed.

Lemma os2big_is_os2 : is_os2 (str "/bin/os2big"%string) kernel1 = true.
Proof. vm_compute. reflexivity. Qed.

Lemma kernel1_seg_mem_clear : seg_mem_clear kernel1.
Proof. now intros []. Qed.

(** A second process, while the first runs /bin/prog. *)
Definition task1 : task :=
  task0 <| t_mm := {| mm_seg_code := None; mm_seg_data := None |} |>
        <| t_files := {| files_fd := [Some 5%nat; Some 5%nat; None; None];
                         files_close_on_exec := 0 |} |>
        <| t_inode := None |>.

Definition kernel2 : kernel :=
  prog_final <| k_others := [k_cur prog_final] |> <| k_slot := 1%nat |> <| k_cur := task1 |>.

(** What the exec of /bin/prog by the second process leaves. *)
Definition shared_final : kernel :=
  default kernel0 (snd <$> sys_execve (str "/bin/prog"%string) 0x100 20 kernel2).

Lemma shared_exec :
  sys_execve (str "/bin/prog"%string) 0x100 20 kernel2 = Some (0, shared_final).
Proof. vm_compute. reflexivity. Qed.

(** The two invariants are decidable: on a concrete kernel they are
    checked by evaluation. *)
Lemma invariants_decide k :
  bool_decide (map_Forall (fun _ ino => 0 < i_count ino < 65535) (k_inodes k)) = true ->
  bool_decide (map_Forall (fun _ sg => 0 < seg_ref_count sg < 65535) (k_segs k)) = true ->
  inodes_ok k /\ segs_ok k.
Proof. intros Hi%bool_decide_eq_true Hs%bool_decide_eq_true. now split. Qed.

Lemma kernel2_ok :
  is_os2 (str "/bin/prog"%string) kernel2 = false /\ inodes_ok kernel2 /\ segs_ok kernel2.
Proof. split; [|apply invariants_decide]; vm_compute; reflexivity. Qed.

Lemma prog_not_os2 : is_os2 (str "/bin/prog"%string) kernel1 = false.
Proof. vm_compute. reflexivity. Qed.

Lemma worn_not_os2 : is_os2 (str "/bin/worn"%string) kernel1 = false.
Proof. vm_compute. reflexivity. Qed.

(** ** Properties *)

Section ExecProperties.
Context `{BuildConfig} `{EntryTransfer} `{SegAllocator} `{NameSpace} `{Decompressor}.

(** C2.  Atomicity: a [sys_execve] that fails returns a negative value
    and leaves the kernel as it was but for memory: the task, its
    registers with [ds], its segments and their reference counts, the
    inodes, the file table and the console are those of before the call;
    the segments allocated on the way are released and the file is
    closed.  (For every program but an OS/2 one, which [execve_os2]
    loads.) *)
Theorem sys_execve_atomic filename sptr slen k r k' :
  is_os2 filename k = false -> inodes_ok k -> segs_ok k ->
  sys_execve filename sptr slen k = Some (r, k') ->
  r = 0 \/ (r < 0 /\ k' = k <| k_mem := k_mem k' |>).
Proof.
  intros Hos Hi Hs. unfold sys_execve.
  pose proof (sys_execve_flow_spec filename sptr slen k Hos Hi Hs) as Hf.
  destruct sys_execve_flow as [|r0]; [easy|]. intros ->.
  destruct Hf as [(e & m & [= -> ->] & He)|[]].
  - right. split; [exact He | now destruct k].
  - left. destruct (exec_finish_result inode filp (r_ds (t_regs (k_cur k))) mh l seg_code
                      seg_data sptr slen k6) as [E|[kf E]]; congruence.
Qed.

(** C7.  Reuse of the code segment: when a live task of the table runs
    the program, a [sys_execve] of it that succeeds leaves the calling
    process on the code segment of that task, and has allocated one
    segment only, for its data. *)
Theorem sys_execve_reuses filename sptr slen k k' inode s :
  is_os2 filename k = false -> inodes_ok k -> segs_ok k ->
  sys_execve filename sptr slen k = Some (0, k') ->
  option_map fst (namei filename) = Some inode ->
  exec_find_copy inode k = Some s ->
  mm_seg_code (t_mm (k_cur k')) = Some s /\
  exists seg_data k6,
    mm_seg_data (t_mm (k_cur k')) = Some seg_data /\
    seg_put s (seg_put seg_data (k_segs k6)) = k_segs k /\
    k_segs k' =
    seg_put_opt (mm_seg_data (t_mm (k_cur k)))
      (seg_put_opt (mm_seg_code (t_mm (k_cur k))) (k_segs k6)).
Proof.
  intros Hos Hi Hs E Hn Hcopy.
  destruct (sys_execve_success filename sptr slen k k' Hos Hi Hs E).
  pose proof Hopen as (_ & _ & Hc1 & Ho1 & Hs1 & _ & _ & _ & Hn1).
  assert (inode0 = inode) as -> by congruence.
  rewrite (exec_find_copy_frame inode k k2), Hcopy in Hcode;
    try (subst k2; rewrite <- ?Hc1, <- ?Ho1, <- ?Hs1; now explicit_kernel k1).
  injection Hcode as <- _ _. symmetry in Hfin.
  pose proof (exec_finish_segs _ _ _ _ _ _ _ _ _ _ _ Hfin) as Hk'.
  apply exec_finish_cur in Hfin as (tc & files & ino & cbase & dbase & Htc & Hcur).
  rewrite Hcur. unfold committed_task. setters. split; [reflexivity|].
  exists seg_data, k6. split; [reflexivity|]. split; [exact Hsegs|].
  rewrite Hk'. apply in_flight_cur in Hflight. now rewrite Hflight.
Qed.

(** C6.  Atomicity for OS/2 programs, where [sys_execve] hands the file
    it has opened to [execve_os2]: when the table [seg_mem] is empty at
    the call, a [sys_execve] that fails returns a negative value and
    leaves the kernel as it was but for memory, the console and the
    table, which is empty again. *)
Theorem sys_execve_os2_atomic filename sptr slen k r k' :
  is_os2 filename k = true -> inodes_ok k -> seg_mem_clear k ->
  sys_execve filename sptr slen k = Some (r, k') ->
  r = 0 \/
  (r < 0 /\ seg_mem_clear k' /\
   exists m c sm, k' = k <| k_mem := m |> <| k_con := c |> <| k_seg_mem := sm |>).
Proof.
  intros Hos Hi Hc. unfold sys_execve, sys_execve_flow.
  assert (Hab : forall r0, aborted k r0 -> r0 = Some (r, k') ->
            r < 0 /\ seg_mem_clear k' /\
            exists m c sm, k' = k <| k_mem := m |> <| k_con := c |> <| k_seg_mem := sm |>).
  { intros r0 (e & m & -> & He) [= <- <-]. split; [exact He|]. split; [exact Hc|].
    exists m, (k_con k), (k_seg_mem k). now destruct k. }
  pose proof (exec_open_spec filename k Hi) as Ho.
  destruct exec_open as [[inode filp] k1|r0]; cbn [flow_bind]; [|intros ->; right; eauto].
  destruct (exec_header_os2 filename k inode filp sptr slen k1 Hos Ho) as (r0 & -> & Hr).
  cbn [flow_bind]. intros ->. destruct Hr as [Ha|(k2 & Hf & Hs & E)]; [right; eauto|].
  destruct (rollback_in_flight filename k inode filp k2 Hf Hs) as [m2 Hk].
  symmetry in E. apply execve_os2_done in E.
  - destruct E as [[-> _]|(Hr & Hcl & m & c & sm & ->)]; [now left|]. right.
    split; [exact Hr|]. split; [exact Hcl|]. exists m, c, sm.
    rewrite ds_set_ds, rollback_set_ds, Hk. now destruct k.
  - assert (Hsm : k_seg_mem (set_ds (r_ds (t_regs (k_cur k))) k2) = k_seg_mem k)
      by (apply (f_equal k_seg_mem) in Hk; destruct k, k2; exact Hk).
    intros i. unfold seg_mem_get. rewrite Hsm. apply Hc.
Qed.

(** C4.  A [sys_execve] that returns 0 has committed the layout planned
    from the header of the file: the task holds a code and a data
    segment, [t_endseg] is the length planned, [t_enddata] the end of
    bss, [t_begstack] the argument block below the end of the segment,
    [t_minstack] the stack planned, the break is the end of bss rounded to
    an even address, [sp] is the argument block less the entry frame, and
    the inode is the program's. *)
Theorem sys_execve_commits filename sptr slen k k' :
  is_os2 filename k = false -> inodes_ok k -> segs_ok k ->
  sys_execve filename sptr slen k = Some (0, k') ->
  let mh := decode_mh (take 32 (exec_image filename k)) in
  exists esuph l seg_code seg_data,
    exec_layout mh esuph slen = Ok l /\
    let t' := k_cur k' in
    t_mm t' = {| mm_seg_code := Some seg_code; mm_seg_data := Some seg_data |} /\
    t_endseg t' = l_len l /\
    t_enddata t' = u16 (u16 (dseg mh) + u16 (bseg mh) + l_base_data l) /\
    t_begstack t' = exec_begstack (l_base_data l) (l_len l) slen /\
    t_minstack t' = l_stack l /\
    t_endbrk t' = exec_endbrk (t_enddata t') /\
    r_sp (t_regs t') = u16 (u16 (t_begstack t') - frame_size) /\
    option_map fst (namei filename) = t_inode t'.
Proof.
  intros Hos Hi Hs Hex mh0. apply sys_execve_success in Hex as []; try assumption.
  exists esuph, l, seg_code, seg_data. subst mh0. rewrite <- Hmh.
  split; [eapply exec_plan_layout, Hplan|].
  symmetry in Hfin.
  apply exec_finish_cur in Hfin as (tc & files & ino & cbase & dbase & Htc & ->).
  destruct Hopen as (_ & _ & _ & _ & _ & _ & _ & _ & Hn).
  unfold committed_task. setters. rewrite Htc. setters. conjs; try reflexivity. exact Hn.
Qed.

End ExecProperties.

Lemma sys_execve_atomic_witness :
  - EIO < 0 /\ worn_final = kernel1 <| k_mem := k_mem worn_final |>.
Proof.
  destruct (sys_execve_atomic (str "/bin/worn"%string) 0x100 20 kernel1 (- EIO) worn_final
              worn_not_os2 kernel1_inodes_ok kernel1_segs_ok worn_exec) as [E|E];
    [discriminate E | exact E].
Defined.

Lemma sys_execve_reuses_witness :
  mm_seg_code (t_mm (k_cur shared_final)) = Some 3%nat /\
  exists seg_data k6,
    mm_seg_data (t_mm (k_cur shared_final)) = Some seg_data /\
    seg_put 3%nat (seg_put seg_data (k_segs k6)) = k_segs kernel2 /\
    k_segs shared_final =
    seg_put_opt (mm_seg_data (t_mm (k_cur kernel2)))
      (seg_put_opt (mm_seg_code (t_mm (k_cur kernel2))) (k_segs k6)).
Proof.
  exact (sys_execve_reuses (str "/bin/prog"%string) 0x100 20 kernel2 shared_final 8%nat 3%nat
           (proj1 kernel2_ok) (proj1 (proj2 kernel2_ok)) (proj2 (proj2 kernel2_ok))
           shared_exec eq_refl eq_refl).
Defined.

(** The second process shares the code segment of the first: two
    references to it, one to each data segment, two to the inode. *)
Example shared_counts :
  seg_ref_count <$> k_segs kernel2 !! 3%nat = Some 1 /\
  seg_ref_count <$> k_segs shared_final !! 3%nat = Some 2 /\
  size (k_segs shared_final) = S (size (k_segs kernel2)) /\
  i_count <$> k_inodes shared_final !! 8%nat = Some 2.
Proof. vm_compute. repeat split; reflexivity. Qed.

Lemma sys_execve_os2_atomic_witness :
  - E2BIG < 0 /\ seg_mem_clear os2big_final /\
  exists m c sm, os2big_final = kernel1 <| k_mem := m |> <| k_con := c |> <| k_seg_mem := sm |>.
Proof.
  destruct (sys_execve_os2_atomic (str "/bin/os2big"%string) 0x100 20 kernel1 (- E2BIG)
              os2big_final os2big_is_os2 kernel1_inodes_ok kernel1_seg_mem_clear
              os2big_exec) as [E|E];
    [discriminate E | exact E].
Defined.

Lemma sys_execve_commits_witness :
  let mh := decode_mh (take 32 (exec_image (str "/bin/prog"%string) kernel1)) in
  exists esuph l seg_code seg_data,
    exec_layout mh esuph 20 = Ok l /\
    let t' := k_cur prog_final in
    t_mm t' = {| mm_seg_code := Some seg_code; mm_seg_data := Some seg_data |} /\
    t_endseg t' = l_len l /\
    t_enddata t' = u16 (u16 (dseg mh) + u16 (bseg mh) + l_base_data l) /\
    t_begstack t' = exec_begstack (l_base_data l) (l_len l) 20 /\
    t_minstack t' = l_stack l /\
    t_endbrk t' = exec_endbrk (t_enddata t') /\
    r_sp (t_regs t') = u16 (u16 (t_begstack t') - frame_size) /\
    option_map fst (namei (str "/bin/prog"%string)) = t_inode t'.
Proof.
  exact (sys_execve_commits (str "/bin/prog"%string) 0x100 20 kernel1 prog_final
           prog_not_os2 kernel1_inodes_ok kernel1_segs_ok prog_exec).
Defined.
